(* ===== verification/_CoqProject ===== *)
-Q . S2P
Prelude.v
Posix.v
BsDev.v
DeltaDev.v
DeltaProofs.v
UringDev.v
UringProofs.v
SnapshotChain.v
DeviceClaims.v
DdState.v
DdEngine.v
DdSteps.v
DdAccounting.v
DdCopy.v
DdProofs.v
DdSetup.v
DdSetupProofs.v
DdClaims.v
DdFindings.v
UbiBdev.v
UbiSnapshot.v
UbiProofs.v
UbiClaims.v
UbiSnapClaims.v
UbiRpc.v
UbiRpcClaims.v
