(* ===== verification/Prelude.v ===== *)
(** * Verification of bdev_ubi

    bdev_ubi is an SPDK block-device module. A ubi device is a thin-provisioned blob of
    a blobstore on a base block device, layered over a read-only image file and,
    optionally, over a snapshot file; a snapshot of a device is a shallow copy of its
    blob to a new snapshot file. The repository also has spdk_dd, a program that copies
    between files and block devices. The parts, and how they interact:

    - the image device ([src/lib/spdk_bs_dev_uring.c]) and the delta device
      ([src/lib/spdk_bs_dev_delta.c]) implement SPDK's [spdk_bs_dev]. The blobstore reads
      unallocated clusters from the image device, which looks in the snapshot file first;
      the shallow copy of a snapshot writes to the delta device, whose file is what the
      image device of a later ubi device reads;
    - the ubi module ([src/lib/bdev_ubi.c], [src/lib/bdev_ubi_io_channel.c]) creates,
      serves and destroys devices with chains of asynchronous blobstore calls;
    - snapshots ([src/lib/bdev_ubi_snapshot.c]) are another such chain, which creates a
      delta device and starts the shallow copy;
    - the JSON-RPC methods ([src/lib/bdev_ubi_rpc.c]) decode parameters, call the module
      and answer through its callbacks;
    - spdk_dd ([src/app/spdk_dd.c]) is independent of the rest.

    ** Files

    - [Prelude] (this file): record update notation, C integers, byte memory, the
      [res] monad whose [Undef] is undefined behaviour, shared tactics and lemmas.
    - [Posix]: files, descriptors and the calls the devices use, with injected failures
      and short transfers ([os_fault]). [BsDev]: SPDK's block-store device as a class;
      the io_uring ring of a channel (submission, kernel and completion queues) with the
      poller both devices have; and a client that reads, lets the kernel finish and polls
      in any order, whose accounting is proved from the laws [RingDevLaws].
    - [DeltaDev], [UringDev]: one definition per C function, in Modules [Delta] and
      [Uring], each ending in its instances of the two classes. [DeltaProofs],
      [UringProofs]: their lemmas and the laws. [SnapshotChain]: the two devices composed, a snapshot written and
      read back. [DeviceClaims]: the theorems on both devices.
    - [DdState], [DdEngine], [DdSteps]: the structures of spdk_dd, its copy engine
      function by function, and the step relation [dd_step] of the engine with an
      environment that performs and reports operations in any order; the bytes of the two
      targets are kept equal when they are one file or device ([same_target]), and a file
      opened with [O_APPEND] is written at its end. [DdSetup]: command
      line, [main]'s checks, [dd_run] and [dd_free]. [DdAccounting] (the count of
      operations in flight), [DdCopy] (the bytes), [DdProofs] (progress and the measure),
      [DdSetupProofs] (from the options to a well-formed job) are the lemmas;
      [DdClaims] and [DdFindings] the theorems. Runs are relative to the results a
      transfer may have ([xfer_run]): whole ones for a correct copy, any that leave no
      error behind for the lost ones.
    - [UbiBdev] (Module [Ubi]) and [UbiSnapshot] (Module [Snap]): the module's state is a
      heap of devices and contexts, the callbacks SPDK has still to run, and a log of what
      the module did, in which every blobstore call has its arguments; each callback is a
      function of that state, [deliver] dispatches them, [ubi_step] and
      [ubi_run] are the executions. [UbiProofs]: the tally of requests. [UbiClaims],
      [UbiSnapClaims]: the theorems.
    - [UbiRpc] (Module [Rpc]): request structures, decoder tables, handlers and callbacks
      over the module's state, with [rpc_run]; [UbiRpcClaims]: lemmas and theorems.

    ** What the theorems show

    - Devices: what is written to a delta device is what the image device reads, cluster
      by cluster over the image ([snapshot_roundtrip]); every read is owed or answered
      once in any order of submissions, completions and polls, and polling answers all;
      address translation loses nothing; the exact conditions of [is_range_valid] (by
      which a partial last cluster counts as zero) and of a write staying inside the
      cluster map. Where the code departs from what it means to do: snapshot data past the
      end of the image is not read, a failed submission is answered twice, a descriptor is
      leaked.
    - spdk_dd: from the options to the output bytes ([dd_run_copies]), with termination;
      transfers stay inside the output window; whatever fails, the program stops once
      and its counter of operations is exact; what the progress display prints. Then the
      inputs for which this is not so: refused first submissions, partial blocks with AIO,
      block sizes that do not divide the unit, lost transfers that go unnoticed
      ([dd_lost_transfers_exit_zero]), interrupted seeks, [--skip] past the end of a file,
      [--qd 0], a file copied onto itself, unknown flags, a channel that cannot be obtained.
    - ubi module and snapshots: creation and snapshot requests are answered exactly once
      over all interleavings; the full successful chains (formatting, loading, snapshot)
      with their calls, identifiers and effects; the error paths; orderly destruction; then a crash when the blob cannot be opened, the
      use after free of [ubi_destruct], a snapshot that stays in progress, a status
      that forgets a second copy of the device, and a missing image reported as a success.
    - RPC: every request is answered once ([rpc_answered_once], a simulation that carries
      the module's tally over to clients), options are passed on exactly, the saved
      configuration cannot be loaded, an overlong snapshot path overruns a buffer, and
      which strings are never freed.

    ** Parameters, bounds and fuel

    Code outside the repository is a parameter: [SpdkUtil] and [IoUring] for the devices,
    [DdEnv] and [DdSetupEnv] for spdk_dd, [UbiEnv] for SPDK's synchronous answers to the
    module (asynchronous ones are the replies of a step), [SpdkJson] with the laws
    [SpdkJsonLaws] for the decoder. Their answers are arbitrary unless a theorem says
    otherwise, and each hypothesis on them has a concrete instance in a witness.
    Machine integers are [Z] with the wrap-around of C's conversions written out ([u32],
    [u64], [i32]). Loops are structural where they can be; [unit_loop] has four rounds,
    after which the C loop breaks; [parse_flags_loop] has one round per character and one
    more, and a round consumes a character. Executions of the engines are relations, and
    termination of a copy is a bound on their length.

    ** Not modelled

    Log messages and the text around the numbers of the progress display; threads and pollers as such (a poller is a step that may be
    taken at any time); DMA memory and its alignment; the contents of blobs, which belong
    to SPDK's blobstore (I/O requests of a device are calls on its blob, defined and not
    followed further); the option help of spdk_dd; [src/app/vhost_ubi.c], which only
    starts SPDK; the test programs. Failures of [strdup] in spdk_dd's command line and of
    [io_getevents] in its step relation are left out, the latter as [dd_aio_poll] itself
    has it. *)

From stdpp Require Export base tactics list gmap strings numbers.
From Stdlib Require Export ZArith Lia Zbool.

Declare Scope ubi_scope.
Delimit Scope ubi_scope with ubi.
Open Scope ubi_scope.
#[local] Open Scope Z_scope.

(** ** Record update: [r <| f := v |>] and [r <| f ::= g |>]

    A record type opts in by giving its eta expansion as an instance of [Eta];
    the setter of a field is computed from it. *)

Class Eta (R : Type) := eta_expand : R → R.

Class Upd {R T : Type} (p : R → T) := upd : (T → T) → R → R.

Ltac solve_upd :=
  lazymatch goal with
  | |- @Upd ?R ?T ?p =>
      let e := constr:(_ : Eta R) in
      let b := eval hnf in (@eta_expand R e) in
      lazymatch eval pattern p in b with
      | ?g _ => exact (λ f : T → T, g (λ r : R, f (p r)))
      end
  end.

#[export] Hint Extern 1 (Upd _) => solve_upd : typeclass_instances.

Notation "r <| p ::= g |>" := (upd (p := p) g r)
  (at level 1, left associativity, p at level 99) : ubi_scope.
Notation "r <| p := v |>" := (upd (p := p) (λ _, v) r)
  (at level 1, left associativity, p at level 99) : ubi_scope.

(** ** C integers

    A [w]-bit unsigned value is an integer of [0, 2^w); arithmetic is done in
    [Z] and brought back with the casts below, which are C's conversions. *)

Definition U32_MOD : Z := 4294967296.
Definition U64_MOD : Z := 18446744073709551616.
Definition INT_MAX : Z := 2147483647.
Definition UINT64_MAX : Z := U64_MOD - 1.

Definition u32 (x : Z) : Z := x `mod` U32_MOD.
Definition u64 (x : Z) : Z := x `mod` U64_MOD.

(** Conversion of an out-of-range value to [int]: gcc reduces it modulo 2^32. *)
Definition i32 (x : Z) : Z :=
  let y := u32 x in if y <=? INT_MAX then y else y - U32_MOD.

(** Conversion to a signed 64-bit type ([off_t], [int64_t]). *)
Definition i64 (x : Z) : Z :=
  let y := u64 x in if y <? U64_MOD `div` 2 then y else y - U64_MOD.

Lemma u32_small x : 0 <= x < U32_MOD → u32 x = x.
Proof. apply Z.mod_small. Qed.

Lemma u64_small x : 0 <= x < U64_MOD → u64 x = x.
Proof. apply Z.mod_small. Qed.

Lemma u32_range x : 0 <= u32 x < U32_MOD.
Proof. apply Z.mod_pos_bound. reflexivity. Qed.

Lemma u64_range x : 0 <= u64 x < U64_MOD.
Proof. apply Z.mod_pos_bound. reflexivity. Qed.

Lemma i32_small x : 0 <= x <= INT_MAX → i32 x = x.
Proof.
  unfold INT_MAX. intros H. unfold i32.
  rewrite u32_small by (unfold U32_MOD; lia).
  unfold INT_MAX. destruct (Z.leb_spec x 2147483647); lia.
Qed.

Lemma i32_neg x : - INT_MAX <= x < 0 → i32 x = x.
Proof.
  unfold INT_MAX. intros H. unfold i32, u32, U32_MOD.
  rewrite <- (Z.mod_unique x 4294967296 (-1) (x + 4294967296)) by lia.
  unfold INT_MAX. destruct (Z.leb_spec (x + 4294967296) 2147483647); lia.
Qed.

(** [errno] values, as the code negates and returns them. *)
Definition ENOENT : Z := 2.
Definition EIO : Z := 5.
Definition ENXIO : Z := 6.
Definition EBADF : Z := 9.
Definition EAGAIN : Z := 11.
Definition ENOMEM : Z := 12.
Definition EINVAL : Z := 22.
Definition ENOSPC : Z := 28.
Definition ENOTSUP : Z := 95.

(** ** Outcomes: a value, or behaviour C leaves undefined *)

Inductive res (A : Type) : Type :=
| Ret (a : A)
| Undef.
Arguments Ret {A} a.
Arguments Undef {A}.

Definition res_bind {A B} (m : res A) (k : A → res B) : res B :=
  match m with Ret a => k a | Undef => Undef end.

Notation "'let*' x ':=' m 'in' k" := (res_bind m (λ x, k))
  (at level 10, x pattern, m at level 100, k at level 200)
  : ubi_scope.

Definition guard_res (b : bool) : res unit := if b then Ret tt else Undef.

Lemma res_bind_Ret {A B} (m : res A) (k : A → res B) b :
  res_bind m k = Ret b ↔ ∃ a, m = Ret a ∧ k a = Ret b.
Proof.
  destruct m as [a|]; simpl; split.
  - intros H. by exists a.
  - by intros (? & [= <-] & ?).
  - done.
  - by intros (? & ? & _).
Qed.

(** ** Byte arrays

    A block of memory or the content of a file is a function from byte offsets
    to bytes, so that the 512 MiB cluster map of the code keeps its real size.
    Two arrays are compared pointwise. *)

Abbreviation bytes := (Z → Z) (only parsing).

Definition arr_eq (f g : bytes) : Prop := ∀ i, f i = g i.
Infix "≐" := arr_eq (at level 70) : ubi_scope.

#[export] Instance arr_eq_equiv : Equivalence arr_eq.
Proof.
  split.
  - by intros f i.
  - by intros f g H i.
  - intros f g h H1 H2 i. by rewrite (H1 i), (H2 i).
Qed.

Definition zeroes : bytes := λ _, 0.

Definition in_range (lo n i : Z) : bool := (lo <=? i) && (i <? lo + n).

(** [n] bytes of [src] (from its offset 0) copied to offset [at_] of [dst]. *)
Definition blit (dst : bytes) (at_ n : Z) (src : bytes) : bytes :=
  λ i, if in_range at_ n i then src (i - at_) else dst i.

(** [a[k] = v] for an array of words. *)
Definition store (a : Z → Z) (k v : Z) : Z → Z :=
  λ i, if i =? k then v else a i.

(** The bytes of [a] from offset [off] on. *)
Definition slice (a : bytes) (off : Z) : bytes := λ i, a (off + i).

Lemma in_range_true lo n i : in_range lo n i = true ↔ lo <= i < lo + n.
Proof. unfold in_range. rewrite andb_true_iff, Z.leb_le, Z.ltb_lt. lia. Qed.

Lemma in_range_false lo n i : in_range lo n i = false ↔ i < lo ∨ lo + n <= i.
Proof. unfold in_range. rewrite andb_false_iff, Z.leb_gt, Z.ltb_ge. lia. Qed.

Lemma in_range_spec lo n i : BoolSpec (lo <= i < lo + n) (i < lo ∨ lo + n <= i) (in_range lo n i).
Proof.
  destruct (in_range lo n i) eqn:E; constructor.
  - by apply in_range_true.
  - by apply in_range_false.
Qed.

Lemma blit_in dst p n src i : p <= i < p + n → blit dst p n src i = src (i - p).
Proof. intros H. unfold blit. by rewrite (proj2 (in_range_true _ _ _) H). Qed.

Lemma blit_out dst p n src i : i < p ∨ p + n <= i → blit dst p n src i = dst i.
Proof. intros H. unfold blit. by rewrite (proj2 (in_range_false _ _ _) H). Qed.

Lemma store_eq a k v : store a k v k = v.
Proof. unfold store. by rewrite Z.eqb_refl. Qed.

Lemma store_ne a k v i : i ≠ k → store a k v i = a i.
Proof. unfold store. destruct (Z.eqb_spec i k); congruence. Qed.

#[export] Instance blit_proper : Proper (arr_eq ==> eq ==> eq ==> arr_eq ==> arr_eq) blit.
Proof.
  intros d d' Hd p _ <- n _ <- s s' Hs i. unfold blit.
  destruct (in_range p n i); [apply Hs | apply Hd].
Qed.

(** *** Words in memory: x86-64 keeps a [uint64_t] in little-endian order *)

Definition le_byte (w j : Z) : Z := Z.land (Z.shiftr w (8 * j)) 255.

(** The object representation of an array of [uint64_t]. *)
Definition words_bytes (a : Z → Z) : bytes := λ i, le_byte (a (i `div` 8)) (i `mod` 8).

(** The array of [uint64_t] that a block of memory holds. *)
Definition bytes_words (b : bytes) : Z → Z := λ k,
  b (8 * k) + 256 * (b (8 * k + 1) + 256 * (b (8 * k + 2) + 256 * (b (8 * k + 3) +
  256 * (b (8 * k + 4) + 256 * (b (8 * k + 5) + 256 * (b (8 * k + 6) +
  256 * b (8 * k + 7))))))).

Lemma le_byte_div w j : 0 <= j → le_byte w j = (w `div` 2 ^ (8 * j)) `mod` 256.
Proof.
  intros Hj. unfold le_byte.
  change 255 with (Z.ones 8). rewrite Z.land_ones, Z.shiftr_div_pow2 by lia. done.
Qed.

Lemma le_bytes_word w :
  0 <= w < U64_MOD →
  le_byte w 0 + 256 * (le_byte w 1 + 256 * (le_byte w 2 + 256 * (le_byte w 3 +
  256 * (le_byte w 4 + 256 * (le_byte w 5 + 256 * (le_byte w 6 +
  256 * le_byte w 7)))))) = w.
Proof.
  unfold U64_MOD. intros Hw. rewrite !le_byte_div by lia.
  change (2 ^ (8 * 0)) with 1. change (2 ^ (8 * 1)) with 256.
  change (2 ^ (8 * 2)) with 65536. change (2 ^ (8 * 3)) with 16777216.
  change (2 ^ (8 * 4)) with 4294967296. change (2 ^ (8 * 5)) with 1099511627776.
  change (2 ^ (8 * 6)) with 281474976710656.
  change (2 ^ (8 * 7)) with 72057594037927936.
  Z.div_mod_to_equations. lia.
Qed.

Lemma words_bytes_at a k j : 0 <= j < 8 → words_bytes a (8 * k + j) = le_byte (a k) j.
Proof.
  intros Hj. unfold words_bytes. f_equal.
  - f_equal. Z.div_mod_to_equations. lia.
  - Z.div_mod_to_equations. lia.
Qed.

(** Storing an array of words and loading it again gives the array back. *)
Lemma bytes_words_bytes a k : 0 <= a k < U64_MOD → bytes_words (words_bytes a) k = a k.
Proof.
  intros Ha. unfold bytes_words.
  rewrite <- (Z.add_0_r (8 * k)) at 1. rewrite !words_bytes_at by lia.
  by apply le_bytes_word.
Qed.

(** Loading word [k] only looks at its eight bytes. *)
Lemma bytes_words_ext b b' k :
  (∀ j, 0 <= j < 8 → b (8 * k + j) = b' (8 * k + j)) → bytes_words b k = bytes_words b' k.
Proof.
  intros H. unfold bytes_words. rewrite <- (Z.add_0_r (8 * k)) at 1 9.
  by rewrite !H by lia.
Qed.

#[export] Instance bytes_words_proper : Proper (arr_eq ==> arr_eq) bytes_words.
Proof. intros b b' H k. apply bytes_words_ext. intros j _. apply H. Qed.

#[export] Instance words_bytes_proper : Proper (arr_eq ==> arr_eq) words_bytes.
Proof. intros a a' H i. unfold words_bytes. by rewrite (H _). Qed.

(** ** Powers of two *)

Lemma shiftr_pow2 x k : 0 <= k → Z.shiftr x k = x `div` 2 ^ k.
Proof. apply Z.shiftr_div_pow2. Qed.

Lemma shiftl_pow2 x k : 0 <= k → Z.shiftl x k = x * 2 ^ k.
Proof. apply Z.shiftl_mul_pow2. Qed.

Lemma land_mask x k : 0 <= k → Z.land x (2 ^ k - 1) = x `mod` 2 ^ k.
Proof. intros Hk. rewrite <- Z.land_ones by done. by rewrite Z.ones_equiv, Z.sub_1_r. Qed.

(** ** Automation *)

Create HintDb ubi discriminated.
Create Rewrite HintDb ubi.
#[export] Hint Resolve u32_range u64_range : ubi.
#[export] Hint Rewrite store_eq : ubi.

(** Case analysis on every boolean comparison of [Z] in the goal. *)
Ltac zcases :=
  repeat match goal with
  | |- context [Z.eqb ?a ?b] => destruct (Z.eqb_spec a b)
  | |- context [Z.ltb ?a ?b] => destruct (Z.ltb_spec a b)
  | |- context [Z.leb ?a ?b] => destruct (Z.leb_spec a b)
  | |- context [in_range ?a ?b ?c] => destruct (in_range_spec a b c)
  end; simpl; try done; try lia.

(** Invert [m = Ret _] hypotheses built from [let*]. *)
Ltac inv_res :=
  repeat match goal with
  | H : res_bind ?m ?k = Ret ?b |- _ =>
      let a := fresh "a" in let H1 := fresh "Hm" in let H2 := fresh "Hk" in
      apply res_bind_Ret in H as (a & H1 & H2)
  | H : Ret _ = Ret _ |- _ => injection H; clear H; intros; subst
  | H : Undef = Ret _ |- _ => discriminate H
  | H : guard_res ?b = Ret ?a |- _ =>
      destruct b eqn:?; [clear H | discriminate H]
  end.
