(* ===== verification/Posix.v ===== *)
(** * Files, descriptors and the system calls the library makes

    The C library and the kernel's file interface, as far as
    [spdk_bs_dev_delta.c] and [spdk_bs_dev_uring.c] use them: [open], [read],
    [write], [lseek], [close], [stat] and the positioned read that an io_uring
    read request performs.

    A file is its size and its content; the bytes past its size are holes and
    read as zero. A call may fail: the fault plan [os_fault] gives, for each call
    in turn, whether it succeeds, fails with an [errno], or (for [read] and
    [write]) transfers fewer bytes than asked. Theorems about errors hold for
    every plan; theorems about success name the calls that must not fail. *)

From S2P Require Import Prelude.
#[local] Open Scope Z_scope.

(** ** Open flags (Linux, x86-64) *)

Definition O_RDONLY : Z := 0.
Definition O_RDWR : Z := 2.
Definition O_CREAT : Z := 64.
Definition O_NOCTTY : Z := 256.
Definition O_TRUNC : Z := 512.
Definition O_APPEND : Z := 1024.
Definition O_NONBLOCK : Z := 2048.
Definition O_DSYNC : Z := 4096.
Definition O_DIRECT : Z := 16384.
Definition O_DIRECTORY : Z := 65536.
Definition O_NOFOLLOW : Z := 131072.
Definition O_NOATIME : Z := 262144.
Definition O_SYNC : Z := 1052672.

Definition has_flag (flags bit : Z) : bool := negb (Z.land flags bit =? 0).

(** The largest transfer of one [read] or [write] on Linux. *)
Definition MAX_RW_COUNT : Z := 2147479552.

(** ** State *)

Record file := mkFile { f_size : Z; f_byte : bytes }.

Record ofd := mkOfd { ofd_path : string; ofd_pos : Z; ofd_flags : Z }.

Inductive fault :=
| NoFault
| Fail (errno : Z)
| Short (n : Z).

Record os := mkOs {
  os_files : gmap string file;
  os_fds : gmap Z ofd;
  os_next_fd : Z;
  os_errno : Z;
  os_fault : nat → fault;
  os_clock : nat;
}.

#[export] Instance eta_ofd : Eta ofd := λ r, mkOfd (ofd_path r) (ofd_pos r) (ofd_flags r).
#[export] Instance eta_os : Eta os := λ r,
  mkOs (os_files r) (os_fds r) (os_next_fd r) (os_errno r) (os_fault r) (os_clock r).

Definition empty_file : file := mkFile 0 zeroes.

(** The bytes of a file past its end are holes. *)
Definition file_wf (f : file) : Prop :=
  0 <= f_size f ∧ ∀ i, f_size f <= i → f_byte f i = 0.

(** Overwrite [n] bytes at offset [p], growing the file when needed. *)
Definition file_write (f : file) (p n : Z) (src : bytes) : file :=
  mkFile (if 0 <? n then Z.max (f_size f) (p + n) else f_size f) (blit (f_byte f) p n src).

(** The bytes a read of [n] bytes at offset [p] finds before the end of the file. *)
Definition file_avail (f : file) (p n : Z) : Z := Z.max 0 (Z.min n (f_size f - p)).

(** ** System calls *)

Definition fault_now (o : os) : fault := os_fault o (os_clock o).

Definition tick (o : os) : os := o <| os_clock ::= S |>.

Definition fail_with (e : Z) (o : os) : Z * os := (-1, o <| os_errno := e |>).

(** How many of [n] bytes a transfer moves under fault [flt]. *)
Definition transfer (flt : fault) (n : Z) : Z :=
  let n := Z.min n MAX_RW_COUNT in
  match flt with Short m => Z.max 0 (Z.min n m) | _ => n end.

Definition sys_open (path : string) (flags : Z) (o : os) : Z * os :=
  let flt := fault_now o in
  let o := tick o in
  match flt with
  | Fail e => fail_with e o
  | _ =>
    let fd := os_next_fd o in
    let opened f := (fd, o <| os_files ::= <[path := f]> |>
                           <| os_fds ::= <[fd := mkOfd path 0 flags]> |>
                           <| os_next_fd ::= Z.succ |>) in
    match os_files o !! path with
    | Some f => opened (if has_flag flags O_TRUNC then empty_file else f)
    | None => if has_flag flags O_CREAT then opened empty_file else fail_with ENOENT o
    end
  end.

Definition sys_close (fd : Z) (o : os) : Z * os :=
  let o := tick o in
  match os_fds o !! fd with
  | None => fail_with EBADF o
  | Some _ => (0, o <| os_fds ::= delete fd |>)
  end.

(** The open file description and the file behind descriptor [fd]. *)
Definition fd_file (fd : Z) (o : os) : option (ofd * file) :=
  d ← os_fds o !! fd;
  f ← os_files o !! ofd_path d;
  Some (d, f).

Definition writable (d : ofd) : bool := has_flag (ofd_flags d) O_RDWR.

(** [read(fd, buf, n)]: the return value and the new content of the buffer. *)
Definition sys_read (fd n : Z) (buf : bytes) (o : os) : Z * bytes * os :=
  let flt := fault_now o in
  let o := tick o in
  match flt with
  | Fail e => (-1, buf, o <| os_errno := e |>)
  | _ =>
    match fd_file fd o with
    | None => (-1, buf, o <| os_errno := EBADF |>)
    | Some (d, f) =>
      let got := transfer flt (file_avail f (ofd_pos d) n) in
      (got, blit buf 0 got (slice (f_byte f) (ofd_pos d)),
       o <| os_fds ::= <[fd := d <| ofd_pos := ofd_pos d + got |>]> |>)
    end
  end.

(** [write(fd, buf, n)]. *)
Definition sys_write (fd n : Z) (buf : bytes) (o : os) : Z * os :=
  let flt := fault_now o in
  let o := tick o in
  match flt with
  | Fail e => fail_with e o
  | _ =>
    match fd_file fd o with
    | None => fail_with EBADF o
    | Some (d, f) =>
      if writable d then
        let put := transfer flt n in
        (put, o <| os_files ::= <[ofd_path d := file_write f (ofd_pos d) put buf]> |>
                <| os_fds ::= <[fd := d <| ofd_pos := ofd_pos d + put |>]> |>)
      else fail_with EBADF o
    end
  end.

Inductive whence := SEEK_SET | SEEK_CUR.

(** [lseek(fd, off, whence)]: the new position, or -1. *)
Definition sys_lseek (fd off : Z) (w : whence) (o : os) : Z * os :=
  let flt := fault_now o in
  let o := tick o in
  match flt with
  | Fail e => fail_with e o
  | _ =>
    match os_fds o !! fd with
    | None => fail_with EBADF o
    | Some d =>
      let p := match w with SEEK_SET => off | SEEK_CUR => ofd_pos d + off end in
      if p <? 0 then fail_with EINVAL o
      else (p, o <| os_fds ::= <[fd := d <| ofd_pos := p |>]> |>)
    end
  end.

(** [stat(path, &st)]: the return value and [st.st_size]. *)
Definition sys_stat (path : string) (o : os) : Z * Z * os :=
  let flt := fault_now o in
  let o := tick o in
  match flt with
  | Fail e => (-1, 0, o <| os_errno := e |>)
  | _ =>
    match os_files o !! path with
    | None => (-1, 0, o <| os_errno := ENOENT |>)
    | Some f => (0, f_size f, o)
    end
  end.

(** What a positioned read of [n] bytes at [off] returns and leaves in the buffer. *)
Definition pread (fd n off : Z) (buf : bytes) (o : os) : Z * bytes :=
  match fd_file fd o with
  | None => (- EBADF, buf)
  | Some (_, f) =>
    let got := Z.min MAX_RW_COUNT (file_avail f off n) in
    (got, blit buf 0 got (slice (f_byte f) off))
  end.

(** ** Facts *)

Definition no_faults (o : os) : Prop := ∀ k, os_fault o k = NoFault.

(** A state in which every call succeeds that its arguments allow. *)
Definition healthy (o : os) : Prop := no_faults o ∧ 0 <= os_next_fd o.

Lemma fault_now_healthy o : healthy o → fault_now o = NoFault.
Proof. intros [H _]. apply H. Qed.

Lemma transfer_NoFault n : 0 <= n <= MAX_RW_COUNT → transfer NoFault n = n.
Proof. unfold transfer. lia. Qed.

Lemma file_write_wf f p n src : file_wf f → 0 <= p → 0 <= n → file_wf (file_write f p n src).
Proof.
  intros [Hs Hh] Hp Hn. unfold file_write. split; simpl; zcases.
  - intros i Hi. rewrite blit_out by lia. apply Hh. lia.
  - intros i Hi. rewrite blit_out by lia. by apply Hh.
Qed.

Lemma empty_file_wf : file_wf empty_file.
Proof. done. Qed.

(** Reading back what was written, in full. *)
Lemma pread_after_write fd d f p n src off m buf o :
  fd_file fd o = Some (d, file_write f p n src) →
  0 < n → 0 <= p → p <= off → off + m <= p + n → 0 <= m <= MAX_RW_COUNT →
  pread fd m off buf o = (m, blit buf 0 m (slice (blit (f_byte f) p n src) off)).
Proof.
  intros Hfd Hn Hp Hoff Hend Hm. unfold pread. rewrite Hfd. simpl.
  unfold file_avail. simpl. destruct (Z.ltb_spec 0 n); [|lia].
  f_equal; [lia|]. f_equal. lia.
Qed.
#[export] Hint Resolve file_write_wf empty_file_wf : ubi.

(** *** Calls that succeed

    One lemma per call: from a descriptor that refers to a file, in a state whose
    plan has no faults, the call returns what its manual page says. *)

Lemma fd_file_Some fd o d f :
  fd_file fd o = Some (d, f) ↔ os_fds o !! fd = Some d ∧ os_files o !! ofd_path d = Some f.
Proof.
  unfold fd_file. destruct (os_fds o !! fd) as [d'|] eqn:E; simpl; [|naive_solver].
  destruct (os_files o !! ofd_path d') eqn:E'; simpl; naive_solver.
Qed.

Lemma fd_file_tick fd o : fd_file fd (tick o) = fd_file fd o.
Proof. done. Qed.

Lemma sys_lseek_ok fd off w o d f :
  healthy o → fd_file fd o = Some (d, f) →
  let p := match w with SEEK_SET => off | SEEK_CUR => ofd_pos d + off end in
  0 <= p →
  ∃ o', sys_lseek fd off w o = (p, o') ∧ healthy o' ∧
        fd_file fd o' = Some (d <| ofd_pos := p |>, f) ∧ os_files o' = os_files o.
Proof.
  intros Hnf [Hd Hf]%fd_file_Some p Hp. unfold sys_lseek.
  rewrite fault_now_healthy by done. simpl. rewrite Hd. fold p.
  destruct (Z.ltb_spec p 0); [lia|]. eexists. split; [done|]. split; [by destruct Hnf|]. split; [|done].
  apply fd_file_Some. simpl. by rewrite lookup_insert_eq.
Qed.

Lemma sys_write_ok fd n buf o d f :
  healthy o → fd_file fd o = Some (d, f) → writable d = true → 0 <= n <= MAX_RW_COUNT →
  let f' := file_write f (ofd_pos d) n buf in
  ∃ o', sys_write fd n buf o = (n, o') ∧ healthy o' ∧
        fd_file fd o' = Some (d <| ofd_pos := ofd_pos d + n |>, f') ∧
        os_files o' = <[ofd_path d := f']> (os_files o).
Proof.
  intros Hnf Hfd Hw Hn f'. unfold sys_write.
  rewrite fault_now_healthy, fd_file_tick, Hfd, Hw, transfer_NoFault by done.
  eexists. split; [done|]. split; [by destruct Hnf|]. split; [|done].
  apply fd_file_Some. simpl. by rewrite !lookup_insert_eq.
Qed.

Lemma sys_read_ok fd n buf o d f :
  healthy o → fd_file fd o = Some (d, f) → 0 <= n <= MAX_RW_COUNT →
  let got := file_avail f (ofd_pos d) n in
  ∃ o', sys_read fd n buf o = (got, blit buf 0 got (slice (f_byte f) (ofd_pos d)), o') ∧
        healthy o' ∧ os_files o' = os_files o ∧
        os_fds o' !! fd = Some (d <| ofd_pos := ofd_pos d + got |>).
Proof.
  intros Hnf Hfd Hn got. unfold sys_read.
  rewrite fault_now_healthy, fd_file_tick, Hfd by done.
  rewrite transfer_NoFault by (unfold file_avail; lia).
  eexists. split; [done|]. split; [by destruct Hnf|]. split; [done|].
  simpl. by rewrite lookup_insert_eq.
Qed.

Lemma sys_close_ok fd o d :
  healthy o → os_fds o !! fd = Some d →
  ∃ o', sys_close fd o = (0, o') ∧ healthy o' ∧ os_files o' = os_files o ∧
        os_fds o' = delete fd (os_fds o).
Proof.
  intros Hnf Hd. unfold sys_close. simpl. rewrite Hd.
  eexists. split; [done|]. split; [by destruct Hnf|]. done.
Qed.

(** Opening a file that is there, without truncating it. *)
Lemma sys_open_ok path flags o f :
  healthy o → os_files o !! path = Some f → has_flag flags O_TRUNC = false →
  ∃ o', sys_open path flags o = (os_next_fd o, o') ∧ healthy o' ∧
        fd_file (os_next_fd o) o' = Some (mkOfd path 0 flags, f) ∧
        os_files o' = os_files o ∧ os_next_fd o' = os_next_fd o + 1 ∧
        os_fds o' = <[os_next_fd o := mkOfd path 0 flags]> (os_fds o).
Proof.
  intros Hnf Hf Ht. unfold sys_open. rewrite fault_now_healthy by done. simpl.
  rewrite Hf, Ht. eexists. split; [done|].
  split; [destruct Hnf; split; simpl; [done|lia]|]. repeat split.
  - apply fd_file_Some. simpl. by rewrite !lookup_insert_eq.
  - simpl. by rewrite insert_id.
Qed.

(** Opening with [O_CREAT] a file that may not be there. *)
Lemma sys_open_creat_ok path flags o :
  healthy o → has_flag flags O_CREAT = true → has_flag flags O_TRUNC = false →
  let f := default empty_file (os_files o !! path) in
  ∃ o', sys_open path flags o = (os_next_fd o, o') ∧ healthy o' ∧
        fd_file (os_next_fd o) o' = Some (mkOfd path 0 flags, f) ∧
        os_files o' = <[path := f]> (os_files o).
Proof.
  intros Hnf Hc Ht f. unfold sys_open. rewrite fault_now_healthy by done. simpl.
  unfold f. destruct (os_files o !! path) as [g|] eqn:E; simpl; rewrite ?Ht, ?Hc.
  all: eexists; split; [done|]; split; [destruct Hnf; split; simpl; [done|lia]|]; split; [|done].
  all: apply fd_file_Some; simpl; by rewrite !lookup_insert_eq.
Qed.
