(* ===== verification/BsDev.v ===== *)
(** * What the two block-store devices share

    [spdk_bs_dev_delta.c] (the file a snapshot is copied into) and
    [spdk_bs_dev_uring.c] (the image, overlaid with such a file) implement SPDK's
    [struct spdk_bs_dev] for the blobstore. This file has

    - the requests and callbacks they exchange with the blobstore and the ring;
    - the cluster map limits of [bdev_ubi_internal.h];
    - the ring of a channel and the polling loop both devices contain;
    - [BsDev], the interface the blobstore drives both devices through, and
      [RingDev] with [RingDevLaws], what it promises about reads;
    - [delta_format], the on-disk format that the delta device writes and the
      uring device reads: the interface between the two. *)

From S2P Require Import Prelude Posix.
#[local] Open Scope Z_scope.

(** ** Limits ([bdev_ubi_internal.h]) *)

Definition UBI_PATH_LEN : Z := 1024.
Definition MAX_CLUSTERS : Z := 1024 * 1024 * 64.

(** [sizeof(uint64_t) * MAX_CLUSTERS], the size of [cluster_map] in bytes. *)
Definition MAP_BYTES : Z := 8 * MAX_CLUSTERS.

(** The largest file offset ([off_t]). *)
Definition OFF_MAX : Z := 9223372036854775807.

(** [lia] with the numeric limits unfolded. *)
Ltac clia :=
  unfold OFF_MAX, MAP_BYTES, MAX_CLUSTERS, UBI_PATH_LEN, MAX_RW_COUNT, INT_MAX, UINT64_MAX,
    U64_MOD, U32_MOD in *; lia.

(** ** Requests *)

(** [struct spdk_bs_dev_cb_args], identified by a number. *)
Definition cb_args := nat.

(** A prepared submission-queue entry of a read; [sqe_data] is its user data. *)
Record sqe := mkSqe { sqe_fd : Z; sqe_len : Z; sqe_off : Z; sqe_data : cb_args }.

(** What a device does besides changing its own state. *)
Inductive action :=
| Complete (cb : cb_args) (bserrno : Z)   (* cb_args->cb_fn(channel, cb_arg, bserrno) *)
| RingInit (entries : Z)
| RingExit
| PollerRegister
| PollerUnregister
| FreeChannel                             (* free(ch) *)
| IoDeviceRegister
| IoDeviceUnregister.

(** The part of [struct spdk_bs_dev] the code reads and writes. *)
Record spdk_bs_dev := mkBsDev { blockcnt : Z; blocklen : Z }.

(** ** The ring

    A [struct io_uring] as the devices use it: the entries prepared and not yet
    submitted, those in the kernel, and the completions not yet seen, oldest first. *)

Record cqe := mkCqe { cqe_data : cb_args; cqe_res : Z }.

Record ring := mkRing { sq : list sqe; kq : list sqe; cq : list cqe }.

#[export] Instance eta_ring : Eta ring := λ r, mkRing (sq r) (kq r) (cq r).

Definition empty_ring : ring := mkRing [] [] [].

(** [io_uring_get_sqe] on a ring of [entries] entries and the preparation of the entry
    it returns: [NULL] when the submission queue is full, and then the preparation is
    undefined. *)
Definition io_uring_prep (entries : Z) (e : sqe) (r : ring) : res ring :=
  let* _ := guard_res (Z.of_nat (length (sq r)) <? entries) in
  Ret (r <| sq ::= λ l, l ++ [e] |>).

(** [io_uring_submit], answering [ret]: the number of entries taken, oldest first, or
    an error, after which all of them are still queued. *)
Definition io_uring_submit (ret : Z) (r : ring) : ring :=
  if ret <? 0 then r
  else r <| kq ::= λ l, l ++ take (Z.to_nat ret) (sq r) |> <| sq ::= drop (Z.to_nat ret) |>.

(** The kernel has finished an entry with result [res]. *)
Definition post_cqe (l1 : list sqe) (e : sqe) (l2 : list sqe) (res : Z) (r : ring) : ring :=
  r <| kq := l1 ++ l2 |> <| cq ::= λ l, l ++ [mkCqe (sqe_data e) res] |>.

(** [io_uring_peek_batch_cqe(ring, cqe, count)]: an error, or the oldest completions,
    which stay in the ring. *)
Definition io_uring_peek_batch_cqe (fail : option Z) (count : nat) (r : ring) : Z * list cqe :=
  match fail with
  | Some e => (e, [])
  | None => let batch := take count (cq r) in (Z.of_nat (length batch), batch)
  end.

Definition io_uring_cqe_seen (r : ring) : ring := r <| cq ::= tail |>.

(** ** Polling: [bs_dev_delta_poll] and [bs_dev_uring_poll] have the same body. *)

Definition SPDK_POLLER_IDLE : Z := 0.
Definition SPDK_POLLER_BUSY : Z := 1.

Fixpoint poll_cqes (batch : list cqe) (r : ring) : ring * list action :=
  match batch with
  | [] => (r, [])
  | c :: batch =>
      let act := if cqe_res c <? 0 then Complete (cqe_data c) (- EIO) else Complete (cqe_data c) 0 in
      let '(r, acts) := poll_cqes batch (io_uring_cqe_seen r) in
      (r, act :: acts)
  end.

Definition ring_poll (fail : option Z) (r : ring) : Z * ring * list action :=
  let '(ret, batch) := io_uring_peek_batch_cqe fail 64 r in
  if ret =? - EAGAIN then (SPDK_POLLER_BUSY, r, [])
  else if ret <? 0 then (SPDK_POLLER_BUSY, r, [])
  else
    let '(r, acts) := poll_cqes batch r in
    (SPDK_POLLER_BUSY, r, acts).

(** The callbacks among a list of actions, in order. *)
Fixpoint completions (acts : list action) : list (cb_args * Z) :=
  match acts with
  | [] => []
  | Complete cb rc :: acts => (cb, rc) :: completions acts
  | _ :: acts => completions acts
  end.

Lemma completions_app a b : completions (a ++ b) = completions a ++ completions b.
Proof. induction a as [|[] a IH]; simpl; by rewrite ?IH. Qed.

(** The callback a completion leads to. *)
Definition outcome (c : cqe) : cb_args * Z := (cqe_data c, if cqe_res c <? 0 then - EIO else 0).

Lemma poll_cqes_spec l1 l2 r :
  cq r = l1 ++ l2 →
  ∃ acts, poll_cqes l1 r = (r <| cq := l2 |>, acts) ∧ completions acts = outcome <$> l1.
Proof.
  revert r. induction l1 as [|c l1 IH]; intros r Hr; simpl in *.
  { exists []. split; [|done]. destruct r. simpl in *. by subst. }
  destruct (IH (io_uring_cqe_seen r)) as (acts & -> & Hacts); [simpl; by rewrite Hr|].
  eexists. split; [done|]. unfold outcome at 1. destruct (cqe_res c <? 0); simpl; by rewrite Hacts.
Qed.

(** One round of the poller takes the 64 oldest completions off the ring. *)
Lemma ring_poll_spec r :
  ∃ acts, ring_poll None r = (SPDK_POLLER_BUSY, r <| cq ::= drop 64 |>, acts) ∧
          completions acts = outcome <$> take 64 (cq r).
Proof.
  unfold ring_poll. cbn [io_uring_peek_batch_cqe].
  destruct (poll_cqes_spec (take 64 (cq r)) (drop 64 (cq r)) r) as (acts & Hp & Ha);
    [by rewrite take_drop|].
  destruct (Z.eqb_spec (Z.of_nat (length (take 64 (cq r)))) (- EAGAIN)); [unfold EAGAIN in *; lia|].
  destruct (Z.ltb_spec (Z.of_nat (length (take 64 (cq r)))) 0); [lia|].
  rewrite Hp. by exists acts.
Qed.

Lemma ring_poll_failed e r : e < 0 → ring_poll (Some e) r = (SPDK_POLLER_BUSY, r, []).
Proof.
  intros He. unfold ring_poll. simpl. destruct (e =? - EAGAIN); [done|].
  by destruct (Z.ltb_spec e 0); [|lia].
Qed.

(** ** The interface to the blobstore

    [D] is the device, [CH] its per-thread channel. An operation takes the
    channel and the operating system's state, and returns both with the actions
    it took; [Undef] is an out-of-bounds access or another undefined behaviour. *)

Record iovec := mkIovec { iov_len : Z }.

Class BsDev (D CH : Type) := {
  dev_base : D → spdk_bs_dev;
  dev_read : D → CH → os → Z (* submit result *) → Z (* lba *) → Z (* lba_count *) →
             cb_args → res (CH * list action);
  dev_readv : D → CH → os → Z → list iovec → Z → Z → cb_args → res (CH * list action);
  dev_write : D → CH → os → bytes → Z → Z → cb_args → res (CH * os * list action);
  dev_writev : D → CH → os → list iovec → Z → Z → cb_args → res (CH * os * list action);
  dev_flush : D → cb_args → list action;
  dev_write_zeroes : D → Z → Z → cb_args → list action;
  dev_unmap : D → Z → Z → cb_args → list action;
  dev_copy : D → Z → Z → Z → cb_args → list action;
  dev_get_base_bdev : D → option nat;
  dev_is_range_valid : D → Z → Z → res bool;
  dev_is_zeroes : D → Z → Z → res bool;
  dev_translate_lba : D → Z → bool * Z;
  dev_is_degraded : D → bool;
}.

(** *** Reads through a ring

    A channel has a ring, on which its reads queue entries and which its poller
    empties. [owed] are the requests a ring still has to answer. *)

Definition owed (r : ring) : list cb_args := (sqe_data <$> sq r) ++ (sqe_data <$> kq r) ++ (cqe_data <$> cq r).

Class RingDev (D CH : Type) `{BsDev D CH} := {
  dev_ring : CH → ring;
  dev_put_ring : ring → CH → CH;
  dev_poll : option Z → CH → Z * CH * list action;
}.

(** What a device promises: a read the ring does not refuse is owed or answered once,
    and the poller works on the ring alone. *)
Class RingDevLaws (D CH : Type) `{RingDev D CH} : Prop := {
  law_put_ring r ch : dev_ring (dev_put_ring r ch) = r;
  law_read d ch o ret lba n cb ch' acts :
    0 <= ret → dev_read d ch o ret lba n cb = Ret (ch', acts) →
    owed (dev_ring ch') ++ (completions acts).*1 ≡ₚ cb :: owed (dev_ring ch);
  law_readv d ch o ret iov lba n cb ch' acts :
    0 <= ret → dev_readv d ch o ret iov lba n cb = Ret (ch', acts) →
    owed (dev_ring ch') ++ (completions acts).*1 ≡ₚ cb :: owed (dev_ring ch);
  law_poll fail ch :
    dev_poll fail ch = let '(rc, r, acts) := ring_poll fail (dev_ring ch) in (rc, dev_put_ring r ch, acts);
}.

Lemma owed_submit ret r : owed (io_uring_submit ret r) ≡ₚ owed r.
Proof.
  unfold io_uring_submit, owed. destruct (ret <? 0); [done|]. simpl.
  rewrite <- (take_drop (Z.to_nat ret) (sq r)) at 3. rewrite !fmap_app. solve_Permutation.
Qed.

Lemma owed_prep entries e r r' : io_uring_prep entries e r = Ret r' → owed r' ≡ₚ sqe_data e :: owed r.
Proof.
  unfold io_uring_prep, owed. intros Hp. inv_res. simpl. rewrite fmap_app. simpl. solve_Permutation.
Qed.

(** *** A client of the interface

    The blobstore issues reads, the kernel finishes entries and the poller runs, in any
    order. [ok] is what is known of the answers of [io_uring_submit]. *)

Record io_run_state (CH : Type) := mkRun {
  chan : CH;
  asked : list cb_args;               (* the requests so far, newest first *)
  called : list (cb_args * Z);        (* the callbacks so far, newest first *)
}.
Arguments mkRun {CH} _ _ _.
Arguments chan {CH} _.
Arguments asked {CH} _.
Arguments called {CH} _.

Section Client.
Context {D CH : Type} `{RingDev D CH} (d : D) (o : os) (ok : Z → Prop).
Implicit Types s : io_run_state CH.

Inductive io_step : io_run_state CH → io_run_state CH → Prop :=
| io_read s ret lba n cb ch acts :
    ok ret → dev_read d (chan s) o ret lba n cb = Ret (ch, acts) →
    io_step s (mkRun ch (cb :: asked s) (reverse (completions acts) ++ called s))
| io_readv s ret iov lba n cb ch acts :
    ok ret → dev_readv d (chan s) o ret iov lba n cb = Ret (ch, acts) →
    io_step s (mkRun ch (cb :: asked s) (reverse (completions acts) ++ called s))
| io_kernel s l1 e l2 res :
    kq (dev_ring (chan s)) = l1 ++ e :: l2 →
    io_step s (mkRun (dev_put_ring (post_cqe l1 e l2 res (dev_ring (chan s))) (chan s)) (asked s) (called s))
| io_poll s fail rc ch acts :
    (∀ e, fail = Some e → e < 0) → dev_poll fail (chan s) = (rc, ch, acts) →
    io_step s (mkRun ch (asked s) (reverse (completions acts) ++ called s)).

Context `{!RingDevLaws D CH} (Hok : ∀ ret, ok ret → 0 <= ret).

(** Every request is owed or has been answered, once. *)
Definition accounted s : Prop := owed (dev_ring (chan s)) ++ (called s).*1 ≡ₚ asked s.

Lemma owed_poll fail ch rc ch' acts :
  (∀ e, fail = Some e → e < 0) → dev_poll fail ch = (rc, ch', acts) →
  owed (dev_ring ch') ++ (completions acts).*1 ≡ₚ owed (dev_ring ch).
Proof.
  intros Hf Hp. rewrite law_poll in Hp. destruct fail as [e|].
  - rewrite ring_poll_failed in Hp by auto. injection Hp as _ <- <-. rewrite law_put_ring. simpl.
    by rewrite app_nil_r.
  - destruct (ring_poll_spec (dev_ring ch)) as (acts' & Heq & Hc). rewrite Heq in Hp.
    injection Hp as _ <- <-. rewrite law_put_ring, Hc. unfold owed. simpl.
    rewrite <- (take_drop 64 (cq (dev_ring ch))) at 3. rewrite !fmap_app, <- list_fmap_compose.
    change (fst ∘ outcome) with cqe_data. solve_Permutation.
Qed.

Lemma io_step_accounted s s' : io_step s s' → accounted s → accounted s'.
Proof.
  unfold accounted. intros Hs Ha.
  destruct Hs as [s ret lba n cb ch acts Hr Hd|s ret iov lba n cb ch acts Hr Hd|s l1 e l2 res Hk|
                  s fail rc ch acts Hf Hp]; simpl.
  - rewrite fmap_app, fmap_reverse, reverse_Permutation, app_assoc, (law_read d _ _ _ _ _ _ _ _ (Hok _ Hr) Hd).
    simpl. by rewrite Ha.
  - rewrite fmap_app, fmap_reverse, reverse_Permutation, app_assoc, (law_readv d _ _ _ _ _ _ _ _ _ (Hok _ Hr) Hd).
    simpl. by rewrite Ha.
  - rewrite law_put_ring, <- Ha. unfold owed. rewrite Hk. simpl. rewrite !fmap_app. simpl. solve_Permutation.
  - rewrite fmap_app, fmap_reverse, reverse_Permutation, app_assoc, (owed_poll _ _ _ _ _ Hf Hp). done.
Qed.

Lemma io_run_accounted s s' : rtc io_step s s' → accounted s → accounted s'.
Proof. induction 1; eauto using io_step_accounted. Qed.

End Client.

(** The poller [k] times in a row. *)
Fixpoint poll_times {D CH} `{RingDev D CH} (k : nat) (ch : CH) : CH * list (cb_args * Z) :=
  match k with
  | O => (ch, [])
  | S k => let '(_, ch, acts) := dev_poll None ch in
           let '(ch, cbs) := poll_times k ch in (ch, completions acts ++ cbs)
  end.

Lemma poll_times_spec {D CH} `{RingDevLaws D CH} k ch :
  (length (cq (dev_ring ch)) <= 64 * k)%nat →
  (poll_times k ch).2 = outcome <$> cq (dev_ring ch) ∧ cq (dev_ring (poll_times k ch).1) = [].
Proof.
  revert ch. induction k as [|k IH]; intros ch Hk; simpl.
  { destruct (cq (dev_ring ch)); simpl in *; [done|lia]. }
  rewrite law_poll. destruct (ring_poll_spec (dev_ring ch)) as (acts & -> & Ha).
  specialize (IH (dev_put_ring ((dev_ring ch) <| cq ::= drop 64 |>) ch)). rewrite law_put_ring in IH.
  simpl cq in IH. destruct (poll_times k _) as [ch' cbs]. simpl in *.
  destruct IH as [-> ->]; [rewrite length_drop; lia|]. split; [|done].
  by rewrite Ha, <- fmap_app, take_drop.
Qed.

(** ** The delta file format

    A header of [MAX_CLUSTERS] little-endian 64-bit words, then cluster data.
    Word [c] is 0 when cluster [c] is not in the file, and otherwise the offset
    of its [csize] bytes. [dl] is the abstract content: the data of each cluster
    the file has. *)

Record delta_format (csize : Z) (f : file) (dl : gmap Z bytes) : Prop := {
  df_size : MAP_BYTES <= f_size f;
  df_absent c : 0 <= c < MAX_CLUSTERS → dl !! c = None → bytes_words (f_byte f) c = 0;
  df_present c data : dl !! c = Some data → 0 <= c < MAX_CLUSTERS ∧
    let off := bytes_words (f_byte f) c in
    MAP_BYTES <= off < U64_MOD ∧ off + csize <= f_size f ∧
    ∀ i, 0 <= i < csize → f_byte f (off + i) = data i;
}.
Arguments df_size {csize f dl} _.
Arguments df_absent {csize f dl} _ c _ _.
Arguments df_present {csize f dl} _ c data _.
