(* ===== verification/DeltaProofs.v ===== *)
(** * Correctness of the delta device

    - [delta_laws]: the device obeys the interface [RingDevLaws];
    - [writer]: the invariant of a channel that is being written, preserved by
      every whole-cluster write ([delta_write_step], [delta_writes_run]);
    - creating a channel establishes it and destroying the channel turns it into
      [delta_format], the format the uring device reads. *)

From S2P Require Import Prelude Posix BsDev DeltaDev.
Import Delta.
#[local] Open Scope Z_scope.

(** ** Interface laws *)

#[export] Instance delta_laws : RingDevLaws bs_dev_delta bs_dev_delta_io_channel.
Proof.
  split; [done|..].
  - intros. simpl in *. inv_res. simpl. solve_Permutation.
  - intros. simpl in *. inv_res. simpl. solve_Permutation.
  - done.
Qed.

(** ** The scan for non-zero bytes terminates and has no effect *)

Lemma all_zero_scan_ret payload n i :
  0 <= i → i + Z.of_nat n <= INT_MAX → ∃ b, all_zero_scan payload i n = Ret b ∧
  (b = true ↔ ∀ j, i <= j < i + Z.of_nat n → payload j = 0).
Proof.
  revert i. induction n as [|n IH]; intros i Hi Hn; simpl.
  { exists true. split; [done|]. split; [intros _ j ?; lia | done]. }
  destruct (Z.eqb_spec (payload i) 0) as [H0|H0]; simpl.
  - destruct (Z.eqb_spec i INT_MAX); [lia|].
    destruct (IH (i + 1)) as (b & -> & Hb); [lia..|]. exists b. split; [done|].
    rewrite Hb. split; intros H j Hj.
    + destruct (Z.eq_dec i j); [by subst|]. apply H. lia.
    + apply H. lia.
  - exists false. split; [done|]. split; [done|]. intros H. by rewrite H in H0 by lia.
Qed.

(** ** Writing *)

Definition csize (dev : bs_dev_delta) : Z := blocklen (base dev) * cluster_size dev.

(** A geometry the code's 32-bit sizes and counters can handle. *)
Definition geometry_ok (dev : bs_dev_delta) : Prop :=
  0 < blocklen (base dev) ∧ 0 < cluster_size dev ∧ csize dev <= MAX_RW_COUNT.

(** The data of [dl] is in [f], below [hi], where the map [m] says. *)
Record placed (cs : Z) (m : Z → Z) (f : file) (hi : Z) (dl : gmap Z bytes) : Prop := {
  pl_absent c : 0 <= c < MAX_CLUSTERS → dl !! c = None → m c = 0;
  pl_present c data : dl !! c = Some data →
    0 <= c < MAX_CLUSTERS ∧ MAP_BYTES <= m c ∧ m c + cs <= hi ∧
    ∀ i, 0 <= i < cs → f_byte f (m c + i) = data i;
}.

(** [fs] is the file system before the channel was created. *)
Record writer (fs : gmap string file) (dev : bs_dev_delta) (ch : bs_dev_delta_io_channel)
    (o : os) (d : ofd) (f : file) (dl : gmap Z bytes) : Prop := {
  w_nf : healthy o;
  w_fd : fd_file (delta_file_fd ch) o = Some (d, f);
  w_path : ofd_path d = filename dev;
  w_writable : writable d = true;
  w_pos : MAP_BYTES <= ofd_pos d <= f_size f;
  w_max : f_size f <= OFF_MAX;
  w_frame p : p ≠ filename dev → os_files o !! p = fs !! p;
  w_placed : placed (csize dev) (cluster_map ch) f (ofd_pos d) dl;
}.

(** Appending leaves the data already placed where it is. *)
Lemma placed_append cs m f hi dl c data :
  0 < cs → MAP_BYTES <= hi → 0 <= c < MAX_CLUSTERS →
  placed cs m f hi dl →
  placed cs (store m c hi) (file_write f hi cs data) (hi + cs) (<[c := data]> dl).
Proof.
  intros Hcs Hhi Hc [Ha Hp]. split.
  - intros c' Hc' [Hn Hne]%lookup_insert_None. rewrite store_ne by done. by apply Ha.
  - intros c' data' [[<- <-]|[Hne Hl]]%lookup_insert_Some.
    + rewrite store_eq. repeat split; [lia..|]. intros i Hi. simpl.
      rewrite blit_in by lia. f_equal. lia.
    + apply Hp in Hl as (? & ? & ? & Hd). rewrite store_ne by done.
      repeat split; [lia..|]. intros i Hi. simpl. rewrite blit_out by lia. by apply Hd.
Qed.

Lemma delta_write_step fs dev ch o d f dl c payload cb :
  geometry_ok dev → writer fs dev ch o d f dl → 0 <= c < MAX_CLUSTERS →
  ofd_pos d + csize dev <= OFF_MAX →
  ∃ ch' o' d' f',
    bs_dev_delta_write dev ch o payload (c * cluster_size dev) (cluster_size dev) cb
      = Ret (ch', o', [Complete cb 0]) ∧
    writer fs dev ch' o' d' f' (<[c := payload]> dl) ∧ ofd_pos d' = ofd_pos d + csize dev.
Proof.
  intros (Hb & Hs & Hrw) [Hnf Hfd Hpa Hw Hpos Hmax Hfr Hpl] Hc Hend.
  assert (0 < csize dev) as Hcs by (unfold csize; nia).
  unfold bs_dev_delta_write.
  destruct (sys_lseek_ok (delta_file_fd ch) 0 SEEK_CUR o d f Hnf Hfd) as (o1 & -> & Hnf1 & Hfd1 & Hfs1).
  { clia. }
  rewrite Z.add_0_r in *. simpl in Hfd1.
  destruct (Z.ltb_spec (ofd_pos d) 0); [clia|].
  destruct (Z.eqb_spec (cluster_size dev) 0); [lia|]. simpl.
  rewrite Z_mod_mult, Z.div_mul by lia. simpl.
  destruct (Z.ltb_spec c MAX_CLUSTERS); [|lia]. simpl.
  fold (csize dev). rewrite u32_small by clia.
  destruct (all_zero_scan_ret payload (Z.to_nat (csize dev)) 0) as (z & -> & _); [done| |].
  { clia. }
  simpl. rewrite u64_small by clia.
  destruct (sys_write_ok (delta_file_fd ch) (csize dev) payload o1 _ _ Hnf1 Hfd1 Hw)
    as (o2 & -> & Hnf2 & Hfd2 & Hfs2); [lia|]. simpl in Hfd2, Hfs2.
  rewrite i32_small by clia.
  destruct (Z.ltb_spec (csize dev) 0); [lia|].
  eexists _, o2, _, _. split; [done|].
  split; [split; [exact Hnf2|exact Hfd2|done|done| | | |]|done]; simpl; [zcases|zcases| |].
  - intros p Hp. rewrite Hfs2, Hfs1, lookup_insert_ne by congruence. by apply Hfr.
  - apply placed_append; [done|lia|done|done].
Qed.

(** A sequence of whole-cluster writes: cluster, payload and callback of each. *)
Fixpoint delta_writes (dev : bs_dev_delta) (ws : list (Z * bytes * cb_args))
    (ch : bs_dev_delta_io_channel) (o : os) : res (bs_dev_delta_io_channel * os * list action) :=
  match ws with
  | [] => Ret (ch, o, [])
  | (c, payload, cb) :: ws =>
      let* (ch, o, a) := bs_dev_delta_write dev ch o payload (c * cluster_size dev)
                                            (cluster_size dev) cb in
      let* (ch, o, a') := delta_writes dev ws ch o in
      Ret (ch, o, a ++ a')
  end.

(** The abstract effect of such a sequence: the last write to a cluster wins. *)
Fixpoint delta_apply (ws : list (Z * bytes * cb_args)) (dl : gmap Z bytes) : gmap Z bytes :=
  match ws with
  | [] => dl
  | (c, payload, _) :: ws => delta_apply ws (<[c := payload]> dl)
  end.

Lemma delta_writes_run fs dev ws ch o d f dl :
  geometry_ok dev → writer fs dev ch o d f dl →
  (∀ w, w ∈ ws → 0 <= w.1.1 < MAX_CLUSTERS) →
  ofd_pos d + Z.of_nat (length ws) * csize dev <= OFF_MAX →
  ∃ ch' o' d' f',
    delta_writes dev ws ch o = Ret (ch', o', (λ w, Complete w.2 0) <$> ws) ∧
    writer fs dev ch' o' d' f' (delta_apply ws dl).
Proof.
  intros Hg. revert ch o d f dl.
  induction ws as [|[[c payload] cb] ws IH]; intros ch o d f dl Hw Hin Hend; simpl.
  { by exists ch, o, d, f. }
  assert (0 < csize dev) as Hcs by (destruct Hg as (? & ? & _); unfold csize; nia).
  simpl length in Hend. rewrite Nat2Z.inj_succ in Hend.
  assert (0 <= Z.of_nat (length ws) * csize dev) by nia.
  destruct (delta_write_step fs dev ch o d f dl c payload cb) as (ch1 & o1 & d1 & f1 & -> & Hw1 & Hp1);
    [done|done| |nia|].
  { apply (Hin (c, payload, cb)). left. }
  destruct (IH ch1 o1 d1 f1 _ Hw1) as (ch2 & o2 & d2 & f2 & Hrun & Hw2).
  { intros w Hw'. apply Hin. by right. }
  { rewrite Hp1. nia. }
  exists ch2, o2, d2, f2. simpl. rewrite Hrun. done.
Qed.

(** ** Opening and closing a channel *)

Lemma delta_create_channel_ok dev ch o :
  direction dev = BS_DEV_DELTA_WRITE → healthy o →
  (∀ f, os_files o !! filename dev = Some f → f_size f <= OFF_MAX) →
  ∃ ch' o' d f,
    bs_dev_delta_create_channel_cb dev ch 0 o
      = (0, ch', o', [RingInit UBI_URING_QUEUE_SIZE; PollerRegister]) ∧
    writer (os_files o) dev ch' o' d f ∅ ∧ ofd_pos d = MAP_BYTES.
Proof.
  intros Hdir Hnf Hsz. unfold bs_dev_delta_create_channel_cb. rewrite Hdir.
  destruct (sys_open_creat_ok (filename dev) (Z.lor O_RDWR O_CREAT) o Hnf)
    as (o1 & -> & Hnf1 & Hfd1 & Hfs1); [done..|].
  destruct (Z.ltb_spec (os_next_fd o) 0); [destruct Hnf; lia|].
  destruct (sys_write_ok (os_next_fd o) MAP_BYTES (words_bytes (λ _, 0)) o1 _ _ Hnf1 Hfd1)
    as (o2 & Hwr & Hnf2 & Hfd2 & Hfs2); [done|done|]. simpl in Hwr, Hfd2, Hfs2 |- *.
  rewrite Hwr. simpl.
  eexists _, o2, _, _. split; [done|].
  split; [split; [exact Hnf2|exact Hfd2|done|done| | | |]|done]; simpl.
  - clia.
  - destruct (os_files o !! filename dev) as [f|] eqn:Hf; simpl; [|clia].
    specialize (Hsz f eq_refl). clia.
  - intros p Hp. by rewrite Hfs2, Hfs1, !lookup_insert_ne by done.
  - split; simpl; [done|]. intros c data. by rewrite lookup_empty.
Qed.

(** The header written over the head of the file describes the data behind it. *)
Lemma placed_format cs m f hi dl :
  0 <= cs → MAP_BYTES <= hi <= f_size f → f_size f <= OFF_MAX → placed cs m f hi dl →
  delta_format cs (file_write f 0 MAP_BYTES (words_bytes m)) dl.
Proof.
  intros Hcs Hhi Hmax [Ha Hp].
  assert (∀ c, 0 <= c < MAX_CLUSTERS → 0 <= m c < U64_MOD →
    bytes_words (f_byte (file_write f 0 MAP_BYTES (words_bytes m))) c = m c) as Hm.
  { intros c Hc Hmc. rewrite <- (bytes_words_bytes m c) by done.
    apply bytes_words_ext. intros j Hj. simpl.
    rewrite blit_in by clia. f_equal. lia. }
  split.
  - simpl. lia.
  - intros c Hc Hn. pose proof (Ha c Hc Hn) as H0. by rewrite Hm, H0 by (rewrite ?H0; done).
  - intros c data Hd. destruct (Hp c data Hd) as (Hc & Hlo & Hend & Hdata).
    rewrite Hm by clia.
    split; [done|]. simpl. split; [clia|]. split; [lia|].
    intros i Hi. rewrite blit_out by lia. by apply Hdata.
Qed.

Lemma delta_destroy_channel_ok fs dev ch o d f dl :
  0 <= csize dev → direction dev = BS_DEV_DELTA_WRITE → writer fs dev ch o d f dl →
  ∃ o' f', bs_dev_delta_destroy_channel_cb dev ch o = (o', [RingExit; PollerUnregister]) ∧
    healthy o' ∧ (∀ p, p ≠ filename dev → os_files o' !! p = fs !! p) ∧
    os_files o' !! filename dev = Some f' ∧ f_size f' <= OFF_MAX ∧ delta_format (csize dev) f' dl.
Proof.
  intros Hcs Hdir [Hnf Hfd Hpa Hw Hpos Hmax Hfr Hpl].
  unfold bs_dev_delta_destroy_channel_cb. rewrite Hdir.
  destruct (sys_lseek_ok _ 0 SEEK_SET o d f Hnf Hfd) as (o1 & -> & Hnf1 & Hfd1 & Hfs1); [lia|].
  destruct (sys_lseek_ok _ 0 SEEK_CUR o1 _ _ Hnf1 Hfd1) as (o2 & -> & Hnf2 & Hfd2 & Hfs2); [simpl; lia|].
  destruct (sys_write_ok _ MAP_BYTES (words_bytes (cluster_map ch)) o2 _ _ Hnf2 Hfd2)
    as (o3 & -> & Hnf3 & Hfd3 & Hfs3); [done|done|].
  apply fd_file_Some in Hfd3 as [Hfd3 _].
  destruct (sys_close_ok _ o3 _ Hnf3 Hfd3) as (o4 & -> & Hnf4 & Hfs4 & _).
  do 2 eexists. split; [done|]. split; [done|]. simpl in Hfs3.
  rewrite Hfs4, Hfs3, Hpa, lookup_insert_eq. split; [|split; [done|]].
  { intros p Hp. rewrite lookup_insert_ne, Hfs2, Hfs1 by done. by apply Hfr. }
  split; [simpl; clia|]. eapply placed_format; eauto.
Qed.
