(* ===== verification/UringDev.v ===== *)
(** * The image device: [src/lib/spdk_bs_dev_uring.c]

    A read-only block-store device: the external snapshot that backs the disk.
    It is an image file, overlaid with the clusters of a delta file (the snapshot
    path) when one is given. Reads go through io_uring: a request is translated to
    a descriptor and a byte offset, submitted, and completed from the poller.

    Code outside the repository is a parameter here: [SpdkUtil] is the one
    function of [spdk/util.h] the device calls, and the answers of
    [io_uring_queue_init] and [io_uring_submit] are arguments. *)

From S2P Require Import Prelude Posix BsDev DeltaDev.
#[local] Open Scope Z_scope.

(** [spdk_u32log2] and [spdk_u64log2] of [spdk/util.h], with what the code relies
    on: the exact logarithm of a power of two. *)
Class SpdkUtil := {
  spdk_u64log2 : Z → Z;
  spdk_u64log2_pow2 k : 0 <= k < 64 → spdk_u64log2 (2 ^ k) = k;
}.

Module Uring.
Section Uring.
Context `{SpdkUtil}.

Definition UBI_URING_QUEUE_SIZE : Z := 4096.

Record bs_dev_uring_io_channel := mkCh {
  image_file_fd : Z;
  snapshot_file_fd : Z;
  file_io_ring : ring;
}.

#[export] Instance eta_ch : Eta bs_dev_uring_io_channel := λ r,
  mkCh (image_file_fd r) (snapshot_file_fd r) (file_io_ring r).

Record bs_dev_uring := mkDev {
  base : spdk_bs_dev;
  filename : string;
  snapshot_path : string;
  cluster_map : Z → Z;
  directio : bool;
  lba_to_cluster_shift : Z;
  lba_offset_mask : Z;
  lba_to_addr_shift : Z;
}.

Definition put_ring (r : ring) (ch : bs_dev_uring_io_channel) : bs_dev_uring_io_channel := ch <| file_io_ring := r |>.

(** [fail] is an error of [io_uring_peek_batch_cqe]. *)
Definition bs_dev_uring_poll (fail : option Z) (ch : bs_dev_uring_io_channel)
  : Z * bs_dev_uring_io_channel * list action :=
  let '(rc, r, acts) := ring_poll fail (file_io_ring ch) in
  (rc, put_ring r ch, acts).

(** ** Channels *)

Definition open_flags (dev : bs_dev_uring) : Z :=
  if directio dev then Z.lor O_RDONLY O_DIRECT else O_RDONLY.

Definition bs_dev_uring_create_channel_cb (dev : bs_dev_uring) (ring_rc : Z) (o : os)
  : Z * bs_dev_uring_io_channel * os * list action :=
  let '(ifd, o) := sys_open (filename dev) (open_flags dev) o in
  if ifd <? 0 then (-1, mkCh ifd 0 empty_ring, o, [FreeChannel])
  else
    let '(failed, sfd, o) :=
      if negb (String.eqb (snapshot_path dev) EmptyString) then
        let '(sfd, o) := sys_open (snapshot_path dev) (open_flags dev) o in
        if sfd <? 0 then let '(_, o) := sys_close ifd o in (true, sfd, o)
        else (false, sfd, o)
      else (false, -1, o) in
    let ch := mkCh ifd sfd empty_ring in
    if (failed : bool) then (-1, ch, o, [FreeChannel])
    else if negb (ring_rc =? 0) then
      let '(_, o) := sys_close ifd o in
      let o := if 0 <=? sfd then snd (sys_close sfd o) else o in
      (-1, ch, o, [RingInit UBI_URING_QUEUE_SIZE; FreeChannel])
    else (0, ch, o, [RingInit UBI_URING_QUEUE_SIZE; PollerRegister]).

Definition bs_dev_uring_destroy_channel_cb (ch : bs_dev_uring_io_channel) (o : os)
  : os * list action :=
  let '(_, o) := sys_close (image_file_fd ch) o in
  (o, [RingExit; PollerUnregister]).

Definition bs_dev_uring_destroy (dev : bs_dev_uring) : list action := [IoDeviceUnregister].

(** ** Reads *)

(** The descriptor and byte offset of block [lba]. [cluster_id] is a [uint32_t];
    an index past the cluster map is undefined. *)
Definition set_io_opts (dev : bs_dev_uring) (ch : bs_dev_uring_io_channel) (lba : Z)
  : res (Z * Z) :=
  let cluster_id := u32 (Z.shiftr lba (lba_to_cluster_shift dev)) in
  let* _ := guard_res (cluster_id <? MAX_CLUSTERS) in
  if cluster_map dev cluster_id =? 0 then
    Ret (image_file_fd ch, u64 (Z.shiftl lba (lba_to_addr_shift dev)))
  else
    let cluster_start := cluster_map dev cluster_id in
    let lba_offset := Z.land lba (lba_offset_mask dev) in
    Ret (snapshot_file_fd ch,
         u64 (cluster_start + u64 (Z.shiftl lba_offset (lba_to_addr_shift dev)))).

(** [io_uring_get_sqe], [io_uring_prep_read] or [io_uring_prep_readv],
    [io_uring_sqe_set_data], and [io_uring_submit] with its error branch. *)
Definition queue_read (ch : bs_dev_uring_io_channel) (submit_ret : Z) (e : sqe)
  : res (bs_dev_uring_io_channel * list action) :=
  let* r := io_uring_prep UBI_URING_QUEUE_SIZE e (file_io_ring ch) in
  Ret (put_ring (io_uring_submit submit_ret r) ch, if submit_ret <? 0 then [Complete (sqe_data e) (- EIO)] else []).

Definition bs_dev_uring_read (dev : bs_dev_uring) (ch : bs_dev_uring_io_channel)
    (submit_ret : Z) (lba lba_count : Z) (cb : cb_args) : res (bs_dev_uring_io_channel * list action) :=
  if blockcnt (base dev) <=? lba then Ret (ch, [Complete cb 0])
  else
    let* (fd, offset) := set_io_opts dev ch lba in
    queue_read ch submit_ret (mkSqe fd (u32 (lba_count * blocklen (base dev))) offset cb).

Definition iov_total (iov : list iovec) : Z := foldr (λ v n, iov_len v + n) 0 iov.

Definition bs_dev_uring_readv (dev : bs_dev_uring) (ch : bs_dev_uring_io_channel)
    (submit_ret : Z) (iov : list iovec) (lba lba_count : Z) (cb : cb_args)
  : res (bs_dev_uring_io_channel * list action) :=
  if blockcnt (base dev) <=? lba then Ret (ch, [Complete cb 0])
  else
    let* (fd, offset) := set_io_opts dev ch lba in
    queue_read ch submit_ret (mkSqe fd (iov_total iov) offset cb).

Definition bs_dev_uring_readv_ext (dev : bs_dev_uring) (ch : bs_dev_uring_io_channel)
    (submit_ret : Z) (iov : list iovec) (lba lba_count : Z) (cb : cb_args)
  : res (bs_dev_uring_io_channel * list action) :=
  bs_dev_uring_readv dev ch submit_ret iov lba lba_count cb.

(** ** Requests the device refuses *)

Definition bs_dev_uring_write (cb : cb_args) : list action := [Complete cb (- ENOTSUP)].
Definition bs_dev_uring_writev (cb : cb_args) : list action := [Complete cb (- ENOTSUP)].
Definition bs_dev_uring_writev_ext (cb : cb_args) : list action := [Complete cb (- ENOTSUP)].
Definition bs_dev_uring_flush (dev : bs_dev_uring) (cb : cb_args) : list action :=
  [Complete cb (- ENOTSUP)].
Definition bs_dev_uring_write_zeroes (dev : bs_dev_uring) (lba lba_count : Z) (cb : cb_args)
  : list action := [Complete cb (- ENOTSUP)].
Definition bs_dev_uring_unmap (dev : bs_dev_uring) (lba lba_count : Z) (cb : cb_args)
  : list action := [Complete cb (- ENOTSUP)].
Definition bs_dev_uring_get_base_bdev (dev : bs_dev_uring) : option nat := None.
Definition bs_dev_uring_copy (dev : bs_dev_uring) (dst_lba src_lba lba_count : Z) (cb : cb_args)
  : list action := [Complete cb (- ENOTSUP)].
Definition bs_dev_uring_is_degraded (dev : bs_dev_uring) : bool := false.

(** ** Range queries *)

Definition bs_dev_uring_is_range_valid (dev : bs_dev_uring) (lba lba_count : Z) : res bool :=
  if blockcnt (base dev) <=? lba then
    let cluster := Z.shiftr lba (lba_to_cluster_shift dev) in
    let* _ := guard_res (cluster <? MAX_CLUSTERS) in
    if negb (cluster_map dev cluster =? 0) then Ret true else Ret false
  else if blockcnt (base dev) <? u64 (lba + lba_count) then Ret false
  else Ret true.

Definition bs_dev_uring_is_zeroes (dev : bs_dev_uring) (lba lba_count : Z) : res bool :=
  let* v := bs_dev_uring_is_range_valid dev lba lba_count in Ret (negb v).

Definition bs_dev_uring_translate_lba (dev : bs_dev_uring) (lba : Z) : bool * Z := (true, lba).

(** ** Creation

    [snap] is the [snapshot_path] argument, [None] when it is [NULL]. The two
    paths are copied with [strcpy] into arrays of 1024 bytes, and the mask is
    computed in [int]. *)
Definition bs_dev_uring_create (calloc_ok : bool) (fname : string) (snap : option string)
    (blocklen csize : Z) (directio : bool) (o : os)
  : res (option bs_dev_uring * os * list action) :=
  if negb calloc_ok then Ret (None, o, [])
  else
    let '(rc, st_size, o) := sys_stat fname o in
    if negb (rc =? 0) then Ret (None, o, [])
    else
      let '(ret, map, o) :=
        match snap with
        | Some p =>
            if negb (String.eqb p EmptyString)
            then Delta.ubi_read_cluster_map p (λ _, 0) o
            else (0, λ _, 0, o)
        | None => (0, λ _, 0, o)
        end in
      if negb (ret =? 0) then Ret (None, o, [])
      else
        let* _ := guard_res (negb (blocklen =? 0)) in
        let to_cluster := spdk_u64log2 (csize `div` blocklen) in
        let to_addr := spdk_u64log2 blocklen in
        let* _ := guard_res (to_cluster <? 31) in
        let mask := Z.shiftl 1 to_cluster - 1 in
        let* _ := guard_res (Z.of_nat (String.length fname) <? 1024) in
        let* spath := match snap with Some p => Ret p | None => Undef end in
        let* _ := guard_res (Z.of_nat (String.length spath) <? 1024) in
        Ret (Some (mkDev (mkBsDev (u64 (st_size `div` blocklen)) blocklen) fname spath map directio
                         to_cluster mask to_addr), o, [IoDeviceRegister]).

End Uring.
End Uring.

(** ** The image device as the blobstore sees it *)

#[export] Instance uring_bs_dev : BsDev Uring.bs_dev_uring Uring.bs_dev_uring_io_channel := {
  dev_base := Uring.base;
  dev_read d ch o ret lba n cb := Uring.bs_dev_uring_read d ch ret lba n cb;
  dev_readv d ch o ret iov lba n cb := Uring.bs_dev_uring_readv d ch ret iov lba n cb;
  dev_write d ch o buf lba n cb := Ret (ch, o, Uring.bs_dev_uring_write cb);
  dev_writev d ch o iov lba n cb := Ret (ch, o, Uring.bs_dev_uring_writev cb);
  dev_flush := Uring.bs_dev_uring_flush;
  dev_write_zeroes := Uring.bs_dev_uring_write_zeroes;
  dev_unmap := Uring.bs_dev_uring_unmap;
  dev_copy := Uring.bs_dev_uring_copy;
  dev_get_base_bdev := Uring.bs_dev_uring_get_base_bdev;
  dev_is_range_valid := Uring.bs_dev_uring_is_range_valid;
  dev_is_zeroes := Uring.bs_dev_uring_is_zeroes;
  dev_translate_lba := Uring.bs_dev_uring_translate_lba;
  dev_is_degraded := Uring.bs_dev_uring_is_degraded;
}.

#[export] Instance uring_ring_dev `{SpdkUtil} : RingDev Uring.bs_dev_uring Uring.bs_dev_uring_io_channel := {
  dev_ring := Uring.file_io_ring;
  dev_put_ring := Uring.put_ring;
  dev_poll := Uring.bs_dev_uring_poll;
}.
