(* ===== verification/UringProofs.v ===== *)
(** * Correctness of the image device

    - [uring_laws]: the device obeys the interface [RingDevLaws];
    - [set_io_opts_spec]: the shifts and masks compute the division by the block
      and cluster sizes, without wrap-around;
    - [overlay]: the abstract disk (the image with the delta's clusters on top) and
      [uring_read_refines], that a read request inside one cluster returns it;
    - [uring_create_attach]: creating the device and a channel over an image and a
      delta file in [delta_format] establishes what the reads need. *)

From S2P Require Import Prelude Posix BsDev DeltaDev UringDev.
Import Uring.
#[local] Open Scope Z_scope.

(** ** Interface laws *)

Lemma queue_read_owed ch ret e ch' acts :
  0 <= ret → queue_read ch ret e = Ret (ch', acts) →
  owed (file_io_ring ch') ++ (completions acts).*1 ≡ₚ sqe_data e :: owed (file_io_ring ch).
Proof.
  unfold queue_read. intros Hret Hq. inv_res. destruct (Z.ltb_spec ret 0); [lia|]. simpl.
  by rewrite app_nil_r, owed_submit, (owed_prep _ _ _ _ Hm).
Qed.

#[export] Instance uring_laws `{SpdkUtil} : RingDevLaws bs_dev_uring bs_dev_uring_io_channel.
Proof.
  split; [done|..|done]; simpl.
  - intros d ch _ ret lba n cb ch' acts Hret. unfold bs_dev_uring_read. intros Hr.
    destruct (_ <=? lba); [inv_res; simpl; solve_Permutation|].
    apply res_bind_Ret in Hr as ([fd off] & _ & Hr).
    exact (queue_read_owed _ _ _ _ _ Hret Hr).
  - intros d ch _ ret iov lba n cb ch' acts Hret. unfold bs_dev_uring_readv. intros Hr.
    destruct (_ <=? lba); [inv_res; simpl; solve_Permutation|].
    apply res_bind_Ret in Hr as ([fd off] & _ & Hr).
    exact (queue_read_owed _ _ _ _ _ Hret Hr).
Qed.

(** ** Address arithmetic *)

(** Blocks of [2^a] bytes and clusters of [2^b] blocks. *)
Record uring_geometry (dev : bs_dev_uring) (a b : Z) : Prop := {
  ug_a : 0 <= a < 32;
  ug_b : 0 <= b < 31;
  ug_blocklen : blocklen (base dev) = 2 ^ a;
  ug_cluster : lba_to_cluster_shift dev = b;
  ug_addr : lba_to_addr_shift dev = a;
  ug_mask : lba_offset_mask dev = 2 ^ b - 1;
}.

Lemma set_io_opts_spec `{SpdkUtil} dev ch a b lba :
  uring_geometry dev a b →
  0 <= lba → lba `div` 2 ^ b < MAX_CLUSTERS → lba * 2 ^ a < U64_MOD →
  let c := lba `div` 2 ^ b in
  0 <= cluster_map dev c → cluster_map dev c + 2 ^ b * 2 ^ a <= U64_MOD →
  set_io_opts dev ch lba =
    Ret (if cluster_map dev c =? 0 then (image_file_fd ch, lba * 2 ^ a)
         else (snapshot_file_fd ch, cluster_map dev c + (lba `mod` 2 ^ b) * 2 ^ a)).
Proof.
  intros [Ha Hb Hbl Hsh Had Hmk] Hlba Hc Hmax c Hm0 Hm1. unfold set_io_opts.
  rewrite Hsh, Had, Hmk, shiftr_pow2, land_mask by lia. fold c.
  assert (0 < 2 ^ b) by lia. assert (0 < 2 ^ a) by lia.
  assert (0 <= c) by (apply Z.div_pos; lia).
  pose proof (Z.mod_pos_bound lba (2 ^ b) ltac:(lia)).
  rewrite (u32_small c) by clia. destruct (Z.ltb_spec c MAX_CLUSTERS); [|lia]. simpl.
  rewrite !shiftl_pow2 by lia.
  destruct (cluster_map dev c =? 0); [by rewrite u64_small by lia|].
  rewrite (u64_small (_ * _)) by nia. by rewrite u64_small by nia.
Qed.

(** ** The abstract disk *)

(** Byte [x] of the image [img] overlaid with the clusters of [dl], each of [cs] bytes. *)
Definition overlay (cs : Z) (img : bytes) (dl : gmap Z bytes) : bytes := λ x,
  match dl !! (x `div` cs) with
  | Some data => data (x `mod` cs)
  | None => img x
  end.

(** Bytes inside one cluster share its source. *)
Lemma overlay_hit cs img dl c x data :
  0 < cs → 0 <= x < cs → dl !! c = Some data → overlay cs img dl (c * cs + x) = data x.
Proof.
  intros Hcs Hx Hd. unfold overlay.
  rewrite Z.div_add_l, Z.div_small, Z.add_0_r, Hd by lia.
  by rewrite Z.add_comm, Z_mod_plus_full, Z.mod_small by lia.
Qed.

Lemma overlay_miss cs img dl c x :
  0 < cs → 0 <= x < cs → dl !! c = None → overlay cs img dl (c * cs + x) = img (c * cs + x).
Proof.
  intros Hcs Hx Hd. unfold overlay.
  by rewrite Z.div_add_l, Z.div_small, Z.add_0_r, Hd by lia.
Qed.

(** An io_uring read transfers what [pread(2)] does. *)
Class IoUring := {
  ring_read : os → sqe → bytes → Z * bytes;
  ring_read_pread o e buf n b :
    pread (sqe_fd e) (sqe_len e) (sqe_off e) buf o = (n, b) → 0 <= n → ring_read o e buf = (n, b);
}.

(** The channel's descriptors refer to the image and to a file that has [dl]. *)
Record attached (cs : Z) (dev : bs_dev_uring) (ch : bs_dev_uring_io_channel) (o : os)
    (img : file) (dl : gmap Z bytes) : Prop := {
  at_image : ∃ d, fd_file (image_file_fd ch) o = Some (d, img);
  at_blocks : blockcnt (base dev) = f_size img `div` blocklen (base dev);
  at_absent c : 0 <= c < MAX_CLUSTERS → dl !! c = None → cluster_map dev c = 0;
  at_present c data : dl !! c = Some data → ∃ d sf,
    fd_file (snapshot_file_fd ch) o = Some (d, sf) ∧
    MAP_BYTES <= cluster_map dev c ∧ cluster_map dev c + cs <= f_size sf ∧ f_size sf <= OFF_MAX ∧
    ∀ i, 0 <= i < cs → f_byte sf (cluster_map dev c + i) = data i;
}.

Lemma pread_full fd d f n off buf o :
  fd_file fd o = Some (d, f) → 0 <= n <= MAX_RW_COUNT → off + n <= f_size f →
  pread fd n off buf o = (n, blit buf 0 n (slice (f_byte f) off)).
Proof.
  intros Hfd Hn Hend. unfold pread. rewrite Hfd. unfold file_avail.
  f_equal; [lia|]. f_equal. lia.
Qed.

(** The block range [lba, lba + n) lies in one cluster of [2^b] blocks. *)
Definition one_cluster (b lba n : Z) : Prop := lba `mod` 2 ^ b + n <= 2 ^ b.

Lemma uring_read_submits `{SpdkUtil} cs dev ch o img dl a b lba n cb :
  uring_geometry dev a b → cs = 2 ^ b * 2 ^ a → cs <= MAX_RW_COUNT →
  attached cs dev ch o img dl → f_size img <= OFF_MAX →
  0 <= lba → 0 < n → lba + n <= blockcnt (base dev) → lba `div` 2 ^ b < MAX_CLUSTERS →
  one_cluster b lba n → file_io_ring ch = empty_ring →
  ∃ e d f, bs_dev_uring_read dev ch 1 lba n cb = Ret (put_ring (mkRing [] [e] []) ch, []) ∧ sqe_data e = cb ∧
    sqe_len e = n * 2 ^ a ∧ fd_file (sqe_fd e) o = Some (d, f) ∧
    sqe_off e + n * 2 ^ a <= f_size f ∧
    ∀ i, 0 <= i < n * 2 ^ a → f_byte f (sqe_off e + i) = overlay cs (f_byte img) dl (lba * 2 ^ a + i).
Proof.
  intros Hg Hcs Hrw [[di Hi] Hbc Habs Hpre] Him Hlba Hn Hend Hc Hone Hring.
  pose proof Hg as [Ha Hb Hbl Hsh Had Hmk].
  assert (0 < 2 ^ b) by lia. assert (0 < 2 ^ a) by lia.
  set (c := lba `div` 2 ^ b) in *. set (r := lba `mod` 2 ^ b).
  assert (lba = c * 2 ^ b + r) as Hdm by (unfold c, r; Z.div_mod_to_equations; lia).
  pose proof (Z.mod_pos_bound lba (2 ^ b) ltac:(lia)) as Hr. fold r in Hr.
  unfold one_cluster in Hone. fold r in Hone.
  assert (0 <= c) by (apply Z.div_pos; lia).
  assert ((lba + n) * 2 ^ a <= f_size img) as Hfit.
  { rewrite Hbc, Hbl in Hend. pose proof (Z.mul_div_le (f_size img) (2 ^ a)). nia. }
  assert (n * 2 ^ a <= 2 ^ b * 2 ^ a) by nia.
  assert (lba * 2 ^ a = c * cs + r * 2 ^ a) as Haddr by (rewrite Hdm, Hcs; ring).
  assert (lba * 2 ^ a < U64_MOD) by (assert (0 < n * 2 ^ a) by nia; clia).
  unfold bs_dev_uring_read, queue_read. destruct (Z.leb_spec (blockcnt (base dev)) lba); [lia|]. rewrite Hring.
  rewrite Hbl, u32_small by (split; [nia|clia]).
  destruct (dl !! c) as [data|] eqn:Hdl.
  - destruct (Hpre c data Hdl) as (ds & sf & Hsf & Hlo & Hhi & Hmax & Hdata).
    rewrite (set_io_opts_spec dev ch a b lba Hg) by (fold c; clia). fold c r.
    destruct (Z.eqb_spec (cluster_map dev c) 0); [clia|]. simpl.
    do 3 eexists. split; [done|]. simpl. split; [done|]. split; [done|]. split; [exact Hsf|].
    split; [nia|]. intros i Hi'.
    replace (lba * 2 ^ a + i) with (c * cs + (r * 2 ^ a + i)) by lia.
    rewrite (overlay_hit _ _ _ _ _ data), <- Z.add_assoc by (done || nia). apply Hdata. nia.
  - assert (cluster_map dev c = 0) as Hz by (apply Habs; [lia|done]).
    rewrite (set_io_opts_spec dev ch a b lba Hg) by (fold c; rewrite ?Hz; clia). fold c.
    rewrite Hz. simpl.
    do 3 eexists. split; [done|]. simpl. split; [done|]. split; [done|]. split; [exact Hi|].
    split; [nia|]. intros i Hi'.
    replace (lba * 2 ^ a + i) with (c * cs + (r * 2 ^ a + i)) by lia.
    by rewrite overlay_miss by (done || nia).
Qed.

(** ** Creating the device and a channel *)

Lemma open_flags_no_trunc dev : has_flag (open_flags dev) O_TRUNC = false.
Proof. unfold open_flags. by destruct (directio dev). Qed.

Lemma ubi_read_cluster_map_ok p o sf :
  healthy o → os_files o !! p = Some sf → MAP_BYTES <= f_size sf →
  ∃ m o', Delta.ubi_read_cluster_map p (λ _, 0) o = (0, m, o') ∧
    (∀ c, 0 <= c < MAX_CLUSTERS → m c = bytes_words (f_byte sf) c) ∧
    healthy o' ∧ os_files o' = os_files o.
Proof.
  intros Ho Hf Hsz. unfold Delta.ubi_read_cluster_map.
  destruct (sys_open_ok p O_RDONLY o sf Ho Hf eq_refl) as (o1 & -> & Ho1 & Hfd1 & Hfs1 & Hnx1 & Hfds1).
  destruct (Z.ltb_spec (os_next_fd o) 0); [destruct Ho; lia|].
  unfold Delta.read_words.
  destruct (sys_read_ok _ MAP_BYTES (words_bytes (λ _, 0)) o1 _ _ Ho1 Hfd1)
    as (o2 & -> & Ho2 & Hfs2 & Hfd2); [clia|]. simpl.
  unfold file_avail. rewrite Z.sub_0_r, (Z.min_l _ _ Hsz).
  destruct (Z.ltb_spec (Z.max 0 MAP_BYTES) 0); [lia|].
  destruct (sys_close_ok (os_next_fd o) o2 _ Ho2 Hfd2) as (o3 & -> & Ho3 & Hfs3 & _).
  do 2 eexists. split; [done|]. split; [|split; [done|congruence]].
  intros c Hc. apply bytes_words_ext. intros j Hj. rewrite blit_in by clia.
  unfold slice. simpl. f_equal. lia.
Qed.

(** The snapshot path [p] gives the clusters [dl]: none when it is empty. *)
Definition snapshot_has (cs : Z) (o : os) (p : string) (dl : gmap Z bytes) : Prop :=
  (p = EmptyString ∧ dl = ∅) ∨
  (p ≠ EmptyString ∧ ∃ sf, os_files o !! p = Some sf ∧ f_size sf <= OFF_MAX ∧ delta_format cs sf dl).

(** The map the device gets from path [p]: all zero without a snapshot. *)
Definition map_read (o : os) (p : string) (m : Z → Z) : Prop :=
  (p = EmptyString → ∀ c, m c = 0) ∧
  (p ≠ EmptyString → ∀ sf c, os_files o !! p = Some sf → 0 <= c < MAX_CLUSTERS →
    m c = bytes_words (f_byte sf) c).

Lemma uring_create_ok `{SpdkUtil} a b fname p dio o img dl :
  0 <= a < 32 → 0 <= b < 31 → healthy o →
  os_files o !! fname = Some img → 0 <= f_size img <= OFF_MAX →
  snapshot_has (2 ^ b * 2 ^ a) o p dl →
  Z.of_nat (String.length fname) < 1024 → Z.of_nat (String.length p) < 1024 →
  ∃ m o', bs_dev_uring_create true fname (Some p) (2 ^ a) (2 ^ b * 2 ^ a) dio o =
    Ret (Some (mkDev (mkBsDev (f_size img `div` 2 ^ a) (2 ^ a)) fname p m dio b (2 ^ b - 1) a),
         o', [IoDeviceRegister]) ∧
    healthy o' ∧ os_files o' = os_files o ∧
    map_read o p m.
Proof.
  intros Ha Hb Ho Hf Hsz Hsnap Hl1 Hl2. unfold bs_dev_uring_create, sys_stat. simpl.
  rewrite fault_now_healthy by done. simpl. rewrite Hf. simpl.
  assert (0 < 2 ^ a) by lia. assert (0 < 2 ^ b) by lia.
  assert (u64 (f_size img `div` 2 ^ a) = f_size img `div` 2 ^ a) as Hbc.
  { apply u64_small. split; [apply Z.div_pos; lia|].
    assert (f_size img `div` 2 ^ a <= f_size img) by (apply Z.div_le_upper_bound; nia). clia. }
  assert (∃ m o', (if negb (String.eqb p EmptyString)
                   then Delta.ubi_read_cluster_map p (λ _, 0) (tick o)
                   else (0, λ _, 0, tick o)) = (0, m, o') ∧
    healthy o' ∧ os_files o' = os_files o ∧
    map_read o p m) as (m & o' & -> & Ho' & Hfs & Hm).
  { destruct Hsnap as [[-> ->]|(Hp & sf & Hsf & Hmax & Hfmt)].
    - do 2 eexists. done.
    - destruct (String.eqb_spec p EmptyString); [done|]. simpl.
      destruct (ubi_read_cluster_map_ok p (tick o) sf) as (m & o' & -> & Hm & Ho' & Hfs);
        [done|done|apply (df_size Hfmt)|].
      do 2 eexists. do 3 (split; [done|]). split; [done|].
      intros _ sf' c. rewrite Hsf. intros [= <-]. apply Hm. }
  simpl. destruct (Z.eqb_spec (2 ^ a) 0); [lia|]. simpl.
  rewrite Z.div_mul, !spdk_u64log2_pow2 by lia.
  destruct (Z.ltb_spec b 31); [|lia]. simpl.
  destruct (Z.ltb_spec (Z.of_nat (String.length fname)) 1024); [|lia]. simpl.
  destruct (Z.ltb_spec (Z.of_nat (String.length p)) 1024); [|lia]. simpl.
  rewrite Hbc, shiftl_pow2, Z.mul_1_l by lia.
  exists m, o'. done.
Qed.

Lemma uring_create_channel_ok `{SpdkUtil} a b fname p m dio o img dl :
  healthy o → os_files o !! fname = Some img → snapshot_has (2 ^ b * 2 ^ a) o p dl →
  map_read o p m →
  let dev := mkDev (mkBsDev (f_size img `div` 2 ^ a) (2 ^ a)) fname p m dio b (2 ^ b - 1) a in
  ∃ ch o', bs_dev_uring_create_channel_cb dev 0 o
             = (0, ch, o', [RingInit UBI_URING_QUEUE_SIZE; PollerRegister]) ∧
    attached (2 ^ b * 2 ^ a) dev ch o' img dl ∧ file_io_ring ch = empty_ring.
Proof.
  intros Ho Hf Hsnap [Hm0 Hm] dev. unfold bs_dev_uring_create_channel_cb.
  destruct (sys_open_ok fname (open_flags dev) o img Ho Hf (open_flags_no_trunc dev))
    as (o1 & Hop1 & Ho1 & Hfd1 & Hfs1 & Hnx1 & Hfds1). simpl filename. rewrite Hop1.
  destruct (Z.ltb_spec (os_next_fd o) 0); [destruct Ho; lia|]. simpl snapshot_path.
  destruct Hsnap as [[-> ->]|(Hp & sf & Hsf & Hmax & Hfmt)].
  - simpl. do 2 eexists. split; [done|]. split; [|done]. split; simpl; [by eexists|done| |done].
    intros c _ _. by apply Hm0.
  - destruct (String.eqb_spec p EmptyString); [done|]. simpl negb. cbv iota.
    destruct (sys_open_ok p (open_flags dev) o1 sf Ho1) as (o2 & Hop2 & Ho2 & Hfd2 & Hfs2 & Hnx2 & Hfds2);
      [by rewrite Hfs1|apply open_flags_no_trunc|]. rewrite Hop2.
    destruct (Z.ltb_spec (os_next_fd o1) 0); [destruct Ho1; lia|]. simpl.
    do 2 eexists. split; [done|]. split; [|done]. split; simpl.
    + eexists. apply fd_file_Some in Hfd1 as [Hd1 _]. apply fd_file_Some.
      rewrite Hfds2, Hfs2, Hfs1, lookup_insert_ne.
      * by split; [exact Hd1|].
      * lia.
    + done.
    + intros c Hc Hn. rewrite (Hm Hp sf c Hsf Hc). by apply (df_absent Hfmt).
    + intros c data Hd. destruct (df_present Hfmt c data Hd) as (Hc & Hoff & Hend & Hdata).
      rewrite (Hm Hp sf c Hsf Hc). eexists _, sf.
      split; [exact Hfd2|]. split; [lia|]. split; [lia|]. split; [lia|]. exact Hdata.
Qed.
