(* ===== verification/SnapshotChain.v ===== *)
(** * From a snapshot to the disk that starts from it

    The two devices composed the way the program composes them: a snapshot is
    written through the delta device ([take_snapshot]), a later disk is created
    over the image and that snapshot ([attach_image]), and its reads go through
    the ring ([read_blocks]). The main theorem is the round trip: such a read
    returns the image overlaid with the last data written for each cluster. *)

From S2P Require Import Prelude Posix BsDev DeltaDev DeltaProofs UringDev UringProofs.
#[local] Open Scope Z_scope.

(** ** Compositions *)

(** Create the delta device and a channel, write the clusters, destroy the channel. *)
Definition take_snapshot (path : string) (blockcnt blocklen csize : Z)
    (ch0 : Delta.bs_dev_delta_io_channel) (ws : list (Z * bytes * cb_args)) (o : os)
  : res (option (os * list action)) :=
  let* (dev, _) := Delta.bs_dev_delta_create true path blockcnt blocklen csize Delta.BS_DEV_DELTA_WRITE in
  match dev with
  | None => Ret None
  | Some dev =>
      let '(rc, ch, o, _) := Delta.bs_dev_delta_create_channel_cb dev ch0 0 o in
      if rc =? 0 then
        let* (ch, o, acts) := delta_writes dev ws ch o in
        let '(o, _) := Delta.bs_dev_delta_destroy_channel_cb dev ch o in
        Ret (Some (o, acts))
      else Ret None
  end.

(** Create the image device over an image and a snapshot path, and a channel. *)
Definition attach_image `{SpdkUtil} (fname p : string) (blocklen csize : Z) (dio : bool) (o : os)
  : res (option (Uring.bs_dev_uring * Uring.bs_dev_uring_io_channel * os)) :=
  let* (dev, o, _) := Uring.bs_dev_uring_create true fname (Some p) blocklen csize dio o in
  match dev with
  | None => Ret None
  | Some dev =>
      let '(rc, ch, o, _) := Uring.bs_dev_uring_create_channel_cb dev 0 o in
      if rc =? 0 then Ret (Some (dev, ch, o)) else Ret None
  end.

(** Submit a read, let the kernel perform it and post its completion, and poll: the
    transferred bytes, the buffer, and the callbacks called. *)
Definition read_blocks `{SpdkUtil, IoUring} (dev : Uring.bs_dev_uring)
    (ch : Uring.bs_dev_uring_io_channel) (o : os) (lba n : Z) (buf : bytes) (cb : cb_args)
  : res (Z * bytes * list (cb_args * Z)) :=
  let* (ch, acts) := Uring.bs_dev_uring_read dev ch 1 lba n cb in
  match kq (Uring.file_io_ring ch) with
  | [e] =>
      let '(got, buf) := ring_read o e buf in
      let ch := Uring.put_ring (post_cqe [] e [] got (Uring.file_io_ring ch)) ch in
      let '(_, _, polled) := Uring.bs_dev_uring_poll None ch in
      Ret (got, buf, completions (acts ++ polled))
  | _ => Ret (0, buf, completions acts)
  end.

(** ** The round trip, in steps *)

Lemma attach_image_ok `{SpdkUtil} a b fname p dio o img dl :
  0 <= a < 32 → 0 <= b < 31 → healthy o →
  os_files o !! fname = Some img → 0 <= f_size img <= OFF_MAX →
  snapshot_has (2 ^ b * 2 ^ a) o p dl →
  Z.of_nat (String.length fname) < 1024 → Z.of_nat (String.length p) < 1024 →
  ∃ dev ch o', attach_image fname p (2 ^ a) (2 ^ b * 2 ^ a) dio o = Ret (Some (dev, ch, o')) ∧
    uring_geometry dev a b ∧ attached (2 ^ b * 2 ^ a) dev ch o' img dl ∧
    Uring.file_io_ring ch = empty_ring.
Proof.
  intros Ha Hb Ho Hf Hsz Hs Hl1 Hl2. unfold attach_image.
  destruct (uring_create_ok a b fname p dio o img dl) as (m & o1 & -> & Ho1 & Hfs1 & Hm); try done.
  simpl. destruct (uring_create_channel_ok a b fname p m dio o1 img dl) as (ch & o2 & -> & Hat & Hr).
  { done. } { by rewrite Hfs1. } { unfold snapshot_has. by rewrite Hfs1. }
  { unfold map_read. by rewrite Hfs1. }
  simpl. do 3 eexists. split; [done|]. split; [|by split]. done.
Qed.

Lemma read_blocks_ok `{SpdkUtil, IoUring} a b dev ch o img dl lba n buf cb :
  uring_geometry dev a b → attached (2 ^ b * 2 ^ a) dev ch o img dl →
  2 ^ b * 2 ^ a <= MAX_RW_COUNT → f_size img <= OFF_MAX →
  0 <= lba → 0 < n → (lba + n) * 2 ^ a <= f_size img → lba `div` 2 ^ b < MAX_CLUSTERS →
  one_cluster b lba n → Uring.file_io_ring ch = empty_ring →
  ∃ buf', read_blocks dev ch o lba n buf cb = Ret (n * 2 ^ a, buf', [(cb, 0)]) ∧
    ∀ i, buf' i = if in_range 0 (n * 2 ^ a) i
                  then overlay (2 ^ b * 2 ^ a) (f_byte img) dl (lba * 2 ^ a + i) else buf i.
Proof.
  intros Hg Hat Hrw Him Hlba Hn Hend Hc Hone Hring. pose proof Hg as [Ha Hb Hbl _ _ _].
  assert (0 < 2 ^ a) by lia. assert (0 < 2 ^ b) by lia.
  assert (lba + n <= blockcnt (Uring.base dev)).
  { rewrite (at_blocks _ _ _ _ _ _ Hat), Hbl. apply Z.div_le_lower_bound; lia. }
  destruct (uring_read_submits (2 ^ b * 2 ^ a) dev ch o img dl a b lba n cb)
    as (e & d & f & Hr & He & Hlen & Hfd & Hfit & Hdata); try done.
  assert (n * 2 ^ a <= 2 ^ b * 2 ^ a).
  { unfold one_cluster in Hone. pose proof (Z.mod_pos_bound lba (2 ^ b) ltac:(lia)). nia. }
  unfold read_blocks. rewrite Hr. simpl.
  erewrite ring_read_pread; [|rewrite Hlen; eapply pread_full; [done|nia|lia]|nia].
  destruct (Z.ltb_spec (n * 2 ^ a) 0); [nia|]. rewrite He.
  eexists. split; [done|]. intros i. unfold blit. zcases.
  unfold slice. rewrite Z.sub_0_r. apply Hdata. lia.
Qed.

Lemma take_snapshot_ok a b path blockcnt ch0 ws o :
  0 <= a < 32 → 0 <= b < 31 → 2 ^ b * 2 ^ a <= MAX_RW_COUNT → healthy o →
  Z.of_nat (String.length path) < 1024 →
  (∀ f, os_files o !! path = Some f → f_size f <= OFF_MAX) →
  (∀ w, w ∈ ws → 0 <= w.1.1 < MAX_CLUSTERS) →
  MAP_BYTES + Z.of_nat (length ws) * (2 ^ b * 2 ^ a) <= OFF_MAX →
  ∃ o' sf, take_snapshot path blockcnt (2 ^ a) (2 ^ b * 2 ^ a) ch0 ws o =
      Ret (Some (o', (λ w, Complete w.2 0) <$> ws)) ∧
    healthy o' ∧ (∀ p, p ≠ path → os_files o' !! p = os_files o !! p) ∧
    os_files o' !! path = Some sf ∧ f_size sf <= OFF_MAX ∧
    delta_format (2 ^ b * 2 ^ a) sf (delta_apply ws ∅).
Proof.
  intros Ha Hb Hrw Ho Hl Hsz Hws Hmax. unfold take_snapshot, Delta.bs_dev_delta_create.
  assert (0 < 2 ^ a) by lia. assert (0 < 2 ^ b) by lia.
  simpl. destruct (Z.eqb_spec (2 ^ a) 0); [lia|].
  destruct (Z.ltb_spec (Z.of_nat (String.length path)) 1024); [|lia]. simpl.
  rewrite Z.div_mul by lia.
  set (dev := Delta.mkDev _ _ _ _ _).
  assert (csize dev = 2 ^ b * 2 ^ a) as Hcs by (unfold csize; simpl; ring).
  destruct (delta_create_channel_ok dev ch0 o) as (ch1 & o1 & d1 & f1 & -> & Hw1 & Hp1); [done..|].
  simpl.
  destruct (delta_writes_run (os_files o) dev ws ch1 o1 d1 f1 ∅)
    as (ch2 & o2 & d2 & f2 & Hrun & Hw2); try done.
  { split; [done|]. split; [done|]. by rewrite Hcs. }
  { by rewrite Hcs, Hp1. }
  rewrite Hrun. simpl.
  destruct (delta_destroy_channel_ok (os_files o) dev ch2 o2 d2 f2 (delta_apply ws ∅))
    as (o3 & f3 & -> & Ho3 & Hfr & Hf3 & Hs3 & Hfmt); [lia|done|done|].
  rewrite Hcs in Hfmt. by exists o3, f3.
Qed.

(** ** Concrete instances, for the witnesses *)

Definition log2_util : SpdkUtil.
Proof.
  refine {| spdk_u64log2 := Z.log2 |}. intros k [Hk _]. by apply Z.log2_pow2.
Defined.

Definition pread_ring : IoUring.
Proof.
  refine {| ring_read := λ o e buf, pread (sqe_fd e) (sqe_len e) (sqe_off e) buf o |}.
  by intros o e buf n b Hp _.
Defined.

(** A file system with one image of eight 512-byte blocks, block [k] filled with [k + 1]. *)
Definition demo_image : file :=
  mkFile 4096 (λ i, if in_range 0 4096 i then i `div` 512 + 1 else 0).

Definition demo_os : os := mkOs {["image"%string := demo_image]} ∅ 3 0 (λ _, NoFault) 0.

Definition demo_ch : Delta.bs_dev_delta_io_channel := Delta.mkCh 0 (λ _, 0) false empty_ring.

(** Two clusters of two blocks written, cluster 1 twice. *)
Definition demo_writes : list (Z * bytes * cb_args) :=
  [(1, λ _, 77, 0%nat); (3, λ _, 88, 1%nat); (1, λ i, i `mod` 256, 2%nat)].

Lemma demo_healthy : healthy demo_os.
Proof. by split. Qed.

Lemma demo_size f : os_files demo_os !! "snap"%string = Some f → f_size f <= OFF_MAX.
Proof. simpl. by rewrite lookup_singleton_ne. Qed.

Lemma demo_clusters w : w ∈ demo_writes → 0 <= w.1.1 < MAX_CLUSTERS.
Proof. unfold demo_writes. rewrite !elem_of_cons, elem_of_nil. intros [->|[->|[->|[]]]]; done. Qed.

(** ** Claims *)

(** C1. Round trip of a snapshot. A snapshot written with the delta device (its
    file created, each of the clusters of [ws] written whole, the channel
    destroyed) and then attached, with an image, by the image device reads back:
    every write is acknowledged with 0, and each later read of blocks of the image
    inside one cluster is completed with 0 and transfers exactly the requested bytes, which are the data
    last written for that cluster, or the image's where no write touched it; the
    rest of the buffer is left alone. *)
Theorem snapshot_roundtrip `{SpdkUtil, IoUring} a b fname path dio blockcnt ch0 ws o img :
  0 <= a < 32 → 0 <= b < 31 → 2 ^ b * 2 ^ a <= MAX_RW_COUNT → healthy o →
  fname ≠ path → path ≠ EmptyString →
  Z.of_nat (String.length fname) < 1024 → Z.of_nat (String.length path) < 1024 →
  os_files o !! fname = Some img → 0 <= f_size img <= OFF_MAX →
  (∀ f, os_files o !! path = Some f → f_size f <= OFF_MAX) →
  (∀ w, w ∈ ws → 0 <= w.1.1 < MAX_CLUSTERS) →
  MAP_BYTES + Z.of_nat (length ws) * (2 ^ b * 2 ^ a) <= OFF_MAX →
  ∃ o1 dev ch o2,
    take_snapshot path blockcnt (2 ^ a) (2 ^ b * 2 ^ a) ch0 ws o
      = Ret (Some (o1, (λ w, Complete w.2 0) <$> ws)) ∧
    attach_image fname path (2 ^ a) (2 ^ b * 2 ^ a) dio o1 = Ret (Some (dev, ch, o2)) ∧
    ∀ lba n buf cb,
      0 <= lba → 0 < n → (lba + n) * 2 ^ a <= f_size img → lba `div` 2 ^ b < MAX_CLUSTERS →
      one_cluster b lba n →
      ∃ buf', read_blocks dev ch o2 lba n buf cb = Ret (n * 2 ^ a, buf', [(cb, 0)]) ∧
        ∀ i, buf' i =
          if in_range 0 (n * 2 ^ a) i
          then overlay (2 ^ b * 2 ^ a) (f_byte img) (delta_apply ws ∅) (lba * 2 ^ a + i)
          else buf i.
Proof.
  intros Ha Hb Hrw Ho Hne Hp Hl1 Hl2 Hf Hsz Hfs Hws Hmax.
  destruct (take_snapshot_ok a b path blockcnt ch0 ws o) as (o1 & sf & Ht & Ho1 & Hfr & Hsf & Hs & Hfmt);
    try done.
  destruct (attach_image_ok a b fname path dio o1 img (delta_apply ws ∅))
    as (dev & ch & o2 & Hat & Hg & Hatt & Hring); try done.
  { by rewrite Hfr. }
  { right. split; [done|]. by exists sf. }
  exists o1, dev, ch, o2. split; [done|]. split; [done|]. intros lba n buf cb ?????.
  eapply read_blocks_ok; eauto. lia.
Qed.

Lemma snapshot_roundtrip_witness :
  ∃ o1 dev ch o2,
    take_snapshot "snap" 8 512 1024 demo_ch demo_writes demo_os
      = Ret (Some (o1, [Complete 0%nat 0; Complete 1%nat 0; Complete 2%nat 0])) ∧
    @attach_image log2_util "image" "snap" 512 1024 true o1 = Ret (Some (dev, ch, o2)) ∧
    ∃ buf', @read_blocks log2_util pread_ring dev ch o2 3 1 zeroes 9%nat = Ret (512, buf', [(9%nat, 0)]) ∧
      buf' 5 = 5.
Proof.
  destruct (@snapshot_roundtrip log2_util pread_ring 9 1 "image" "snap" true 8 demo_ch demo_writes
              demo_os demo_image) as (o1 & dev & ch & o2 & Ht & Ha & Hr).
  1-3: vm_compute; done. 1: exact demo_healthy. 1-4: done. 1: reflexivity.
  1: vm_compute; done. 1: exact demo_size. 1: exact demo_clusters. 1: vm_compute; done.
  exists o1, dev, ch, o2. split; [exact Ht|]. split; [exact Ha|].
  destruct (Hr 3 1 zeroes 9%nat) as (buf' & Hb & Hv).
  1-5: vm_compute; done.
  exists buf'. split; [exact Hb|]. by rewrite Hv.
Defined.
