(* ===== verification/DeviceClaims.v ===== *)
(** * Properties of the two block-store devices, one at a time

    Request accounting through the ring, address translation, range queries,
    bounds of the cluster map, and what the error paths leave behind. *)

From S2P Require Import Prelude Posix BsDev DeltaDev DeltaProofs UringDev UringProofs SnapshotChain.
#[local] Open Scope Z_scope.

(** ** Request accounting *)

(** C7. No read request of the image device is lost or answered twice. From a new
    channel on, in any interleaving of reads the ring does not refuse (it may take an
    entry only with a later submission; one that finds the submission queue full is
    undefined), completions posted by the kernel in any order
    and with any result, and rounds of the poller: the requests whose callback was
    called and those the ring still owes one are together exactly the requests made,
    each once. And the poller, which takes at most 64 completions a round, answers all
    the completions of the ring in enough rounds, in order, each with 0 or, if the
    completion failed, with -EIO, and leaves none behind. *)
Theorem uring_reads_answered_once `{SpdkUtil} (dev : Uring.bs_dev_uring) ch o s :
  Uring.file_io_ring ch = empty_ring →
  rtc (io_step dev o (λ ret, 0 <= ret)) (mkRun ch [] []) s →
  (called s).*1 ++ owed (Uring.file_io_ring (chan s)) ≡ₚ asked s ∧
  ∀ k, (length (cq (Uring.file_io_ring (chan s))) <= 64 * k)%nat →
    (poll_times (D := Uring.bs_dev_uring) k (chan s)).2 = outcome <$> cq (Uring.file_io_ring (chan s)) ∧
    cq (Uring.file_io_ring (poll_times (D := Uring.bs_dev_uring) k (chan s)).1) = [].
Proof.
  intros Hring Hrun. split.
  - rewrite (comm (++)). apply (io_run_accounted dev o _ (λ ret Hr, Hr) _ _ Hrun).
    unfold accounted. simpl. by rewrite Hring.
  - intros k. exact (poll_times_spec (D := Uring.bs_dev_uring) k (chan s)).
Qed.

(** A device over the image of [SnapshotChain], without snapshot. *)
Definition demo_uring : Uring.bs_dev_uring :=
  Uring.mkDev (mkBsDev 8 512) "image" EmptyString (λ _, 0) false 1 1 9.

Definition demo_uring_ch : Uring.bs_dev_uring_io_channel := Uring.mkCh 3 (-1) empty_ring.

Definition demo_ring : ring := mkRing [] [mkSqe 3 512 1024 10%nat] [].

(** A read that goes to the ring and fails there, and one past the end of the image. *)
Definition demo_reads : io_run_state Uring.bs_dev_uring_io_channel :=
  mkRun (Uring.put_ring (mkRing [] [] [mkCqe 10%nat (-5)]) demo_uring_ch) [11%nat; 10%nat] [(11%nat, 0)].

Lemma demo_reads_run :
  rtc (@io_step _ _ _ (@uring_ring_dev log2_util) demo_uring demo_os (λ ret, 0 <= ret))
    (mkRun demo_uring_ch [] []) demo_reads.
Proof.
  eapply rtc_l; [apply (io_read _ _ _ _ 1 2 1 10%nat (Uring.put_ring demo_ring demo_uring_ch) []); [done|vm_compute; reflexivity]|].
  eapply rtc_l; [apply (io_read _ _ _ _ 1 9 1 11%nat (Uring.put_ring demo_ring demo_uring_ch) [Complete 11%nat 0]); [done|vm_compute; reflexivity]|].
  apply rtc_once. simpl.
  exact (@io_kernel _ _ _ (@uring_ring_dev log2_util) demo_uring demo_os _
           (mkRun (Uring.put_ring demo_ring demo_uring_ch) [11%nat; 10%nat] [(11%nat, 0)])
           [] (mkSqe 3 512 1024 10%nat) [] (-5) eq_refl).
Qed.

Lemma uring_reads_answered_once_witness :
  (called demo_reads).*1 ++ owed (Uring.file_io_ring (chan demo_reads)) ≡ₚ asked demo_reads ∧
  (@poll_times _ _ _ (@uring_ring_dev log2_util) 1 (chan demo_reads)).2 = [(10%nat, - EIO)].
Proof.
  destruct (@uring_reads_answered_once log2_util demo_uring demo_uring_ch demo_os demo_reads eq_refl
              demo_reads_run) as [Ha Hp].
  split; [exact Ha|]. destruct (Hp 1%nat) as [Hc _]; [vm_compute; lia|exact Hc].
Defined.

(** C22. A read whose submission fails is answered twice. The error branch calls the
    callback with -EIO and leaves the prepared entry in the ring; the next read
    submits both entries, and when the kernel has finished them, with any results, the
    poller calls the callback of the failed read again, before that of the second. *)
Theorem uring_failed_submit_answers_twice `{SpdkUtil} (dev : Uring.bs_dev_uring) ch e
    lba n cb lba' n' cb' x x' r r' :
  Uring.file_io_ring ch = empty_ring → e < 0 →
  lba < blockcnt (Uring.base dev) → Uring.set_io_opts dev ch lba = Ret x →
  lba' < blockcnt (Uring.base dev) → Uring.set_io_opts dev ch lba' = Ret x' →
  ∃ ch1 ch2 q q' acts,
    Uring.bs_dev_uring_read dev ch e lba n cb = Ret (ch1, [Complete cb (- EIO)]) ∧
    Uring.bs_dev_uring_read dev ch1 2 lba' n' cb' = Ret (ch2, []) ∧
    Uring.file_io_ring ch2 = mkRing [] [q; q'] [] ∧
    (Uring.bs_dev_uring_poll None
       (Uring.put_ring (post_cqe [] q' [] r' (post_cqe [] q [q'] r (Uring.file_io_ring ch2))) ch2)).2 = acts ∧
    completions acts = [(cb, if r <? 0 then - EIO else 0); (cb', if r' <? 0 then - EIO else 0)].
Proof.
  intros Hring He Hl Hx Hl' Hx'. destruct x as [fd off], x' as [fd' off'].
  set (q := mkSqe fd (u32 (n * blocklen (Uring.base dev))) off cb).
  set (q' := mkSqe fd' (u32 (n' * blocklen (Uring.base dev))) off' cb').
  exists (Uring.put_ring (mkRing [q] [] []) ch), (Uring.put_ring (mkRing [] [q; q'] []) ch), q, q'.
  eexists. split; [|split; [|split; [done|split; [reflexivity|]]]].
  - unfold Uring.bs_dev_uring_read, Uring.queue_read, io_uring_submit.
    destruct (Z.leb_spec (blockcnt (Uring.base dev)) lba); [lia|]. rewrite Hx, Hring. simpl.
    destruct (Z.ltb_spec e 0); [done|lia].
  - unfold Uring.bs_dev_uring_read, Uring.queue_read.
    destruct (Z.leb_spec (blockcnt (Uring.base dev)) lba'); [lia|].
    change (Uring.set_io_opts dev (Uring.put_ring (mkRing [q] [] []) ch) lba')
      with (Uring.set_io_opts dev ch lba'). by rewrite Hx'.
  - simpl. by destruct (r <? 0), (r' <? 0).
Qed.

Lemma uring_failed_submit_answers_twice_witness :
  ∃ ch1 ch2 q q' acts,
    Uring.bs_dev_uring_read demo_uring demo_uring_ch (-11) 2 1 5%nat = Ret (ch1, [Complete 5%nat (- EIO)]) ∧
    Uring.bs_dev_uring_read demo_uring ch1 2 3 1 6%nat = Ret (ch2, []) ∧
    Uring.file_io_ring ch2 = mkRing [] [q; q'] [] ∧
    (Uring.bs_dev_uring_poll None
       (Uring.put_ring (post_cqe [] q' [] 512 (post_cqe [] q [q'] 512 (Uring.file_io_ring ch2))) ch2)).2 = acts ∧
    completions acts = [(5%nat, 0); (6%nat, 0)].
Proof.
  apply (@uring_failed_submit_answers_twice log2_util demo_uring demo_uring_ch (-11) 2 1 5%nat 3 1 6%nat
    (3, 1024) (3, 1536) 512 512); vm_compute; reflexivity.
Defined.

(** ** Addresses and ranges of the image device *)

(** C11. Address translation is exact. With blocks of [2^a] bytes and clusters of
    [2^b] blocks, [set_io_opts] sends a block to the image at its own byte offset
    when the cluster map has no entry for its cluster, and otherwise to the
    snapshot, at the cluster's offset plus the block's offset inside the cluster:
    the 32-bit cluster number and the 64-bit shifts lose nothing. *)
Theorem set_io_opts_exact `{SpdkUtil} dev ch a b lba :
  uring_geometry dev a b → 0 <= lba → lba `div` 2 ^ b < MAX_CLUSTERS → lba * 2 ^ a < U64_MOD →
  0 <= Uring.cluster_map dev (lba `div` 2 ^ b) →
  Uring.cluster_map dev (lba `div` 2 ^ b) + 2 ^ b * 2 ^ a <= U64_MOD →
  Uring.set_io_opts dev ch lba =
    Ret (let c := lba `div` 2 ^ b in
         if Uring.cluster_map dev c =? 0 then (Uring.image_file_fd ch, lba * 2 ^ a)
         else (Uring.snapshot_file_fd ch, Uring.cluster_map dev c + (lba `mod` 2 ^ b) * 2 ^ a)).
Proof. intros. by apply set_io_opts_spec. Qed.

Lemma demo_uring_geometry : uring_geometry demo_uring 9 1.
Proof. by split. Qed.

Lemma set_io_opts_exact_witness :
  Uring.set_io_opts demo_uring demo_uring_ch 5 = Ret (3, 2560).
Proof.
  apply (@set_io_opts_exact log2_util demo_uring demo_uring_ch 9 1 5 demo_uring_geometry);
    vm_compute; done.
Defined.

(** C12. What the image device answers to [is_range_valid], when block numbers do
    not overflow: a range is valid exactly if it lies within the image, or starts
    past the image's end in a cluster the snapshot has. *)
Theorem uring_is_range_valid_iff `{SpdkUtil} dev a b lba n :
  uring_geometry dev a b → 0 <= lba → 0 <= n → lba + n < U64_MOD → lba `div` 2 ^ b < MAX_CLUSTERS →
  ∃ v, Uring.bs_dev_uring_is_range_valid dev lba n = Ret v ∧
       Uring.bs_dev_uring_is_zeroes dev lba n = Ret (negb v) ∧
       (v = true ↔
         (lba < blockcnt (Uring.base dev) ∧ lba + n <= blockcnt (Uring.base dev)) ∨
         (blockcnt (Uring.base dev) <= lba ∧ Uring.cluster_map dev (lba `div` 2 ^ b) ≠ 0)).
Proof.
  intros [Ha Hb Hbl Hsh Had Hmk] Hlba Hn Hw Hc.
  unfold Uring.bs_dev_uring_is_zeroes, Uring.bs_dev_uring_is_range_valid.
  rewrite Hsh, shiftr_pow2, u64_small by lia.
  destruct (Z.leb_spec (blockcnt (Uring.base dev)) lba).
  - destruct (Z.ltb_spec (lba `div` 2 ^ b) MAX_CLUSTERS); [|lia]. simpl.
    destruct (Z.eqb_spec (Uring.cluster_map dev (lba `div` 2 ^ b)) 0); simpl;
      eexists; (split; [done|]); (split; [done|]); intuition (done || lia).
  - destruct (Z.ltb_spec (blockcnt (Uring.base dev)) (lba + n)); simpl;
      eexists; (split; [done|]); (split; [done|]); intuition (done || lia).
Qed.

Lemma uring_is_range_valid_iff_witness :
  ∃ v, Uring.bs_dev_uring_is_range_valid demo_uring 6 2 = Ret v ∧
       Uring.bs_dev_uring_is_zeroes demo_uring 6 2 = Ret (negb v) ∧
       (v = true ↔ (6 < 8 ∧ 6 + 2 <= 8) ∨ (8 <= 6 ∧ Uring.cluster_map demo_uring (6 `div` 2 ^ 1) ≠ 0)).
Proof.
  apply (@uring_is_range_valid_iff log2_util demo_uring 9 1 6 2 demo_uring_geometry);
    vm_compute; done.
Defined.

(** C21. Snapshot data past the end of the image is reported and never read. For a
    block at or past the image's end whose cluster the snapshot has, the device
    says the range is valid and not zero; yet a read of it submits nothing,
    completes with 0 and so leaves the caller's buffer as it was. *)
Theorem uring_read_past_image_skips_snapshot `{SpdkUtil} dev ch a b ret lba n cb :
  uring_geometry dev a b → 0 <= lba → lba `div` 2 ^ b < MAX_CLUSTERS →
  blockcnt (Uring.base dev) <= lba → Uring.cluster_map dev (lba `div` 2 ^ b) ≠ 0 →
  Uring.bs_dev_uring_is_zeroes dev lba n = Ret false ∧
  Uring.bs_dev_uring_read dev ch ret lba n cb = Ret (ch, [Complete cb 0]).
Proof.
  intros [Ha Hb Hbl Hsh Had Hmk] Hlba Hc Hend Hmap.
  unfold Uring.bs_dev_uring_is_zeroes, Uring.bs_dev_uring_is_range_valid, Uring.bs_dev_uring_read.
  rewrite Hsh, shiftr_pow2 by lia.
  destruct (Z.leb_spec (blockcnt (Uring.base dev)) lba); [|lia].
  destruct (Z.ltb_spec (lba `div` 2 ^ b) MAX_CLUSTERS); [|lia]. simpl.
  by destruct (Z.eqb_spec (Uring.cluster_map dev (lba `div` 2 ^ b)) 0).
Qed.

(** The same device with a snapshot that has cluster 4 (blocks 8 and 9). *)
Definition demo_uring_snap : Uring.bs_dev_uring :=
  Uring.mkDev (mkBsDev 8 512) "image" "snap" (store (λ _, 0) 4 MAP_BYTES) false 1 1 9.

Lemma uring_read_past_image_skips_snapshot_witness :
  Uring.bs_dev_uring_is_zeroes demo_uring_snap 8 1 = Ret false ∧
  Uring.bs_dev_uring_read demo_uring_snap demo_uring_ch 1 8 1 7%nat
    = Ret (demo_uring_ch, [Complete 7%nat 0]).
Proof.
  apply (@uring_read_past_image_skips_snapshot log2_util demo_uring_snap demo_uring_ch 9 1 1 8 1 7%nat);
    [by split|vm_compute; done..].
Defined.

(** ** Descriptors *)

(** C40. A channel of the image device over a snapshot leaks a descriptor: creating
    it opens the image and the snapshot, destroying it closes the image only. *)
Theorem uring_channel_leaks_snapshot_fd (dev : Uring.bs_dev_uring) o img sf :
  healthy o → os_fds o !! os_next_fd o = None →
  os_files o !! Uring.filename dev = Some img →
  os_files o !! Uring.snapshot_path dev = Some sf → Uring.snapshot_path dev ≠ EmptyString →
  ∃ ch o1 acts, Uring.bs_dev_uring_create_channel_cb dev 0 o = (0, ch, o1, acts) ∧
    let o2 := (Uring.bs_dev_uring_destroy_channel_cb ch o1).1 in
    os_fds o2 = <[Uring.snapshot_file_fd ch :=
                    mkOfd (Uring.snapshot_path dev) 0 (Uring.open_flags dev)]> (os_fds o).
Proof.
  intros Ho Hfree Hf Hsf Hp. unfold Uring.bs_dev_uring_create_channel_cb.
  destruct (sys_open_ok (Uring.filename dev) (Uring.open_flags dev) o img Ho Hf
              (open_flags_no_trunc dev)) as (o1 & -> & Ho1 & _ & Hfs1 & Hnx1 & Hfd1).
  destruct (Z.ltb_spec (os_next_fd o) 0); [destruct Ho; lia|].
  destruct (String.eqb_spec (Uring.snapshot_path dev) EmptyString); [done|]. simpl negb. cbv iota.
  destruct (sys_open_ok (Uring.snapshot_path dev) (Uring.open_flags dev) o1 sf Ho1)
    as (o2 & -> & Ho2 & _ & Hfs2 & Hnx2 & Hfd2); [by rewrite Hfs1|apply open_flags_no_trunc|].
  destruct (Z.ltb_spec (os_next_fd o1) 0); [destruct Ho1; lia|]. simpl.
  do 3 eexists. split; [done|]. unfold Uring.bs_dev_uring_destroy_channel_cb. simpl.
  destruct (sys_close_ok (os_next_fd o) o2 (mkOfd (Uring.filename dev) 0 (Uring.open_flags dev)))
    as (o3 & -> & _ & _ & Hfd3); [done| |].
  - rewrite Hfd2, Hfd1, lookup_insert_ne, lookup_insert_eq by lia. done.
  - simpl. rewrite Hfd3, Hfd2, Hfd1, delete_insert_ne, delete_insert_id by (done || lia). done.
Qed.

Definition demo_os_snap : os :=
  mkOs (<["snap"%string := empty_file]> {["image"%string := demo_image]}) ∅ 3 0 (λ _, NoFault) 0.

Lemma uring_channel_leaks_snapshot_fd_witness :
  ∃ ch o1 acts, Uring.bs_dev_uring_create_channel_cb demo_uring_snap 0 demo_os_snap
                  = (0, ch, o1, acts) ∧
    os_fds (Uring.bs_dev_uring_destroy_channel_cb ch o1).1 ≠ os_fds demo_os_snap.
Proof.
  destruct (uring_channel_leaks_snapshot_fd demo_uring_snap demo_os_snap demo_image empty_file)
    as (ch & o1 & acts & Hc & Hfd).
  - by split.
  - done.
  - simpl. by rewrite lookup_insert_ne, lookup_singleton_eq.
  - simpl. by rewrite lookup_insert_eq.
  - done.
  - exists ch, o1, acts. split; [exact Hc|]. rewrite Hfd. apply insert_non_empty.
Defined.

(** ** Bounds of the delta device *)

(** C17. When a cluster-aligned write of at most [INT_MAX] bytes to a delta channel
    in good order is defined: exactly if its cluster is one of the [MAX_CLUSTERS]
    the map has room for. The code itself does not check, so a device with more
    clusters makes it write past the map. *)
Theorem delta_write_defined_iff fs dev ch o d f dl lba n payload cb :
  writer fs dev ch o d f dl → 0 < Delta.cluster_size dev → 0 <= lba → lba `mod` Delta.cluster_size dev = 0 →
  0 <= blocklen (Delta.base dev) * n <= INT_MAX →
  (∃ r, Delta.bs_dev_delta_write dev ch o payload lba n cb = Ret r) ↔
  lba `div` Delta.cluster_size dev < MAX_CLUSTERS.
Proof.
  intros [Hnf Hfd Hpa Hw Hpos Hmax Hfr Hpl] Hcs Hlba Hal Hsz. unfold Delta.bs_dev_delta_write.
  destruct (sys_lseek_ok _ 0 SEEK_CUR o d f Hnf Hfd) as (o1 & -> & _); [clia|].
  rewrite Z.add_0_r. destruct (Z.ltb_spec (ofd_pos d) 0); [clia|].
  destruct (Z.eqb_spec (Delta.cluster_size dev) 0); [lia|]. rewrite Hal. simpl.
  destruct (Z.ltb_spec (lba `div` Delta.cluster_size dev) MAX_CLUSTERS); simpl.
  - rewrite u32_small by clia.
    destruct (all_zero_scan_ret payload (Z.to_nat (blocklen (Delta.base dev) * n)) 0)
      as (z & -> & _); [lia|clia|]. simpl.
    destruct (sys_write _ _ _ _) as [ret o2]. split; [done|]. intros _.
    destruct (i32 ret <? 0); by eexists.
  - split; [by intros [r Hr]|lia].
Qed.

(** A channel as it is after creation, over a device of 1024-byte clusters. *)
Definition demo_delta : Delta.bs_dev_delta :=
  Delta.mkDev (mkBsDev 8 512) "snap" Delta.BS_DEV_DELTA_WRITE false 2.

Lemma delta_write_defined_iff_witness :
  ∃ ch o, (∃ r, Delta.bs_dev_delta_write demo_delta ch o (λ _, 7) 4 2 1%nat = Ret r) ↔
          4 `div` 2 < MAX_CLUSTERS.
Proof.
  destruct (delta_create_channel_ok demo_delta demo_ch demo_os eq_refl demo_healthy demo_size)
    as (ch & o & d & f & _ & Hw & _).
  exists ch, o. apply (delta_write_defined_iff (os_files demo_os) demo_delta ch o d f ∅); try done.
Defined.
