(* ===== verification/DdState.v ===== *)
(** * spdk_dd: data and environment ([src/app/spdk_dd.c])

    [spdk_dd] copies between files and block devices with a fixed set of
    [queue_depth] I/O slots that run concurrently: a slot reads a chunk of the
    input, writes it to the output, and takes the next chunk, until the input is
    used up. This file has the structures of the C file, the global state [g_opts],
    [g_job], [g_error], [g_interrupt], and what the program interacts with:

    - [pending], the operations handed to the kernel or to SPDK and not yet
      reported back, at most one per slot, each with its result once performed;
    - [in_data], [out_data] and [bufs], the bytes of the two targets and of the
      slots' buffers (when the two targets are one file or device, the first two are
      kept equal);
    - [events], what the program did to the outside, newest first;
    - [DdEnv], the answers of calls outside the repository, each an arbitrary
      function of the state (an adversary that knows the whole history). *)

From S2P Require Import Prelude Posix.
#[local] Open Scope Z_scope.

Inductive dd_submit_type := DD_POPULATE | DD_READ | DD_WRITE.

Inductive dd_target_type := DD_TARGET_TYPE_FILE | DD_TARGET_TYPE_BDEV.

#[export] Instance dd_submit_type_eq_dec : EqDecision dd_submit_type.
Proof. solve_decision. Defined.
#[export] Instance dd_target_type_eq_dec : EqDecision dd_target_type.
Proof. solve_decision. Defined.

(** [struct spdk_dd_opts]; a [NULL] string is [None]. *)
Record spdk_dd_opts := mkOpts {
  input_file : option string;
  output_file : option string;
  input_file_flags : option string;
  output_file_flags : option string;
  input_bdev : option string;
  output_bdev : option string;
  input_offset : Z;      (* uint64_t *)
  output_offset : Z;     (* uint64_t *)
  io_unit_size : Z;      (* int64_t *)
  io_unit_count : Z;     (* int64_t *)
  queue_depth : Z;       (* uint32_t *)
  aio : bool;
  sparse : bool;
}.

(** [struct dd_io]: a slot. Its buffer is [bufs] at its index. *)
Record dd_io := mkIo { io_offset : Z; io_length : Z; io_type : dd_submit_type }.

(** [struct dd_target]. [t_fd] is the descriptor of a file, and [t_append] what the
    kernel keeps with it: whether it was opened with [O_APPEND]. [t_ch] is whether a
    block device's channel was obtained. *)
Record dd_target := mkTarget {
  t_type : dd_target_type;
  t_fd : Z;
  t_ch : bool;
  block_size : Z;        (* uint32_t *)
  pos : Z;               (* uint64_t *)
  total_size : Z;        (* uint64_t *)
  t_open : bool;
  t_append : bool;
}.

(** [struct dd_job]. *)
Record dd_job := mkJob {
  input : dd_target;
  output : dd_target;
  ios : list dd_io;
  outstanding : Z;       (* uint32_t *)
  copy_size : Z;         (* uint64_t *)
  seek_queue : list nat;
  total_bytes : Z;       (* uint64_t *)
  incremental_bytes : Z; (* uint64_t *)
  uring_active : bool;   (* u.uring.active *)
  ios_alloc : bool;      (* ios != NULL *)
}.

#[export] Instance eta_io : Eta dd_io := λ r, mkIo (io_offset r) (io_length r) (io_type r).
#[export] Instance eta_opts : Eta spdk_dd_opts := λ r,
  mkOpts (input_file r) (output_file r) (input_file_flags r) (output_file_flags r)
    (input_bdev r) (output_bdev r) (input_offset r) (output_offset r) (io_unit_size r)
    (io_unit_count r) (queue_depth r) (aio r) (sparse r).
#[export] Instance eta_target : Eta dd_target := λ r,
  mkTarget (t_type r) (t_fd r) (t_ch r) (block_size r) (pos r) (total_size r) (t_open r) (t_append r).
#[export] Instance eta_job : Eta dd_job := λ r,
  mkJob (input r) (output r) (ios r) (outstanding r) (copy_size r) (seek_queue r)
    (total_bytes r) (incremental_bytes r) (uring_active r) (ios_alloc r).

#[export] Instance dd_io_inhabited : Inhabited dd_io := populate (mkIo 0 0 DD_POPULATE).

(** ** In-flight operations *)

Inductive op_kind :=
| OpIo (ty : dd_submit_type)
| OpSeekData
| OpSeekHole.

(** [op_res] is [Some r] once the kernel or SPDK has performed the operation: the
    bytes transferred or a negated [errno], or the offset a seek found. *)
Record op := mkOp { op_kind_of : op_kind; op_len : Z; op_off : Z; op_res : option Z }.

#[export] Instance eta_op : Eta op := λ r, mkOp (op_kind_of r) (op_len r) (op_off r) (op_res r).

Inductive dd_event :=
| EvClose (fd : Z)
| EvPutChannel (is_input : bool)
| EvBdevClose (is_input : bool)
| EvPollerUnregister (status : bool)
| EvStop (rc : Z)                      (* spdk_app_stop(rc) *)
| EvShow (shown copied unit_index speed speed_index : Z)
| EvTruncate (size : Z)
| EvFreeIo
| EvOpen (fname : string) (flags : Z)
| EvRingInit (entries flags : Z)
| EvRegisterFiles (fds : list Z)
| EvRegisterBuffers (count len : Z)
| EvIoSetup (count : Z)
| EvPollerRegister (status : bool)
| EvFreeOpts
| EvUnregisterFiles
| EvRingExit
| EvIoDestroy
| EvFreeBuf (slot : nat)
| EvFreeIos
| EvAssertFail.

Record dd_state := mkSt {
  g_opts : spdk_dd_opts;
  g_job : dd_job;
  g_error : Z;
  g_interrupt : bool;
  pending : gmap nat op;
  bufs : nat → bytes;
  in_data : bytes;
  out_data : bytes;
  events : list dd_event;
}.

#[export] Instance eta_st : Eta dd_state := λ r,
  mkSt (g_opts r) (g_job r) (g_error r) (g_interrupt r) (pending r) (bufs r) (in_data r)
    (out_data r) (events r).

(** ** The environment *)

Class DdEnv := {
  config_uring : bool;               (* SPDK_CONFIG_URING *)
  bdev_rc : dd_state → Z;            (* spdk_bdev_read/write/seek_data/seek_hole *)
  io_submit_ret : dd_state → Z;      (* io_submit *)
  env_errno : dd_state → Z;          (* errno after a failed call *)
  lseek_data : dd_state → Z;         (* lseek(input, pos, SEEK_DATA) *)
  lseek_hole : dd_state → Z;         (* lseek(input, pos, SEEK_HOLE) *)
  lseek_end : dd_state → Z;          (* lseek(output, 0, SEEK_END) *)
  ftruncate_rc : dd_state → Z;       (* ftruncate(output, size) *)
  elapsed_ms : dd_state → Z;         (* time_now - start_time in milliseconds *)
  same_target : bool;                (* the input and the output are one file or device *)
  append_off : dd_state → Z;         (* where a write to a file opened with O_APPEND lands *)
}.

(** ** Small state operations *)

Definition emit (e : dd_event) (st : dd_state) : dd_state := st <| events ::= cons e |>.

Definition get_io (st : dd_state) (i : nat) : dd_io := ios (g_job st) !!! i.

Definition set_io (i : nat) (f : dd_io → dd_io) (st : dd_state) : dd_state :=
  st <| g_job ::= λ j, j <| ios ::= alter f i |> |>.

Definition upd_job (f : dd_job → dd_job) (st : dd_state) : dd_state := st <| g_job ::= f |>.

Definition dd_assert (b : bool) (st : dd_state) : dd_state :=
  if b then st else emit EvAssertFail st.

Definition inc_outstanding (st : dd_state) : dd_state :=
  upd_job (λ j, j <| outstanding := u32 (outstanding j + 1) |>) st.

(** [assert(g_job.outstanding > 0); g_job.outstanding--;] *)
Definition dec_outstanding (st : dd_state) : dd_state :=
  let st := dd_assert (0 <? outstanding (g_job st)) st in
  upd_job (λ j, j <| outstanding := u32 (outstanding j - 1) |>) st.

Definition add_pending (i : nat) (o : op) (st : dd_state) : dd_state :=
  st <| pending ::= <[i := o]> |>.

(** The output has new contents; they are also the input's when the two are one. *)
Definition put_output `{DdEnv} (d : bytes) (st : dd_state) : dd_state :=
  st <| out_data := d |> <| in_data := if same_target then d else in_data st |>.

(** Whether file I/O goes through io_uring ([SPDK_CONFIG_URING] and no [--aio]). *)
Definition uring_mode `{DdEnv} (st : dd_state) : bool := config_uring && negb (aio (g_opts st)).

(** [SPDK_CEIL_DIV(len, bs) * bs] in [uint64_t]. *)
Definition round_up (len bs : Z) : Z := u64 ((u64 (len + bs - 1) `div` bs) * bs).

(** Where the program has stopped: the codes given to [spdk_app_stop], newest first. *)
Fixpoint stops (es : list dd_event) : list Z :=
  match es with
  | [] => []
  | EvStop rc :: es => rc :: stops es
  | _ :: es => stops es
  end.

Fixpoint assert_failed (es : list dd_event) : bool :=
  match es with
  | [] => false
  | EvAssertFail :: _ => true
  | _ :: es => assert_failed es
  end.
