(* ===== verification/DdEngine.v ===== *)
(** * spdk_dd: the copy engine ([src/app/spdk_dd.c], lines 151 to 818)

    Every function that moves a slot forward, in the order of the C file:
    termination ([dd_exit], [dd_finalize_output]), progress display, the three
    stages of a slot ([dd_target_populate_buffer], [dd_target_read],
    [dd_target_write]), hole skipping for sparse input ([dd_target_seek] and the
    seek callbacks), and the completion handlers of the three I/O back ends (block
    device callbacks, io_uring, Linux AIO). No function calls back into an earlier
    stage directly, so they are plain definitions; the loop is closed by the
    environment, which completes operations (see [DdSteps]). *)

From S2P Require Import Prelude Posix DdState.
#[local] Open Scope Z_scope.

Section Engine.
Context `{DdEnv}.

(** ** Leaving *)

Definition dd_cleanup_bdev (is_input : bool) (t : dd_target) (st : dd_state) : dd_state :=
  let st := if t_ch t then emit (EvPutChannel is_input) st else st in
  emit (EvBdevClose is_input) st.

Definition is_file (t : dd_target) : bool := bool_decide (t_type t = DD_TARGET_TYPE_FILE).

Definition dd_exit_target (is_input : bool) (t : dd_target) (st : dd_state) : dd_state :=
  if is_file t then emit (EvClose (t_fd t)) st
  else if t_open t then dd_cleanup_bdev is_input t st
  else st.

Definition dd_exit (rc : Z) (st : dd_state) : dd_state :=
  let st := dd_exit_target true (input (g_job st)) st in
  let st := dd_exit_target false (output (g_job st)) st in
  let st := if is_file (input (g_job st)) || is_file (output (g_job st))
            then emit (EvPollerUnregister false) st else st in
  let st := emit (EvPollerUnregister true) st in
  emit (EvStop rc) st.

(** ** Progress *)

(** [while (tmp > 1024 * 10) { tmp >>= 10; unit <<= 10; ++i; if (i == 4) break; }]
    The loop leaves at [i = 4] at the latest, so four rounds are enough. *)
Fixpoint unit_loop (rounds : nat) (tmp unit i : Z) : Z * Z :=
  match rounds with
  | O => (unit, i)
  | S rounds =>
      if 1024 * 10 <? tmp then
        let tmp := Z.shiftr tmp 10 in
        let unit := u64 (Z.shiftl unit 10) in
        let i := i + 1 in
        if i =? 4 then (unit, i) else unit_loop rounds tmp unit i
      else (unit, i)
  end.

Definition find_unit (size : Z) : Z * Z := unit_loop 4 size 1 0.

Definition STATUS_POLLER_PERIOD_SEC : Z := 1.

Definition dd_show_progress (finish : bool) (st : dd_state) : dd_state :=
  let size := incremental_bytes (g_job st) in
  let st := upd_job (λ j, j <| incremental_bytes := 0 |>
                            <| total_bytes := u64 (total_bytes j + size) |>) st in
  let '(milliseconds, size) :=
    if finish then (Z.max 1 (elapsed_ms st), total_bytes (g_job st))
    else (STATUS_POLLER_PERIOD_SEC * 1000, size) in
  let '(size_unit, i) := find_unit size in
  let speed := u64 (size * 1000) `div` milliseconds in
  let '(speed_unit, k) := find_unit speed in
  emit (EvShow (total_bytes (g_job st) `div` size_unit) (copy_size (g_job st) `div` size_unit) i
          (speed `div` speed_unit) k) st.

Definition dd_status_poller (st : dd_state) : Z * dd_state := (1, dd_show_progress false st).

(** [if (g_error == 0) { dd_show_progress(true); printf(...); } dd_exit(g_error);] *)
Definition show_and_exit (st : dd_state) : dd_state :=
  let st := if g_error st =? 0 then dd_show_progress true st else st in
  dd_exit (g_error st) st.

Definition stopping (st : dd_state) : bool := negb (g_error st =? 0) || g_interrupt st.

Definition idle (st : dd_state) : bool := outstanding (g_job st) =? 0.

Definition dd_finalize_output (st : dd_state) : dd_state :=
  if 0 <? outstanding (g_job st) then st
  else
    let st :=
      match output_file (g_opts st) with
      | None => st
      | Some _ =>
          let curr_offset := lseek_end st in
          let want := u64 (copy_size (g_job st) + pos (output (g_job st))) in
          if curr_offset =? -1 then st <| g_error := env_errno st |>
          else if u64 curr_offset <? want then
            let rc := ftruncate_rc st in
            let st := emit (EvTruncate want) st in
            if negb (rc =? 0) then st <| g_error := env_errno st |> else st
          else st
      end in
    show_and_exit st.

(** ** Submitting *)

(** The submission each stage contains: io_uring, Linux AIO or a block-device call.
    The result is the [rc] the stage tests; an operation the back end accepted is
    pending afterwards. *)
Definition submit_io (t : dd_target) (i : nat) (ty : dd_submit_type) (len off : Z) (st : dd_state)
  : Z * dd_state :=
  let accepted := add_pending i (mkOp (OpIo ty) len off None) st in
  match t_type t with
  | DD_TARGET_TYPE_FILE =>
      if uring_mode st then (0, accepted)                       (* dd_uring_submit *)
      else if io_submit_ret st <? 0 then (- env_errno st, st)
      else (0, accepted)
  | DD_TARGET_TYPE_BDEV =>
      let rc := bdev_rc st in
      (rc, if rc =? 0 then accepted else st)
  end.

(** [if (rc != 0) { ...; outstanding--; g_error = rc; if (outstanding == 0) dd_exit(rc); }] *)
Definition check_submit (r : Z * dd_state) : dd_state :=
  let '(rc, st) := r in
  if negb (rc =? 0) then
    let st := dec_outstanding st in
    let st := st <| g_error := rc |> in
    if idle st then dd_exit rc st else st
  else st.

(** ** The stages of a slot *)

Definition dd_target_write (i : nat) (st : dd_state) : dd_state :=
  let target := output (g_job st) in
  let io := get_io st i in
  let length := round_up (io_length io) (block_size target) in
  let read_region_start := u64 (input_offset (g_opts st) * io_unit_size (g_opts st)) in
  let read_offset := u64 (io_offset io - read_region_start) in
  let write_region_start := u64 (output_offset (g_opts st) * io_unit_size (g_opts st)) in
  let write_offset := u64 (write_region_start + read_offset) in
  if stopping st then
    if idle st then show_and_exit st else st
  else
    let st := upd_job (λ j, j <| incremental_bytes := u64 (incremental_bytes j + io_length io) |>) st in
    let st := inc_outstanding st in
    let st := set_io i (λ io, io <| io_type := DD_WRITE |>) st in
    check_submit (submit_io target i DD_WRITE length write_offset st).

Definition dd_target_read (i : nat) (st : dd_state) : dd_state :=
  let target := input (g_job st) in
  if stopping st then
    if idle st then dd_exit (g_error st) st else st
  else
    let st := inc_outstanding st in
    let st := set_io i (λ io, io <| io_type := DD_READ |>) st in
    let io := get_io st i in
    check_submit (submit_io target i DD_READ (io_length io) (io_offset io) st).

Definition dd_target_populate_buffer (i : nat) (st : dd_state) : dd_state :=
  let target := output (g_job st) in
  let read_region_start := u64 (input_offset (g_opts st) * io_unit_size (g_opts st)) in
  let read_offset := u64 (pos (input (g_job st)) - read_region_start) in
  let write_region_start := u64 (output_offset (g_opts st) * io_unit_size (g_opts st)) in
  let write_offset := u64 (write_region_start + read_offset) in
  let st := set_io i (λ io, io <| io_offset := pos (input (g_job st)) |>
              <| io_length := Z.min (io_length io) (u64 (copy_size (g_job st) - read_offset)) |>) st in
  let io := get_io st i in
  if (io_length io =? 0) || stopping st then
    if idle st then show_and_exit st else st
  else
    let st := upd_job (λ j, j <| input ::= λ t, t <| pos := u64 (pos t + io_length io) |> |>) st in
    if io_length io `mod` block_size target =? 0 then dd_target_read i st
    else
      let st := inc_outstanding st in
      let st := set_io i (λ io, io <| io_type := DD_POPULATE |>) st in
      let length := round_up (io_length io) (block_size target) in
      check_submit (submit_io target i DD_POPULATE length write_offset st).

(** ** Sparse input *)

(** The offset of the next data of an input file, or -1 (the handling of which is
    part of the function). *)
Definition dd_file_seek_data (st : dd_state) : Z * dd_state :=
  let next := lseek_data st in
  if next =? -1 then
    if env_errno st =? ENXIO then (next, dd_finalize_output st)
    else if idle st then
      let st := st <| g_error := env_errno st |> in (next, dd_exit (g_error st) st)
    else (next, st)
  else (next, st).

Definition dd_file_seek_hole (st : dd_state) : Z * dd_state :=
  let next := lseek_hole st in
  if (next =? -1) && idle st then
    let st := st <| g_error := env_errno st |> in (next, dd_exit (g_error st) st)
  else (next, st).

(** Hand a seek of a block-device input to SPDK. *)
Definition submit_seek (k : op_kind) (i : nat) (st : dd_state) : Z * dd_state :=
  let off := pos (input (g_job st)) `div` block_size (input (g_job st)) in
  let rc := bdev_rc st in
  (rc, if rc =? 0 then add_pending i (mkOp k 0 off None) st else st).

Definition pop_seek_queue (st : dd_state) : dd_state := upd_job (λ j, j <| seek_queue ::= tail |>) st.

(** [_dd_bdev_seek_data_done]; [found] is [spdk_bdev_io_get_seek_offset(bdev_io)]. *)
Definition dd_bdev_seek_data_done (i : nat) (found : Z) (st : dd_state) : dd_state :=
  if stopping st then
    let st := pop_seek_queue st in
    if idle st then show_and_exit st else st
  else
    let st := dec_outstanding st in
    let st := emit EvFreeIo st in
    if found =? UINT64_MAX then dd_finalize_output (pop_seek_queue st)
    else
      let st := upd_job (λ j, j <| input ::= λ t, t <| pos := u64 (found * block_size t) |> |>) st in
      let st := inc_outstanding st in
      let '(rc, st) := submit_seek OpSeekHole i st in
      if negb (rc =? 0) then check_submit (rc, pop_seek_queue st) else st.

(** [_dd_bdev_seek_hole_done]. *)
Definition dd_bdev_seek_hole_done (i : nat) (found : Z) (st : dd_state) : dd_state :=
  let st := pop_seek_queue st in
  if stopping st then
    if idle st then show_and_exit st else st
  else
    let st := dec_outstanding st in
    let st := emit EvFreeIo st in
    let unit := io_unit_size (g_opts st) in
    let bs := block_size (input (g_job st)) in
    let p := pos (input (g_job st)) in
    let st := set_io i (λ io, io <| io_length :=
                if found =? UINT64_MAX then u64 unit
                else Z.min (u64 unit) (u64 (u64 (found * bs) - p)) |>) st in
    let st := dd_target_populate_buffer i st in
    match seek_queue (g_job st) with
    | [] => st
    | seek_io :: _ =>
        if pos (input (g_job st)) <? total_size (input (g_job st)) then
          check_submit (submit_seek OpSeekData seek_io (inc_outstanding st))
        else st
    end.

Definition dd_target_seek (i : nat) (st : dd_state) : dd_state :=
  let target := input (g_job st) in
  let read_region_start := u64 (input_offset (g_opts st) * io_unit_size (g_opts st)) in
  let read_offset := u64 (pos target - read_region_start) in
  if negb (sparse (g_opts st)) then dd_target_populate_buffer i st
  else if (u64 (copy_size (g_job st) - read_offset) =? 0) || stopping st then
    if idle st then show_and_exit st else st
  else
    match t_type target with
    | DD_TARGET_TYPE_FILE =>
        let '(data, st) := dd_file_seek_data st in
        if data <? 0 then st
        else
          let st := if pos (input (g_job st)) <? data
                    then upd_job (λ j, j <| input ::= λ t, t <| pos := data |> |>) st else st in
          let '(hole, st) := dd_file_seek_hole st in
          if hole <? 0 then st
          else
            let p := pos (input (g_job st)) in
            let unit := u64 (io_unit_size (g_opts st)) in
            let st := set_io i (λ io, io <| io_length :=
                        if p <? hole then Z.min unit (u64 (hole - p)) else unit |>) st in
            dd_target_populate_buffer i st
    | DD_TARGET_TYPE_BDEV =>
        let '(rc, st) :=
          match seek_queue (g_job st) with
          | [] => submit_seek OpSeekData i (inc_outstanding st)
          | _ => (0, st)
          end in
        let st := upd_job (λ j, j <| seek_queue ::= λ q, q ++ [i] |>) st in
        check_submit (rc, st)
    end.

(** ** Completions *)

(** Block-device callbacks: [success] is a parameter of the C functions. *)
Definition dd_write_bdev_done (i : nat) (success : bool) (st : dd_state) : dd_state :=
  dd_target_seek i (emit EvFreeIo (dec_outstanding st)).

Definition dd_read_bdev_done (i : nat) (success : bool) (st : dd_state) : dd_state :=
  dd_target_write i (dec_outstanding (emit EvFreeIo st)).

Definition dd_target_populate_buffer_done (i : nat) (success : bool) (st : dd_state) : dd_state :=
  dd_target_read i (emit EvFreeIo (dec_outstanding st)).

Definition dd_complete_poll (i : nat) (st : dd_state) : dd_state :=
  let st := dec_outstanding st in
  match io_type (get_io st i) with
  | DD_POPULATE => dd_target_read i st
  | DD_READ => dd_target_write i st
  | DD_WRITE => dd_target_seek i st
  end.

(** One round of [dd_uring_poll]: the answer of [io_uring_peek_cqe] is an error or
    a completion, given as its slot and result. A completion is taken off the ring
    unless its result is -EAGAIN. *)
Definition dd_uring_round (peek : Z + nat * Z) (st : dd_state) : dd_state :=
  match peek with
  | inl rc => if rc =? - EAGAIN then st else st <| g_error := rc |>
  | inr (i, cres) =>
      if cres =? - EAGAIN then st
      else
        let st := if cres <? 0 then st <| g_error := cres |> else st in
        dd_complete_poll i (st <| pending ::= delete i |>)
  end.

Definition dd_uring_poll (peeks : list (Z + nat * Z)) (st : dd_state) : dd_state :=
  fold_left (λ st p, dd_uring_round p st) (take (Z.to_nat (queue_depth (g_opts st))) peeks) st.

(** One event of [dd_aio_poll]: its slot and result. *)
Definition dd_aio_event (ev : nat * Z) (st : dd_state) : dd_state :=
  let '(i, eres) := ev in
  let st := if negb (u64 eres =? io_length (get_io st i)) then st <| g_error := - ENOSPC |> else st in
  dd_complete_poll i (st <| pending ::= delete i |>).

Definition dd_aio_poll (events : Z + list (nat * Z)) (st : dd_state) : Z * dd_state :=
  match events with
  | inl rc => (rc, dd_exit rc st)
  | inr evs => (Z.of_nat (length evs), fold_left (λ st e, dd_aio_event e st) (take 32 evs) st)
  end.

(** [dd_finish], the shutdown callback. *)
Definition dd_finish (st : dd_state) : dd_state := st <| g_interrupt := true |>.

End Engine.
