(* ===== verification/DdSteps.v ===== *)
(** * spdk_dd: executions

    The engine runs in an environment that performs and reports the pending
    operations in any order. [dd_step] is one move of the two together: the kernel
    or SPDK performs an operation (with any result), a completion is delivered to
    the handler of its back end, a poller fires, or the user interrupts. *)

From S2P Require Import Prelude Posix DdState DdEngine.
#[local] Open Scope Z_scope.

Section Steps.
Context `{DdEnv}.

(** The target an I/O of a slot goes to. *)
Definition target_of (st : dd_state) (ty : dd_submit_type) : dd_target :=
  match ty with DD_READ => input (g_job st) | _ => output (g_job st) end.

Definition set_buf (i : nat) (b : bytes) (st : dd_state) : dd_state :=
  st <| bufs ::= λ f k, if Nat.eqb k i then b else f k |>.

(** Where a write of the output lands: at its offset, or at the end of a file opened
    with [O_APPEND], which the kernel does not position. *)
Definition write_at (off : Z) (st : dd_state) : Z :=
  if t_append (output (g_job st)) then append_off st else off.

(** The environment performs operation [o] of slot [i] with result [r]: a transfer
    moves [r] bytes, a failure (negative [r]) none. *)
Definition perform (i : nat) (o : op) (r : Z) (st : dd_state) : dd_state :=
  let n := Z.max 0 r in
  let st := add_pending i (o <| op_res := Some r |>) st in
  match op_kind_of o with
  | OpIo DD_READ => set_buf i (blit (bufs st i) 0 n (slice (in_data st) (op_off o))) st
  | OpIo DD_POPULATE => set_buf i (blit (bufs st i) 0 n (slice (out_data st) (op_off o))) st
  | OpIo DD_WRITE => put_output (blit (out_data st) (write_at (op_off o) st) n (bufs st i)) st
  | _ => st
  end.

(** Delivery of a block-device completion. *)
Definition deliver_bdev (i : nat) (k : op_kind) (r : Z) (st : dd_state) : dd_state :=
  let st := st <| pending ::= delete i |> in
  match k with
  | OpIo DD_POPULATE => dd_target_populate_buffer_done i (0 <=? r) st
  | OpIo DD_READ => dd_read_bdev_done i (0 <=? r) st
  | OpIo DD_WRITE => dd_write_bdev_done i (0 <=? r) st
  | OpSeekData => dd_bdev_seek_data_done i r st
  | OpSeekHole => dd_bdev_seek_hole_done i r st
  end.

(** Delivery of the completion of slot [i] through the back end of its target. *)
Definition deliver (i : nat) (o : op) (r : Z) (st : dd_state) : dd_state :=
  match op_kind_of o with
  | OpIo ty =>
      if is_file (target_of st ty) then
        if uring_mode st then dd_uring_round (inr (i, r)) st else dd_aio_event (i, r) st
      else deliver_bdev i (op_kind_of o) r st
  | k => deliver_bdev i k r st
  end.

(** A transfer moves at most the bytes asked for; a seek finds any offset. *)
Definition may_return (o : op) (r : Z) : bool :=
  match op_kind_of o with OpIo _ => r <=? op_len o | _ => true end.

(** One move. [io_getevents] does not fail here: [dd_aio_poll] then leaves at once,
    whatever is in flight. *)
Inductive dd_step : dd_state → dd_state → Prop :=
| step_perform st i o r :
    pending st !! i = Some o → op_res o = None → may_return o r = true →
    dd_step st (perform i o r st)
| step_deliver st i o r :
    pending st !! i = Some o → op_res o = Some r →
    dd_step st (deliver i o r st)
| step_peek_error st rc :
    rc < 0 → dd_step st (dd_uring_round (inl rc) st)
| step_interrupt st : dd_step st (dd_finish st)
| step_status st : dd_step st (dd_status_poller st).2.

(** [for (i = 0; i < queue_depth; i++) dd_target_seek(&ios[i]);], from slot [i] on. *)
Fixpoint dd_start (i : nat) (todo : nat) (st : dd_state) : dd_state :=
  match todo with
  | O => st
  | S todo => dd_start (S i) todo (dd_target_seek i st)
  end.

(** ** Accounting (copies without [--sparse]) *)

(** Slots of a list of [n]. *)
Definition slots (n : nat) : gset nat := set_seq 0 n.

Record acct (n : nat) (st : dd_state) : Prop := {
  ac_dense : sparse (g_opts st) = false;
  ac_ios : length (ios (g_job st)) = n;
  ac_n : Z.of_nat n < U32_MOD;
  ac_dom : dom (pending st) ⊆ slots n;
  ac_count : outstanding (g_job st) = Z.of_nat (size (pending st));
  ac_io : map_Forall (λ _ o, ∃ ty, op_kind_of o = OpIo ty) (pending st);
}.

(** What a stage leaves behind: the slot or another one is in flight and the
    program goes on, or nothing is in flight and it has just stopped, once, with
    the recorded error. *)
Definition stage_ok (n : nat) (st st' : dd_state) : Prop :=
  acct n st' ∧ assert_failed (events st') = assert_failed (events st) ∧
  ((stops (events st') = stops (events st) ∧ pending st' ≠ ∅) ∨
   (stops (events st') = g_error st' :: stops (events st) ∧ pending st' = ∅)).

(** A failed [io_submit] sets [errno]. *)
Definition errno_set : Prop := ∀ st, io_submit_ret st < 0 → env_errno st ≠ 0.

End Steps.

(** ** Lemmas *)

Lemma slots_size n (m : gmap nat op) : dom m ⊆ slots n → (size m <= n)%nat.
Proof.
  intros Hd. apply subseteq_size in Hd. rewrite size_dom in Hd.
  unfold slots in Hd. by rewrite size_set_seq in Hd.
Qed.

Lemma slots_elem n i : i ∈ slots n ↔ (i < n)%nat.
Proof. unfold slots. rewrite elem_of_set_seq. lia. Qed.

Section Accounting.
Context `{DdEnv}.
Implicit Types st : dd_state.

Lemma acct_size n st : acct n st → (size (pending st) <= n)%nat.
Proof. intros Ha. apply slots_size, (ac_dom n st Ha). Qed.

Lemma acct_idle n st : acct n st → idle st = true ↔ pending st = ∅.
Proof.
  intros Ha. unfold idle. rewrite (ac_count n st Ha), Z.eqb_eq.
  rewrite <- map_size_empty_iff. lia.
Qed.

(** *** Changes that only touch the byte counters and the event log *)

Record quiet st st' : Prop := {
  q_opts : g_opts st' = g_opts st;
  q_input : input (g_job st') = input (g_job st);
  q_output : output (g_job st') = output (g_job st);
  q_ios : ios (g_job st') = ios (g_job st);
  q_outstanding : outstanding (g_job st') = outstanding (g_job st);
  q_copy : copy_size (g_job st') = copy_size (g_job st);
  q_queue : seek_queue (g_job st') = seek_queue (g_job st);
  q_error : g_error st' = g_error st;
  q_interrupt : g_interrupt st' = g_interrupt st;
  q_pending : pending st' = pending st;
  q_bufs : bufs st' = bufs st;
  q_in : in_data st' = in_data st;
  q_out : out_data st' = out_data st;
}.

#[export] Instance quiet_preorder : PreOrder quiet.
Proof.
  split.
  - by intros st.
  - intros s1 s2 s3 [] []. split; congruence.
Qed.

Lemma quiet_emit e st : quiet st (emit e st).
Proof. done. Qed.

Lemma quiet_exit_target b t st : quiet st (dd_exit_target b t st).
Proof. unfold dd_exit_target, dd_cleanup_bdev. by destruct (is_file t), (t_open t), (t_ch t). Qed.

Lemma exit_target_log b t st :
  stops (events (dd_exit_target b t st)) = stops (events st) ∧
  assert_failed (events (dd_exit_target b t st)) = assert_failed (events st).
Proof. unfold dd_exit_target, dd_cleanup_bdev. by destruct (is_file t), (t_open t), (t_ch t). Qed.

(** The state just before [dd_exit] stops the application. *)
Lemma dd_exit_spec rc st : ∃ st', dd_exit rc st = emit (EvStop rc) (emit (EvPollerUnregister true) st') ∧
  quiet st st' ∧ stops (events st') = stops (events st) ∧
  assert_failed (events st') = assert_failed (events st).
Proof.
  unfold dd_exit.
  set (s1 := dd_exit_target true _ st). set (s2 := dd_exit_target false _ s1).
  destruct (exit_target_log true (input (g_job st)) st) as [H1 H2]. fold s1 in H1, H2.
  destruct (exit_target_log false (output (g_job s1)) s1) as [H3 H4]. fold s2 in H3, H4.
  assert (quiet st s2) as Hq by (etrans; apply quiet_exit_target).
  destruct (is_file _ || is_file _); eexists; (split; [reflexivity|]);
    (split; [etrans; [exact Hq|done]|]); simpl; rewrite H3, H4, H1, H2; done.
Qed.

Lemma quiet_exit rc st : quiet st (dd_exit rc st).
Proof. destruct (dd_exit_spec rc st) as (st' & -> & Hq & _). etrans; [exact Hq|]. done. Qed.

Lemma stops_exit rc st : stops (events (dd_exit rc st)) = rc :: stops (events st).
Proof. destruct (dd_exit_spec rc st) as (st' & -> & _ & Hs & _). simpl. by rewrite Hs. Qed.

Lemma assert_exit rc st : assert_failed (events (dd_exit rc st)) = assert_failed (events st).
Proof. destruct (dd_exit_spec rc st) as (st' & -> & _ & _ & Ha). simpl. by rewrite Ha. Qed.

(** Displaying progress appends one line to the log. *)
Lemma dd_show_progress_spec fin st : ∃ a b c d e st',
  dd_show_progress fin st = emit (EvShow a b c d e) st' ∧ quiet st st' ∧ events st' = events st.
Proof.
  unfold dd_show_progress.
  destruct fin; destruct (find_unit _) as [su si]; destruct (find_unit _) as [vu vi];
    do 6 eexists; (split; [reflexivity|]); done.
Qed.

Lemma quiet_show fin st : quiet st (dd_show_progress fin st).
Proof. destruct (dd_show_progress_spec fin st) as (?&?&?&?&?& st' & -> & Hq & _). etrans; [exact Hq|]. done. Qed.

Lemma stops_show fin st : stops (events (dd_show_progress fin st)) = stops (events st).
Proof. destruct (dd_show_progress_spec fin st) as (?&?&?&?&?& st' & -> & _ & He). simpl. by rewrite He. Qed.

Lemma assert_show fin st : assert_failed (events (dd_show_progress fin st)) = assert_failed (events st).
Proof. destruct (dd_show_progress_spec fin st) as (?&?&?&?&?& st' & -> & _ & He). simpl. by rewrite He. Qed.

Lemma show_and_exit_spec st :
  quiet st (show_and_exit st) ∧
  stops (events (show_and_exit st)) = g_error st :: stops (events st) ∧
  assert_failed (events (show_and_exit st)) = assert_failed (events st).
Proof.
  unfold show_and_exit. destruct (g_error st =? 0).
  - rewrite stops_exit, assert_exit, stops_show, assert_show, (q_error _ _ (quiet_show true st)).
    split; [|done]. etrans; [apply (quiet_show true)|apply quiet_exit].
  - rewrite stops_exit, assert_exit. split; [apply quiet_exit|done].
Qed.

Lemma acct_quiet n st st' : quiet st st' → acct n st → acct n st'.
Proof.
  intros [] [Hs Hi Hn Hd Hc Hk]. split.
  - congruence.
  - congruence.
  - done.
  - by rewrite q_pending0.
  - by rewrite q_outstanding0, q_pending0.
  - by rewrite q_pending0.
Qed.

(** *** Leaving a stage *)

(** A stage that only stops (or waits for the others). *)
Lemma stage_stop n st st1 :
  acct n st1 → assert_failed (events st1) = assert_failed (events st) →
  stops (events st1) = stops (events st) →
  stage_ok n st (if idle st1 then show_and_exit st1 else st1).
Proof.
  intros Ha Has Hst. pose proof (acct_idle n st1 Ha) as Hidle.
  destruct (idle st1).
  - destruct (show_and_exit_spec st1) as (Hq & Hs & Hf).
    split; [by eapply acct_quiet|]. split; [congruence|]. right.
    rewrite (q_pending _ _ Hq), (q_error _ _ Hq), Hs, Hst. split; [done|]. by apply Hidle.
  - split; [done|]. split; [done|]. left. split; [done|]. intros Hp. by apply Hidle in Hp.
Qed.

Lemma stage_exit n st st1 rc :
  acct n st1 → assert_failed (events st1) = assert_failed (events st) →
  stops (events st1) = stops (events st) → rc = g_error st1 →
  stage_ok n st (if idle st1 then dd_exit rc st1 else st1).
Proof.
  intros Ha Has Hst ->. pose proof (acct_idle n st1 Ha) as Hidle.
  destruct (idle st1).
  - pose proof (quiet_exit (g_error st1) st1) as Hq.
    split; [by eapply acct_quiet|]. rewrite assert_exit, stops_exit. split; [congruence|]. right.
    rewrite (q_pending _ _ Hq), (q_error _ _ Hq), Hst. split; [done|]. by apply Hidle.
  - split; [done|]. split; [done|]. left. split; [done|]. intros Hp. by apply Hidle in Hp.
Qed.

(** *** Submitting *)

(** [st1] is [st0] with one more operation counted, and not yet submitted. *)
Record counted st0 st1 : Prop := {
  cn_sparse : sparse (g_opts st1) = sparse (g_opts st0);
  cn_ios : length (ios (g_job st1)) = length (ios (g_job st0));
  cn_pending : pending st1 = pending st0;
  cn_out : outstanding (g_job st1) = outstanding (g_job st0) + 1;
  cn_stops : stops (events st1) = stops (events st0);
  cn_assert : assert_failed (events st1) = assert_failed (events st0);
}.

Lemma acct_room n i st :
  acct n st → (i < n)%nat → pending st !! i = None → (size (pending st) < n)%nat.
Proof.
  intros Ha Hi Hp. assert (dom (<[i := mkOp OpSeekData 0 0 None]> (pending st)) ⊆ slots n) as Hd.
  { rewrite dom_insert_L. pose proof (ac_dom n st Ha). pose proof (proj2 (slots_elem n i) Hi).
    set_solver. }
  apply slots_size in Hd. rewrite map_size_insert_None in Hd by done. lia.
Qed.

(** An operation the back end accepted. *)
Lemma accepted_stage n i ty len off r st0 st1 :
  acct n st0 → (i < n)%nat → pending st0 !! i = None → counted st0 st1 →
  stage_ok n st0 (add_pending i (mkOp (OpIo ty) len off r) st1).
Proof.
  intros Ha Hi Hp [Hs Hio Hpe Hou Hst Has]. pose proof Ha as [Hs0 Hi0 Hn0 Hd0 Hc0 Hk0].
  split; [split; simpl|].
  - congruence.
  - congruence.
  - done.
  - rewrite Hpe, dom_insert_L. pose proof (proj2 (slots_elem n i) Hi). set_solver.
  - rewrite Hpe, map_size_insert_None, Hou, Hc0 by done. lia.
  - rewrite Hpe. apply map_Forall_insert_2; [by eexists|done].
  - split; [done|]. left. split; [done|]. simpl. apply insert_non_empty.
Qed.

(** An operation the back end refused: it is counted out again. *)
Lemma refused_stage n i rc st0 st1 :
  acct n st0 → (i < n)%nat → pending st0 !! i = None → counted st0 st1 → rc ≠ 0 →
  stage_ok n st0 (check_submit (rc, st1)).
Proof.
  intros Ha Hi Hp [Hs Hio Hpe Hou Hst Has] Hrc. pose proof Ha as [Hs0 Hi0 Hn0 Hd0 Hc0 Hk0].
  pose proof (acct_room n i st0 Ha Hi Hp) as Hroom.
  unfold check_submit, dec_outstanding. rewrite Hou, Hc0.
  destruct (Z.eqb_spec rc 0); [done|].
  destruct (Z.ltb_spec 0 (Z.of_nat (size (pending st0)) + 1)); [|lia]. simpl.
  apply stage_exit; try done.
  split; simpl; try congruence.
  - by rewrite Hpe.
  - rewrite Hou, Hc0, Hpe, Z.add_simpl_r, u32_small by lia. done.
  - by rewrite Hpe.
Qed.

Lemma submit_stage n i t ty len off st0 st1 :
  errno_set → acct n st0 → (i < n)%nat → pending st0 !! i = None → counted st0 st1 →
  stage_ok n st0 (check_submit (submit_io t i ty len off st1)).
Proof.
  intros He Ha Hi Hp Hc. unfold submit_io.
  pose proof (accepted_stage n i ty len off None st0 st1 Ha Hi Hp Hc) as Hacc.
  destruct (t_type t).
  - destruct (uring_mode st1); [exact Hacc|].
    destruct (Z.ltb_spec (io_submit_ret st1) 0) as [Hlt|]; [|exact Hacc].
    eapply refused_stage; eauto. specialize (He st1 Hlt). lia.
  - destruct (Z.eqb_spec (bdev_rc st1) 0) as [E|E].
    + rewrite E. exact Hacc.
    + eapply refused_stage; eauto.
Qed.

(** *** The stages *)

Lemma counted_inc n i st :
  acct n st → (i < n)%nat → pending st !! i = None → counted st (inc_outstanding st).
Proof.
  intros Ha Hi Hp. pose proof (acct_room n i st Ha Hi Hp). destruct Ha as [Hs0 Hi0 Hn0 Hd0 Hc0 Hk0].
  split; try done. simpl. rewrite Hc0. apply u32_small. lia.
Qed.

Lemma counted_set_io st0 st1 i f : counted st0 st1 → counted st0 (set_io i f st1).
Proof. intros []. split; try done. simpl. by rewrite length_alter. Qed.

Lemma write_stage n i st :
  errno_set → acct n st → (i < n)%nat → pending st !! i = None →
  stage_ok n st (dd_target_write i st).
Proof.
  intros He Ha Hi Hp. unfold dd_target_write. destruct (stopping st).
  { by apply stage_stop. }
  set (st1 := upd_job _ st).
  assert (acct n st1) as Ha1 by (by apply (acct_quiet n st)).
  apply (submit_stage n i _ _ _ _ st1); try done. by eapply counted_set_io, counted_inc.
Qed.

Lemma read_stage n i st :
  errno_set → acct n st → (i < n)%nat → pending st !! i = None →
  stage_ok n st (dd_target_read i st).
Proof.
  intros He Ha Hi Hp. unfold dd_target_read. destruct (stopping st).
  { by apply stage_exit. }
  apply submit_stage; try done. by eapply counted_set_io, counted_inc.
Qed.

Lemma acct_set_io n i f st : acct n st → acct n (set_io i f st).
Proof. intros []. split; try done. simpl. by rewrite length_alter. Qed.

Lemma populate_stage n i st :
  errno_set → acct n st → (i < n)%nat → pending st !! i = None →
  stage_ok n st (dd_target_populate_buffer i st).
Proof.
  intros He Ha Hi Hp. unfold dd_target_populate_buffer.
  set (st1 := set_io i _ st). assert (acct n st1) as Ha1 by by apply acct_set_io.
  destruct ((_ =? 0) || stopping st1).
  { by apply stage_stop. }
  set (st2 := upd_job _ st1). assert (acct n st2) as Ha2 by (by destruct Ha1; split).
  destruct (_ `mod` _ =? 0).
  - by apply (read_stage n i st2).
  - apply (submit_stage n i _ _ _ _ st2); try done. by eapply counted_set_io, counted_inc.
Qed.

Lemma seek_stage n i st :
  errno_set → acct n st → (i < n)%nat → pending st !! i = None →
  stage_ok n st (dd_target_seek i st).
Proof.
  intros He Ha Hi Hp. unfold dd_target_seek. rewrite (ac_dense n st Ha). by apply populate_stage.
Qed.

(** *** Completions *)

(** Reporting an operation gives its slot back to the handler. *)
Lemma acct_report n i o st :
  acct n st → pending st !! i = Some o →
  let st1 := dec_outstanding (st <| pending ::= delete i |>) in
  acct n st1 ∧ (i < n)%nat ∧ pending st1 !! i = None ∧ events st1 = events st.
Proof.
  intros [Hs Hi Hn Hd Hc Hk] Ho.
  assert (i < n)%nat as Hin.
  { apply slots_elem, Hd, elem_of_dom. by exists o. }
  pose proof (slots_size n _ Hd) as Hsz.
  assert (size (pending st) ≠ 0%nat) as Hne.
  { rewrite map_size_ne_0_lookup. exists i. by eexists. }
  unfold dec_outstanding. simpl. rewrite Hc.
  destruct (Z.ltb_spec 0 (Z.of_nat (size (pending st)))); [|lia]. simpl.
  split; [split; simpl; try done|].
  - rewrite dom_delete_L. set_solver.
  - rewrite Hc, u32_small, map_size_delete_Some by (done || lia). lia.
  - by apply map_Forall_delete.
  - split; [done|]. split; [|done]. by rewrite lookup_delete_eq.
Qed.

End Accounting.
