(* ===== verification/DdAccounting.v ===== *)
(** * spdk_dd: accounting and termination codes

    For copies without [--sparse] and an arbitrary environment (refused
    submissions, failed and short transfers, errors of the ring, interrupts): the
    in-flight counter is exact, no assertion fails, and the program stops exactly
    once, when nothing is in flight, with the recorded error. *)

From S2P Require Import Prelude Posix DdState DdEngine DdSteps.
#[local] Open Scope Z_scope.

Section Accounting.
Context `{DdEnv}.
Implicit Types st : dd_state.

(** The invariant of a run: working with something in flight, or stopped once with
    nothing in flight. *)
Definition dd_inv (n : nat) st : Prop :=
  acct n st ∧ assert_failed (events st) = false ∧
  ((stops (events st) = [] ∧ pending st ≠ ∅) ∨ (∃ rc, stops (events st) = [rc] ∧ pending st = ∅)).

(** ** Completions *)

Lemma complete_poll_stage n i o st :
  errno_set → acct n st → pending st !! i = Some o →
  stage_ok n st (dd_complete_poll i (st <| pending ::= delete i |>)).
Proof.
  intros He Ha Ho. destruct (acct_report n i o st Ha Ho) as (Ha1 & Hi & Hp & Hev).
  unfold dd_complete_poll. set (st1 := dec_outstanding _) in *.
  assert (∀ st', stage_ok n st1 st' → stage_ok n st st') as Hlift.
  { intros st'. unfold stage_ok. by rewrite Hev. }
  destruct (io_type (get_io st1 i)); apply Hlift.
  - by apply read_stage.
  - by apply write_stage.
  - by apply seek_stage.
Qed.

Lemma deliver_bdev_stage n i o ty r st :
  errno_set → acct n st → pending st !! i = Some o →
  stage_ok n st (deliver_bdev i (OpIo ty) r st).
Proof.
  intros He Ha Ho. destruct (acct_report n i o st Ha Ho) as (Ha1 & Hi & Hp & Hev).
  set (st1 := dec_outstanding _) in *.
  assert (acct n (emit EvFreeIo st1)) as Ha2 by (by eapply acct_quiet; [apply quiet_emit|]).
  assert (∀ st', stage_ok n (emit EvFreeIo st1) st' → stage_ok n st st') as Hlift.
  { intros st'. unfold stage_ok.
    assert (events (emit EvFreeIo st1) = EvFreeIo :: events st) as -> by (by rewrite <- Hev). done. }
  destruct ty; apply Hlift.
  - by apply (read_stage n i (emit EvFreeIo st1)).
  - simpl. unfold dd_read_bdev_done.
    assert (dec_outstanding (emit EvFreeIo (st <| pending ::= delete i |>)) = emit EvFreeIo st1) as ->.
    { unfold st1, dec_outstanding, dd_assert. simpl.
      pose proof (ac_count n st Ha). pose proof (map_size_ne_0_lookup (pending st)) as [_ Hne].
      destruct (Z.ltb_spec 0 (outstanding (g_job st))); [done|].
      exfalso. apply Hne; [by exists i; eexists|lia]. }
    by apply write_stage.
  - by apply (seek_stage n i (emit EvFreeIo st1)).
Qed.

(** Changing the recorded error keeps the account. *)
Lemma acct_error n st e : acct n st → acct n (st <| g_error := e |>).
Proof. by intros []. Qed.

Lemma deliver_stage n i o r st :
  errno_set → acct n st → pending st !! i = Some o →
  deliver i o r st = st ∨ stage_ok n st (deliver i o r st).
Proof.
  intros He Ha Ho. destruct (ac_io n st Ha i o Ho) as [ty Hty].
  unfold deliver. rewrite Hty. destruct (is_file _); [|right; by eapply deliver_bdev_stage].
  destruct (uring_mode st); simpl.
  - destruct (r =? - EAGAIN); [by left|]. right. destruct (r <? 0).
    + exact (complete_poll_stage n i o (st <| g_error := r |>) He (acct_error n st _ Ha) Ho).
    + by eapply complete_poll_stage.
  - right. destruct (negb _).
    + exact (complete_poll_stage n i o (st <| g_error := - ENOSPC |>) He (acct_error n st _ Ha) Ho).
    + by eapply complete_poll_stage.
Qed.

Lemma perform_quiet_acct n i o r st :
  acct n st → pending st !! i = Some o →
  acct n (perform i o r st) ∧ events (perform i o r st) = events st ∧
  (pending (perform i o r st) ≠ ∅).
Proof.
  intros Ha Ho. destruct (ac_io n st Ha i o Ho) as [ty Hty].
  assert (acct n (add_pending i (o <| op_res := Some r |>) st)) as Ha1.
  { destruct Ha as [Hs Hi Hn Hd Hc Hk]. split; simpl; try done.
    - rewrite dom_insert_lookup_L; [done|by eexists].
    - rewrite map_size_insert_Some by (by eexists). done.
    - apply map_Forall_insert_2; [by exists ty|done]. }
  unfold perform. rewrite Hty.
  destruct ty; (split; [by destruct Ha1; split|]); (split; [done|]); simpl; apply insert_non_empty.
Qed.

(** ** Steps *)

Lemma inv_stage n st st' :
  dd_inv n st → pending st ≠ ∅ → stage_ok n st st' → dd_inv n st'.
Proof.
  intros (_ & Has & [[Hs _]|(rc & _ & Hp)]) Hne (Ha' & Has' & Hst); [|done].
  split; [done|]. split; [congruence|]. rewrite Hs in Hst.
  destruct Hst as [?|[-> ->]]; [by left|right]. by eexists.
Qed.

Lemma inv_step n st st' : errno_set → dd_inv n st → dd_step st st' → dd_inv n st'.
Proof.
  intros He Hinv Hstep. pose proof Hinv as (Ha & Has & Hst).
  destruct Hstep as [st i o r Hi Hr Hle|st i o r Hi Hr|st rc Hrc|st|st].
  - destruct (perform_quiet_acct n i o r st Ha Hi) as (Ha' & Hev & Hne).
    split; [done|]. rewrite Hev. split; [done|].
    destruct Hst as [[Hs _]|(rc & _ & Hp)]; [by left|]. rewrite Hp in Hi. done.
  - destruct (deliver_stage n i o r st He Ha Hi) as [->|Hok]; [done|].
    eapply inv_stage; [done| |done]. intros Hp. by rewrite Hp in Hi.
  - simpl. destruct (rc =? - EAGAIN); [done|]. by destruct Ha; repeat split.
  - by destruct Ha; repeat split.
  - simpl. pose proof (quiet_show false st) as Hq.
    split; [by eapply acct_quiet|]. by rewrite assert_show, stops_show, (q_pending _ _ Hq).
Qed.

Lemma inv_steps n st st' : errno_set → dd_inv n st → rtc dd_step st st' → dd_inv n st'.
Proof. intros He Hinv Hs. induction Hs; eauto using inv_step. Qed.

(** The step that stops the program stops it with the recorded error. *)
Lemma stop_code n st st' :
  errno_set → dd_inv n st → dd_step st st' → stops (events st) = [] → stops (events st') ≠ [] →
  stops (events st') = [g_error st'] ∧ pending st' = ∅.
Proof.
  intros He (Ha & _ & _) Hstep Hs Hs'.
  destruct Hstep as [st i o r Hi Hr Hle|st i o r Hi Hr|st rc Hrc|st|st].
  - destruct (perform_quiet_acct n i o r st Ha Hi) as (_ & Hev & _). congruence.
  - destruct (deliver_stage n i o r st He Ha Hi) as [Heq|(_ & _ & [[Heq _]|Heq])]; [congruence..|].
    by rewrite Hs in Heq.
  - simpl in Hs'. by destruct (rc =? - EAGAIN).
  - done.
  - simpl in Hs'. by rewrite stops_show in Hs'.
Qed.

(** ** The start *)

(** Before the first slot is started. *)
Record initial (n : nat) st : Prop := {
  in_dense : sparse (g_opts st) = false;
  in_ios : length (ios (g_job st)) = n;
  in_n : Z.of_nat n < U32_MOD;
  in_pending : pending st = ∅;
  in_outstanding : outstanding (g_job st) = 0;
  in_stops : stops (events st) = [];
  in_assert : assert_failed (events st) = false;
}.

Lemma initial_acct n st : initial n st → acct n st.
Proof.
  intros []. split; try done.
  - rewrite in_pending0, dom_empty_L. apply empty_subseteq.
  - rewrite in_outstanding0, in_pending0. by rewrite map_size_empty.
  - rewrite in_pending0. apply map_Forall_empty.
Qed.

(** A stage only touches the entry of its slot. *)
Definition grows (i : nat) st st' : Prop :=
  pending st' = pending st ∨ ∃ o, pending st' = <[i := o]> (pending st).

Lemma check_submit_pending r : pending (check_submit r) = pending r.2.
Proof.
  destruct r as [rc st]. unfold check_submit, dec_outstanding, dd_assert. simpl.
  destruct (negb (rc =? 0)); [|done].
  destruct (0 <? _); destruct (idle _); rewrite ?(q_pending _ _ (quiet_exit _ _)); done.
Qed.

Lemma submit_grows t i ty len off st st1 :
  pending st1 = pending st → grows i st (check_submit (submit_io t i ty len off st1)).
Proof.
  intros Hp. unfold grows. rewrite check_submit_pending. unfold submit_io.
  destruct (t_type t); [destruct (uring_mode st1), (io_submit_ret st1 <? 0)|destruct (bdev_rc st1 =? 0)];
    simpl; rewrite Hp; eauto.
Qed.

Lemma stop_grows i st st1 st2 :
  pending st1 = pending st → quiet st1 st2 → grows i st (if idle st1 then st2 else st1).
Proof. intros Hp Hq. left. destruct (idle st1); [by rewrite (q_pending _ _ Hq)|done]. Qed.

Lemma read_grows i st : grows i st (dd_target_read i st).
Proof.
  unfold dd_target_read. destruct (stopping st); [|by apply submit_grows].
  apply stop_grows; [done|apply quiet_exit].
Qed.

Lemma seek_grows n i st : acct n st → grows i st (dd_target_seek i st).
Proof.
  intros Ha. unfold dd_target_seek. rewrite (ac_dense n st Ha). simpl. unfold dd_target_populate_buffer.
  set (st1 := set_io i _ st).
  destruct ((_ =? 0) || stopping st1); [apply stop_grows; [done|apply show_and_exit_spec]|].
  destruct (_ `mod` _ =? 0); [|by apply submit_grows].
  destruct (read_grows i (upd_job (λ j, j <| input ::= λ t, t <| pos := u64 (pos t + io_length (get_io st1 i)) |> |>) st1));
    [by left|by right].
Qed.

Lemma grows_ne i st st' : grows i st st' → pending st ≠ ∅ → pending st' ≠ ∅.
Proof. intros [->|[o ->]] Hne; [done|]. apply insert_non_empty. Qed.

(** Starting the remaining slots of a run that is under way. *)
Lemma start_inv n i todo st :
  errno_set → dd_inv n st → pending st ≠ ∅ → (∀ j, (i <= j)%nat → pending st !! j = None) →
  (i + todo <= n)%nat → dd_inv n (dd_start i todo st) ∧ pending (dd_start i todo st) ≠ ∅.
Proof.
  intros He. revert i st. induction todo as [|todo IH]; intros i st Hinv Hne Hfree Hn; simpl; [done|].
  pose proof Hinv as (Ha & _).
  pose proof (seek_stage n i st He Ha ltac:(lia) (Hfree i ltac:(lia))) as Hst.
  pose proof (seek_grows n i st Ha) as Hg.
  apply IH; [by eapply inv_stage|by eapply grows_ne| |lia].
  intros j Hj. destruct Hg as [->|[o ->]]; [|rewrite lookup_insert_ne by lia]; apply Hfree; lia.
Qed.

(** A start whose first slot gets its operation accepted, or that has one slot. *)
Lemma start_ok n st :
  errno_set → initial n st → (0 < n)%nat →
  (n = 1%nat ∨ pending (dd_target_seek 0 st) ≠ ∅) →
  dd_inv n (dd_start 0 n st) ∧
  (pending (dd_target_seek 0 st) ≠ ∅ → pending (dd_start 0 n st) ≠ ∅).
Proof.
  intros He Hin Hn Hfirst. pose proof (initial_acct n st Hin) as Ha. destruct Hin.
  destruct n as [|n]; [lia|]. simpl.
  pose proof (seek_stage (S n) 0 st He Ha ltac:(lia) ltac:(by rewrite in_pending0)) as Hst.
  pose proof (seek_grows (S n) 0 st Ha) as Hg.
  assert (dd_inv (S n) (dd_target_seek 0 st)) as Hinv.
  { destruct Hst as (Ha' & Has & Hst). rewrite in_assert0 in Has. rewrite in_stops0 in Hst.
    split; [done|]. split; [done|]. destruct Hst as [?|[-> ->]]; [by left|right]. by eexists. }
  destruct Hfirst as [[= ->]|Hne]; [done|].
  destruct (start_inv (S n) 1 n (dd_target_seek 0 st)) as [? ?]; try done.
  intros j Hj. destruct Hg as [->|[o ->]]; rewrite in_pending0, ?lookup_insert_ne by lia; done.
Qed.

End Accounting.
