(* ===== verification/DdCopy.v ===== *)
(** * spdk_dd: what the slots copy

    The argument that concurrent slots copy the input to the output, on the data
    alone: the pending operations, the slots, how far the input has been handed
    out ([done]), the buffers and the output. [core] is the invariant; each lemma
    says that one kind of change keeps it. Its geometric part (which slot works on
    which chunk) holds whatever the transfers move; its part about bytes is for runs
    in which they move all they are asked to. [DdProofs] connects it to the engine. *)

From S2P Require Import Prelude Posix DdState.
#[local] Open Scope Z_scope.

(** ** Rounding up to whole blocks *)

Lemma round_up_spec len bs :
  0 <= len → 0 < bs → len + bs < U64_MOD →
  len <= round_up len bs < len + bs ∧ (len `mod` bs = 0 → round_up len bs = len).
Proof.
  intros Hl Hb Hm. unfold round_up. rewrite (u64_small (len + bs - 1)) by lia.
  pose proof (Z.div_mod (len + bs - 1) bs ltac:(lia)) as Hdm.
  pose proof (Z.mod_pos_bound (len + bs - 1) bs ltac:(lia)) as Hr.
  set (q := (len + bs - 1) `div` bs) in *. set (r := (len + bs - 1) `mod` bs) in *.
  rewrite u64_small by nia. split; [nia|]. intros H0.
  pose proof (Z.div_mod len bs ltac:(lia)) as Hd2. rewrite H0 in Hd2.
  set (q2 := len `div` bs) in *. assert (q = q2); [|nia]. nia.
Qed.

(** A relation between two entries of a map that holds of all pairs also holds
    after an entry is replaced, if it does not look at the entries. *)
Lemma insert_disjoint_pair (pend : gmap nat op) (R : nat → nat → Prop) i o o' j k oj ok :
  (∀ j k oj ok, j ≠ k → pend !! j = Some oj → pend !! k = Some ok → R j k) →
  pend !! i = Some o → j ≠ k →
  <[i := o']> pend !! j = Some oj → <[i := o']> pend !! k = Some ok → R j k.
Proof.
  intros HR Hi Hne. rewrite !lookup_insert_Some. intros [[<- _]|[_ Hj]] [[<- _]|[_ Hk]]; eauto.
Qed.

Section Copy.
(** The copied window: [copy] bytes from offset [in_start] of the input to offset
    [out_start] of the output, whose block size is [bs]; [in0] and [out0] are the
    contents at the start. [fine] are the results a transfer of a type and a length
    may have, and [faithful] says that they are the whole transfers and that the
    output and the input are apart. *)
Context (faithful : Prop) (fine : dd_submit_type → Z → Z → Prop).
Context (in_start out_start copy bs : Z) (in0 out0 : bytes).

(** The start of a slot's chunk, relative to the window. *)
Definition chunk (io : dd_io) : Z := io_offset io - in_start.

Definition covers (io : dd_io) (x : Z) : Prop := chunk io <= x < chunk io + io_length io.

(** The buffer starts with the chunk, and continues with the output's old bytes up
    to the next block boundary. *)
Definition head_ok (io : dd_io) (b : bytes) : Prop :=
  ∀ j, 0 <= j < io_length io → b j = in0 (io_offset io + j).

Definition tail_ok (io : dd_io) (b : bytes) : Prop :=
  ∀ j, io_length io <= j < round_up (io_length io) bs → b j = out0 (out_start + chunk io + j).

Definition copied (io : dd_io) (out : bytes) : Prop :=
  ∀ j, 0 <= j < io_length io → out (out_start + chunk io + j) = in0 (io_offset io + j).

(** What the buffer and the output hold at each stage of a slot. *)
Definition stage_data (ty : dd_submit_type) (performed : bool) (io : dd_io) (b out : bytes) : Prop :=
  match ty, performed with
  | DD_POPULATE, false => True
  | DD_POPULATE, true => tail_ok io b
  | DD_READ, false => tail_ok io b
  | DD_READ, true => tail_ok io b ∧ head_ok io b
  | DD_WRITE, false => tail_ok io b ∧ head_ok io b
  | DD_WRITE, true => copied io out
  end.

Definition op_window (ty : dd_submit_type) (io : dd_io) : Z * Z :=
  match ty with
  | DD_READ => (io_length io, io_offset io)
  | _ => (round_up (io_length io) bs, out_start + chunk io)
  end.

Record slot_ok (done : Z) (out : bytes) (io : dd_io) (b : bytes) (o : op) : Prop := {
  so_kind : op_kind_of o = OpIo (io_type io);
  so_window : (op_len o, op_off o) = op_window (io_type io) io;
  so_res r : op_res o = Some r → fine (io_type io) (op_len o) r;
  so_len : 0 < io_length io;
  so_lo : 0 <= chunk io;
  so_hi : chunk io + io_length io <= done;
  so_align : chunk io `mod` bs = 0;
  so_partial : io_length io `mod` bs ≠ 0 → chunk io + io_length io = copy;
  so_data : faithful → stage_data (io_type io) (bool_decide (is_Some (op_res o))) io b out;
}.

Record core (pend : gmap nat op) (io : nat → dd_io) (done : Z) (bf : nat → bytes) (out : bytes)
  : Prop := {
  co_done : 0 <= done <= copy;
  co_align : done `mod` bs = 0 ∨ done = copy;
  co_slot i o : pend !! i = Some o → slot_ok done out (io i) (bf i) o;
  co_disj i j oi oj x : i ≠ j → pend !! i = Some oi → pend !! j = Some oj →
    covers (io i) x → ¬ covers (io j) x;
  co_cover x : faithful → 0 <= x < done →
    out (out_start + x) = in0 (in_start + x) ∨ ∃ i o, pend !! i = Some o ∧ covers (io i) x;
  co_outside y : faithful → y < out_start ∨ out_start + copy <= y → out y = out0 y;
}.

Hypothesis Hbs : 0 < bs.
Hypothesis Hwrap : copy + bs < U64_MOD.
Hypothesis Hfull : faithful → ∀ ty len r, fine ty len r → r = len.

(** ** The window of a slot *)

Lemma slot_round done out io b o :
  done <= copy → slot_ok done out io b o →
  io_length io <= round_up (io_length io) bs ∧
  ∀ x, io_length io <= x < round_up (io_length io) bs → copy <= chunk io + x.
Proof.
  intros Hd Hs. destruct Hs. destruct (round_up_spec (io_length io) bs) as [Hr Hm]; [lia..|].
  split; [lia|]. intros x Hx.
  destruct (Z.eq_dec (io_length io `mod` bs) 0) as [E|E].
  - rewrite Hm in Hx by done. lia.
  - apply so_partial0 in E. lia.
Qed.

(** Slots that keep their chunk keep the geometric part. *)
Lemma core_next pend io io' done bf bf' out i o o' :
  core pend io done bf out → pend !! i = Some o →
  (∀ j, j ≠ i → io' j = io j) → (∀ j, j ≠ i → bf' j = bf j) →
  io_offset (io' i) = io_offset (io i) → io_length (io' i) = io_length (io i) →
  slot_ok done out (io' i) (bf' i) o' →
  core (<[i := o']> pend) io' done bf' out.
Proof.
  intros [Hd Ha Hs Hj Hc Ho] Hi Hio Hbf Hoff Hlen Hok.
  assert (∀ j x, covers (io' j) x ↔ covers (io j) x) as Hcov.
  { intros j x. destruct (decide (j = i)) as [->|Hne]; [|by rewrite Hio].
    unfold covers, chunk. by rewrite Hoff, Hlen. }
  split; [done|done| | | |done].
  - intros j oj. rewrite lookup_insert_Some. intros [[<- <-]|[Hne Hl]]; [done|].
    rewrite (Hio j), (Hbf j) by congruence. by apply Hs.
  - intros j k oj ok x Hne Hjj Hkk. rewrite !Hcov.
    by apply (insert_disjoint_pair pend (λ j k, covers (io j) x → ¬ covers (io k) x) i o o' j k oj ok); eauto.
  - intros x HD Hx. destruct (Hc x HD Hx) as [|(j & oj & Hl & Hx')]; [by left|]. right.
    destruct (decide (i = j)) as [<-|Hne].
    + exists i, o'. rewrite lookup_insert_eq, Hcov. done.
    + exists j, oj. rewrite lookup_insert_ne, Hcov by done. done.
Qed.

(** ** Performing an operation *)

Lemma stage_data_out ty p io b out out' :
  (ty = DD_WRITE → p = true → copied io out → copied io out') →
  stage_data ty p io b out → stage_data ty p io b out'.
Proof. destruct ty, p; simpl; auto. Qed.

Lemma slot_ok_out done out out' io b o :
  (faithful → io_type io = DD_WRITE → copied io out → copied io out') →
  slot_ok done out io b o → slot_ok done out' io b o.
Proof. intros Hc []. split; try done. intros HD. eapply stage_data_out; [|by apply so_data0]. auto. Qed.

(** A read of the whole chunk fills the head of the buffer. *)
Lemma core_perform_read pend io done bf bf' out i o r :
  core pend io done bf out → pend !! i = Some o → op_res o = None → io_type (io i) = DD_READ → fine DD_READ (op_len o) r →
  (∀ j, j ≠ i → bf' j = bf j) →
  (faithful → bf' i = blit (bf i) 0 (Z.max 0 r) (slice in0 (op_off o))) →
  core (<[i := o <| op_res := Some r |>]> pend) io done bf' out.
Proof.
  intros Hco Hi Hr Hty Hfine Hbf Hbi. eapply core_next; eauto.
  destruct (co_slot _ _ _ _ _ Hco i o Hi) as [Hk Hw _ Hl Hlo Hhi Hal Hp Hdata].
  rewrite Hty in *. rewrite Hr in Hdata. simpl in Hw, Hdata. injection Hw as Hlen Hoff.
  split; rewrite ?Hty; simpl; try done; [congruence|by intros ? [= <-]|]. intros HD. specialize (Hdata HD).
  apply (Hfull HD) in Hfine as ->. rewrite (Hbi HD), Hlen, Hoff, Z.max_r by lia. split; intros j Hj.
  - rewrite blit_out by lia. by apply Hdata.
  - rewrite blit_in, Z.sub_0_r by lia. done.
Qed.

(** A read of the output's whole blocks puts its old bytes behind the chunk. *)
Lemma core_perform_populate pend io done bf bf' out i o r :
  core pend io done bf out → pend !! i = Some o → op_res o = None → io_type (io i) = DD_POPULATE →
  fine DD_POPULATE (op_len o) r →
  (∀ j, j ≠ i → bf' j = bf j) →
  (faithful → bf' i = blit (bf i) 0 (Z.max 0 r) (slice out (op_off o))) →
  core (<[i := o <| op_res := Some r |>]> pend) io done bf' out.
Proof.
  intros Hco Hi Hr Hty Hfine Hbf Hbi. eapply core_next; eauto.
  pose proof (co_slot _ _ _ _ _ Hco i o Hi) as Hs.
  destruct (slot_round _ _ _ _ _ (proj2 (co_done _ _ _ _ _ Hco)) Hs) as [Hru Hout].
  destruct Hs as [Hk Hw _ Hl Hlo Hhi Hal Hp _].
  rewrite Hty in *. simpl in Hw. injection Hw as Hlen Hoff.
  split; rewrite ?Hty; simpl; try done; [congruence|by intros ? [= <-]|]. intros HD.
  apply (Hfull HD) in Hfine as ->. rewrite (Hbi HD), Hlen, Hoff, Z.max_r by lia. intros j Hj.
  rewrite blit_in, Z.sub_0_r by lia. unfold slice.
  apply (co_outside _ _ _ _ _ Hco); [done|]. specialize (Hout j Hj). lia.
Qed.

(** A write of the whole blocks copies the chunk and changes nothing outside the
    window nor in another slot's chunk. *)
Lemma core_perform_write pend io done bf out out' i o r :
  core pend io done bf out → pend !! i = Some o → op_res o = None → io_type (io i) = DD_WRITE →
  fine DD_WRITE (op_len o) r →
  (faithful → out' = blit out (op_off o) (Z.max 0 r) (bf i)) →
  core (<[i := o <| op_res := Some r |>]> pend) io done bf out'.
Proof.
  intros Hco Hi Hr Hty Hfine Hblit. pose proof (co_slot _ _ _ _ _ Hco i o Hi) as Hs.
  pose proof (co_done _ _ _ _ _ Hco) as Hd.
  destruct (slot_round _ _ _ _ _ (proj2 Hd) Hs) as [Hru Hout].
  destruct Hs as [Hk Hw _ Hl Hlo Hhi Hal Hp Hdata].
  rewrite Hty in *. rewrite Hr in Hdata. simpl in Hw, Hdata. injection Hw as Hlen Hoff.
  assert (faithful → out' = blit out (out_start + chunk (io i)) (round_up (io_length (io i)) bs) (bf i)) as Hout'.
  { intros HD. apply (Hfull HD) in Hfine as ->. by rewrite (Hblit HD), Hlen, Hoff, Z.max_r by lia. }
  clear Hblit.
  assert (faithful → copied (io i) out') as Hcp.
  { intros HD j Hj. rewrite (Hout' HD). rewrite blit_in by lia.
    replace (_ - _) with j by lia. by apply (Hdata HD). }
  assert (∀ x, faithful → 0 <= x < copy → ¬ covers (io i) x → out' (out_start + x) = out (out_start + x)) as Hsame.
  { intros x HD Hx Hnc. rewrite (Hout' HD). apply blit_out. unfold covers in Hnc.
    destruct (Z.lt_ge_cases x (chunk (io i))); [lia|]. right.
    destruct (Z.lt_ge_cases x (chunk (io i) + round_up (io_length (io i)) bs)); [|lia].
    specialize (Hout (x - chunk (io i))). lia. }
  destruct Hco as [_ Hal' Hs' Hj' Hc' Ho']. split; [done|done| | | |].
  - intros j oj. rewrite lookup_insert_Some. intros [[<- <-]|[Hne Hjl]].
    + split; rewrite ?Hty; simpl; try done; [congruence|by intros ? [= <-]].
    + specialize (Hs' j oj Hjl). eapply slot_ok_out; [|exact Hs'].
      intros HD _ Hcj x Hx. destruct Hs'. rewrite <- (Hcj x Hx), <- Z.add_assoc.
      apply Hsame; [done|lia|]. apply (Hj' j i oj o); try done. unfold covers. lia.
  - intros j k oj ok x Hne.
    apply (insert_disjoint_pair pend (λ j k, covers (io j) x → ¬ covers (io k) x) i o); eauto.
  - intros x HD Hx. destruct (decide (chunk (io i) <= x < chunk (io i) + io_length (io i))) as [Hin|Hin].
    + right. exists i. eexists. rewrite lookup_insert_eq. done.
    + destruct (Hc' x HD Hx) as [Heq|(j & oj & Hjl & Hcj)].
      * left. rewrite Hsame by (done || lia). done.
      * right. destruct (decide (i = j)) as [<-|Hne]; [done|].
        exists j, oj. by rewrite lookup_insert_ne.
  - intros y HD Hy. rewrite (Hout' HD). unfold blit. destruct (in_range_spec (out_start + chunk (io i))
      (round_up (io_length (io i)) bs) y) as [Hin|Hin]; [|by apply Ho'].
    rewrite (proj1 (Hdata HD)) by lia. f_equal. lia.
Qed.

(** ** Finishing a chunk and taking the next one *)

(** The chunk of a performed write is copied, so its slot can let go of it. *)
Lemma core_finish pend io done bf out i o :
  core pend io done bf out → pend !! i = Some o → io_type (io i) = DD_WRITE → is_Some (op_res o) →
  core (delete i pend) io done bf out.
Proof.
  intros [Hd Ha Hs Hj Hc Ho] Hi Hty Hr. pose proof (so_data _ _ _ _ _ (Hs i o Hi)) as Hdata.
  rewrite Hty, bool_decide_true in Hdata by done. simpl in Hdata.
  split; [done|done| | | |done].
  - intros j oj Hl. apply lookup_delete_Some in Hl as [_ Hl]. by apply Hs.
  - intros j k oj ok x Hne Hjl Hkl. apply lookup_delete_Some in Hjl as [_ ?], Hkl as [_ ?]. eauto.
  - intros x HD Hx. destruct (Hc x HD Hx) as [|(j & oj & Hl & Hx')]; [by left|]. specialize (Hdata HD).
    destruct (decide (i = j)) as [<-|Hne].
    + left. unfold covers, chunk in Hx'.
      replace (out_start + x) with (out_start + chunk (io i) + (x - chunk (io i))) by lia.
      rewrite Hdata by (unfold chunk; lia). f_equal. unfold chunk. lia.
    + right. exists j, oj. by rewrite lookup_delete_ne.
Qed.

Lemma slot_ok_done done done' out io b o : done <= done' → slot_ok done out io b o → slot_ok done' out io b o.
Proof. intros Hle []. split; try done. lia. Qed.

(** A free slot takes the next chunk of the window. *)
Lemma core_assign pend io io' done done' bf out i o :
  core pend io done bf out → pend !! i = None → done < done' → done' <= copy →
  done' `mod` bs = 0 ∨ done' = copy →
  (∀ j, j ≠ i → io' j = io j) → chunk (io' i) = done → chunk (io' i) + io_length (io' i) = done' →
  slot_ok done' out (io' i) (bf i) o →
  core (<[i := o]> pend) io' done' bf out.
Proof.
  intros [Hd Ha Hs Hj Hc Ho] Hi Hlt Hle Ha' Hio Hch Hend Hok.
  assert (∀ j oj x, pend !! j = Some oj → covers (io j) x → x < done) as Hold.
  { intros j oj x Hl Hx. destruct (Hs j oj Hl). unfold covers in Hx. lia. }
  assert (∀ j oj, pend !! j = Some oj → io' j = io j) as Hsame.
  { intros j oj Hl. apply Hio. intros ->. congruence. }
  split; [lia|done| | | |done].
  - intros j oj. rewrite lookup_insert_Some. intros [[<- <-]|[Hne Hl]]; [done|].
    rewrite (Hsame j oj Hl). eapply slot_ok_done; [|by apply Hs]. lia.
  - intros j k oj ok x Hne. rewrite !lookup_insert_Some. unfold covers in *.
    intros [[<- <-]|[_ Hjl]] [[<- <-]|[_ Hkl]]; [done|..].
    + rewrite (Hsame k ok Hkl). intros Hx Hx2. specialize (Hold k ok x Hkl Hx2). lia.
    + rewrite (Hsame j oj Hjl). intros Hx Hx2. specialize (Hold j oj x Hjl Hx). lia.
    + rewrite (Hsame k ok Hkl), (Hsame j oj Hjl). by apply (Hj j k oj ok).
  - intros x HD Hx. destruct (Z.lt_ge_cases x done).
    + destruct (Hc x HD) as [|(j & oj & Hl & Hx')]; [lia|by left|]. right. exists j, oj.
      rewrite (Hsame j oj Hl), lookup_insert_ne by (intros ->; congruence). done.
    + right. exists i, o. rewrite lookup_insert_eq. unfold covers. split; [done|lia].
Qed.

(** With nothing in flight and the whole window handed out, the copy is complete. *)
Lemma core_complete io bf out :
  faithful → core ∅ io copy bf out →
  (∀ x, 0 <= x < copy → out (out_start + x) = in0 (in_start + x)) ∧
  (∀ y, y < out_start ∨ out_start + copy <= y → out y = out0 y).
Proof.
  intros HD [_ _ _ _ Hc Ho]. split; [|by auto]. intros x Hx.
  destruct (Hc x HD Hx) as [|(i & o & Hl & _)]; [done|]. by rewrite lookup_empty in Hl.
Qed.

(** Only the slots in flight matter. *)
Lemma core_ext pend io io' done bf out :
  (∀ i o, pend !! i = Some o → io' i = io i) →
  core pend io done bf out → core pend io' done bf out.
Proof.
  intros He [Hd Ha Hs Hj Hc Ho]. split; [done|done| | | |done].
  - intros i o Hi. rewrite (He i o Hi). by apply Hs.
  - intros i j oi oj x Hne Hi Hjl. rewrite (He i oi Hi), (He j oj Hjl). by apply (Hj i j oi oj).
  - intros x HD Hx. destruct (Hc x HD Hx) as [|(i & o & Hl & Hx')]; [by left|].
    right. exists i, o. by rewrite (He i o Hl).
Qed.

Lemma core_start io bf : 0 <= copy → core ∅ io 0 bf out0.
Proof.
  intros Hc. split; [lia|by left| | | |done].
  - intros i o Hl. by rewrite lookup_empty in Hl.
  - intros i j oi oj x _ Hl. by rewrite lookup_empty in Hl.
  - intros x _ Hx. lia.
Qed.

End Copy.

(** Rounding up gives a whole number of blocks, and rounds up more what is larger
    by whole blocks. *)
Lemma round_up_mod len bs :
  0 <= len → 0 < bs → len + bs < U64_MOD → round_up len bs `mod` bs = 0.
Proof.
  intros Hl Hb Hm. unfold round_up. rewrite (u64_small (len + bs - 1)) by lia.
  pose proof (Z.div_mod (len + bs - 1) bs ltac:(lia)) as Hdm.
  pose proof (Z.mod_pos_bound (len + bs - 1) bs ltac:(lia)) as Hr.
  rewrite u64_small by nia. apply Z.mod_mul. lia.
Qed.

Lemma multiple_le a b bs : 0 < bs → a `mod` bs = 0 → b `mod` bs = 0 → a < b + bs → a <= b.
Proof.
  intros Hb Ha Hbm Hlt. apply Z.mod_divide in Ha as [q ->], Hbm as [q2 ->]; [|lia..].
  assert (q < q2 + 1) by nia. nia.
Qed.
