(* ===== verification/DdProofs.v ===== *)
(** * spdk_dd: a clean run copies the input

    Connects the engine to the copying argument of [DdCopy]: in an environment that
    accepts every submission and gives the transfers results the handlers take for
    success, each stage and each completion handler keeps the invariant [clean], and a
    measure decreases, so the program stops, with status 0; and if the results are
    those of whole transfers, the output holds the copy. *)

From S2P Require Import Prelude Posix DdState DdEngine DdSteps DdAccounting DdCopy.
#[local] Open Scope Z_scope.

(** ** Slots *)

Lemma get_set_io i f st j :
  (i < length (ios (g_job st)))%nat →
  get_io (set_io i f st) j = if Nat.eqb j i then f (get_io st i) else get_io st j.
Proof.
  intros Hi. unfold get_io, set_io. simpl. destruct (Nat.eqb_spec j i) as [->|Hne].
  - apply list_lookup_total_correct. rewrite list_lookup_alter_eq.
    destruct (lookup_lt_is_Some_2 _ _ Hi) as [x Hx]. rewrite Hx. simpl.
    by rewrite (list_lookup_total_correct _ _ _ Hx).
  - rewrite !list_lookup_total_alt, list_lookup_alter_ne by done. done.
Qed.

Lemma get_set_io_eq i f st :
  (i < length (ios (g_job st)))%nat → get_io (set_io i f st) i = f (get_io st i).
Proof. intros Hi. by rewrite get_set_io, Nat.eqb_refl. Qed.

Lemma get_set_io_ne i f st j :
  (i < length (ios (g_job st)))%nat → j ≠ i → get_io (set_io i f st) j = get_io st j.
Proof. intros Hi Hne. rewrite get_set_io by done. destruct (Nat.eqb_spec j i); done. Qed.

(** ** Work left: an upper bound on the completions still to come *)

Definition weight (o : op) : nat :=
  match op_kind_of o, op_res o with
  | OpIo DD_POPULATE, None => 6 | OpIo DD_POPULATE, Some _ => 5
  | OpIo DD_READ, None => 4 | OpIo DD_READ, Some _ => 3
  | OpIo DD_WRITE, None => 2 | OpIo DD_WRITE, Some _ => 1
  | _, _ => 0
  end.

Definition work (pend : gmap nat op) : nat := map_fold (λ _ o w, (weight o + w)%nat) 0%nat pend.

Lemma work_insert_new i o pend : pend !! i = None → work (<[i := o]> pend) = (weight o + work pend)%nat.
Proof. intros Hi. unfold work. rewrite map_fold_insert_L; [done| |done]. intros. lia. Qed.

Lemma work_delete i o pend : pend !! i = Some o → (weight o + work (delete i pend) = work pend)%nat.
Proof.
  intros Hi. rewrite <- (insert_delete_id pend i o Hi) at 2.
  by rewrite work_insert_new by apply lookup_delete_eq.
Qed.

Lemma work_insert i o o' pend :
  pend !! i = Some o → (work (<[i := o']> pend) + weight o = weight o' + work pend)%nat.
Proof.
  intros Hi. assert (<[i := o']> pend = <[i := o']> (delete i pend)) as -> by (by rewrite insert_delete_eq).
  rewrite work_insert_new by apply lookup_delete_eq. pose proof (work_delete i o pend Hi). lia.
Qed.

(** ** Runs *)

Section Runs.
(** [fine]: the results a transfer of a type and a length may have. *)
Context `{DdEnv} (fine : dd_submit_type → Z → Z → Prop).

(** The environment performs an operation, with a result a transfer may have, or
    reports one. *)
Inductive xfer_step : dd_state → dd_state → Prop :=
| xfer_perform st i o r :
    pending st !! i = Some o → op_res o = None → (∀ ty, op_kind_of o = OpIo ty → fine ty (op_len o) r) →
    xfer_step st (perform i o r st)
| xfer_deliver st i o r :
    pending st !! i = Some o → op_res o = Some r → xfer_step st (deliver i o r st).

(** A poller fires and finds nothing to do. *)
Inductive idle_step : dd_state → dd_state → Prop :=
| idle_status st : idle_step st (dd_status_poller st).2
| idle_peek st : idle_step st (dd_uring_round (inl (- EAGAIN)) st).

(** A run with [k] completions performed or reported, and any number of idle polls. *)
Inductive xfer_run : nat → dd_state → dd_state → Prop :=
| run_refl st : xfer_run 0 st st
| run_xfer k st1 st2 st3 : xfer_step st1 st2 → xfer_run k st2 st3 → xfer_run (S k) st1 st3
| run_idle k st1 st2 st3 : idle_step st1 st2 → xfer_run k st2 st3 → xfer_run k st1 st3.

End Runs.

(** Every transfer is of all the bytes asked for. *)
Definition whole (ty : dd_submit_type) (len r : Z) : Prop := r = len.

Definition full_step `{DdEnv} : dd_state → dd_state → Prop := xfer_step whole.
Definition full_run `{DdEnv} : nat → dd_state → dd_state → Prop := xfer_run whole.

Section Clean.
Context `{DdEnv}.
(** The job: its options, targets (the input before anything is read) and size. *)
Context (n : nat) (opts : spdk_dd_opts) (in_t out_t : dd_target) (copy : Z) (in0 out0 : bytes).

Definition in_start : Z := input_offset opts * io_unit_size opts.
Definition out_start : Z := output_offset opts * io_unit_size opts.

(** A job the theorem covers: whole blocks per unit, no 64-bit overflow, and with
    Linux AIO on a file output a whole number of blocks to copy. *)
Record job_ok : Prop := {
  jo_unit : 0 < io_unit_size opts < U64_MOD;
  jo_bs : 0 < block_size out_t;
  jo_align : io_unit_size opts `mod` block_size out_t = 0;
  jo_in : 0 <= input_offset opts;
  jo_out : 0 <= output_offset opts;
  jo_copy : 0 <= copy;
  jo_in_end : in_start + copy < U64_MOD;
  jo_out_end : out_start + copy + block_size out_t < U64_MOD;
  jo_aio : is_file out_t = true → config_uring && negb (aio opts) = false →
           copy `mod` block_size out_t = 0;
}.

(** Every submission is accepted. *)
Definition accepting : Prop := ∀ st, bdev_rc st = 0 ∧ 0 <= io_submit_ret st.

(** The results of a transfer of [len] bytes that leave no error behind: any result of
    a block device, no failure through io_uring, the whole transfer through AIO. *)
Definition unnoticed (ty : dd_submit_type) (len r : Z) : Prop :=
  r <= len ∧
  (is_file (match ty with DD_READ => in_t | _ => out_t end) = true →
   if config_uring && negb (aio opts) then 0 <= r else r = len).

(** The results a run may see. *)
Context (fine : dd_submit_type → Z → Z → Prop).

(** The bytes moved are those asked for, from the input to the output's offsets. *)
Definition faithful : Prop :=
  same_target = false ∧ t_append out_t = false ∧ ∀ ty len r, fine ty len r → r = len.

(** [pend] are the operations whose chunks are accounted for: the pending ones, and
    while a completion is being handled also the one just reported. *)
Record clean (pend : gmap nat op) (done : Z) (st : dd_state) : Prop := {
  cl_acct : acct n st;
  cl_opts : g_opts st = opts;
  cl_input : input (g_job st) = in_t <| pos := in_start + done |>;
  cl_output : output (g_job st) = out_t;
  cl_copy : copy_size (g_job st) = copy;
  cl_error : g_error st = 0;
  cl_interrupt : g_interrupt st = false;
  cl_in : same_target = false → in_data st = in0;
  cl_len i : (i < n)%nat → 0 <= io_length (get_io st i) <= io_unit_size opts ∧
    (io_length (get_io st i) = io_unit_size opts ∨ done = copy);
  cl_core : core faithful fine in_start out_start copy (block_size out_t) in0 out0
              pend (get_io st) done (bufs st) (out_data st);
}.

Hypothesis Hjob : job_ok.
Hypothesis Hacc : accepting.
Hypothesis Hfine : ∀ ty len r, 0 < len → fine ty len r → unnoticed ty len r.

Lemma accepting_errno : errno_set.
Proof. intros st Hlt. destruct (Hacc st). lia. Qed.

Lemma submit_accept t i ty len off st :
  check_submit (submit_io t i ty len off st) = add_pending i (mkOp (OpIo ty) len off None) st.
Proof.
  destruct (Hacc st) as [Hb Hs]. unfold submit_io. destruct (t_type t).
  - destruct (uring_mode st); [done|]. destruct (Z.ltb_spec (io_submit_ret st) 0); [lia|done].
  - by rewrite Hb.
Qed.

Lemma clean_stopping pend done st : clean pend done st → stopping st = false.
Proof. intros Hcl. unfold stopping. by rewrite (cl_error _ _ _ Hcl), (cl_interrupt _ _ _ Hcl). Qed.

Lemma clean_ios pend done st i : clean pend done st → (i < n)%nat → (i < length (ios (g_job st)))%nat.
Proof. intros Hcl Hi. by rewrite (ac_ios n st (cl_acct _ _ _ Hcl)). Qed.

Lemma copy_wrap : copy + block_size out_t < U64_MOD.
Proof.
  destruct Hjob. assert (0 <= out_start); [|lia]. unfold out_start. nia.
Qed.

Lemma starts_u64 :
  u64 (input_offset opts * io_unit_size opts) = in_start ∧
  u64 (output_offset opts * io_unit_size opts) = out_start ∧ 0 <= in_start ∧ 0 <= out_start.
Proof.
  destruct Hjob. fold in_start out_start.
  assert (0 <= in_start) by (unfold in_start; nia). assert (0 <= out_start) by (unfold out_start; nia).
  rewrite !u64_small by lia. done.
Qed.

(** A stage that moves slot [i] on to an operation on the same chunk. *)
Lemma clean_next pend done st st' i o ty len off :
  clean (<[i := o]> pend) done st → (i < n)%nat → acct n st' →
  g_opts st' = g_opts st → input (g_job st') = input (g_job st) →
  output (g_job st') = output (g_job st) → copy_size (g_job st') = copy_size (g_job st) →
  g_error st' = 0 → g_interrupt st' = false → in_data st' = in_data st →
  bufs st' = bufs st → out_data st' = out_data st →
  (∀ j, get_io st' j = get_io (set_io i (λ io, io <| io_type := ty |>) st) j) →
  slot_ok faithful fine in_start out_start copy (block_size out_t) in0 out0 done (out_data st)
    ((get_io st i) <| io_type := ty |>) (bufs st i) (mkOp (OpIo ty) len off None) →
  clean (<[i := mkOp (OpIo ty) len off None]> pend) done st'.
Proof.
  intros Hcl Hi Hac Ho Hin Hout Hcp He Hg Hid Hb Hod Hio Hok.
  pose proof (clean_ios _ _ _ i Hcl Hi) as Hlt. destruct Hcl.
  split; try congruence; [by rewrite Hid|..].
  - intros j Hj. rewrite Hio, get_set_io by done. destruct (Nat.eqb_spec j i) as [->|]; by apply cl_len0.
  - rewrite Hb, Hod. rewrite <- (insert_insert_eq pend i _ o).
    assert (get_io st' i = (get_io st i) <| io_type := ty |>) as Hi'
      by (by rewrite Hio, get_set_io_eq).
    apply (core_next _ _ _ _ _ _ _ _ _ (get_io st) _ _ (bufs st) _ _ i o); try done.
    + by rewrite lookup_insert_eq.
    + intros j Hne. by rewrite Hio, get_set_io_ne.
    + by rewrite Hi'.
    + by rewrite Hi'.
    + by rewrite Hi'.
Qed.

(** ** The stages *)

(** Slot [i] went on to an operation of type [ty] on its chunk. *)
Definition moved (i : nat) (ty : dd_submit_type) (done : Z) (st st' : dd_state) : Prop :=
  ∃ o, pending st' = <[i := o]> (pending st) ∧ clean (pending st') done st' ∧
       op_kind_of o = OpIo ty ∧ op_res o = None.

Lemma clean_slot pend done st i o :
  clean (<[i := o]> pend) done st →
  slot_ok faithful fine in_start out_start copy (block_size out_t) in0 out0 done (out_data st)
    (get_io st i) (bufs st i) o.
Proof. intros Hcl. apply (co_slot _ _ _ _ _ _ _ _ _ _ _ _ _ (cl_core _ _ _ Hcl)). by rewrite lookup_insert_eq. Qed.

Lemma clean_done pend done st : clean pend done st → 0 <= done <= copy.
Proof. intros Hcl. apply (co_done _ _ _ _ _ _ _ _ _ _ _ _ _ (cl_core _ _ _ Hcl)). Qed.

(** The output offset of a chunk, as the code computes it. *)
Lemma write_offset_eq off :
  0 <= off - in_start <= copy →
  u64 (u64 (output_offset opts * io_unit_size opts) + u64 (off - u64 (input_offset opts * io_unit_size opts)))
  = out_start + (off - in_start).
Proof.
  intros Hoff. destruct starts_u64 as (-> & -> & ? & ?). destruct Hjob.
  rewrite (u64_small (off - in_start)), u64_small by lia. done.
Qed.

Lemma clean_write done st i o r :
  clean (<[i := o]> (pending st)) done st → (i < n)%nat → pending st !! i = None →
  io_type (get_io st i) = DD_READ → op_res o = Some r →
  moved i DD_WRITE done st (dd_target_write i st).
Proof.
  intros Hcl Hi Hp Hty Hr.
  pose proof (proj1 (write_stage n i st accepting_errno (cl_acct _ _ _ Hcl) Hi Hp)) as Hac.
  revert Hac. unfold dd_target_write. rewrite (clean_stopping _ _ _ Hcl), submit_accept. intros Hac.
  destruct (clean_slot _ _ _ _ _ Hcl) as [Hk Hw Hres Hl Hlo Hhi Hal Hpa Hdata].
  pose proof (clean_done _ _ _ Hcl) as Hd.
  eexists. split; [done|]. split; [|done]. simpl.
  eapply clean_next; try done; [apply (cl_error _ _ _ Hcl)|apply (cl_interrupt _ _ _ Hcl)|].
  rewrite (cl_opts _ _ _ Hcl), (cl_output _ _ _ Hcl), write_offset_eq by (unfold chunk in *; lia).
  rewrite Hty, Hr in Hdata. by split.
Qed.

Lemma clean_read done st i o r :
  clean (<[i := o]> (pending st)) done st → (i < n)%nat → pending st !! i = None →
  io_type (get_io st i) = DD_POPULATE → op_res o = Some r →
  moved i DD_READ done st (dd_target_read i st).
Proof.
  intros Hcl Hi Hp Hty Hr.
  pose proof (proj1 (read_stage n i st accepting_errno (cl_acct _ _ _ Hcl) Hi Hp)) as Hac.
  revert Hac. unfold dd_target_read. rewrite (clean_stopping _ _ _ Hcl), submit_accept.
  rewrite get_set_io_eq by exact (clean_ios _ _ _ i Hcl Hi). intros Hac.
  destruct (clean_slot _ _ _ _ _ Hcl) as [Hk Hw Hres Hl Hlo Hhi Hal Hpa Hdata].
  eexists. split; [done|]. split; [|done]. simpl.
  eapply clean_next; try done; [apply (cl_error _ _ _ Hcl)|apply (cl_interrupt _ _ _ Hcl)|].
  rewrite Hty, Hr in Hdata. by split.
Qed.

(** A stage that gives slot [i] the next chunk. *)
Definition next_len (done : Z) : Z := Z.min (io_unit_size opts) (copy - done).

Lemma next_len_spec pend done st :
  clean pend done st → done < copy →
  0 < next_len done ∧ done + next_len done <= copy ∧ done `mod` block_size out_t = 0 ∧
  (next_len done `mod` block_size out_t ≠ 0 → done + next_len done = copy) ∧
  ((done + next_len done) `mod` block_size out_t = 0 ∨ done + next_len done = copy).
Proof.
  intros Hcl Hlt. unfold next_len. destruct Hjob.
  destruct (co_align _ _ _ _ _ _ _ _ _ _ _ _ _ (cl_core _ _ _ Hcl)) as [Hal|]; [|lia].
  destruct (Z.le_gt_cases (io_unit_size opts) (copy - done)).
  - rewrite Z.min_l by lia. repeat split; try lia.
    left. rewrite Z.add_mod, Hal, jo_align0 by lia. done.
  - rewrite Z.min_r by lia. repeat split; lia.
Qed.

Lemma clean_assign done st st' i ty len off :
  clean (pending st) done st → (i < n)%nat → pending st !! i = None → done < copy → acct n st' →
  g_opts st' = g_opts st → input (g_job st') = in_t <| pos := in_start + (done + next_len done) |> →
  output (g_job st') = output (g_job st) → copy_size (g_job st') = copy_size (g_job st) →
  g_error st' = 0 → g_interrupt st' = false → in_data st' = in_data st →
  bufs st' = bufs st → out_data st' = out_data st →
  (∀ j, j ≠ i → get_io st' j = get_io st j) →
  get_io st' i = mkIo (in_start + done) (next_len done) ty → ty ≠ DD_WRITE →
  (ty = DD_READ → next_len done `mod` block_size out_t = 0) →
  (len, off) = op_window in_start out_start (block_size out_t) ty (get_io st' i) →
  clean (<[i := mkOp (OpIo ty) len off None]> (pending st)) (done + next_len done) st'.
Proof.
  intros Hcl Hi Hp Hlt Hac Ho Hin Hout Hcp He Hg Hid Hb Hod Hio Hioi Hty Hread Hwin.
  destruct (next_len_spec _ _ _ Hcl Hlt) as (Hpos & Hle & Hal & Hpart & Hal').
  pose proof (clean_done _ _ _ Hcl) as Hd. destruct Hcl. split; try congruence; [done|by rewrite Hid|..].
  - intros j Hj. destruct (decide (j = i)) as [->|Hne].
    + rewrite Hioi. simpl. unfold next_len in *. split; lia.
    + rewrite (Hio j Hne). destruct (cl_len0 j Hj) as [? [?|?]]; [by auto|lia].
  - rewrite Hb, Hod. apply (core_assign _ _ _ _ _ _ _ _ _ (get_io st) _ done); try done; try lia.
    + rewrite Hioi. unfold chunk. simpl. lia.
    + rewrite Hioi. unfold chunk. simpl. lia.
    + rewrite Hioi in Hwin. split; rewrite ?Hioi; unfold chunk; simpl; try done; try lia.
      * by replace (in_start + done - in_start) with done by lia.
      * intros _. destruct ty; [done| |done]. intros j Hj. simpl in Hj.
        destruct (round_up_spec (next_len done) (block_size out_t)) as [_ Hru];
          [lia|apply Hjob|pose proof copy_wrap; lia|]. rewrite Hru in Hj by auto. lia.
Qed.

Lemma clean_quiet pend done st st' : quiet st st' → clean pend done st → clean pend done st'.
Proof.
  intros [Hop Hin Hou Hios Hn Hcp Hqu He Hg Hp Hb Hi Ho] Hcl.
  assert (quiet st st') as Hq by done.
  assert (get_io st' = get_io st) as Hio by (unfold get_io; by rewrite Hios).
  destruct Hcl. split; try congruence; [|by rewrite Hi|..].
  - by apply (acct_quiet n st).
  - intros i Hlt. rewrite Hio. auto.
Qed.

(** The state after the next chunk was given to slot [i] (by [f]) and its first
    operation submitted. *)
Definition taken (i : nat) (f : dd_io → dd_io) (len : Z) (o : op) (ty : dd_submit_type) (st : dd_state)
  : dd_state :=
  add_pending i o (set_io i (λ io, io <| io_type := ty |>) (inc_outstanding
    (upd_job (λ j, j <| input ::= λ t, t <| pos := u64 (pos t + len) |> |>) (set_io i f st)))).

Lemma clean_taken done st i f ty len off :
  clean (pending st) done st → (i < n)%nat → pending st !! i = None → done < copy →
  io_offset (f (get_io st i)) = in_start + done → io_length (f (get_io st i)) = next_len done →
  let st' := taken i f (next_len done) (mkOp (OpIo ty) len off None) ty st in
  acct n st' → ty ≠ DD_WRITE → (ty = DD_READ → next_len done `mod` block_size out_t = 0) →
  (len, off) = op_window in_start out_start (block_size out_t) ty
                 (mkIo (in_start + done) (next_len done) ty) →
  clean (pending st') (done + next_len done) st'.
Proof.
  intros Hcl Hi Hp Hlt Hfo Hfl st' Hac Hty Hread Hwin.
  pose proof (clean_ios _ _ _ i Hcl Hi) as Hios.
  destruct (next_len_spec _ _ _ Hcl Hlt) as (Hpos & Hle & _). pose proof (clean_done _ _ _ Hcl).
  assert (∀ j, get_io st' j = get_io (set_io i (λ io, io <| io_type := ty |>) (set_io i f st)) j) as Hgi
    by done.
  assert (get_io st' i = mkIo (in_start + done) (next_len done) ty) as Hii.
  { rewrite Hgi, get_set_io_eq by (simpl; by rewrite length_alter).
    rewrite get_set_io_eq by done. rewrite <- Hfo, <- Hfl. done. }
  apply (clean_assign done st st' i ty len off); try done.
  - assert (input (g_job st') = (input (g_job st)) <| pos := u64 (pos (input (g_job st)) + next_len done) |>)
      as -> by done.
    rewrite (cl_input _ _ _ Hcl). simpl. rewrite u64_small; [by rewrite Z.add_assoc|]. pose proof starts_u64. destruct Hjob. lia.
  - apply (cl_error _ _ _ Hcl).
  - apply (cl_interrupt _ _ _ Hcl).
  - intros j Hne. rewrite Hgi, !get_set_io_ne; try done. simpl. by rewrite length_alter.
  - by rewrite Hii.
Qed.

(** Taking the next chunk, or leaving when there is none. *)
(** A slot that finds nothing left to copy. *)
Lemma clean_used_up st i f :
  clean (pending st) copy st → (i < n)%nat → pending st !! i = None → io_length (f (get_io st i)) = 0 →
  clean (pending st) copy (set_io i f st).
Proof.
  intros Hcl Hi Hp Hf. pose proof (clean_ios _ _ _ i Hcl Hi) as Hlt. destruct Hcl. split; try done.
  - by apply acct_set_io.
  - intros j Hj. destruct (decide (j = i)) as [->|Hne]; [|by rewrite get_set_io_ne; auto].
    rewrite get_set_io_eq by done. rewrite Hf. split; [destruct Hjob; lia|by right].
  - eapply core_ext; [|done]. intros j o Hj. apply get_set_io_ne; congruence.
Qed.

Lemma clean_populate done st i :
  clean (pending st) done st → (i < n)%nat → pending st !! i = None →
  let st' := dd_target_populate_buffer i st in
  (done < copy ∧ ∃ o, pending st' = <[i := o]> (pending st) ∧
     clean (pending st') (done + next_len done) st' ∧ op_res o = None ∧ (weight o <= 6)%nat) ∨
  (done = copy ∧ pending st' = pending st ∧ clean (pending st') done st').
Proof.
  intros Hcl Hi Hp. simpl.
  pose proof (proj1 (populate_stage n i st accepting_errno (cl_acct _ _ _ Hcl) Hi Hp)) as Hac.
  revert Hac. unfold dd_target_populate_buffer.
  pose proof (clean_ios _ _ _ i Hcl Hi) as Hlt. pose proof (clean_done _ _ _ Hcl) as Hd.
  rewrite (cl_opts _ _ _ Hcl), (cl_input _ _ _ Hcl), (cl_output _ _ _ Hcl), (cl_copy _ _ _ Hcl).
  simpl pos. rewrite write_offset_eq by lia.
  replace (u64 (in_start + done - _)) with done.
  2: { destruct starts_u64 as (-> & _ & ? & ?). rewrite u64_small; [lia|]. destruct Hjob. lia. }
  rewrite (u64_small (copy - done)) by (pose proof copy_wrap; destruct Hjob; lia).
  set (st1 := set_io i _ st).
  assert (get_io st1 i = mkIo (in_start + done) (Z.min (io_length (get_io st i)) (copy - done))
    (io_type (get_io st i))) as Hio by (unfold st1; by rewrite get_set_io_eq).
  rewrite Hio. simpl io_length. destruct (cl_len _ _ _ Hcl i Hi) as [Hnn Hlen].
  assert (stopping st1 = false) as Hstop by exact (clean_stopping _ _ _ Hcl).
  destruct (Z.eq_dec done copy) as [Hdc|Hdc].
  - intros _. right. rewrite Hstop, orb_false_r.
    destruct (Z.eqb_spec (Z.min (io_length (get_io st i)) (copy - done)) 0); [|lia].
    assert (clean (pending st) done st1) as Hcl1 by (subst done; apply clean_used_up; try done; simpl; lia).
    split; [done|]. destruct (idle st1); [|done].
    destruct (show_and_exit_spec st1) as (Hq & _). split; [apply Hq|].
    rewrite (q_pending _ _ Hq). by eapply clean_quiet.
  - intros Hac. left. split; [lia|]. destruct Hlen as [Hlen|]; [|lia].
    rewrite Hlen in Hio, Hac |- *. fold (next_len done) in Hio, Hac |- *.
    destruct (next_len_spec _ _ _ Hcl ltac:(lia)) as (Hpos & Hle & _).
    destruct (Z.eqb_spec (next_len done) 0); [lia|]. rewrite Hstop in Hac |- *. simpl orb in Hac |- *. cbv iota in Hac |- *.
    destruct (Z.eqb_spec (next_len done `mod` block_size out_t) 0) as [Hm|Hm].
    + revert Hac. unfold dd_target_read.
      change (stopping (upd_job _ st1)) with (stopping st1). rewrite Hstop, submit_accept.
      rewrite get_set_io_eq by (simpl; by rewrite length_alter).
      change (get_io (inc_outstanding (upd_job _ st1)) i) with (get_io st1 i). rewrite Hio.
      intros Hac. exists (mkOp (OpIo DD_READ) (next_len done) (in_start + done) None).
      split; [done|]. split; [|split; [done|unfold weight; simpl; lia]].
      apply (clean_taken done st i); try done; [lia|..]; by rewrite Hlen.
    + rewrite submit_accept in Hac |- *.
      eexists. split; [done|]. split; [|split; [done|unfold weight; simpl; lia]].
      apply (clean_taken done st i); try done; [lia|]. simpl. by rewrite Hlen.
Qed.

Lemma clean_seek done st i :
  clean (pending st) done st → dd_target_seek i st = dd_target_populate_buffer i st.
Proof. intros Hcl. unfold dd_target_seek. by rewrite (ac_dense n st (cl_acct _ _ _ Hcl)). Qed.

(** ** Completions *)

(** The reported slot, back with its handler. *)
Definition reported (i : nat) (st : dd_state) : dd_state := dec_outstanding (st <| pending ::= delete i |>).

Lemma clean_reported done st i o :
  clean (pending st) done st → pending st !! i = Some o →
  let st1 := reported i st in
  clean (<[i := o]> (pending st1)) done st1 ∧ (i < n)%nat ∧ pending st1 !! i = None ∧
  pending st1 = delete i (pending st).
Proof.
  intros Hcl Ho. destruct (acct_report n i o st (cl_acct _ _ _ Hcl) Ho) as (Ha & Hi & Hp & _).
  fold (reported i st) in Ha, Hp. simpl.
  assert (pending (reported i st) = delete i (pending st)) as Hpe.
  { unfold reported, dec_outstanding, dd_assert. by destruct (0 <? _). }
  rewrite Hpe at 1. rewrite insert_delete_id by done. split; [|done].
  destruct Hcl. unfold reported, dec_outstanding, dd_assert in *. destruct (0 <? _); by split.
Qed.

(** The handler the completion of slot [i] runs: the next stage. *)
Definition next_stage (i : nat) (ty : dd_submit_type) (st : dd_state) : dd_state :=
  match ty with
  | DD_POPULATE => dd_target_read i st
  | DD_READ => dd_target_write i st
  | DD_WRITE => dd_target_seek i st
  end.

Lemma clean_op_len pend done st i o :
  clean pend done st → pend !! i = Some o → 0 < op_len o < U64_MOD ∧
  op_kind_of o = OpIo (io_type (get_io st i)) ∧
  (op_len o ≠ io_length (get_io st i) → io_type (get_io st i) ≠ DD_READ ∧ copy `mod` block_size out_t ≠ 0).
Proof.
  intros Hcl Ho. destruct (co_slot _ _ _ _ _ _ _ _ _ _ _ _ _ (cl_core _ _ _ Hcl) i o Ho)
    as [Hk Hw _ Hl Hlo Hhi Hal Hpa _].
  pose proof (clean_done _ _ _ Hcl). pose proof copy_wrap. pose proof (jo_bs Hjob).
  destruct (round_up_spec (io_length (get_io st i)) (block_size out_t)) as [Hru Hrm]; [lia..|].
  unfold op_window in Hw.
  destruct (io_type (get_io st i)) eqn:Hty; injection Hw as -> _;
    (split; [lia|]); (split; [done|]); try done; intros Hne; (split; [done|]); intros Hm;
    apply Hne, Hrm; revert Hpa Hal Hm;
    set (c := chunk _ _); set (l := io_length _); set (b := block_size _); intros Hpa Hal Hm;
    (destruct (Z.eq_dec (l `mod` b) 0) as [|Hnz]; [done|]); specialize (Hpa Hnz);
    rewrite <- Hpa, Z.add_mod, Hal, Z.add_0_l, Z.mod_mod in Hm by lia; done.
Qed.

Lemma clean_target pend done st ty :
  clean pend done st →
  is_file (target_of st ty) = is_file (match ty with DD_READ => in_t | _ => out_t end).
Proof.
  intros Hcl. unfold target_of. rewrite (cl_output _ _ _ Hcl), (cl_input _ _ _ Hcl). by destruct ty.
Qed.

Lemma deliver_clean done st i o r :
  clean (pending st) done st → pending st !! i = Some o → op_res o = Some r →
  ∃ st1, quiet (reported i st) st1 ∧ deliver i o r st = next_stage i (io_type (get_io st i)) st1.
Proof.
  intros Hcl Ho Hr. destruct (clean_op_len _ _ _ _ _ Hcl Ho) as (Hlen & Hk & Hne).
  pose proof (so_res _ _ _ _ _ _ _ _ _ _ _ _ _ (co_slot _ _ _ _ _ _ _ _ _ _ _ _ _ (cl_core _ _ _ Hcl) i o Ho) r Hr)
    as [Hle Hfile]%Hfine; [|lia].
  unfold deliver. rewrite Hk.
  assert (io_type (get_io (reported i st) i) = io_type (get_io st i)) as Hty.
  { unfold reported, dec_outstanding, dd_assert. by destruct (0 <? _). }
  destruct (is_file (target_of st (io_type (get_io st i)))) eqn:Hf.
  - exists (reported i st). split; [done|].
    rewrite (clean_target _ _ _ _ Hcl) in Hf. specialize (Hfile Hf). rewrite <- (cl_opts _ _ _ Hcl) in Hfile.
    unfold uring_mode. destruct (config_uring && negb (aio (g_opts st))) eqn:Hm.
    + simpl. destruct (Z.eqb_spec r (- EAGAIN)); [unfold EAGAIN in *; lia|].
      destruct (Z.ltb_spec r 0); [lia|]. unfold dd_complete_poll.
      fold (reported i st). rewrite Hty. by destruct (io_type (get_io st i)).
    + subst r. simpl. rewrite u64_small by lia.
      destruct (Z.eqb_spec (op_len o) (io_length (get_io st i))) as [|Hx].
      * simpl. unfold dd_complete_poll. fold (reported i st). rewrite Hty.
        by destruct (io_type (get_io st i)).
      * exfalso. destruct (Hne Hx) as [Hnr Hmod]. apply Hmod. apply (jo_aio Hjob).
        -- by destruct (io_type (get_io st i)).
        -- by rewrite <- (cl_opts _ _ _ Hcl).
  - assert (quiet (reported i st) (dec_outstanding (emit EvFreeIo (st <| pending ::= delete i |>)))) as Hq.
    { unfold reported, dec_outstanding, dd_assert. simpl. by destruct (0 <? _). }
    unfold deliver_bdev. destruct (io_type (get_io st i)); eexists; (split; [|reflexivity]); done.
Qed.

(** Completions still to come, at most. *)
Definition measure (done : Z) (st : dd_state) : nat := (work (pending st) + 7 * Z.to_nat (copy - done))%nat.

(** A step that keeps the invariant and decreases the measure. *)
Definition advances (done : Z) (st st' : dd_state) : Prop :=
  ∃ done', clean (pending st') done' st' ∧ (measure done' st' < measure done st)%nat ∧
           (pending st' = ∅ → done' = copy).

Lemma moved_advances done st st1 st' i o ty :
  pending st !! i = Some o → pending st1 = delete i (pending st) → moved i ty done st1 st' →
  (∀ o', op_kind_of o' = OpIo ty → op_res o' = None → (weight o' < weight o)%nat) →
  advances done st st'.
Proof.
  intros Ho Hp1 (o' & Hp' & Hcl' & Hk & Hr) Hw. exists done. split; [done|].
  split; [|intros Hemp; rewrite Hemp in Hp'; by apply eq_sym, insert_non_empty in Hp'].
  unfold measure. rewrite Hp', Hp1, work_insert_new by apply lookup_delete_eq.
  pose proof (work_delete i o (pending st) Ho). specialize (Hw o' Hk Hr). lia.
Qed.

Lemma clean_deliver done st i o r :
  clean (pending st) done st → pending st !! i = Some o → op_res o = Some r →
  advances done st (deliver i o r st).
Proof.
  intros Hcl Ho Hr. destruct (clean_op_len _ _ _ _ _ Hcl Ho) as (_ & Hk & _).
  destruct (deliver_clean _ _ _ _ _ Hcl Ho Hr) as (st1 & Hq & ->).
  destruct (clean_reported _ _ _ _ Hcl Ho) as (Hcl1 & Hi & Hp1 & Hpe).
  apply (clean_quiet _ _ _ _ Hq) in Hcl1. rewrite <- (q_pending _ _ Hq) in Hcl1, Hp1, Hpe.
  assert (get_io st1 i = get_io st i) as Hio.
  { unfold get_io. rewrite (q_ios _ _ Hq). unfold reported, dec_outstanding, dd_assert. by destruct (0 <? _). }
  destruct (io_type (get_io st i)) eqn:Hty; simpl.
  - eapply moved_advances; [done|done|by eapply clean_read; eauto; congruence|].
    intros o' Hk' Hr'. unfold weight. rewrite Hk, Hr, Hk', Hr'. lia.
  - eapply moved_advances; [done|done|by eapply clean_write; eauto; congruence|].
    intros o' Hk' Hr'. unfold weight. rewrite Hk, Hr, Hk', Hr'. lia.
  - assert (clean (pending st1) done st1) as Hcl2.
    { destruct Hcl1. split; try done. rewrite <- (delete_insert_id (pending st1) i o Hp1).
      eapply core_finish; [done|by rewrite lookup_insert_eq|congruence|by eexists]. }
    rewrite (clean_seek done st1 i Hcl2).
    assert (weight o = 1%nat) as Hw by (unfold weight; by rewrite Hk, Hr).
    pose proof (work_delete i o (pending st) Ho) as Hwd. pose proof (clean_done _ _ _ Hcl) as Hd.
    destruct (clean_populate done st1 i Hcl2 Hi Hp1) as [(Hlt & o' & Hp' & Hcl' & Hr' & Hw')|(Hdc & Hp' & Hcl')].
    + destruct (next_len_spec _ _ _ Hcl Hlt) as (Hpos & Hle & _).
      exists (done + next_len done). split; [done|]. unfold measure.
      rewrite Hp', work_insert_new, Hpe by done. split; [lia|].
      intros Hemp. by apply insert_non_empty in Hemp.
    + exists done. split; [done|]. unfold measure. rewrite Hp', Hpe. split; [lia|done].
Qed.

Lemma clean_perform done st i o r :
  clean (pending st) done st → pending st !! i = Some o → op_res o = None →
  (∀ ty, op_kind_of o = OpIo ty → fine ty (op_len o) r) →
  advances done st (perform i o r st).
Proof.
  intros Hcl Ho Hr Hres. destruct (clean_op_len _ _ _ _ _ Hcl Ho) as (Hlen & Hk & _).
  specialize (Hres _ Hk).
  destruct (perform_quiet_acct n i o r st (cl_acct _ _ _ Hcl) Ho) as (Hac & _ & Hne).
  assert (pending (perform i o r st) = <[i := o <| op_res := Some r |>]> (pending st)) as Hp.
  { unfold perform. rewrite Hk. by destruct (io_type (get_io st i)). }
  exists done. split; [|split; [|done]].
  2: { unfold measure. rewrite Hp. pose proof (work_insert i o (o <| op_res := Some r |>) _ Ho) as Hw.
       revert Hw. unfold weight. simpl. rewrite Hk, Hr. destruct (io_type (get_io st i)); lia. }
  rewrite Hp. pose proof (jo_bs Hjob) as Hbs. pose proof copy_wrap as Hwrap. destruct Hcl.
  revert Hac. unfold perform. rewrite Hk. intros Hac.
  destruct (io_type (get_io st i)) eqn:Hty; split; try done.
  - eapply core_perform_populate; try done; simpl; [by intros (_ & _ & ?)|..].
    + intros j Hj. by destruct (Nat.eqb_spec j i).
    + by rewrite Nat.eqb_refl.
  - eapply core_perform_read; try done; simpl; [by intros (_ & _ & ?)|..].
    + intros j Hj. by destruct (Nat.eqb_spec j i).
    + rewrite Nat.eqb_refl. intros (Hsame & _). by rewrite cl_in0.
  - simpl. intros Hsame. rewrite Hsame. by apply cl_in0.
  - eapply core_perform_write; try done; simpl; [by intros (_ & _ & ?)|].
    intros (_ & Happ & _). unfold write_at. simpl. by rewrite cl_output0, Happ.
Qed.

(** ** What runs keep *)

Record ready (done : Z) (st : dd_state) : Prop := {
  rd_clean : clean (pending st) done st;
  rd_inv : dd_inv n st;
  rd_code : stops (events st) = [] ∨ stops (events st) = [0];
  rd_done : pending st = ∅ → done = copy;
}.

Lemma xfer_step_dd done st st' : clean (pending st) done st → xfer_step fine st st' → dd_step st st'.
Proof.
  intros Hcl Hs. destruct Hs as [s i o r Ho Hr Hres|s i o r Ho Hr]; [eapply step_perform|eapply step_deliver]; eauto.
  destruct (clean_op_len _ _ _ _ _ Hcl Ho) as (Hlen & Hk & _).
  unfold may_return. rewrite Hk. apply Z.leb_le. by apply (Hfine _ _ _ (proj1 Hlen) (Hres _ Hk)).
Qed.

Lemma ready_step done st st' :
  ready done st → xfer_step fine st st' → ∃ done', ready done' st' ∧ (measure done' st' < measure done st)%nat.
Proof.
  intros [Hcl Hinv Hcode Hdone] Hstep.
  assert (advances done st st') as (done' & Hcl' & Hm & Hd').
  { destruct Hstep; [by apply clean_perform|by apply clean_deliver]. }
  exists done'. split; [|done]. pose proof (xfer_step_dd _ _ _ Hcl Hstep) as Hdd.
  pose proof accepting_errno as He.
  split; [done|by eapply inv_step| |done].
  assert (pending st ≠ ∅) as Hne by (destruct Hstep as [s i o r Ho _|s i o r Ho _]; intros Hp; by rewrite Hp in Ho).
  destruct (decide (stops (events st') = [])) as [|Hs']; [by left|right].
  assert (stops (events st) = []) as Hs by (by destruct Hinv as (_ & _ & [[? _]|(? & _ & ?)])).
  destruct (stop_code n st st' He Hinv Hdd Hs Hs') as [-> _]. by rewrite (cl_error _ _ _ Hcl').
Qed.

Lemma ready_idle done st st' :
  ready done st → idle_step st st' → ready done st' ∧ measure done st' = measure done st.
Proof.
  intros Hr Hs. destruct Hs as [st|st]; [|by split]. destruct Hr as [Hcl Hinv Hcode Hdone].
  pose proof (quiet_show false st) as Hq. simpl. unfold measure. rewrite (q_pending _ _ Hq).
  split; [|done]. split; rewrite ?stops_show, ?(q_pending _ _ Hq); try done.
  - by eapply clean_quiet.
  - eapply inv_step; [apply accepting_errno|exact Hinv|apply step_status].
Qed.

Lemma ready_run k done st st' :
  ready done st → xfer_run fine k st st' →
  ∃ done', ready done' st' ∧ (k + measure done' st' <= measure done st)%nat.
Proof.
  intros Hr Hrun. revert done Hr. induction Hrun as [st|k s1 s2 s3 Hs _ IH|k s1 s2 s3 Hs _ IH]; intros done Hr.
  - exists done. split; [done|lia].
  - destruct (ready_step _ _ _ Hr Hs) as (d2 & Hr2 & Hm). destruct (IH d2 Hr2) as (d3 & Hr3 & Hm3).
    exists d3. split; [done|lia].
  - destruct (ready_idle _ _ _ Hr Hs) as (Hr2 & Hm). destruct (IH done Hr2) as (d3 & Hr3 & Hm3).
    exists d3. split; [done|lia].
Qed.

(** What a run has reached: it has stopped with status 0 and the copy is complete,
    or it is working and some operation can be performed or reported. *)
Lemma ready_outcome done st :
  ready done st →
  (stops (events st) = [0] ∧ pending st = ∅ ∧
   (faithful →
    (∀ x, 0 <= x < copy → out_data st (out_start + x) = in0 (in_start + x)) ∧
    (∀ y, y < out_start ∨ out_start + copy <= y → out_data st y = out0 y))) ∨
  (stops (events st) = [] ∧ ∃ st', full_step st st').
Proof.
  intros [Hcl (_ & _ & Hinv) Hcode Hdone]. destruct Hinv as [[Hs Hne]|(rc & Hs & Hp)].
  - right. split; [done|]. destruct (map_choose _ Hne) as (i & o & Ho).
    destruct (op_res o) as [r|] eqn:Hr; eexists; [by eapply xfer_deliver|by eapply xfer_perform].
  - left. rewrite Hs in Hcode. destruct Hcode as [|Hc]; [done|]. rewrite Hs, Hc.
    split; [done|]. split; [done|]. pose proof (cl_core _ _ _ Hcl) as Hco.
    rewrite Hp, (Hdone Hp) in Hco. intros HD. by eapply core_complete.
Qed.

(** Every operation in flight fits its slot's buffer and its window. *)
Lemma clean_op_bounds done st i o :
  clean (pending st) done st → pending st !! i = Some o →
  0 < op_len o <= io_unit_size opts ∧
  match op_kind_of o with
  | OpIo DD_READ => in_start <= op_off o ∧ op_off o + op_len o <= in_start + copy
  | _ => out_start <= op_off o ∧ op_off o + op_len o <= out_start + round_up copy (block_size out_t)
  end.
Proof.
  intros Hcl Ho. pose proof (acct_report n i o st (cl_acct _ _ _ Hcl) Ho) as (_ & Hi & _).
  destruct (cl_len _ _ _ Hcl i Hi) as [Hlen _]. pose proof (clean_done _ _ _ Hcl) as Hd.
  destruct (co_slot _ _ _ _ _ _ _ _ _ _ _ _ _ (cl_core _ _ _ Hcl) i o Ho) as [Hk Hw _ Hl Hlo Hhi Hal Hpa _].
  pose proof copy_wrap as Hwrap. pose proof (jo_bs Hjob) as Hbs.
  set (c := chunk in_start (get_io st i)) in *. set (l := io_length (get_io st i)) in *.
  set (bs := block_size out_t) in *.
  destruct (round_up_spec l bs) as [Hru Hrm]; [lia..|]. pose proof (round_up_mod l bs ltac:(lia) Hbs ltac:(lia)) as Hm.
  destruct (round_up_spec copy bs) as [Hcu _]; [lia..|]. pose proof (round_up_mod copy bs ltac:(lia) Hbs ltac:(lia)) as Hcm.
  assert (round_up l bs <= io_unit_size opts).
  { apply (multiple_le _ _ bs); try done; [apply Hjob|lia]. }
  assert (c + round_up l bs <= round_up copy bs).
  { destruct (Z.eq_dec (l `mod` bs) 0) as [E|E]; [rewrite Hrm by done; lia|].
    specialize (Hpa E). apply (multiple_le _ _ bs); try done; [|lia].
    by rewrite Z.add_mod, Hal, Hm by lia. }
  unfold op_window in Hw. fold c l in Hw. rewrite Hk.
  destruct (io_type (get_io st i)); injection Hw as -> ->; (split; [lia|]); unfold c, chunk in *; lia.
Qed.

(** *** The start *)

(** The job just before its slots are started. *)
Record job_start (st : dd_state) : Prop := {
  js_initial : initial n st;
  js_opts : g_opts st = opts;
  js_input : input (g_job st) = in_t <| pos := in_start |>;
  js_output : output (g_job st) = out_t;
  js_copy : copy_size (g_job st) = copy;
  js_error : g_error st = 0;
  js_interrupt : g_interrupt st = false;
  js_in : in_data st = in0;
  js_out : out_data st = out0;
  js_len i : (i < n)%nat → io_length (get_io st i) = io_unit_size opts;
}.

Lemma job_start_clean st : job_start st → clean ∅ 0 st.
Proof.
  intros []. split; try done.
  - by apply initial_acct.
  - by rewrite Z.add_0_r.
  - intros i Hi. rewrite js_len0 by done. destruct Hjob. split; [lia|by left].
  - rewrite js_out0. apply core_start. apply Hjob.
Qed.

Lemma clean_start i todo done st :
  clean (pending st) done st → (∀ j, (i <= j)%nat → pending st !! j = None) → (i + todo <= n)%nat →
  ∃ done', clean (pending (dd_start i todo st)) done' (dd_start i todo st) ∧
           (measure done' (dd_start i todo st) <= measure done st)%nat.
Proof.
  revert i done st. induction todo as [|todo IH]; intros i done st Hcl Hfree Hn; simpl.
  { exists done. split; [done|lia]. }
  pose proof (Hfree i ltac:(lia)) as Hpi. pose proof (clean_done _ _ _ Hcl) as Hd.
  rewrite (clean_seek done st i Hcl).
  destruct (clean_populate done st i Hcl ltac:(lia) Hpi) as [(Hlt & o & Hp & Hcl' & Hr & Hw)|(Hdc & Hp & Hcl')].
  - destruct (next_len_spec _ _ _ Hcl Hlt) as (Hpos & Hle & _).
    destruct (IH (S i) _ _ Hcl') as (d & Hc & Hm); [|lia|].
    { intros j Hj. rewrite Hp, lookup_insert_ne by lia. apply Hfree. lia. }
    exists d. split; [done|]. revert Hm. unfold measure. rewrite Hp, work_insert_new by done. lia.
  - destruct (IH (S i) _ _ Hcl') as (d & Hc & Hm); [|lia|].
    { intros j Hj. rewrite Hp. apply Hfree. lia. }
    exists d. split; [done|]. revert Hm. unfold measure. by rewrite Hp.
Qed.

Lemma start_ready st :
  job_start st → (0 < n)%nat → 0 < copy →
  ∃ done, ready done (dd_start 0 n st) ∧ (measure done (dd_start 0 n st) <= 7 * Z.to_nat copy)%nat.
Proof.
  intros Hst Hn Hc. pose proof (job_start_clean st Hst) as Hcl. pose proof (js_initial st Hst) as Hin.
  pose proof (in_pending n st Hin) as Hp0. rewrite <- Hp0 in Hcl.
  assert (pending (dd_target_seek 0 st) ≠ ∅) as Hne.
  { rewrite (clean_seek 0 st 0 Hcl).
    destruct (clean_populate 0 st 0 Hcl Hn) as [(_ & o & -> & _)|(? & _)];
      [by rewrite Hp0|apply insert_non_empty|lia]. }
  destruct (clean_start 0 n 0 st Hcl) as (d & Hcl' & Hm); [by rewrite Hp0|lia|].
  destruct (start_ok n st accepting_errno Hin Hn (or_intror Hne)) as [Hinv Hne'].
  specialize (Hne' Hne).
  exists d. split; [|revert Hm; unfold measure; rewrite Hp0, Z.sub_0_r; unfold work; by rewrite map_fold_empty].
  split; [done|done| |done]. left. by destruct Hinv as (_ & _ & [[? _]|(? & _ & ?)]).
Qed.

End Clean.
