(* ===== verification/DdSetup.v ===== *)
(** * spdk_dd: command line, set-up and tear-down ([src/app/spdk_dd.c], lines 820 to 1485)

    From the options to the running job: [parse_args], the checks of [main],
    [dd_run] (opening the two targets, checking sizes, allocating the slots,
    setting up the ring and starting the slots) and [dd_free]. A function of the C
    file that returns early is a computation of type [dd_state + dd_state]: [inl]
    is the state at an early return, [inr] the state to go on with. *)

From Stdlib Require Import Ascii.
From S2P Require Import Prelude Posix DdState DdEngine DdSteps.
#[local] Open Scope Z_scope.

Declare Scope dd_scope.
Delimit Scope dd_scope with dd.
Notation "'let!' x := m 'in' k" := (match m with inl st => inl st | inr x => k end)
  (at level 10, x name, m at level 100, k at level 200) : dd_scope.
#[local] Open Scope dd_scope.

(** ** Calls outside the repository *)

Class DdSetupEnv := {
  open_ret : string → Z → Z;          (* open(fname, flags) *)
  fd_blocklen : Z → Z;                (* spdk_fd_get_blocklen *)
  fd_size : Z → Z;                    (* spdk_fd_get_size *)
  fstat_mode : Z → option Z;          (* st_mode of fstat, None when it fails *)
  fd_regular : Z → bool;              (* an open descriptor is of a regular file *)
  bdev_open_rc : string → Z;          (* spdk_bdev_open_ext *)
  bdev_has_channel : string → bool;   (* spdk_bdev_get_io_channel != NULL *)
  bdev_block_size : string → Z;
  bdev_num_blocks : string → Z;
  calloc_ios_ok : bool;
  malloc_buf_ok : nat → bool;
  uring_init_rc : Z → Z;              (* io_uring_queue_init, of the number of entries *)
  register_files_rc : Z;
  register_buffers_rc : Z;
  strtol : string → Z;                (* spdk_strtol(optarg, 10) *)
}.

Definition IORING_SETUP_IOPOLL : Z := 1.
Definition IORING_SETUP_SQPOLL : Z := 2.

(** ** Flags *)

(** [g_flags] *)
Definition g_flags : list (string * Z) :=
  [("append", O_APPEND); ("direct", O_DIRECT); ("directory", O_DIRECTORY); ("dsync", O_DSYNC);
   ("noatime", O_NOATIME); ("noctty", O_NOCTTY); ("nofollow", O_NOFOLLOW);
   ("nonblock", O_NONBLOCK); ("sync", O_SYNC)]%string.

(** The inner loop of [parse_flags]: the first entry with the name. *)
Fixpoint find_flag (table : list (string * Z)) (name : string) : option Z :=
  match table with
  | [] => None
  | (k, f) :: table => if String.eqb name k then Some f else find_flag table name
  end.

(** [strsep(&s, ",")]: the text up to the next comma, and the rest ([None] is the
    [NULL] that ends the outer loop). *)
Fixpoint strsep (s : string) : string * option string :=
  match s with
  | EmptyString => (EmptyString, None)
  | String c s =>
      if Ascii.eqb c ","%char then (EmptyString, Some s)
      else let '(t, rest) := strsep s in (String c t, rest)
  end.

Section Setup.
Context `{DdEnv, DdSetupEnv}.

(** The outer loop; a round consumes a character, so the length of the text and one
    more round are enough. *)
Fixpoint parse_flags_loop (rounds : nat) (file_flags : option string) (flags : Z) (st : dd_state)
  : Z * dd_state :=
  match rounds, file_flags with
  | S rounds, Some s =>
      let '(input_flag, rest) := strsep s in
      match find_flag g_flags input_flag with
      | Some f => parse_flags_loop rounds rest (Z.lor flags f) st
      | None => (0, dd_exit (- EINVAL) st)
      end
  | _, _ => (flags, st)
  end.

Definition parse_flags (file_flags : option string) (st : dd_state) : Z * dd_state :=
  match file_flags with
  | None => (0, st)
  | Some s => parse_flags_loop (S (String.length s)) file_flags 0 st
  end.

(** What the text is afterwards: [strsep] put a terminator over its first comma. *)
Definition after_strsep (file_flags : option string) : option string :=
  (λ s, (strsep s).1) <$> file_flags.

(** ** Opening the targets *)

Definition set_target (is_input : bool) (f : dd_target → dd_target) (st : dd_state) : dd_state :=
  upd_job (λ j, if is_input then j <| input ::= f |> else j <| output ::= f |>) st.

Definition get_target (is_input : bool) (st : dd_state) : dd_target :=
  if is_input then input (g_job st) else output (g_job st).

Definition set_opts (f : spdk_dd_opts → spdk_dd_opts) (st : dd_state) : dd_state := st <| g_opts ::= f |>.

(** [spdk_min(g_opts.queue_depth, total_size / io_unit_size - skip_blocks + 1)] *)
Definition limit_depth_size (total skip : Z) (o : spdk_dd_opts) : spdk_dd_opts :=
  o <| queue_depth := u32 (Z.min (queue_depth o) (u64 (total `div` io_unit_size o - skip + 1))) |>.

Definition limit_depth_count (o : spdk_dd_opts) : spdk_dd_opts :=
  if negb (io_unit_count o =? 0) then o <| queue_depth := u32 (Z.min (queue_depth o) (io_unit_count o)) |>
  else o.

(** The flags [dd_open_file] opens with. *)
Definition open_file_flags (is_input : bool) (flags : Z) : Z :=
  let flags := Z.lor flags O_RDWR in
  let flags := if negb is_input && negb (has_flag flags O_DIRECTORY) then Z.lor flags O_CREAT else flags in
  if negb is_input && negb (has_flag flags O_APPEND) then Z.lor flags O_TRUNC else flags.

(** [open] with [O_TRUNC] empties a regular file (bytes past the end read as 0). *)
Definition dd_open_file (is_input : bool) (fname : string) (flags skip_blocks : Z) (st : dd_state)
  : Z * dd_state :=
  let flags := open_file_flags is_input flags in
  let fd := open_ret fname flags in
  let st := emit (EvOpen fname flags) st in
  let st := set_target is_input (λ t, t <| t_type := DD_TARGET_TYPE_FILE |> <| t_fd := fd |>) st in
  if fd <? 0 then (fd, st)
  else
    let st := set_target is_input (λ t, t <| t_append := has_flag flags O_APPEND |>) st in
    let st := if negb is_input && has_flag flags O_TRUNC && fd_regular fd then put_output zeroes st else st in
    let total := if fd_size fd =? 0 then u64 (io_unit_size (g_opts st) * io_unit_count (g_opts st))
                 else fd_size fd in
    let st := set_target is_input (λ t, t <| block_size := Z.max (fd_blocklen fd) 1 |>
                                          <| total_size := total |>) st in
    let st := if is_input then set_opts (limit_depth_size total skip_blocks) st else st in
    (0, set_opts limit_depth_count st).

Definition dd_open_bdev (is_input : bool) (bdev_name : string) (skip_blocks : Z) (st : dd_state)
  : Z * dd_state :=
  let st := set_target is_input (λ t, t <| t_type := DD_TARGET_TYPE_BDEV |>) st in
  let rc := bdev_open_rc bdev_name in
  if rc <? 0 then (rc, st)
  else
    let st := set_target is_input (λ t, t <| t_open := true |> <| t_ch := bdev_has_channel bdev_name |>) st in
    if negb (bdev_has_channel bdev_name) then (- ENOMEM, emit (EvBdevClose is_input) st)
    else
      let total := u64 (bdev_num_blocks bdev_name * bdev_block_size bdev_name) in
      let st := set_target is_input (λ t, t <| block_size := bdev_block_size bdev_name |>
                                            <| total_size := total |>) st in
      (0, set_opts limit_depth_count (set_opts (limit_depth_size total skip_blocks) st)).

(** ** [dd_run], part by part *)

Definition run_open_input (st : dd_state) : dd_state + dd_state :=
  let o := g_opts st in
  match input_file o, input_bdev o with
  | Some fname, _ =>
      let '(flags, st) := parse_flags (input_file_flags o) st in
      let st := set_opts (λ o, o <| input_file_flags ::= after_strsep |>) st in
      let '(rc, st) := dd_open_file true fname flags (input_offset o) st in
      if rc <? 0 then inl (dd_exit (- env_errno st) st) else inr st
  | None, Some name =>
      let '(rc, st) := dd_open_bdev true name (input_offset o) st in
      if rc <? 0 then inl (dd_exit rc st) else inr st
  | None, None => inr st
  end.

Definition write_size (st : dd_state) : Z := u64 (io_unit_count (g_opts st) * io_unit_size (g_opts st)).

(** [p != NULL] *)
Definition given (name : option string) : bool := match name with Some _ => true | None => false end.

(** The position and size checks on the input, and the size of the copy. *)
Definition run_check_input (st : dd_state) : dd_state + dd_state :=
  let o := g_opts st in
  let st := set_target true (λ t, t <| pos := u64 (input_offset o * io_unit_size o) |>) st in
  let p := pos (input (g_job st)) in
  let total := total_size (input (g_job st)) in
  if given (input_bdev o) && (total <? p) then inl (dd_exit (- ENOSPC) st)
  else if negb (io_unit_count o =? 0) && given (input_bdev o) && (total <? u64 (write_size st + p))
  then inl (dd_exit (- ENOSPC) st)
  else
    let copy := if negb (io_unit_count o =? 0) then write_size st else u64 (total - p) in
    let st := upd_job (λ j, j <| copy_size := copy |>) st in
    inr (set_target false (λ t, t <| pos := u64 (output_offset o * io_unit_size o) |>) st).

Definition run_open_output (st : dd_state) : dd_state + dd_state :=
  let o := g_opts st in
  match output_file o, output_bdev o with
  | Some fname, _ =>
      let '(flags, st) := parse_flags (output_file_flags o) st in
      let st := set_opts (λ o, o <| output_file_flags ::= after_strsep |>) st in
      let '(rc, st) := dd_open_file false fname flags (output_offset o) st in
      if rc <? 0 then inl (dd_exit (- env_errno st) st) else inr st
  | None, Some name =>
      let '(rc, st) := dd_open_bdev false name (output_offset o) st in
      if rc <? 0 then inl (dd_exit rc st)
      else
        let p := pos (output (g_job st)) in
        let total := total_size (output (g_job st)) in
        if total <? p then inl (dd_exit (- ENOSPC) st)
        else if negb (io_unit_count o =? 0) && (total <? u64 (write_size st + p))
        then inl (dd_exit (- ENOSPC) st)
        else inr st
  | None, None => inr st
  end.

Definition run_check_blocks (st : dd_state) : dd_state + dd_state :=
  let unit := io_unit_size (g_opts st) in
  let ibs := block_size (input (g_job st)) in
  if (unit <? block_size (output (g_job st))) || (unit <? ibs) then inl (dd_exit (- EINVAL) st)
  else if given (input_bdev (g_opts st)) && negb (unit `mod` ibs =? 0) then inl (dd_exit (- EINVAL) st)
  else inr st.

(** [calloc] and the loop that allocates the buffers, from slot [i] on. *)
Fixpoint alloc_bufs (i todo : nat) (st : dd_state) : dd_state + dd_state :=
  match todo with
  | O => inr st
  | S todo =>
      if negb (malloc_buf_ok i) then inl (dd_exit (- ENOMEM) st)
      else alloc_bufs (S i) todo
             (set_io i (λ io, io <| io_length := u64 (io_unit_size (g_opts st)) |>) st)
  end.

Definition run_alloc (st : dd_state) : dd_state + dd_state :=
  let depth := Z.to_nat (queue_depth (g_opts st)) in
  if negb calloc_ios_ok then inl (dd_exit (- ENOMEM) st)
  else alloc_bufs 0 depth (upd_job (λ j, j <| ios := replicate depth (mkIo 0 0 DD_POPULATE) |> <| ios_alloc := true |>) st).

(** [S_ISBLK(m)]: [(m & S_IFMT) == S_IFBLK]. *)
Definition S_ISBLK (m : Z) : bool := Z.land m 61440 =? 24576.

Definition dd_is_blk (fd : Z) : bool :=
  match fstat_mode fd with None => false | Some m => S_ISBLK m end.

Definition dd_uring_init (io_uring_flags : Z) (st : dd_state) : Z * dd_state :=
  let entries := u32 (queue_depth (g_opts st) * 2) in
  (uring_init_rc entries, emit (EvRingInit entries io_uring_flags) st).

Definition dd_register_files (st : dd_state) : Z * dd_state :=
  let fds := (if given (input_file (g_opts st)) then [t_fd (input (g_job st))] else []) ++
             (if given (output_file (g_opts st)) then [t_fd (output (g_job st))] else []) in
  (register_files_rc, emit (EvRegisterFiles fds) st).

Definition dd_register_buffers (st : dd_state) : Z * dd_state :=
  (register_buffers_rc,
   emit (EvRegisterBuffers (queue_depth (g_opts st)) (io_unit_size (g_opts st))) st).

Definition run_backend (st : dd_state) : dd_state + dd_state :=
  let o := g_opts st in
  if given (input_file o) || given (output_file o) then
    if uring_mode st then
      let '(iflags, st) := parse_flags (input_file_flags o) st in
      let '(oflags, st) := parse_flags (output_file_flags o) st in
      let flags := Z.land iflags oflags in
      let setup := if has_flag flags O_DIRECT && dd_is_blk (t_fd (input (g_job st)))
                        && dd_is_blk (t_fd (output (g_job st)))
                   then IORING_SETUP_IOPOLL else IORING_SETUP_SQPOLL in
      let st := emit (EvPollerRegister false) st in
      let '(rc, st) := dd_uring_init setup st in
      if negb (rc =? 0) then inl (dd_exit rc st)
      else
        let st := upd_job (λ j, j <| uring_active := true |>) st in
        let '(rc, st) := dd_register_files st in
        if negb (rc =? 0) then inl (dd_exit rc st)
        else
          let '(rc, st) := dd_register_buffers st in
          if negb (rc =? 0) then inl (dd_exit rc st) else inr st
    else inr (emit (EvIoSetup (queue_depth o)) (emit (EvPollerRegister false) st))
  else inr st.

Definition dd_prepare (st : dd_state) : dd_state + dd_state :=
  let! st := run_open_input st in
  let! st := run_check_input st in
  let! st := run_open_output st in
  let! st := run_check_blocks st in
  let! st := run_alloc st in
  let! st := run_backend st in
  inr (upd_job (λ j, j <| seek_queue := [] |>) (emit (EvPollerRegister true) st)).

Definition dd_run (st : dd_state) : dd_state :=
  match dd_prepare st with
  | inl st => st
  | inr st => dd_start 0 (Z.to_nat (queue_depth (g_opts st))) st
  end.

(** ** The command line *)

Inductive dd_cmdline_opts :=
| DD_OPTION_IF | DD_OPTION_OF | DD_OPTION_IFLAGS | DD_OPTION_OFLAGS | DD_OPTION_IB | DD_OPTION_OB
| DD_OPTION_SKIP | DD_OPTION_SEEK | DD_OPTION_BS | DD_OPTION_QD | DD_OPTION_COUNT
| DD_OPTION_AIO | DD_OPTION_SPARSE.

(** [g_cmdline_opts]: the name of an option, whether it takes an argument, its value. *)
Definition g_cmdline_opts : list (string * bool * dd_cmdline_opts) :=
  [("if", true, DD_OPTION_IF); ("of", true, DD_OPTION_OF); ("iflag", true, DD_OPTION_IFLAGS);
   ("oflag", true, DD_OPTION_OFLAGS); ("ib", true, DD_OPTION_IB); ("ob", true, DD_OPTION_OB);
   ("skip", true, DD_OPTION_SKIP); ("seek", true, DD_OPTION_SEEK); ("bs", true, DD_OPTION_BS);
   ("qd", true, DD_OPTION_QD); ("count", true, DD_OPTION_COUNT); ("aio", false, DD_OPTION_AIO);
   ("sparse", false, DD_OPTION_SPARSE)]%string.

(** [None] is a value the [switch] does not know: the usage is printed. *)
Definition parse_args (c : option dd_cmdline_opts) (argv : string) (o : spdk_dd_opts) : Z * spdk_dd_opts :=
  match c with
  | Some DD_OPTION_IF => (0, o <| input_file := Some argv |>)
  | Some DD_OPTION_OF => (0, o <| output_file := Some argv |>)
  | Some DD_OPTION_IFLAGS => (0, o <| input_file_flags := Some argv |>)
  | Some DD_OPTION_OFLAGS => (0, o <| output_file_flags := Some argv |>)
  | Some DD_OPTION_IB => (0, o <| input_bdev := Some argv |>)
  | Some DD_OPTION_OB => (0, o <| output_bdev := Some argv |>)
  | Some DD_OPTION_SKIP => (0, o <| input_offset := u64 (strtol argv) |>)
  | Some DD_OPTION_SEEK => (0, o <| output_offset := u64 (strtol argv) |>)
  | Some DD_OPTION_BS => (0, o <| io_unit_size := strtol argv |>)
  | Some DD_OPTION_QD => (0, o <| queue_depth := u32 (strtol argv) |>)
  | Some DD_OPTION_COUNT => (0, o <| io_unit_count := strtol argv |>)
  | Some DD_OPTION_AIO => (0, o <| aio := true |>)
  | Some DD_OPTION_SPARSE => (0, o <| sparse := true |>)
  | None => (1, o)
  end.

Definition default_opts : spdk_dd_opts :=
  mkOpts None None None None None None 0 0 4096 0 2 false false.

(** The value [getopt_long] finds for [--name], and its argument. *)
Definition find_option (nm : string) : option dd_cmdline_opts :=
  snd <$> find (λ e, String.eqb e.1.1 nm) g_cmdline_opts.

(** [spdk_app_parse_args] over the options given as names and arguments, up to the
    first that is not known. *)
Fixpoint parse_all (args : list (string * string)) (o : spdk_dd_opts) : option spdk_dd_opts :=
  match args with
  | [] => Some o
  | (nm, v) :: args =>
      let '(rc, o) := parse_args (find_option nm) v o in if rc =? 0 then parse_all args o else None
  end.

(** The checks of [main]; [Some rc] ends the program. *)
Definition main_checks (o : spdk_dd_opts) : option Z :=
  if given (input_file o) && given (input_bdev o) then Some EINVAL
  else if given (output_file o) && given (output_bdev o) then Some EINVAL
  else if negb (given (input_file o)) && negb (given (input_bdev o)) then Some EINVAL
  else if negb (given (output_file o)) && negb (given (output_bdev o)) then Some EINVAL
  else if io_unit_size o <=? 0 then Some EINVAL
  else if io_unit_count o <? 0 then Some EINVAL
  else if negb (given (output_file o)) && given (output_file_flags o) then Some EINVAL
  else if negb (given (input_file o)) && given (input_file_flags o) then Some EINVAL
  else None.

(** The globals before [main]. *)
Definition zero_target : dd_target := mkTarget DD_TARGET_TYPE_FILE 0 false 0 0 0 false false.

(** The program before [dd_run]; a single target has one content. *)
Definition boot (o : spdk_dd_opts) (in0 out0 : bytes) (b : nat → bytes) : dd_state :=
  mkSt o (mkJob zero_target zero_target [] 0 0 [] 0 0 false false) 0 false ∅ b in0
    (if same_target then in0 else out0) [].

(** ** Tear-down *)

Definition free_bufs (depth : nat) (st : dd_state) : dd_state :=
  foldl (λ st i, emit (EvFreeBuf i) st) st (seq 0 depth).

Definition dd_free (st : dd_state) : dd_state :=
  let st := emit EvFreeOpts st in
  let st :=
    if is_file (input (g_job st)) || is_file (output (g_job st)) then
      if uring_mode st then
        if uring_active (g_job st) then emit EvRingExit (emit EvUnregisterFiles st) else st
      else emit EvIoDestroy st
    else st in
  if ios_alloc (g_job st) then emit EvFreeIos (free_bufs (Z.to_nat (queue_depth (g_opts st))) st)
  else st.

End Setup.
