(* ===== verification/DdSetupProofs.v ===== *)
(** * spdk_dd: what set-up establishes

    Each part of [dd_run] either returns early or goes on with a state in which
    nothing is in flight and no error is recorded; the position and the size of the
    copy are those the options ask for, within the input device. *)

From S2P Require Import Prelude Posix DdState DdEngine DdSteps DdAccounting DdCopy DdProofs DdSetup.
#[local] Open Scope Z_scope.

Section SetupProofs.
Context `{DdEnv, DdSetupEnv}.
Implicit Types st : dd_state.

(** What no part of the set-up changes. *)
Record frame st st' : Prop := {
  fr_pending : pending st' = pending st;
  fr_outstanding : outstanding (g_job st') = outstanding (g_job st);
  fr_error : g_error st' = g_error st;
  fr_interrupt : g_interrupt st' = g_interrupt st;
  fr_assert : assert_failed (events st') = assert_failed (events st);
  fr_unit : io_unit_size (g_opts st') = io_unit_size (g_opts st);
  fr_count : io_unit_count (g_opts st') = io_unit_count (g_opts st);
  fr_skip : input_offset (g_opts st') = input_offset (g_opts st);
  fr_seek : output_offset (g_opts st') = output_offset (g_opts st);
  fr_sparse : sparse (g_opts st') = sparse (g_opts st);
  fr_aio : aio (g_opts st') = aio (g_opts st);
  fr_ibdev : input_bdev (g_opts st') = input_bdev (g_opts st);
  fr_ifile : input_file (g_opts st') = input_file (g_opts st);
  fr_ofile : output_file (g_opts st') = output_file (g_opts st);
  fr_obdev : output_bdev (g_opts st') = output_bdev (g_opts st);
  fr_depth : 0 <= queue_depth (g_opts st) < U32_MOD → 0 < io_unit_size (g_opts st) →
             0 <= io_unit_count (g_opts st) →
             0 <= queue_depth (g_opts st') <= queue_depth (g_opts st);
}.

#[export] Instance frame_preorder : PreOrder frame.
Proof.
  split.
  - intros st. split; try done. lia.
  - intros s1 s2 s3 [] []. split; try congruence. intros H1 H2 H3.
    destruct (fr_depth0 H1 H2 H3). destruct fr_depth1; [lia..|]. lia.
Qed.

Lemma frame_quiet st st' :
  quiet st st' → assert_failed (events st') = assert_failed (events st) → frame st st'.
Proof. intros [Ho]. split; try congruence. rewrite Ho. lia. Qed.

Lemma frame_exit rc st : frame st (dd_exit rc st).
Proof. apply frame_quiet; [apply quiet_exit|apply assert_exit]. Qed.

Lemma parse_flags_loop_quiet k fl flags st :
  let st' := (parse_flags_loop k fl flags st).2 in
  quiet st st' ∧ assert_failed (events st') = assert_failed (events st).
Proof.
  revert fl flags. induction k as [|k IH]; intros fl flags; cbn [parse_flags_loop]; [done|].
  destruct fl as [s|]; [|done]. destruct (strsep s) as [t rest]. destruct (find_flag g_flags t); [apply IH|].
  split; [apply quiet_exit|apply assert_exit].
Qed.

Lemma parse_flags_quiet fl st :
  let st' := (parse_flags fl st).2 in
  quiet st st' ∧ assert_failed (events st') = assert_failed (events st).
Proof. destruct fl; [apply parse_flags_loop_quiet|done]. Qed.

Lemma limit_size_depth total skip o :
  0 <= queue_depth o < U32_MOD → 0 <= queue_depth (limit_depth_size total skip o) <= queue_depth o.
Proof.
  intros Hq. unfold limit_depth_size. simpl.
  pose proof (Z.mod_pos_bound (total `div` io_unit_size o - skip + 1) U64_MOD eq_refl) as Hu.
  fold (u64 (total `div` io_unit_size o - skip + 1)) in Hu. rewrite u32_small by lia. lia.
Qed.

Lemma limit_count_depth o :
  0 <= queue_depth o < U32_MOD → 0 <= io_unit_count o →
  0 <= queue_depth (limit_depth_count o) <= queue_depth o.
Proof.
  intros Hq Hc. unfold limit_depth_count. destruct (negb _); [|lia]. simpl. rewrite u32_small; lia.
Qed.

(** Both limits leave every other option alone. *)
Lemma frame_limit_count st : frame st (set_opts limit_depth_count st).
Proof.
  pose proof (limit_count_depth (g_opts st)) as Hd.
  assert (∃ q, limit_depth_count (g_opts st) = (g_opts st) <| queue_depth := q |>) as [q Hq].
  { unfold limit_depth_count. destruct (negb _); [by eexists|].
    exists (queue_depth (g_opts st)). by destruct (g_opts st). }
  split; try done; simpl; rewrite ?Hq; try done. rewrite Hq in Hd. intros. by apply Hd.
Qed.

Lemma frame_limit_size total skip st : frame st (set_opts (limit_depth_size total skip) st).
Proof. split; try done. intros. by apply limit_size_depth. Qed.

Lemma frame_set_target b f st : frame st (set_target b f st).
Proof. destruct b; split; simpl; try done; lia. Qed.

Lemma frame_truncate (b : bool) st : frame st (if b then put_output zeroes st else st).
Proof. destruct b; [|done]. split; try done. simpl. lia. Qed.

Lemma frame_emit e st : e ≠ EvAssertFail → frame st (emit e st).
Proof. intros He. apply frame_quiet; [apply quiet_emit|]. by destruct e. Qed.

Lemma frame_flags fl st : frame st (parse_flags fl st).2.
Proof. destruct (parse_flags_quiet fl st). by apply frame_quiet. Qed.

(** ** Opening *)

Lemma open_file_frame b fname flags skip st : frame st (dd_open_file b fname flags skip st).2.
Proof.
  unfold dd_open_file. destruct (open_ret fname _ <? 0); simpl.
  - etrans; [|apply frame_set_target]. by apply frame_emit.
  - etrans; [|apply frame_limit_count].
    destruct b; [etrans; [|apply frame_limit_size]|]; (etrans; [|apply frame_set_target]);
      (etrans; [|apply frame_truncate]); repeat (etrans; [|apply frame_set_target]); by apply frame_emit.
Qed.

Lemma open_bdev_frame b name skip st : frame st (dd_open_bdev b name skip st).2.
Proof.
  unfold dd_open_bdev. destruct (bdev_open_rc name <? 0); simpl; [apply frame_set_target|].
  destruct (bdev_has_channel name); simpl.
  - etrans; [|apply frame_limit_count]. etrans; [|apply frame_limit_size].
    repeat (etrans; [|apply frame_set_target]). done.
  - etrans; [|by apply frame_emit]. etrans; apply frame_set_target.
Qed.

Lemma frame_strsep_in st : frame st (set_opts (λ o, o <| input_file_flags ::= after_strsep |>) st).
Proof. split; try done. simpl. lia. Qed.

Lemma frame_strsep_out st : frame st (set_opts (λ o, o <| output_file_flags ::= after_strsep |>) st).
Proof. split; try done. simpl. lia. Qed.

Lemma open_input_frame st st' : run_open_input st = inr st' → frame st st'.
Proof.
  unfold run_open_input. destruct (input_file (g_opts st)) as [fname|]; [|destruct (input_bdev (g_opts st)) as [name|]].
  - pose proof (frame_flags (input_file_flags (g_opts st)) st) as Hf.
    destruct (parse_flags _ st) as [flags st1]. simpl in Hf.
    set (st2 := set_opts _ st1).
    pose proof (open_file_frame true fname flags (input_offset (g_opts st)) st2) as Ho.
    destruct (dd_open_file _ _ _ _ st2) as [rc st3]. simpl in Ho.
    destruct (rc <? 0); [done|]. intros [= <-]. etrans; [exact Hf|]. etrans; [apply frame_strsep_in|exact Ho].
  - pose proof (open_bdev_frame true name (input_offset (g_opts st)) st) as Ho.
    destruct (dd_open_bdev _ _ _ st) as [rc st1]. simpl in Ho. destruct (rc <? 0); [done|]. by intros [= <-].
  - by intros [= <-].
Qed.

(** *** What opening does to the contents *)

Definition same_data st st' : Prop := in_data st' = in_data st ∧ out_data st' = out_data st.

#[export] Instance same_data_preorder : PreOrder same_data.
Proof. split; [done|]. intros s1 s2 s3 [] []. split; congruence. Qed.

Lemma same_data_quiet st st' : quiet st st' → same_data st st'.
Proof. intros []. by split. Qed.

Lemma open_bdev_data b name skip st : same_data st (dd_open_bdev b name skip st).2.
Proof. unfold dd_open_bdev. destruct (bdev_open_rc name <? 0), (bdev_has_channel name), b; done. Qed.

Lemma open_bdev_type b name skip st : is_file (get_target b (dd_open_bdev b name skip st).2) = false.
Proof. unfold dd_open_bdev. destruct (bdev_open_rc name <? 0), (bdev_has_channel name), b; done. Qed.

Lemma open_input_data st st' : run_open_input st = inr st' → same_data st st'.
Proof.
  unfold run_open_input. destruct (input_file (g_opts st)) as [fname|]; [|destruct (input_bdev (g_opts st)) as [name|]].
  - destruct (parse_flags_quiet (input_file_flags (g_opts st)) st) as [Hq _].
    destruct (parse_flags _ st) as [flags st1]. simpl in Hq. unfold dd_open_file.
    destruct (open_ret fname _ <? 0) eqn:E; [by rewrite E|]. simpl. intros [= <-].
    etrans; [by apply same_data_quiet|done].
  - pose proof (open_bdev_data true name (input_offset (g_opts st)) st) as Ho.
    destruct (dd_open_bdev _ _ _ st) as [rc st1]. destruct (rc <? 0); [done|]. by intros [= <-].
  - by intros [= <-].
Qed.

(** Without [O_APPEND] an output file is opened with [O_TRUNC]. *)
Lemma open_flags_trunc flags :
  has_flag (open_file_flags false flags) O_APPEND = false → has_flag (open_file_flags false flags) O_TRUNC = true.
Proof.
  unfold open_file_flags. cbn [negb andb].
  generalize (if negb (has_flag (Z.lor flags O_RDWR) O_DIRECTORY) then Z.lor (Z.lor flags O_RDWR) O_CREAT
              else Z.lor flags O_RDWR). intros f.
  destruct (has_flag f O_APPEND) eqn:E; cbn [negb]; cbv iota; [congruence|]. intros _.
  unfold has_flag. rewrite Z.land_lor_distr_l, Z.land_diag.
  destruct (Z.eqb_spec (Z.lor (Z.land f O_TRUNC) O_TRUNC) 0) as [Hz|]; [|done].
  by apply Z.lor_eq_0_iff in Hz as [_ ?].
Qed.

(** The contents of the output once it is open: a regular file has been emptied. *)
Definition emptied st : bool :=
  is_file (output (g_job st)) && fd_regular (t_fd (output (g_job st))).

Lemma open_output_data st st' :
  run_open_output st = inr st' → given (output_file (g_opts st)) || given (output_bdev (g_opts st)) = true →
  same_target = false → t_append (output (g_job st')) = false →
  in_data st' = in_data st ∧ out_data st' = if emptied st' then zeroes else out_data st.
Proof.
  unfold run_open_output. intros Hrun Hg Hs Ha. revert Hrun Hg.
  destruct (output_file (g_opts st)) as [fname|]; [|destruct (output_bdev (g_opts st)) as [name|]; [|done]].
  - destruct (parse_flags_quiet (output_file_flags (g_opts st)) st) as [Hq _].
    destruct (parse_flags _ st) as [flags st1]. simpl in Hq. unfold dd_open_file.
    destruct (open_ret fname _ <? 0) eqn:E; [by rewrite E|]. simpl. intros [= <-] _.
    simpl in Ha. unfold emptied. simpl. revert Ha.
    destruct (has_flag (open_file_flags false flags) O_TRUNC && fd_regular _) eqn:Et; simpl; intros Ha;
      apply open_flags_trunc in Ha; rewrite Ha in Et; simpl in Et; rewrite Et.
    + rewrite Hs. split; [apply Hq|done].
    + split; apply Hq.
  - pose proof (open_bdev_data false name (output_offset (g_opts st)) st) as [Hin Hout].
    pose proof (open_bdev_type false name (output_offset (g_opts st)) st) as Hty.
    destruct (dd_open_bdev _ _ _ st) as [rc st1]. simpl in Hin, Hout, Hty. destruct (rc <? 0); [done|].
    destruct (total_size _ <? pos _); [done|].
    destruct (negb (_ =? 0) && _); [done|]. intros [= <-] _. unfold emptied. by rewrite Hty.
Qed.

Lemma open_output_type st st' :
  run_open_output st = inr st' → given (output_file (g_opts st)) || given (output_bdev (g_opts st)) = true →
  is_file (output (g_job st')) = given (output_file (g_opts st)).
Proof.
  unfold run_open_output.
  destruct (output_file (g_opts st)) as [fname|]; [|destruct (output_bdev (g_opts st)) as [name|]; [|done]].
  - destruct (parse_flags _ st) as [flags st1]. unfold dd_open_file.
    destruct (open_ret fname _ <? 0) eqn:E; [by rewrite E|].
    destruct (negb false && _ && _); by intros [= <-].
  - pose proof (open_bdev_type false name (output_offset (g_opts st)) st) as Hty.
    destruct (dd_open_bdev _ _ _ st) as [rc st1]. simpl in Hty. destruct (rc <? 0); [done|].
    destruct (total_size _ <? pos _); [done|]. destruct (negb (_ =? 0) && _); [done|]. by intros [= <-].
Qed.

(** The queue is no deeper than the input has units, plus one. *)
Definition depth_limit st : Z :=
  u64 (total_size (input (g_job st)) `div` io_unit_size (g_opts st) - input_offset (g_opts st) + 1).

Lemma limits_depth total skip o :
  0 <= queue_depth o < U32_MOD → 0 <= io_unit_count o →
  queue_depth (limit_depth_count (limit_depth_size total skip o)) <= u64 (total `div` io_unit_size o - skip + 1).
Proof.
  intros Hq Hc. pose proof (limit_size_depth total skip o Hq) as Hs.
  destruct (limit_count_depth (limit_depth_size total skip o)) as [_ Hle]; [lia|done|].
  etrans; [exact Hle|]. unfold limit_depth_size. simpl.
  pose proof (Z.mod_pos_bound (total `div` io_unit_size o - skip + 1) U64_MOD eq_refl) as Hu.
  fold (u64 (total `div` io_unit_size o - skip + 1)) in Hu. rewrite u32_small by lia. lia.
Qed.

Lemma open_input_depth st st' :
  run_open_input st = inr st' → 0 <= queue_depth (g_opts st) < U32_MOD → 0 <= io_unit_count (g_opts st) →
  given (input_file (g_opts st)) || given (input_bdev (g_opts st)) = true →
  queue_depth (g_opts st') <= depth_limit st'.
Proof.
  intros Hrun Hq Hc Hg. pose proof (open_input_frame st st' Hrun) as Hfr.
  unfold depth_limit. rewrite (fr_unit _ _ Hfr), (fr_skip _ _ Hfr). clear Hfr. revert Hrun.
  unfold run_open_input.
  destruct (input_file (g_opts st)) as [fname|]; [|destruct (input_bdev (g_opts st)) as [name|]; [|done]].
  - destruct (parse_flags_quiet (input_file_flags (g_opts st)) st) as [Hqt _].
    destruct (parse_flags _ st) as [flags st1]. simpl in Hqt. rewrite <- (q_opts _ _ Hqt) in *.
    set (st2 := set_opts _ st1). unfold dd_open_file. destruct (open_ret fname _ <? 0) eqn:E; [by rewrite E|].
    simpl. intros [= <-]. simpl. by apply (limits_depth _ _ (g_opts st2)).
  - unfold dd_open_bdev. destruct (bdev_open_rc name <? 0) eqn:E; [by rewrite E|].
    destruct (bdev_has_channel name); [|done]. simpl. intros [= <-]. simpl. by apply limits_depth.
Qed.

(** [st'] differs from [st] in the output target only, as far as the input and the
    size of the copy go. *)
Record same_input st st' : Prop := {
  si_input : input (g_job st') = input (g_job st);
  si_copy : copy_size (g_job st') = copy_size (g_job st);
  si_pos : pos (output (g_job st')) = pos (output (g_job st));
}.

#[export] Instance same_input_preorder : PreOrder same_input.
Proof. split; [done|]. intros s1 s2 s3 [] []. split; congruence. Qed.

Lemma same_input_quiet st st' : quiet st st' → same_input st st'.
Proof. intros []. split; congruence. Qed.

Lemma open_file_same fname flags skip st : same_input st (dd_open_file false fname flags skip st).2.
Proof. unfold dd_open_file. destruct (open_ret _ _ <? 0); [done|]. destruct (negb false && _ && _); done. Qed.

Lemma open_bdev_same name skip st : same_input st (dd_open_bdev false name skip st).2.
Proof. unfold dd_open_bdev. destruct (bdev_open_rc name <? 0), (bdev_has_channel name); done. Qed.

Lemma open_output_spec st st' :
  run_open_output st = inr st' →
  frame st st' ∧ same_input st st' ∧
  (output_file (g_opts st) = None → given (output_bdev (g_opts st)) = true →
   io_unit_count (g_opts st) ≠ 0 →
   u64 (write_size st' + pos (output (g_job st'))) <= total_size (output (g_job st'))).
Proof.
  unfold run_open_output.
  destruct (output_file (g_opts st)) as [fname|]; [|destruct (output_bdev (g_opts st)) as [name|]].
  - pose proof (frame_flags (output_file_flags (g_opts st)) st) as Hf.
    pose proof (same_input_quiet _ _ (proj1 (parse_flags_quiet (output_file_flags (g_opts st)) st))) as Hs.
    destruct (parse_flags _ st) as [flags st1]. simpl in Hf, Hs.
    set (st2 := set_opts _ st1).
    pose proof (open_file_frame false fname flags (output_offset (g_opts st)) st2) as Ho.
    pose proof (open_file_same fname flags (output_offset (g_opts st)) st2) as Hso.
    destruct (dd_open_file _ _ _ _ st2) as [rc st3]. simpl in Ho, Hso.
    destruct (rc <? 0); [done|]. intros [= <-]. split; [|split; [|done]].
    + etrans; [exact Hf|]. etrans; [apply frame_strsep_out|exact Ho].
    + etrans; [exact Hs|]. etrans; [|exact Hso]. done.
  - pose proof (open_bdev_frame false name (output_offset (g_opts st)) st) as Ho.
    pose proof (open_bdev_same name (output_offset (g_opts st)) st) as Hso.
    destruct (dd_open_bdev _ _ _ st) as [rc st1]. simpl in Ho, Hso. destruct (rc <? 0); [done|].
    destruct (total_size _ <? pos _); [done|].
    destruct (negb (_ =? 0) && _) eqn:E; [done|]. intros [= <-]. split; [done|]. split; [done|].
    intros _ _ Hc. destruct (Z.eqb_spec (io_unit_count (g_opts st)) 0); [done|]. simpl in E.
    by apply Z.ltb_ge in E.
  - by intros [= <-].
Qed.

(** ** The checks *)

Lemma check_input_spec st st' :
  run_check_input st = inr st' →
  frame st st' ∧ same_data st st' ∧
  let o := g_opts st in
  g_opts st' = o ∧ total_size (input (g_job st')) = total_size (input (g_job st)) ∧
  pos (input (g_job st')) = u64 (input_offset o * io_unit_size o) ∧
  pos (output (g_job st')) = u64 (output_offset o * io_unit_size o) ∧
  copy_size (g_job st') = (if negb (io_unit_count o =? 0) then write_size st
                           else u64 (total_size (input (g_job st')) - pos (input (g_job st')))) ∧
  (given (input_bdev o) = true →
   pos (input (g_job st')) <= total_size (input (g_job st')) ∧
   (io_unit_count o ≠ 0 → u64 (write_size st + pos (input (g_job st'))) <= total_size (input (g_job st')))).
Proof.
  unfold run_check_input. simpl.
  destruct (given (input_bdev (g_opts st)) && _) eqn:E1; [done|].
  destruct (negb _ && _ && _) eqn:E2; [done|]. intros [= <-]. simpl.
  split; [|do 6 (split; [done|])].
  - split; simpl; try done. lia.
  - intros Hg. rewrite Hg in E1, E2. simpl in E1. apply Z.ltb_ge in E1. split; [done|].
    intros Hc. destruct (Z.eqb_spec (io_unit_count (g_opts st)) 0); [done|]. simpl in E2.
    by apply Z.ltb_ge in E2.
Qed.

Lemma check_blocks_spec st st' :
  run_check_blocks st = inr st' →
  st' = st ∧ block_size (output (g_job st)) <= io_unit_size (g_opts st) ∧
  block_size (input (g_job st)) <= io_unit_size (g_opts st) ∧
  (given (input_bdev (g_opts st)) = true →
   io_unit_size (g_opts st) `mod` block_size (input (g_job st)) = 0).
Proof.
  unfold run_check_blocks. destruct (_ || _) eqn:E1; [done|]. destruct (given _ && _) eqn:E2; [done|].
  intros [= <-]. apply orb_false_iff in E1 as [Ha Hb]. apply Z.ltb_ge in Ha, Hb.
  split; [done|]. split; [done|]. split; [done|]. intros Hg. rewrite Hg in E2. simpl in E2.
  by apply negb_false_iff, Z.eqb_eq in E2.
Qed.

(** ** Slots and back end *)

(** The options, the targets and the size of the copy are those of before. *)
Record same_job st st' : Prop := {
  sj_opts : g_opts st' = g_opts st;
  sj_input : input (g_job st') = input (g_job st);
  sj_output : output (g_job st') = output (g_job st);
  sj_copy : copy_size (g_job st') = copy_size (g_job st);
  sj_data : same_data st st';
}.

#[export] Instance same_job_preorder : PreOrder same_job.
Proof. split; [done|]. intros s1 s2 s3 [] []. split; try congruence. by etrans. Qed.

Lemma same_job_quiet st st' : quiet st st' → same_job st st'.
Proof. intros Hq. pose proof (same_data_quiet _ _ Hq). destruct Hq. split; congruence. Qed.

Lemma frame_set_io i f st : frame st (set_io i f st).
Proof. split; try done. simpl. lia. Qed.

Lemma alloc_bufs_spec i todo st st' :
  alloc_bufs i todo st = inr st' → (i + todo <= length (ios (g_job st)))%nat →
  frame st st' ∧ same_job st st' ∧ length (ios (g_job st')) = length (ios (g_job st)) ∧
  (∀ j, (i <= j < i + todo)%nat → io_length (get_io st' j) = u64 (io_unit_size (g_opts st))) ∧
  (∀ j, (j < i)%nat → get_io st' j = get_io st j) ∧ events st' = events st.
Proof.
  revert i st. induction todo as [|todo IH]; intros i st; simpl.
  { intros [= <-] _. do 3 (split; [done|]). split; [lia|done]. }
  destruct (negb _); [done|]. intros Ha Hlen. apply IH in Ha as (Hf & Hs & Hl & Hin & Hlo & Hev);
    [|simpl; rewrite length_alter; lia].
  split; [etrans; [apply frame_set_io|exact Hf]|]. split; [etrans; [|exact Hs]; done|].
  split; [rewrite Hl; simpl; by rewrite length_alter|].
  split; [|split; [|done]].
  - intros j Hj. destruct (decide (j = i)) as [->|Hne]; [|rewrite Hin by lia; done].
    rewrite Hlo, get_set_io_eq by lia. done.
  - intros j Hj. rewrite Hlo, get_set_io_ne by lia. done.
Qed.

Lemma run_alloc_spec st st' :
  run_alloc st = inr st' →
  frame st st' ∧ same_job st st' ∧
  length (ios (g_job st')) = Z.to_nat (queue_depth (g_opts st)) ∧
  (∀ j, (j < Z.to_nat (queue_depth (g_opts st)))%nat →
        io_length (get_io st' j) = u64 (io_unit_size (g_opts st))).
Proof.
  unfold run_alloc. destruct (negb calloc_ios_ok); [done|]. intros Ha.
  apply alloc_bufs_spec in Ha as (Hf & Hs & Hl & Hin & _);
    [|simpl; rewrite length_replicate; lia].
  simpl in Hl. rewrite length_replicate in Hl.
  split; [etrans; [|exact Hf]; split; try done; simpl; lia|]. split; [etrans; [|exact Hs]; done|].
  split; [done|]. intros j Hj. apply Hin. lia.
Qed.

Lemma run_backend_spec st st' :
  run_backend st = inr st' → frame st st' ∧ same_job st st' ∧ ios (g_job st') = ios (g_job st).
Proof.
  unfold run_backend. destruct (given _ || given _); [|by intros [= <-]].
  destruct (uring_mode st).
  - destruct (parse_flags_quiet (input_file_flags (g_opts st)) st) as [Hq1 Ha1].
    destruct (parse_flags (input_file_flags (g_opts st)) st) as [fi st1]. simpl in Hq1, Ha1.
    destruct (parse_flags_quiet (output_file_flags (g_opts st)) st1) as [Hq2 Ha2].
    destruct (parse_flags (output_file_flags (g_opts st)) st1) as [fo st2]. simpl in Hq2, Ha2.
    assert (quiet st st2) as Hq by (by etrans).
    unfold dd_uring_init. cbn iota beta zeta. destruct (negb (uring_init_rc _ =? 0)); [done|]. simpl.
    destruct (negb (register_files_rc =? 0)); [done|].
    destruct (negb (register_buffers_rc =? 0)); [done|]. intros [= <-].
    split; [etrans; [apply (frame_quiet st st2); congruence|]; split; try done; simpl; lia|].
    split; [etrans; [by apply same_job_quiet|]; done|]. apply Hq.
  - intros [= <-]. split; [|done]. etrans; [|by apply frame_emit]. by apply frame_emit.
Qed.

(** ** All of it *)

Record prepared (o : spdk_dd_opts) (in0 out0 : bytes) st : Prop := {
  pp_pending : pending st = ∅;
  pp_outstanding : outstanding (g_job st) = 0;
  pp_error : g_error st = 0;
  pp_interrupt : g_interrupt st = false;
  pp_data : same_target = false → t_append (output (g_job st)) = false →
    in_data st = in0 ∧ out_data st = if emptied st then zeroes else out0;
  pp_otype : is_file (output (g_job st)) = given (output_file o);
  pp_assert : assert_failed (events st) = false;
  pp_unit : io_unit_size (g_opts st) = io_unit_size o;
  pp_count : io_unit_count (g_opts st) = io_unit_count o;
  pp_skip : input_offset (g_opts st) = input_offset o;
  pp_seek : output_offset (g_opts st) = output_offset o;
  pp_sparse : sparse (g_opts st) = sparse o;
  pp_depth : 0 <= queue_depth (g_opts st) <= queue_depth o;
  pp_ios : length (ios (g_job st)) = Z.to_nat (queue_depth (g_opts st));
  pp_len i : (i < Z.to_nat (queue_depth (g_opts st)))%nat → io_length (get_io st i) = u64 (io_unit_size o);
  pp_pos : pos (input (g_job st)) = u64 (input_offset o * io_unit_size o);
  pp_copy : copy_size (g_job st) =
    if negb (io_unit_count o =? 0) then u64 (io_unit_count o * io_unit_size o)
    else u64 (total_size (input (g_job st)) - pos (input (g_job st)));
  pp_in_bdev : given (input_bdev o) = true →
    pos (input (g_job st)) <= total_size (input (g_job st)) ∧
    (io_unit_count o ≠ 0 →
     u64 (u64 (io_unit_count o * io_unit_size o) + pos (input (g_job st))) <= total_size (input (g_job st))) ∧
    io_unit_size o `mod` block_size (input (g_job st)) = 0;
  pp_block : block_size (output (g_job st)) <= io_unit_size o;
  pp_limit : queue_depth (g_opts st) <= depth_limit st;
}.

Lemma main_checks_unit o :
  main_checks o = None → 0 < io_unit_size o ∧ 0 <= io_unit_count o ∧
  given (input_file o) || given (input_bdev o) = true ∧ given (output_file o) || given (output_bdev o) = true.
Proof.
  unfold main_checks. intros Hm.
  destruct (given (input_file o) && given (input_bdev o)); [discriminate|].
  destruct (given (output_file o) && given (output_bdev o)); [discriminate|].
  destruct (negb (given (input_file o)) && negb (given (input_bdev o))) eqn:E; [discriminate|].
  destruct (negb (given (output_file o)) && negb (given (output_bdev o))) eqn:E2; [discriminate|].
  destruct (Z.leb_spec (io_unit_size o) 0); [discriminate|].
  destruct (Z.ltb_spec (io_unit_count o) 0); [discriminate|].
  split; [lia|]. split; [lia|].
  split; [by destruct (given (input_file o)), (given (input_bdev o))|].
  by destruct (given (output_file o)), (given (output_bdev o)).
Qed.

Lemma prepare_spec o in0 out0 b st :
  main_checks o = None → 0 <= queue_depth o < U32_MOD →
  dd_prepare (boot o in0 out0 b) = inr st → prepared o in0 out0 st.
Proof.
  intros Hm Hq. unfold dd_prepare.
  destruct (run_open_input _) as [|s1] eqn:E1; [done|]. apply open_input_frame in E1 as F1.
  apply open_input_data in E1 as D1.
  destruct (run_check_input s1) as [|s2] eqn:E2; [done|].
  apply check_input_spec in E2 as (F2 & D2 & Ho2 & Ht2 & Hpos & Hopos & Hcopy & Hinb).
  destruct (run_open_output s2) as [|s3] eqn:E3; [done|]. pose proof (open_output_data _ _ E3) as D3.
  pose proof (open_output_type _ _ E3) as T3.
  apply open_output_spec in E3 as (F3 & S3 & _).
  destruct (run_check_blocks s3) as [|s4] eqn:E4; [done|].
  apply check_blocks_spec in E4 as (-> & Hob & _ & Hmod).
  destruct (run_alloc s3) as [|s5] eqn:E5; [done|]. apply run_alloc_spec in E5 as (F5 & J5 & Hios & Hlen).
  destruct (run_backend s5) as [|s6] eqn:E6; [done|]. apply run_backend_spec in E6 as (F6 & J6 & Hios6).
  intros [= <-].
  assert (frame (boot o in0 out0 b) s1) as G1 by done.
  assert (frame (boot o in0 out0 b) s3) as G3 by (by etrans; [|etrans]).
  assert (frame (boot o in0 out0 b) s6) as G6 by (etrans; [exact G3|]; by etrans).
  assert (same_job s3 s6) as J by (by etrans).
  destruct (main_checks_unit o Hm) as (Hu & Hc & Hgv & Hgo).
  pose proof (open_input_depth _ _ E1 Hq Hc Hgv) as Hlim.
  destruct J as [Jo Ji Jt Jc JD].
  assert (io_unit_size (g_opts s3) = io_unit_size o) as Hu3 by apply G3.
  assert (io_unit_size (g_opts s1) = io_unit_size o) as Hu1 by apply G1.
  assert (io_unit_count (g_opts s1) = io_unit_count o) as Hc1 by apply G1.
  assert (input_offset (g_opts s1) = input_offset o) as Hs1 by apply G1.
  assert (input_bdev (g_opts s1) = input_bdev o) as Hb1 by apply G1.
  assert (input_bdev (g_opts s3) = input_bdev o) as Hb3 by apply G3.
  assert (output_file (g_opts s2) = output_file o) as Hof2 by (etrans; [apply F2|apply G1]).
  assert (output_bdev (g_opts s2) = output_bdev o) as Hob2 by (etrans; [apply F2|apply G1]).
  unfold write_size in Hcopy, Hinb. rewrite Hu1, Hc1 in Hcopy, Hinb. rewrite Hb1 in Hinb. rewrite Hu1, Hs1 in Hpos.
  rewrite <- (si_input _ _ S3), <- Ji in Hcopy, Hinb, Hpos. rewrite <- (si_copy _ _ S3), <- Jc in Hcopy.
  rewrite Hu3, Hb3, <- ?Ji, <- ?Jt in *. rewrite <- Jo in Hios, Hlen. rewrite <- Hios6 in Hios.
  assert (queue_depth (g_opts s6) <= depth_limit s6) as Hl6.
  { etrans; [rewrite Jo; apply F3; rewrite Ho2; [|by rewrite ?Hu1, ?Hc1..]|].
    - pose proof (fr_depth _ _ G1 Hq Hu Hc). simpl in *. lia.
    - rewrite Ho2. etrans; [exact Hlim|]. unfold depth_limit.
      rewrite Ji, (si_input _ _ S3), Ht2, Jo, (fr_unit _ _ F3), (fr_skip _ _ F3), Ho2. lia. }
  split; simpl; try done; try (by apply G6).
  - intros Hsame Happ. unfold emptied. simpl. destruct D3 as [Hi3 Ho3]; [by rewrite Hof2, Hob2|done..|].
    destruct JD as [-> ->]. rewrite Hi3, Ho3. destruct D1 as [Di1 Do1], D2 as [Di2 Do2].
    rewrite Di2, Do2, Di1, Do1. unfold emptied. rewrite <- Jt. simpl. by rewrite Hsame.
  - rewrite T3; by rewrite ?Hof2, ?Hob2.
  - intros i Hi. unfold get_io. simpl. rewrite Hios6. by apply Hlen.
  - intros Hg. destruct (Hinb Hg) as [Hle Hcnt]. split; [done|]. split; [done|]. by apply Hmod.
Qed.

(** The prepared job is one the copying theorem starts from. *)
Lemma prepared_job o in0 out0 st :
  prepared o in0 out0 st → main_checks o = None → 0 <= queue_depth o < U32_MOD → sparse o = false →
  stops (events st) = [] →
  0 <= input_offset o → input_offset o * io_unit_size o < U64_MOD → io_unit_size o < U64_MOD →
  job_start (Z.to_nat (queue_depth (g_opts st))) (g_opts st) (input (g_job st)) (output (g_job st))
    (copy_size (g_job st)) (in_data st) (out_data st) st.
Proof.
  intros [] Hm Hq Hsp Hst Hskip Hpos Hun.
  destruct (main_checks_unit o Hm) as (Hu & _).
  split; try done.
  - split; try done; [congruence|lia].
  - unfold in_start. rewrite pp_skip0, pp_unit0. rewrite u64_small in pp_pos0 by nia.
    destruct (input (g_job st)). simpl in *. by subst.
  - intros i Hi. rewrite pp_len0, pp_unit0, u64_small by (done || lia). done.
Qed.

(** *** The state set-up goes on with, for concrete options *)

Definition boot_prepared (o : spdk_dd_opts) (in0 out0 : bytes) : dd_state :=
  match dd_prepare (boot o in0 out0 (λ _, zeroes)) with inl st => st | inr st => st end.

(** Set-up completes, nothing has stopped, and the options are in range. *)
Definition boots (o : spdk_dd_opts) (in0 out0 : bytes) : bool :=
  match dd_prepare (boot o in0 out0 (λ _, zeroes)) with
  | inl _ => false
  | inr st => bool_decide (stops (events st) = [])
  end &&
  bool_decide (main_checks o = None) && (0 <=? queue_depth o) && (queue_depth o <? U32_MOD) &&
  negb (sparse o) && (0 <=? input_offset o) && (input_offset o * io_unit_size o <? U64_MOD) &&
  (io_unit_size o <? U64_MOD).

Lemma boots_job o in0 out0 :
  boots o in0 out0 = true →
  let st := boot_prepared o in0 out0 in
  dd_prepare (boot o in0 out0 (λ _, zeroes)) = inr st ∧ stops (events st) = [] ∧
  job_start (Z.to_nat (queue_depth (g_opts st))) (g_opts st) (input (g_job st)) (output (g_job st))
    (copy_size (g_job st)) (in_data st) (out_data st) st.
Proof.
  unfold boots, boot_prepared. rewrite !andb_true_iff.
  intros [[[[[[[Hp Hm] Hq] Hq2] Hsp] Hsk] Hpos] Hun].
  destruct (dd_prepare _) as [|st] eqn:E; [done|].
  apply bool_decide_eq_true in Hp, Hm. split; [done|]. split; [done|].
  apply (prepared_job o in0 out0); try done; try lia; [by eapply prepare_spec; [|lia|]|by destruct (sparse o)].
Qed.

End SetupProofs.
