(* ===== verification/DdClaims.v ===== *)
(** * spdk_dd: what a copy guarantees

    The end-to-end theorem (from the options to the bytes of the output), the
    accounting theorem for arbitrary environments, and the bounds of the buffers and
    of the progress display. *)

From S2P Require Import Prelude Posix DdState DdEngine DdSteps DdAccounting DdCopy DdProofs DdSetup DdSetupProofs.
#[local] Open Scope Z_scope.

(** ** Concrete runs *)

(** A schedule names the slot whose operation is performed or reported next; [f] gives
    the result of a transfer of a type and a length. *)
Definition act `{DdEnv} (f : dd_submit_type → Z → Z) (i : nat) (st : dd_state) : option dd_state :=
  match pending st !! i with
  | Some o =>
      match op_res o, op_kind_of o with
      | None, OpIo ty => Some (perform i o (f ty (op_len o)) st)
      | None, _ => None
      | Some r, _ => Some (deliver i o r st)
      end
  | None => None
  end.

Fixpoint acts `{DdEnv} (f : dd_submit_type → Z → Z) (sched : list nat) (st : dd_state) : option dd_state :=
  match sched with
  | [] => Some st
  | i :: sched => match act f i st with Some st => acts f sched st | None => None end
  end.

Definition all_bytes (ty : dd_submit_type) (len : Z) : Z := len.

Lemma acts_run `{DdEnv} f sched st st' :
  acts f sched st = Some st' → xfer_run (λ ty len r, r = f ty len) (length sched) st st'.
Proof.
  revert st. induction sched as [|i sched IH]; intros st; simpl; [intros [= <-]; constructor|].
  unfold act. destruct (pending st !! i) as [o|] eqn:Ho; [|done].
  destruct (op_res o) as [r|] eqn:Hr; [|destruct (op_kind_of o) as [ty| |] eqn:Hk; [|done..]];
    intros Ha; (eapply run_xfer; [|by apply IH]).
  - by eapply xfer_deliver.
  - apply xfer_perform; [done|done|]. intros ty'. rewrite Hk. by intros [= ->].
Qed.

Definition demo_env : DdEnv := {|
  config_uring := true; bdev_rc _ := 0; io_submit_ret _ := 1; env_errno _ := 5;
  lseek_data _ := 0; lseek_hole _ := 0; lseek_end _ := 0; ftruncate_rc _ := 0; elapsed_ms _ := 1;
  same_target := false; append_off _ := 0 |}.

(** [io_uring_queue_init]: no ring has no entries. *)
Definition queue_init_rc (entries : Z) : Z := if entries =? 0 then - EINVAL else 0.

Definition demo_setup : DdSetupEnv := {|
  open_ret _ _ := 3; fd_blocklen _ := 4; fd_size _ := 12; fstat_mode _ := None; fd_regular _ := false;
  bdev_open_rc _ := 0; bdev_has_channel _ := true; bdev_block_size _ := 4; bdev_num_blocks _ := 10;
  calloc_ios_ok := true; malloc_buf_ok _ := true; uring_init_rc := queue_init_rc; register_files_rc := 0;
  register_buffers_rc := 0;
  strtol s := if String.eqb s "8" then 8 else if String.eqb s "2" then 2 else 1 |}.

(** [--if in --ob Malloc0 --bs 8 --seek 1 --qd 2], a file of twelve bytes. *)
Definition demo_opts : spdk_dd_opts :=
  mkOpts (Some "in") None None None None (Some "Malloc0") 0 1 8 0 2 false false.

Lemma demo_cmdline :
  @parse_all demo_setup [("if", "in"); ("ob", "Malloc0"); ("bs", "8"); ("seek", "1"); ("qd", "2")]%string default_opts
  = Some demo_opts.
Proof. reflexivity. Qed.

Definition demo_in : bytes := λ i, i + 1.
Definition demo_boot : dd_state := @boot demo_env demo_opts demo_in zeroes (λ _, zeroes).

Lemma whole_unnoticed `{DdEnv} opts in_t out_t ty len r :
  0 < len → whole ty len r → unnoticed opts in_t out_t ty len r.
Proof. intros Hl ->. split; [lia|]. destruct (config_uring && _); [lia|done]. Qed.

Lemma demo_accepting : @accepting demo_env.
Proof. by intros st. Qed.

(** ** The copy *)

(** C2. A copy is correct and ends. When the options pass the checks of [main] and
    the set-up of [dd_run] completes, and the environment accepts every submission and
    transfers it in full, in any order and with any interleaving of the slots: at most
    [7 * copy_size] operations are performed or reported; as long as the program has
    not stopped, one can be; and when it stops, it does so once, with status 0, and the
    output holds the input window of [copy_size] bytes at its own offset, and everywhere
    else what opening it left: nothing in a regular file, which is truncated, and the old
    bytes in a device. The two targets are different ones, and an output file is not
    opened with [append] (which writes at the end of the file, whatever the offset). *)
Theorem dd_run_copies `{DdEnv, DdSetupEnv} o in0 out0 b st k st' :
  main_checks o = None → 0 <= queue_depth o < U32_MOD → sparse o = false →
  0 <= input_offset o → input_offset o * io_unit_size o < U64_MOD →
  dd_prepare (boot o in0 out0 b) = inr st → stops (events st) = [] →
  same_target = false → t_append (output (g_job st)) = false →
  0 < queue_depth (g_opts st) → 0 < copy_size (g_job st) →
  job_ok (g_opts st) (output (g_job st)) (copy_size (g_job st)) → accepting →
  full_run k (dd_run (boot o in0 out0 b)) st' →
  let copy := copy_size (g_job st) in
  let IS := input_offset o * io_unit_size o in
  let OS := output_offset o * io_unit_size o in
  let old := if given (output_file o) && fd_regular (t_fd (output (g_job st))) then zeroes else out0 in
  (k <= 7 * Z.to_nat copy)%nat ∧
  ((stops (events st') = [0] ∧ pending st' = ∅ ∧
    (∀ x, 0 <= x < copy → out_data st' (OS + x) = in0 (IS + x)) ∧
    (∀ y, y < OS ∨ OS + copy <= y → out_data st' y = old y)) ∨
   (stops (events st') = [] ∧ ∃ st'', full_step st' st'')).
Proof.
  intros Hm Hq Hsp Hskip Hpos Hprep Hst Hsame Happ Hqd Hcp Hjob Hacc Hrun.
  pose proof (prepare_spec o in0 out0 b st Hm Hq Hprep) as Hpp.
  assert (io_unit_size o < U64_MOD) as Hun by (rewrite <- (pp_unit _ _ _ _ Hpp); apply Hjob).
  pose proof (prepared_job o in0 out0 st Hpp Hm Hq Hsp Hst Hskip Hpos Hun) as Hjs.
  unfold dd_run in Hrun. rewrite Hprep in Hrun.
  destruct (start_ready _ _ _ _ _ _ _ whole Hjob Hacc st Hjs) as (d & Hr & Hms); [lia|done|].
  destruct (ready_run _ _ _ _ _ _ _ _ Hjob Hacc (whole_unnoticed _ _ _) _ _ _ _ Hr Hrun) as (d' & Hr' & Hk).
  simpl. split; [lia|].
  destruct (ready_outcome _ _ _ _ _ _ _ _ _ _ Hr') as [(Hs & Hp & Hout)|Hgo]; [|by right].
  left. split; [done|]. split; [done|].
  unfold in_start, out_start in Hout.
  destruct (pp_data _ _ _ _ Hpp Hsame Happ) as [Hi Ho]. unfold emptied in Ho.
  rewrite Hi, Ho, (pp_otype _ _ _ _ Hpp) in Hout.
  rewrite (pp_unit _ _ _ _ Hpp), (pp_skip _ _ _ _ Hpp), (pp_seek _ _ _ _ Hpp) in Hout. apply Hout.
  split; [done|]. split; [done|]. by intros ty len r.
Qed.

(** Two chunks, [0,8) and [8,12), written to offset 8 of a device of four-byte blocks. *)
Definition demo_st : dd_state := @boot_prepared demo_env demo_setup demo_opts demo_in zeroes.

Definition demo_end : dd_state :=
  default demo_boot (@acts demo_env all_bytes [0; 1; 1; 0; 0; 1; 0; 1]%nat (@dd_run demo_env demo_setup demo_boot)).

Lemma demo_boots : @boots demo_env demo_setup demo_opts demo_in zeroes = true.
Proof. vm_compute. reflexivity. Qed.

Lemma demo_prepared : @dd_prepare demo_env demo_setup demo_boot = inr demo_st.
Proof. exact (proj1 (@boots_job demo_env demo_setup _ _ _ demo_boots)). Qed.

Lemma demo_run : @full_run demo_env 8 (@dd_run demo_env demo_setup demo_boot) demo_end.
Proof.
  apply (@acts_run demo_env all_bytes [0; 1; 1; 0; 0; 1; 0; 1]%nat).
  assert (match @acts demo_env all_bytes [0; 1; 1; 0; 0; 1; 0; 1]%nat (@dd_run demo_env demo_setup demo_boot)
          with None => false | Some _ => true end = true) as Hb by (vm_compute; done).
  unfold demo_end. by destruct (acts _ _).
Qed.

Lemma demo_job : @job_ok demo_env (g_opts demo_st) (output (g_job demo_st)) (copy_size (g_job demo_st)).
Proof. split; vm_compute; done. Qed.

Lemma demo_stops : stops (events demo_end) = [0].
Proof. vm_compute. reflexivity. Qed.

(** [--ib Malloc0 --of out --bs 8 --seek 1]: twelve bytes to offset 8 of a regular file
    that was full of nines. *)
Definition file_setup : DdSetupEnv := {|
  open_ret _ _ := 3; fd_blocklen _ := 0; fd_size _ := 0; fstat_mode _ := None; fd_regular _ := true;
  bdev_open_rc _ := 0; bdev_has_channel _ := true; bdev_block_size _ := 4; bdev_num_blocks _ := 3;
  calloc_ios_ok := true; malloc_buf_ok _ := true; uring_init_rc := queue_init_rc; register_files_rc := 0;
  register_buffers_rc := 0; strtol _ := 0 |}.

Definition file_opts : spdk_dd_opts :=
  mkOpts None (Some "out") None None (Some "Malloc0") None 0 1 8 0 2 false false.

Definition nines : bytes := λ _, 9.
Definition file_boot : dd_state := @boot demo_env file_opts demo_in nines (λ _, zeroes).
Definition file_st : dd_state := @boot_prepared demo_env file_setup file_opts demo_in nines.
Definition file_end : dd_state :=
  default file_boot (@acts demo_env all_bytes [1; 0; 1; 0; 1; 0; 1; 0]%nat (@dd_run demo_env file_setup file_boot)).

Lemma file_prepared : @dd_prepare demo_env file_setup file_boot = inr file_st.
Proof.
  assert (@boots demo_env file_setup file_opts demo_in nines = true) as Hb by (vm_compute; reflexivity).
  exact (proj1 (@boots_job demo_env file_setup _ _ _ Hb)).
Qed.

Lemma file_run : @full_run demo_env 8 (@dd_run demo_env file_setup file_boot) file_end.
Proof.
  apply (@acts_run demo_env all_bytes [1; 0; 1; 0; 1; 0; 1; 0]%nat).
  assert (match @acts demo_env all_bytes [1; 0; 1; 0; 1; 0; 1; 0]%nat (@dd_run demo_env file_setup file_boot)
          with None => false | Some _ => true end = true) as Hb by (vm_compute; done).
  unfold file_end. by destruct (acts _ _).
Qed.

Lemma file_job : @job_ok demo_env (g_opts file_st) (output (g_job file_st)) (copy_size (g_job file_st)).
Proof. split; vm_compute; done. Qed.

Lemma file_stops : stops (events file_end) = [0].
Proof. vm_compute. reflexivity. Qed.

Lemma dd_run_copies_witness :
  (stops (events demo_end) = [0] ∧ out_data demo_end 8 = 1 ∧ out_data demo_end 19 = 12 ∧
   out_data demo_end 20 = 0) ∧
  (stops (events file_end) = [0] ∧ out_data file_end 8 = 1 ∧ out_data file_end 7 = 0).
Proof.
  split.
  - destruct (@dd_run_copies demo_env demo_setup demo_opts demo_in zeroes (λ _, zeroes) demo_st 8 demo_end
      eq_refl (conj Z.le_0_2 eq_refl) eq_refl (Z.le_refl 0) eq_refl demo_prepared eq_refl eq_refl eq_refl
      eq_refl eq_refl demo_job demo_accepting demo_run) as [_ [(Hs & _ & Hin & Hout)|[Hs _]]].
    + split; [exact Hs|]. split; [exact (Hin 0 (conj (Z.le_refl 0) eq_refl))|].
      split; [refine (Hin 11 (conj _ eq_refl)); done|]. refine (Hout 20 (or_intror _)). done.
    + rewrite demo_stops in Hs. done.
  - destruct (@dd_run_copies demo_env file_setup file_opts demo_in nines (λ _, zeroes) file_st 8 file_end
      eq_refl (conj Z.le_0_2 eq_refl) eq_refl (Z.le_refl 0) eq_refl file_prepared eq_refl eq_refl eq_refl
      eq_refl eq_refl file_job demo_accepting file_run) as [_ [(Hs & _ & Hin & Hout)|[Hs _]]].
    + split; [exact Hs|]. split; [exact (Hin 0 (conj (Z.le_refl 0) eq_refl))|].
      refine (Hout 7 (or_introl _)). done.
    + rewrite file_stops in Hs. done.
Defined.

(** ** Bounds *)

(** C10. No operation leaves its buffer or its window. In every state of a run as in
    the copy theorem, an operation in flight is of at least one and at most
    [io_unit_size] bytes (the size of its slot's buffer), a read lies in the input
    window, and a write, or a read of the output's old bytes, in the output window
    rounded up to whole blocks. *)
Theorem dd_ops_in_bounds `{DdEnv} n opts in_t out_t copy in0 out0 st k st' i op :
  job_ok opts out_t copy → accepting → job_start n opts in_t out_t copy in0 out0 st →
  (0 < n)%nat → 0 < copy → full_run k (dd_start 0 n st) st' → pending st' !! i = Some op →
  0 < op_len op <= io_unit_size opts ∧
  match op_kind_of op with
  | OpIo DD_READ => in_start opts <= op_off op ∧ op_off op + op_len op <= in_start opts + copy
  | _ => out_start opts <= op_off op ∧
         op_off op + op_len op <= out_start opts + round_up copy (block_size out_t)
  end.
Proof.
  intros Hjob Hacc Hst Hn Hc Hrun Hop.
  destruct (start_ready _ _ _ _ _ _ _ whole Hjob Hacc st Hst Hn Hc) as (d & Hr & _).
  destruct (ready_run _ _ _ _ _ _ _ _ Hjob Hacc (whole_unnoticed _ _ _) _ _ _ _ Hr Hrun) as (d' & Hr' & _).
  eapply clean_op_bounds; [done|apply Hr'|done].
Qed.

Lemma demo_start : @job_start 2 (g_opts demo_st) (input (g_job demo_st)) (output (g_job demo_st))
  (copy_size (g_job demo_st)) (in_data demo_st) (out_data demo_st) demo_st.
Proof. exact (proj2 (proj2 (@boots_job demo_env demo_setup _ _ _ demo_boots))). Qed.

(** The write of the first chunk, after its read. *)
Definition demo_mid : dd_state :=
  default demo_boot (@acts demo_env all_bytes [0; 0]%nat (@dd_start demo_env 0 2 demo_st)).

Lemma demo_mid_run : @full_run demo_env 2 (@dd_start demo_env 0 2 demo_st) demo_mid.
Proof.
  apply (@acts_run demo_env all_bytes [0; 0]%nat).
  assert (match @acts demo_env all_bytes [0; 0]%nat (@dd_start demo_env 0 2 demo_st)
          with None => false | Some _ => true end = true) as Hb by (vm_compute; done).
  unfold demo_mid. by destruct (acts _ _).
Qed.

Lemma dd_ops_in_bounds_witness :
  pending demo_mid !! 0%nat = Some (mkOp (OpIo DD_WRITE) 8 8 None) ∧ 8 + 8 <= 8 + round_up 12 4.
Proof.
  split; [vm_compute; done|].
  apply (@dd_ops_in_bounds demo_env 2 (g_opts demo_st) (input (g_job demo_st)) (output (g_job demo_st))
    (copy_size (g_job demo_st)) (in_data demo_st) (out_data demo_st) demo_st 2 demo_mid 0 (mkOp (OpIo DD_WRITE) 8 8 None)
    demo_job demo_accepting demo_start (Nat.lt_0_succ 1) eq_refl demo_mid_run). vm_compute. done.
Defined.

(** ** Accounting *)


(** The first read fails and is reported. *)
Definition demo_failed : dd_state :=
  let st := @dd_start demo_env 0 2 demo_st in
  match pending st !! 0%nat with Some o => @perform demo_env 0 o (-5) st | None => st end.

Lemma demo_failed_step : rtc (@dd_step demo_env) (@dd_start demo_env 0 2 demo_st) demo_failed.
Proof.
  apply rtc_once. unfold demo_failed.
  assert (pending (@dd_start demo_env 0 2 demo_st) !! 0%nat = Some (mkOp (OpIo DD_READ) 8 0 None)) as Ho
    by (vm_compute; done).
  rewrite Ho. by apply (@step_perform demo_env).
Qed.


(** ** The progress display *)

(** [1024^i] is the unit for [size]: the smallest of five in which it is at most 10240,
    or the largest. *)
Definition unit_fits (size i : Z) : Prop :=
  0 <= i <= 4 ∧ (i < 4 → size `div` 1024 ^ i <= 10240) ∧ (∀ j, 0 <= j < i → 10240 < size `div` 1024 ^ j).

Lemma unit_loop_spec size rounds i :
  0 <= i → i + Z.of_nat rounds = 4 → (∀ j, 0 <= j < i → 10240 < size `div` 1024 ^ j) →
  ∃ k, unit_loop rounds (size `div` 1024 ^ i) (1024 ^ i) i = (1024 ^ k, k) ∧ i <= k ∧ unit_fits size k.
Proof.
  revert i. induction rounds as [|rounds IH]; intros i Hi Hsum Hj; cbn [unit_loop].
  { exists i. split; [done|]. repeat split; try lia. done. }
  destruct (Z.ltb_spec (1024 * 10) (size `div` 1024 ^ i)) as [Hlt|Hge].
  2: { exists i. split; [done|]. repeat split; try lia. done. }
  assert (0 < 1024 ^ i) as Hp by (apply Z.pow_pos_nonneg; lia).
  assert (1024 ^ (i + 1) = 1024 ^ i * 1024) as Hs by (by rewrite Z.pow_add_r).
  assert (1024 ^ (i + 1) <= 1024 ^ 4) as Hm by (apply Z.pow_le_mono_r; lia).
  assert (u64 (Z.shiftl (1024 ^ i) 10) = 1024 ^ (i + 1)) as ->.
  { rewrite Z.shiftl_mul_pow2, Hs by lia. change (2 ^ 10) with 1024. apply u64_small.
    assert (1024 ^ 4 < U64_MOD) by done. lia. }
  rewrite Z.shiftr_div_pow2, Z.div_div by lia. change (2 ^ 10) with 1024. rewrite <- Hs.
  assert (∀ j, 0 <= j < i + 1 → 10240 < size `div` 1024 ^ j) as Hj'.
  { intros j Hjj. destruct (Z.eq_dec j i) as [->|]; [lia|]. apply Hj. lia. }
  destruct (Z.eqb_spec (i + 1) 4) as [E|E].
  - exists 4. rewrite E in *. split; [done|]. repeat split; try lia. done.
  - destruct (IH (i + 1)) as (k & -> & Hk & Hfit); [lia|lia|done|].
    exists k. split; [done|]. split; [lia|exact Hfit].
Qed.

Lemma find_unit_spec size : ∃ i, find_unit size = (1024 ^ i, i) ∧ unit_fits size i.
Proof.
  destruct (unit_loop_spec size 4 0) as (i & Hu & _ & Hi); [lia|done|intros j Hj; lia|].
  exists i. split; [|exact Hi]. unfold find_unit. rewrite <- Hu. f_equal. by rewrite Z.div_1_r.
Qed.

(** C37. What the progress display prints. The bytes of the period are added to the
    total; the total and the size of the copy are printed in a unit [1024^i], and the
    speed in a unit of its own. At the end [i] is the unit of the total, so the number
    printed is at most 10240 (unless [i = 4], TiB) and, if [i] is not 0, at least 10:
    not more than a tenth is lost to rounding. The periodic display takes the unit from
    the bytes of the last period instead, so nothing bounds the total it prints. *)
Theorem dd_show_progress_prints `{DdEnv} (finish : bool) st :
  let total := u64 (total_bytes (g_job st) + incremental_bytes (g_job st)) in
  let st1 := upd_job (λ j, j <| incremental_bytes := 0 |> <| total_bytes := total |>) st in
  let size := if finish then total else incremental_bytes (g_job st) in
  let ms := if finish then Z.max 1 (elapsed_ms st1) else 1000 in
  let speed := u64 (size * 1000) `div` ms in
  ∃ i k,
    dd_show_progress finish st =
      emit (EvShow (total `div` 1024 ^ i) (copy_size (g_job st) `div` 1024 ^ i) i (speed `div` 1024 ^ k) k) st1 ∧
    unit_fits size i ∧ unit_fits speed k ∧
    (finish = true → (i < 4 → total `div` 1024 ^ i <= 10240) ∧ (0 < i → 10 <= total `div` 1024 ^ i)).
Proof.
  intros total st1 size ms speed.
  destruct (find_unit_spec size) as (i & Hi & Fi). destruct (find_unit_spec speed) as (k & Hk & Fk).
  exists i, k. split; [|split; [done|split; [done|]]].
  - transitivity (let '(u, i) := find_unit size in let '(v, k) := find_unit speed in
      emit (EvShow (total `div` u) (copy_size (g_job st) `div` u) i (speed `div` v) k) st1);
      [by destruct finish|by rewrite Hi, Hk].
  - intros ->. destruct Fi as (Hr & Hle & Hlt). split; [done|]. intros Hpos.
    specialize (Hlt (i - 1) ltac:(lia)). subst size. simpl in Hlt.
    assert (1024 ^ i = 1024 ^ (i - 1) * 1024) as ->.
    { replace i with (i - 1 + 1) at 1 by lia. by rewrite Z.pow_add_r by lia. }
    rewrite <- Z.div_div by (try apply Z.pow_nonzero; lia). apply Z.div_le_lower_bound; lia.
Qed.
