(* ===== verification/DdFindings.v ===== *)
(** * spdk_dd: behaviour at the edges

    What the program does where its assumptions fail: refused starts, block sizes
    that do not divide the unit, partial blocks under Linux AIO, lost transfers,
    interrupted seeks, offsets past the end of an input file, a file copied onto
    itself, no slots, unknown flags. *)

From Stdlib Require Import Ascii.
From S2P Require Import Prelude Posix DdState DdEngine DdSteps DdAccounting DdCopy DdProofs DdSetup DdSetupProofs DdClaims.
#[local] Open Scope Z_scope.

(** ** Refused starts *)

(** Every submission is refused. *)
Definition refusing `{DdEnv} : Prop :=
  config_uring = false ∧ ∀ st, bdev_rc st ≠ 0 ∧ io_submit_ret st < 0.

Section Refused.
Context `{DdEnv}.
Hypothesis Href : refusing.

Lemma refused_submit t i ty len off st :
  pending (check_submit (submit_io t i ty len off st)) = pending st.
Proof.
  rewrite check_submit_pending. unfold submit_io, uring_mode. destruct Href as [-> Hr].
  destruct (Hr st) as [Hb Hs]. destruct (t_type t); simpl.
  - destruct (Z.ltb_spec (io_submit_ret st) 0); [done|lia].
  - by destruct (Z.eqb_spec (bdev_rc st) 0).
Qed.

Lemma refused_seek n i st : acct n st → pending (dd_target_seek i st) = pending st.
Proof.
  intros Ha. unfold dd_target_seek. rewrite (ac_dense n st Ha). simpl. unfold dd_target_populate_buffer.
  set (st1 := set_io i _ st).
  destruct ((_ =? 0) || stopping st1).
  { destruct (idle st1); [|done]. by rewrite (q_pending _ _ (proj1 (show_and_exit_spec st1))). }
  destruct (_ `mod` _ =? 0); [|by rewrite refused_submit]. unfold dd_target_read.
  set (st2 := upd_job _ st1). destruct (stopping st2); [|by rewrite refused_submit].
  destruct (idle st2); [|done]. by rewrite (q_pending _ _ (quiet_exit _ _)).
Qed.

Lemma refused_start n i todo st :
  errno_set → acct n st → pending st = ∅ → (i + todo <= n)%nat →
  length (stops (events (dd_start i todo st))) = (todo + length (stops (events st)))%nat.
Proof.
  intros He. revert i st. induction todo as [|todo IH]; intros i st Ha Hp Hn; simpl; [done|].
  pose proof (refused_seek n i st Ha) as Hp'. rewrite Hp in Hp'.
  destruct (seek_stage n i st He Ha ltac:(lia) ltac:(by rewrite Hp)) as (Ha' & _ & [[_ Hne]|[Hs _]]); [done|].
  rewrite (IH (S i) _ Ha' Hp' ltac:(lia)), Hs. simpl. lia.
Qed.

End Refused.


Definition refusing_env : DdEnv := {|
  config_uring := false; bdev_rc _ := -12; io_submit_ret _ := -1; env_errno _ := 5;
  lseek_data _ := 0; lseek_hole _ := 0; lseek_end _ := 0; ftruncate_rc _ := 0; elapsed_ms _ := 1;
  same_target := false; append_off _ := 0 |}.


(** ** Partial blocks *)

Lemma stopped_stage_error `{DdEnv} i ty st :
  stopping st = true → sparse (g_opts st) = false → g_error (next_stage i ty st) = g_error st.
Proof.
  intros Hs Hsp. destruct ty; simpl; unfold dd_target_read, dd_target_write, dd_target_seek.
  - rewrite Hs. destruct (idle st); [apply quiet_exit|done].
  - rewrite Hs. destruct (idle st); [apply show_and_exit_spec|done].
  - rewrite Hsp. simpl. unfold dd_target_populate_buffer. set (st1 := set_io i _ st).
    change (stopping st) with (stopping st1) in Hs. rewrite Hs, orb_true_r.
    destruct (idle st1); [|done]. exact (q_error _ _ (proj1 (show_and_exit_spec st1))).
Qed.

(** C29. With Linux AIO a transfer of whole blocks that is longer than its chunk is
    taken for a failure: [dd_aio_poll] compares the bytes transferred, rounded up to
    whole blocks, with the length of the chunk, so the last, partial block of a copy
    ends it with -ENOSPC although it was written in full. *)
Theorem dd_aio_partial_block_fails `{DdEnv} n i o st :
  acct n st → pending st !! i = Some o → 0 <= op_len o < U64_MOD →
  op_len o ≠ io_length (get_io st i) →
  g_error (dd_aio_event (i, op_len o) st) = - ENOSPC.
Proof.
  intros Ha Ho Hlen Hne. unfold dd_aio_event. rewrite u64_small by done.
  destruct (Z.eqb_spec (op_len o) (io_length (get_io st i))); [done|]. simpl negb. cbv iota.
  unfold dd_complete_poll. set (st1 := dec_outstanding _).
  assert (g_error st1 = - ENOSPC ∧ sparse (g_opts st1) = false) as [He Hsp].
  { unfold st1, dec_outstanding, dd_assert. pose proof (ac_dense n st Ha). by destruct (0 <? _). }
  rewrite <- He. apply (stopped_stage_error i (io_type (get_io st1 i)) st1); [|done].
  unfold stopping. by rewrite He.
Qed.

Definition aio_env : DdEnv := {|
  config_uring := false; bdev_rc _ := 0; io_submit_ret _ := 1; env_errno _ := 5;
  lseek_data _ := 0; lseek_hole _ := 0; lseek_end _ := 0; ftruncate_rc _ := 0; elapsed_ms _ := 1;
  same_target := false; append_off _ := 0 |}.

Definition aio_setup : DdSetupEnv := {|
  open_ret _ _ := 3; fd_blocklen _ := 4; fd_size _ := 0; fstat_mode _ := None; fd_regular _ := false;
  bdev_open_rc _ := 0; bdev_has_channel _ := true; bdev_block_size _ := 2; bdev_num_blocks _ := 5;
  calloc_ios_ok := true; malloc_buf_ok _ := true; uring_init_rc := queue_init_rc; register_files_rc := 0;
  register_buffers_rc := 0; strtol _ := 0 |}.

(** [--ib Malloc0 --of out --bs 8 --aio]: ten bytes, to a file of four-byte blocks. *)
Definition aio_opts : spdk_dd_opts :=
  mkOpts None (Some "out") None None (Some "Malloc0") None 0 0 8 0 2 true false.

Definition aio_st : dd_state := @boot_prepared aio_env aio_setup aio_opts demo_in zeroes.

Lemma aio_boots : @boots aio_env aio_setup aio_opts demo_in zeroes = true.
Proof. vm_compute. reflexivity. Qed.

Lemma aio_initial : initial 2 aio_st.
Proof. exact (js_initial _ _ _ _ _ _ _ _ (proj2 (proj2 (@boots_job aio_env aio_setup _ _ _ aio_boots)))). Qed.

(** The last two bytes: four are read from the output before they are overwritten. *)
Lemma dd_aio_partial_block_fails_witness :
  g_error (@dd_aio_event aio_env (1%nat, 4) (@dd_start aio_env 0 2 aio_st)) = - ENOSPC.
Proof.
  apply (@dd_aio_partial_block_fails aio_env 2 1 (mkOp (OpIo DD_POPULATE) 4 8 None)
           (@dd_start aio_env 0 2 aio_st)).
  - apply (@start_ok aio_env 2 aio_st); [by intros st|apply aio_initial|lia|].
    right. intros Hp.
    assert (pending (@dd_target_seek aio_env 0 aio_st) !! 0%nat = Some (mkOp (OpIo DD_READ) 8 0 None))
      as Ho by (vm_compute; done). by rewrite Hp in Ho.
  - vm_compute. done.
  - done.
  - vm_compute. done.
Defined.

(** ** Units that are not whole blocks *)

(** C27. [dd_run] does not ask that the unit be a multiple of the output's block size,
    and then a chunk of a whole unit overruns its buffer: the first operation of a slot
    is for more than [io_unit_size] bytes, the size of the buffer. *)
Theorem dd_unaligned_unit_overruns `{DdEnv} n opts in_t out_t copy in0 out0 st :
  accepting → job_start n opts in_t out_t copy in0 out0 st → (0 < n)%nat →
  0 < block_size out_t → io_unit_size opts `mod` block_size out_t ≠ 0 →
  0 < io_unit_size opts <= copy → copy < U64_MOD → io_unit_size opts + block_size out_t < U64_MOD →
  0 <= input_offset opts * io_unit_size opts < U64_MOD →
  ∃ o, pending (dd_target_seek 0 st) !! 0%nat = Some o ∧ io_unit_size opts < op_len o.
Proof.
  intros Hacc Hst Hn Hbs Hmod Hun Hcp Hru Hpos.
  pose proof (js_initial _ _ _ _ _ _ _ _ Hst) as Hin.
  unfold dd_target_seek. rewrite (in_dense n st Hin). simpl negb. cbv iota.
  unfold dd_target_populate_buffer.
  rewrite (js_opts _ _ _ _ _ _ _ _ Hst), (js_input _ _ _ _ _ _ _ _ Hst), (js_output _ _ _ _ _ _ _ _ Hst),
    (js_copy _ _ _ _ _ _ _ _ Hst). simpl pos. unfold in_start.
  rewrite (u64_small (input_offset opts * _)), Z.sub_diag by lia. change (u64 0) with 0.
  rewrite Z.sub_0_r, (u64_small copy) by lia.
  set (st1 := set_io 0 _ st).
  assert (io_length (get_io st1 0) = io_unit_size opts) as Hl.
  { unfold st1. rewrite get_set_io_eq by (rewrite (in_ios n st Hin); lia). simpl.
    rewrite (js_len _ _ _ _ _ _ _ _ Hst 0%nat Hn). lia. }
  rewrite Hl. destruct (Z.eqb_spec (io_unit_size opts) 0); [lia|].
  assert (stopping st1 = false) as ->.
  { unfold stopping. change (g_error st1) with (g_error st). change (g_interrupt st1) with (g_interrupt st).
    by rewrite (js_error _ _ _ _ _ _ _ _ Hst), (js_interrupt _ _ _ _ _ _ _ _ Hst). }
  simpl orb. cbv iota. destruct (Z.eqb_spec (io_unit_size opts `mod` block_size out_t) 0); [done|].
  rewrite (submit_accept Hacc). eexists. split; [by apply lookup_insert_eq|]. simpl.
  pose proof (round_up_mod (io_unit_size opts) (block_size out_t) ltac:(lia) Hbs Hru).
  destruct (round_up_spec (io_unit_size opts) (block_size out_t)) as [Hr _]; [lia..|].
  destruct (Z.eq_dec (io_unit_size opts) (round_up (io_unit_size opts) (block_size out_t))); [congruence|lia].
Qed.

(** The file of twelve bytes of [DdClaims], to a device of six-byte blocks. *)
Definition six_setup : DdSetupEnv := {|
  open_ret _ _ := 3; fd_blocklen _ := 4; fd_size _ := 12; fstat_mode _ := None; fd_regular _ := false;
  bdev_open_rc _ := 0; bdev_has_channel _ := true; bdev_block_size _ := 6; bdev_num_blocks _ := 10;
  calloc_ios_ok := true; malloc_buf_ok _ := true; uring_init_rc := queue_init_rc; register_files_rc := 0;
  register_buffers_rc := 0; strtol _ := 0 |}.

Definition six_st : dd_state := @boot_prepared demo_env six_setup demo_opts demo_in zeroes.

Lemma six_boots : @boots demo_env six_setup demo_opts demo_in zeroes = true.
Proof. vm_compute. reflexivity. Qed.

Lemma dd_unaligned_unit_overruns_witness :
  ∃ o, pending (@dd_target_seek demo_env 0 six_st) !! 0%nat = Some o ∧ 8 < op_len o.
Proof.
  apply (@dd_unaligned_unit_overruns demo_env 2 (g_opts six_st) (input (g_job six_st))
    (output (g_job six_st)) (copy_size (g_job six_st)) (in_data six_st) (out_data six_st) six_st demo_accepting
    (proj2 (proj2 (@boots_job demo_env six_setup _ _ _ six_boots)))); [lia|vm_compute; done..].
Defined.

(** ** Failures that go unnoticed *)

(** A schedule of results: each entry names a slot and, if its operation is still to
    be performed, the result it gets. *)
Fixpoint play `{DdEnv} (sched : list (nat * Z)) (st : dd_state) : option dd_state :=
  match sched with
  | [] => Some st
  | (i, r) :: sched =>
      match pending st !! i with
      | Some o =>
          match op_res o with
          | None => if may_return o r then play sched (perform i o r st) else None
          | Some r' => play sched (deliver i o r' st)
          end
      | None => None
      end
  end.

Lemma play_steps `{DdEnv} sched st st' : play sched st = Some st' → rtc dd_step st st'.
Proof.
  revert st. induction sched as [|[i r] sched IH]; intros st; simpl; [by intros [= <-]|].
  destruct (pending st !! i) as [o|] eqn:Ho; [|done]. destruct (op_res o) as [r'|] eqn:Hr.
  - intros Hp. eapply rtc_l; [by eapply step_deliver|by apply IH].
  - destruct (may_return o r) eqn:Hm; [|done]. intros Hp. eapply rtc_l; [by apply step_perform|by apply IH].
Qed.

Definition played `{DdEnv} (sched : list (nat * Z)) (st : dd_state) : dd_state := default st (play sched st).

Lemma played_steps `{DdEnv} sched st :
  match play sched st with Some _ => true | None => false end = true → rtc dd_step st (played sched st).
Proof. intros Hb. apply (play_steps sched). unfold played. by destruct (play sched st). Qed.

(** [--ib A --ob B --bs 8 --qd 1], two devices of two four-byte blocks. *)
Definition pair_setup : DdSetupEnv := {|
  open_ret _ _ := 3; fd_blocklen _ := 4; fd_size _ := 8; fstat_mode _ := None; fd_regular _ := false;
  bdev_open_rc _ := 0; bdev_has_channel _ := true; bdev_block_size _ := 4; bdev_num_blocks _ := 2;
  calloc_ios_ok := true; malloc_buf_ok _ := true; uring_init_rc := queue_init_rc; register_files_rc := 0;
  register_buffers_rc := 0; strtol _ := 0 |}.

Definition pair_opts : spdk_dd_opts := mkOpts None None None None (Some "A") (Some "B") 0 0 8 0 1 false false.

(** *** No stage and no handler touches the bytes of the output *)

Section OutputKept.
Context `{DdEnv}.
Implicit Types st : dd_state.

Definition kept st st' : Prop := out_data st' = out_data st ∧ g_opts st' = g_opts st.

#[local] Instance kept_preorder : PreOrder kept.
Proof. split; [done|]. intros s1 s2 s3 [] []. split; congruence. Qed.

Lemma kept_quiet st st' : quiet st st' → kept st st'.
Proof. intros []. by split. Qed.

Lemma kept_exit rc st : kept st (dd_exit rc st).
Proof. apply kept_quiet, quiet_exit. Qed.

Lemma kept_show_exit st : kept st (show_and_exit st).
Proof. apply kept_quiet, show_and_exit_spec. Qed.

Lemma kept_submit t i ty len off st : kept st (check_submit (submit_io t i ty len off st)).
Proof.
  transitivity (submit_io t i ty len off st).2.
  - unfold submit_io. destruct (t_type t), (uring_mode st), (io_submit_ret st <? 0), (bdev_rc st =? 0); done.
  - unfold check_submit. destruct (submit_io t i ty len off st) as [rc s]. destruct (negb _); [|done].
    set (s1 := (dec_outstanding s) <| g_error := rc |>).
    transitivity s1; [|destruct (idle s1); [apply kept_exit|done]].
    unfold s1, dec_outstanding, dd_assert. by destruct (0 <? _).
Qed.

Lemma kept_read i st : kept st (dd_target_read i st).
Proof.
  unfold dd_target_read. destruct (stopping st); [destruct (idle st); [apply kept_exit|done]|].
  etrans; [|apply kept_submit]. done.
Qed.

Lemma kept_write i st : kept st (dd_target_write i st).
Proof.
  unfold dd_target_write. destruct (stopping st); [destruct (idle st); [apply kept_show_exit|done]|].
  etrans; [|apply kept_submit]. done.
Qed.

Lemma kept_populate i st : kept st (dd_target_populate_buffer i st).
Proof.
  unfold dd_target_populate_buffer. set (st1 := set_io i _ st). transitivity st1; [done|].
  destruct (_ || _); [destruct (idle st1); [apply kept_show_exit|done]|].
  destruct (_ `mod` _ =? 0); (etrans; [|apply kept_read || apply kept_submit]); done.
Qed.

Lemma kept_stage i ty st : sparse (g_opts st) = false → kept st (next_stage i ty st).
Proof.
  intros Hsp. destruct ty; simpl; [apply kept_read|apply kept_write|].
  unfold dd_target_seek. rewrite Hsp. apply kept_populate.
Qed.

Lemma kept_start i todo st : sparse (g_opts st) = false → kept st (dd_start i todo st).
Proof.
  revert i st. induction todo as [|todo IH]; intros i st Hsp; [done|]. simpl.
  pose proof (kept_stage i DD_WRITE st Hsp) as Hk. simpl in Hk.
  etrans; [exact Hk|]. apply IH. by rewrite (proj2 Hk).
Qed.

End OutputKept.

(** *** Runs with any results the handlers do not notice *)

Section Unnoticed.
Context `{DdEnv} (n : nat) (opts : spdk_dd_opts) (in_t out_t : dd_target) (copy : Z) (in0 out0 : bytes).
Context (fine : dd_submit_type → Z → Z → Prop).
Hypothesis Hjob : job_ok opts out_t copy.
Hypothesis Hacc : accepting.
Hypothesis Hfine : ∀ ty len r, 0 < len → fine ty len r → unnoticed opts in_t out_t ty len r.
Hypothesis Hlost : ∀ len r, fine DD_WRITE len r → r <= 0.

Lemma lost_step d st st' :
  ready n opts in_t out_t copy in0 out0 fine d st → xfer_step fine st st' →
  ∀ y, out_data st' y = out_data st y.
Proof.
  intros Hr Hs y. pose proof (rd_clean _ _ _ _ _ _ _ _ _ _ Hr) as Hcl.
  destruct Hs as [st i o r Ho _ Hres|st i o r Ho Hrs].
  - destruct (clean_op_len _ _ _ _ _ _ _ _ Hjob _ _ _ _ _ Hcl Ho) as (_ & Hk & _). specialize (Hres _ Hk).
    unfold perform. rewrite Hk. destruct (io_type (get_io st i)); [done|done|].
    apply Hlost in Hres. simpl. rewrite Z.max_l by done. apply blit_out. lia.
  - destruct (deliver_clean _ _ _ _ _ _ _ _ Hjob Hfine _ _ _ _ _ Hcl Ho Hrs) as (st1 & Hq & ->).
    destruct (kept_stage i (io_type (get_io st i)) st1) as [-> _].
    + rewrite (q_opts _ _ Hq). unfold reported, dec_outstanding, dd_assert.
      pose proof (ac_dense n st (cl_acct _ _ _ _ _ _ _ _ _ _ _ Hcl)). by destruct (0 <? _).
    + rewrite (q_out _ _ Hq). unfold reported, dec_outstanding, dd_assert. by destruct (0 <? _).
Qed.

Lemma lost_run k d st st' :
  ready n opts in_t out_t copy in0 out0 fine d st → xfer_run fine k st st' →
  ∀ y, out_data st' y = out_data st y.
Proof.
  intros Hr Hrun y. revert d Hr.
  induction Hrun as [st|k s1 s2 s3 Hs _ IH|k s1 s2 s3 Hs _ IH]; intros d Hr; [done|..].
  - destruct (ready_step _ _ _ _ _ _ _ _ Hjob Hacc Hfine _ _ _ Hr Hs) as (d2 & Hr2 & _).
    rewrite (IH d2 Hr2). by eapply lost_step.
  - destruct (ready_idle _ _ _ _ _ _ _ _ Hacc _ _ _ Hr Hs) as (Hr2 & _). rewrite (IH d Hr2).
    destruct Hs as [s|s]; [|done]. by rewrite (q_out _ _ (quiet_show false s)).
Qed.

End Unnoticed.

(** C20. Failed and short transfers go unnoticed. Whatever bytes the operations of a copy
    move, as long as nothing fails through io_uring (a block device may fail any transfer,
    and io_uring may cut any short; [unnoticed]), the program runs like a good copy: after
    at most [7 * copy_size] operations performed or reported it has stopped, once, with
    status 0. If the writes fail or move nothing, the output is what it was. *)
Theorem dd_lost_transfers_exit_zero `{DdEnv} n opts in_t out_t copy in0 out0 fine st k st' :
  job_ok opts out_t copy → accepting → job_start n opts in_t out_t copy in0 out0 st →
  (0 < n)%nat → 0 < copy →
  (∀ ty len r, 0 < len → fine ty len r → unnoticed opts in_t out_t ty len r) →
  xfer_run fine k (dd_start 0 n st) st' →
  (k <= 7 * Z.to_nat copy)%nat ∧
  ((stops (events st') = [0] ∧ pending st' = ∅) ∨ (stops (events st') = [] ∧ ∃ st'', full_step st' st'')) ∧
  ((∀ len r, fine DD_WRITE len r → r <= 0) → ∀ y, out_data st' y = out0 y).
Proof.
  intros Hjob Hacc Hst Hn Hc Hfine Hrun.
  destruct (start_ready _ _ _ _ _ _ _ fine Hjob Hacc st Hst Hn Hc) as (d & Hr & Hms).
  destruct (ready_run _ _ _ _ _ _ _ _ Hjob Hacc Hfine _ _ _ _ Hr Hrun) as (d' & Hr' & Hk).
  split; [lia|]. split.
  - destruct (ready_outcome _ _ _ _ _ _ _ _ _ _ Hr') as [(Hs & Hp & _)|Hgo]; [by left|by right].
  - intros Hlost y. rewrite (lost_run _ _ _ _ _ _ _ _ Hjob Hacc Hfine Hlost _ _ _ _ Hr Hrun).
    destruct (kept_start 0 n st) as [-> _]; [apply (in_dense n st), Hst|]. by rewrite (js_out _ _ _ _ _ _ _ _ Hst).
Qed.

(** The device of [DdClaims] fails every write with -EIO. *)
Definition failing_writes (ty : dd_submit_type) (len : Z) : Z :=
  match ty with DD_WRITE => - EIO | _ => len end.

Definition lost_end : dd_state :=
  default demo_st (@acts demo_env failing_writes [0; 1; 1; 0; 0; 1; 0; 1]%nat (@dd_start demo_env 0 2 demo_st)).

Lemma dd_lost_transfers_exit_zero_witness :
  stops (events lost_end) = [0] ∧ out_data lost_end 8 = 0 ∧ in_data lost_end 0 = 1.
Proof.
  assert (Hr : @xfer_run demo_env (λ ty len r, r = failing_writes ty len) 8 (@dd_start demo_env 0 2 demo_st) lost_end).
  { apply (@acts_run demo_env failing_writes [0; 1; 1; 0; 0; 1; 0; 1]%nat).
    assert (match @acts demo_env failing_writes [0; 1; 1; 0; 0; 1; 0; 1]%nat (@dd_start demo_env 0 2 demo_st)
            with None => false | Some _ => true end = true) as Hb by (vm_compute; done).
    unfold lost_end. by destruct (acts _ _ _). }
  destruct (@dd_lost_transfers_exit_zero demo_env 2 (g_opts demo_st) (input (g_job demo_st))
    (output (g_job demo_st)) (copy_size (g_job demo_st)) (in_data demo_st) (out_data demo_st)
    (λ ty len r, r = failing_writes ty len) demo_st 8 lost_end demo_job demo_accepting demo_start)
    as (_ & [[Hs _]|[Hs _]] & Hout).
  - lia.
  - vm_compute. done.
  - intros ty len r Hl ->. split; [destruct ty; unfold failing_writes, EIO; lia|].
    destruct ty; [vm_compute; done|intros _; change (0 <= len); lia|vm_compute; done].
  - exact Hr.
  - split; [exact Hs|]. split; [|vm_compute; done]. rewrite Hout; [vm_compute; reflexivity|].
    intros len r ->. unfold failing_writes, EIO. lia.
  - assert (stops (events lost_end) = [0]) as Hx by (vm_compute; done). rewrite Hx in Hs. discriminate Hs.
Defined.

(** ** Interrupted seeks *)

(** With nothing in flight, no step stops the program any more. *)
Lemma nothing_left `{DdEnv} st st' :
  rtc dd_step st st' → pending st = ∅ → pending st' = ∅ ∧ stops (events st') = stops (events st).
Proof.
  induction 1 as [st|st st1 st2 Hstep _ IH]; intros Hp; [done|].
  assert (pending st1 = ∅ ∧ stops (events st1) = stops (events st)) as [Hp1 Hs1].
  { destruct Hstep as [st i o r Hi|st i o r Hi|st rc _|st|st]; [by rewrite Hp in Hi..| |done|].
    - simpl. by destruct (rc =? - EAGAIN).
    - simpl. by rewrite stops_show, (q_pending _ _ (quiet_show false st)). }
  rewrite <- Hs1. by apply IH.
Qed.

(** C30. A sparse copy interrupted while its only operation is a seek never ends:
    [_dd_bdev_seek_data_done] and [_dd_bdev_seek_hole_done] return without counting the
    seek out, so afterwards nothing is in flight, the counter is still not zero, and
    [spdk_app_stop] is never called. *)
Theorem dd_interrupted_seek_hangs `{DdEnv} i o r st :
  pending st = {[i := o]} → op_kind_of o = OpSeekData ∨ op_kind_of o = OpSeekHole →
  op_res o = Some r → stopping st = true → 0 < outstanding (g_job st) →
  let st' := deliver i o r st in
  dd_step st st' ∧ pending st' = ∅ ∧ outstanding (g_job st') = outstanding (g_job st) ∧
  ∀ st'', rtc dd_step st' st'' → stops (events st'') = stops (events st).
Proof.
  intros Hp Hk Hr Hst Hout. split.
  { apply step_deliver; [|done]. by rewrite Hp, lookup_singleton_eq. }
  enough (pending (deliver i o r st) = ∅ ∧ outstanding (g_job (deliver i o r st)) = outstanding (g_job st) ∧
          stops (events (deliver i o r st)) = stops (events st)) as (Hp' & Ho' & Hs').
  { split; [done|]. split; [done|]. intros st'' Hrun. rewrite <- Hs'. by apply nothing_left. }
  assert (delete i (pending st) = ∅) as Hd by (by rewrite Hp, delete_singleton_eq).
  assert (idle st = false) as Hidle by (unfold idle; destruct (Z.eqb_spec (outstanding (g_job st)) 0); [lia|done]).
  unfold deliver. destruct Hk as [-> | ->]; simpl; unfold dd_bdev_seek_data_done, dd_bdev_seek_hole_done.
  - change (stopping (st <| pending ::= delete i |>)) with (stopping st). rewrite Hst.
    set (st1 := pop_seek_queue _). change (idle st1) with (idle st). by rewrite Hidle.
  - set (st1 := pop_seek_queue _). change (stopping st1) with (stopping st). rewrite Hst.
    change (idle st1) with (idle st). by rewrite Hidle.
Qed.

Definition sparse_opts : spdk_dd_opts := mkOpts None None None None (Some "A") (Some "B") 0 0 8 0 1 false true.

(** The seek of the first slot is done when the user interrupts. *)
Definition seek_st : dd_state :=
  dd_finish (@played demo_env [(0%nat, 0)]
               (@dd_run demo_env pair_setup (@boot demo_env sparse_opts demo_in zeroes (λ _, zeroes)))).

Lemma dd_interrupted_seek_hangs_witness :
  let st' := @deliver demo_env 0 (mkOp OpSeekData 0 0 (Some 0)) 0 seek_st in
  pending st' = ∅ ∧ stops (events st') = [].
Proof.
  destruct (@dd_interrupted_seek_hangs demo_env 0 (mkOp OpSeekData 0 0 (Some 0)) 0 seek_st)
    as (_ & Hp & _ & Hs).
  - vm_compute. reflexivity.
  - by left.
  - reflexivity.
  - vm_compute. reflexivity.
  - vm_compute. reflexivity.
  - split; [exact Hp|]. rewrite (Hs _ (rtc_refl _ _)). vm_compute. reflexivity.
Defined.

(** ** Offsets past the end of an input file *)

(** C31. An input file and a [--skip] past its end are not rejected, unlike a device:
    without [--count] the size of the copy wraps around to almost [2^64] bytes. *)
Theorem dd_skip_past_file_wraps `{DdEnv, DdSetupEnv} o in0 out0 b st :
  main_checks o = None → 0 <= queue_depth o < U32_MOD → io_unit_count o = 0 →
  0 <= input_offset o → input_offset o * io_unit_size o < U64_MOD →
  dd_prepare (boot o in0 out0 b) = inr st →
  0 <= total_size (input (g_job st)) < input_offset o * io_unit_size o →
  copy_size (g_job st) = U64_MOD - (input_offset o * io_unit_size o - total_size (input (g_job st))) ∧
  input_bdev o = None.
Proof.
  intros Hm Hq Hcnt Hskip Hpos Hprep Htot. pose proof (prepare_spec o in0 out0 b st Hm Hq Hprep) as Hpp.
  destruct (main_checks_unit o Hm) as (Hu & _).
  pose proof (pp_pos _ _ _ _ Hpp) as Hp. rewrite u64_small in Hp by nia.
  pose proof (pp_copy _ _ _ _ Hpp) as Hc. rewrite Hcnt, Hp in Hc. simpl in Hc.
  split.
  - rewrite Hc. unfold u64. symmetry. apply (Z.mod_unique _ _ (-1)); lia.
  - pose proof (pp_in_bdev _ _ _ _ Hpp) as Hb. destruct (input_bdev o); [|done].
    destruct Hb as [Hle _]; [done|]. lia.
Qed.

(** [--if in --ob Malloc0 --bs 8 --skip 4]: byte 32 of a file of twelve. *)
Definition skip_opts : spdk_dd_opts :=
  mkOpts (Some "in") None None None None (Some "Malloc0") 4 0 8 0 2 false false.

Definition skip_st : dd_state := @boot_prepared demo_env demo_setup skip_opts demo_in zeroes.

Lemma skip_boots : @boots demo_env demo_setup skip_opts demo_in zeroes = true.
Proof. vm_compute. reflexivity. Qed.

Lemma dd_skip_past_file_wraps_witness : copy_size (g_job skip_st) = U64_MOD - 20.
Proof.
  assert (0 <= queue_depth skip_opts < U32_MOD) as Hq by done.
  destruct (@dd_skip_past_file_wraps demo_env demo_setup skip_opts demo_in zeroes (λ _, zeroes) skip_st
    eq_refl Hq eq_refl) as [Hc _].
  - done.
  - done.
  - exact (proj1 (@boots_job demo_env demo_setup _ _ _ skip_boots)).
  - vm_compute. done.
  - rewrite Hc. vm_compute. reflexivity.
Defined.

(** ** A file copied onto itself *)

Lemma open_output_empties `{DdEnv, DdSetupEnv} fname st st' :
  run_open_output st = inr st' → output_file (g_opts st) = Some fname → same_target = true →
  t_append (output (g_job st')) = false → fd_regular (t_fd (output (g_job st'))) = true →
  in_data st' = zeroes ∧ out_data st' = zeroes.
Proof.
  intros Hrun Ho Hs Ha Hr. revert Hrun Ha Hr. unfold run_open_output. rewrite Ho.
  destruct (parse_flags _ st) as [flags st1]. unfold dd_open_file.
  destruct (open_ret fname _ <? 0) eqn:E; [by rewrite E|]. simpl. intros [= <-]. simpl.
  destruct (has_flag (open_file_flags false flags) O_TRUNC && fd_regular _) eqn:Et; simpl; intros Ha Hr.
  - by rewrite Hs.
  - apply open_flags_trunc in Ha. by rewrite Ha, Hr in Et.
Qed.


(** [--if f --of f --bs 8], a file of twelve bytes. *)
Definition itself_env : DdEnv := {|
  config_uring := true; bdev_rc _ := 0; io_submit_ret _ := 1; env_errno _ := 5;
  lseek_data _ := 0; lseek_hole _ := 0; lseek_end _ := 0; ftruncate_rc _ := 0; elapsed_ms _ := 1;
  same_target := true; append_off _ := 0 |}.

Definition itself_setup : DdSetupEnv := {|
  open_ret _ _ := 3; fd_blocklen _ := 0; fd_size _ := 12; fstat_mode _ := None; fd_regular _ := true;
  bdev_open_rc _ := 0; bdev_has_channel _ := true; bdev_block_size _ := 4; bdev_num_blocks _ := 3;
  calloc_ios_ok := true; malloc_buf_ok _ := true; uring_init_rc := queue_init_rc; register_files_rc := 0;
  register_buffers_rc := 0; strtol _ := 0 |}.

Definition itself_opts : spdk_dd_opts :=
  mkOpts (Some "f") (Some "f") None None None None 0 0 8 0 2 false false.

Definition itself_st : dd_state := @boot_prepared itself_env itself_setup itself_opts demo_in demo_in.

Lemma itself_boots : @boots itself_env itself_setup itself_opts demo_in demo_in = true.
Proof. vm_compute. reflexivity. Qed.


(** ** No slots *)

(** Events that are no stop leave the stops alone. *)
Lemma open_bdev_stops `{DdSetupEnv} b name skip st :
  stops (events (dd_open_bdev b name skip st).2) = stops (events st).
Proof. unfold dd_open_bdev. destruct (bdev_open_rc name <? 0), (bdev_has_channel name), b; done. Qed.

Lemma alloc_events `{DdEnv, DdSetupEnv} st st' : run_alloc st = inr st' → events st' = events st.
Proof.
  unfold run_alloc. destruct (negb calloc_ios_ok); [done|]. intros Ha.
  apply alloc_bufs_spec in Ha as (_ & _ & _ & _ & _ & ->); [done|]. simpl. rewrite length_replicate. lia.
Qed.

Lemma prepare_bdevs_stops `{DdEnv, DdSetupEnv} st st' :
  input_file (g_opts st) = None → output_file (g_opts st) = None → dd_prepare st = inr st' →
  stops (events st') = stops (events st).
Proof.
  intros Hi Ho. unfold dd_prepare.
  destruct (run_open_input st) as [|s1] eqn:E1; [done|]. pose proof (open_input_frame _ _ E1) as F1.
  destruct (run_check_input s1) as [|s2] eqn:E2; [done|]. destruct (check_input_spec _ _ E2) as (F2 & _).
  destruct (run_open_output s2) as [|s3] eqn:E3; [done|]. destruct (open_output_spec _ _ E3) as (F3 & _).
  destruct (run_check_blocks s3) as [|s4] eqn:E4; [done|]. apply check_blocks_spec in E4 as (-> & _).
  destruct (run_alloc s3) as [|s5] eqn:E5; [done|]. pose proof (alloc_events _ _ E5) as A5.
  apply run_alloc_spec in E5 as (F5 & _).
  assert (frame st s2) as G2 by (by etrans).
  assert (frame st s5) as G5 by (etrans; [exact G2|]; by etrans).
  assert (run_backend s5 = inr s5) as ->.
  { unfold run_backend. by rewrite (fr_ifile _ _ G5), (fr_ofile _ _ G5), Hi, Ho. }
  intros [= <-]. simpl.
  transitivity (stops (events s3)); [by rewrite A5|].
  transitivity (stops (events s2)); [|transitivity (stops (events s1))].
  - revert E3. unfold run_open_output. rewrite (fr_ofile _ _ G2), Ho.
    destruct (output_bdev (g_opts s2)) as [name|]; [|by intros [= <-]].
    pose proof (open_bdev_stops false name (output_offset (g_opts s2)) s2) as Hs.
    destruct (dd_open_bdev _ _ _ s2) as [rc s]. simpl in Hs. destruct (rc <? 0); [done|].
    destruct (total_size _ <? pos _); [done|]. destruct (negb (_ =? 0) && _); [done|]. by intros [= <-].
  - revert E2. unfold run_check_input. destruct (given _ && _); [done|]. destruct (negb _ && _ && _); [done|].
    by intros [= <-].
  - revert E1. unfold run_open_input. rewrite Hi. destruct (input_bdev (g_opts st)) as [name|]; [|by intros [= <-]].
    pose proof (open_bdev_stops true name (input_offset (g_opts st)) st) as Hs.
    destruct (dd_open_bdev _ _ _ st) as [rc s]. simpl in Hs. destruct (rc <? 0); [done|]. by intros [= <-].
Qed.

(** C32. [--qd 0] is not refused, and a copy between two devices then never ends: no slot
    is started, nothing is ever in flight and [spdk_app_stop] is not called. (With a file
    the set-up of the ring fails, and ends the program.) *)
Theorem dd_zero_depth_hangs `{DdEnv, DdSetupEnv} o in0 out0 b st :
  main_checks o = None → queue_depth o = 0 → input_file o = None → output_file o = None →
  dd_prepare (boot o in0 out0 b) = inr st →
  ∀ st', rtc dd_step (dd_run (boot o in0 out0 b)) st' → pending st' = ∅ ∧ stops (events st') = [].
Proof.
  intros Hm Hq Hi Ho Hprep. pose proof (prepare_spec o in0 out0 b st Hm ltac:(rewrite Hq; done) Hprep) as Hpp.
  assert (queue_depth (g_opts st) = 0) as Hz by (pose proof (pp_depth _ _ _ _ Hpp); lia).
  pose proof (prepare_bdevs_stops (boot o in0 out0 b) st Hi Ho Hprep) as Hs.
  unfold dd_run. rewrite Hprep, Hz. intros st' Hrun.
  destruct (nothing_left _ _ Hrun (pp_pending _ _ _ _ Hpp)) as [Hp' Hs']. simpl in Hs'.
  split; [exact Hp'|]. rewrite Hs'. exact Hs.
Qed.

(** [--ib A --ob B --bs 8 --qd 0] *)
Definition hang_opts : spdk_dd_opts := mkOpts None None None None (Some "A") (Some "B") 0 0 8 0 0 false false.

Definition hang_boot : dd_state := @boot demo_env hang_opts demo_in zeroes (λ _, zeroes).

Lemma hang_boots : @boots demo_env pair_setup hang_opts demo_in zeroes = true.
Proof. vm_compute. reflexivity. Qed.

Lemma dd_zero_depth_hangs_witness :
  pending (@dd_run demo_env pair_setup hang_boot) = ∅ ∧ stops (events (@dd_run demo_env pair_setup hang_boot)) = [].
Proof.
  apply (@dd_zero_depth_hangs demo_env pair_setup hang_opts demo_in zeroes (λ _, zeroes)
    (@boot_prepared demo_env pair_setup hang_opts demo_in zeroes) eq_refl eq_refl eq_refl eq_refl
    (proj1 (@boots_job demo_env pair_setup _ _ _ hang_boots))). apply rtc_refl.
Defined.

(** ** Flags *)

Fixpoint join (names : list string) : string :=
  match names with
  | [] => EmptyString
  | [s] => s
  | s :: names => (s ++ String "," (join names))%string
  end.

Fixpoint no_comma (s : string) : bool :=
  match s with EmptyString => true | String c s => negb (Ascii.eqb c ","%char) && no_comma s end.

Lemma strsep_last s : no_comma s = true → strsep s = (s, None).
Proof.
  induction s as [|c s IH]; simpl; [done|]. destruct (Ascii.eqb c ","%char); [done|].
  simpl. intros Hs. by rewrite IH.
Qed.

Lemma strsep_next s rest : no_comma s = true → strsep (s ++ String "," rest)%string = (s, Some rest).
Proof.
  induction s as [|c s IH]; [done|]. simpl.
  destruct (Ascii.eqb c ","%char); [done|]. simpl. intros Hs. by rewrite (IH Hs).
Qed.

Lemma known_no_comma s f : find_flag g_flags s = Some f → no_comma s = true.
Proof.
  unfold g_flags. cbn [find_flag].
  repeat match goal with |- (if String.eqb s ?k then _ else _) = _ → _ =>
    destruct (String.eqb_spec s k) as [->|_]; [done|] end.
  done.
Qed.

#[local] Arguments find_flag : simpl never.

(** A round of the loop on a list of known names. *)
Lemma strsep_join s names :
  no_comma s = true → strsep (join (s :: names)) = (s, match names with [] => None | _ => Some (join names) end).
Proof.
  intros Hs. destruct names as [|t names]; [by apply strsep_last|]. by apply (strsep_next s (join (t :: names))).
Qed.

Lemma parse_flags_loop_known `{DdEnv} rounds nf flags st :
  Forall (λ x, find_flag g_flags x.1 = Some x.2) nf → (length nf <= rounds)%nat → nf ≠ [] →
  parse_flags_loop rounds (Some (join nf.*1)) flags st = (foldl Z.lor flags nf.*2, st).
Proof.
  intros Hall. revert rounds flags. induction Hall as [|[s f] nf Hf Hall IH]; intros rounds flags Hr Hne; [done|].
  destruct rounds as [|rounds]; [simpl in Hr; lia|]. cbn [parse_flags_loop]. simpl in Hf.
  change ((s, f) :: nf).*1 with (s :: nf.*1). rewrite strsep_join by (by eapply known_no_comma). rewrite Hf.
  destruct nf as [|x nf]; [by destruct rounds|]. change ((s, f) :: x :: nf).*2 with (f :: (x :: nf).*2).
  simpl foldl at 1. apply IH; [simpl in *; lia|done].
Qed.

Lemma length_append s t : String.length (s ++ t)%string = (String.length s + String.length t)%nat.
Proof. induction s as [|c s IH]; [done|]. simpl. by rewrite IH. Qed.

Lemma join_length names : (length names <= S (String.length (join names)))%nat.
Proof.
  induction names as [|s [|t names] IH]; [simpl; lia..|].
  change (join (s :: t :: names)) with (s ++ String "," (join (t :: names)))%string.
  rewrite length_append.
  change (length (s :: t :: names)) with (S (length (t :: names))).
  change (String.length (String "," (join (t :: names)))) with (S (String.length (join (t :: names)))). lia.
Qed.

(** C36. A list of known flags is translated to the union of their bits and changes
    nothing else; but [strsep] cuts the text, so when [dd_run] parses it again to choose
    the mode of the ring, it sees the first flag only. *)
Theorem parse_flags_known `{DdEnv} nf st :
  Forall (λ x, find_flag g_flags x.1 = Some x.2) nf → nf ≠ [] →
  let text := Some (join nf.*1) in
  parse_flags text st = (foldl Z.lor 0 nf.*2, st) ∧
  ∃ s f, head nf = Some (s, f) ∧ parse_flags (after_strsep text) st = (f, st).
Proof.
  intros Hall Hne text. split.
  - unfold text, parse_flags. apply parse_flags_loop_known; [done| |done].
    rewrite <- (length_fmap fst nf). apply join_length.
  - unfold text, after_strsep. destruct Hall as [|[s f] nf Hf Hall]; [done|]. exists s, f. split; [done|].
    simpl in Hf. change ((s, f) :: nf).*1 with (s :: nf.*1).
    change ((λ s, (strsep s).1) <$> Some (join (s :: nf.*1))) with (Some (strsep (join (s :: nf.*1))).1).
    rewrite strsep_join by (by eapply known_no_comma).
    unfold parse_flags. apply (parse_flags_loop_known _ [(s, f)] 0); [|simpl; lia|done].
    by constructor.
Qed.

(** [direct] second: the open asks for it, the ring does not see it. *)
Lemma parse_flags_known_witness :
  parse_flags (Some "sync,direct"%string) demo_st = (Z.lor O_SYNC O_DIRECT, demo_st) ∧
  has_flag (parse_flags (after_strsep (Some "sync,direct"%string)) demo_st).1 O_DIRECT = false.
Proof.
  destruct (@parse_flags_known demo_env [("sync"%string, O_SYNC); ("direct"%string, O_DIRECT)] demo_st)
    as (Hp & s & f & [= <- <-] & Hq); [repeat constructor|done|].
  split; [exact Hp|].
  change (Some (join [("sync"%string, O_SYNC); ("direct"%string, O_DIRECT)].*1))
    with (Some "sync,direct"%string) in Hq. rewrite Hq. reflexivity.
Defined.

Lemma open_input_file_ok `{DdEnv, DdSetupEnv} fname flags skip st :
  let fd := open_ret fname (Z.lor flags O_RDWR) in
  0 <= fd →
  ∃ st', dd_open_file true fname flags skip st = (0, st') ∧
         events st' = EvOpen fname (Z.lor flags O_RDWR) :: events st ∧ t_fd (input (g_job st')) = fd.
Proof.
  intros fd Hfd. unfold dd_open_file. change (open_file_flags true flags) with (Z.lor flags O_RDWR). fold fd.
  destruct (Z.ltb_spec fd 0); [lia|]. eexists. split; [reflexivity|]. done.
Qed.

(** C38. An unknown flag does not end the program's set-up: [parse_flags] calls
    [dd_exit] and returns 0, and [dd_run] goes on to open the input file, although the
    application has been told to stop. *)
Theorem dd_unknown_flag_continues `{DdEnv, DdSetupEnv} fname s st :
  input_file (g_opts st) = Some fname → input_file_flags (g_opts st) = Some s →
  find_flag g_flags (strsep s).1 = None → 0 <= open_ret fname O_RDWR →
  ∃ st', run_open_input st = inr st' ∧ stops (events st') = - EINVAL :: stops (events st) ∧
         EvOpen fname O_RDWR ∈ events st' ∧ t_fd (input (g_job st')) = open_ret fname O_RDWR.
Proof.
  intros Hf Hs Hfl Hop. unfold run_open_input. rewrite Hf, Hs. unfold parse_flags. cbn [parse_flags_loop].
  destruct (strsep s) as [t rest]. simpl in Hfl. rewrite Hfl.
  pose proof (stops_exit (- EINVAL) st) as Hst. set (st0 := dd_exit _ st) in *. clearbody st0.
  destruct (open_input_file_ok fname 0 (input_offset (g_opts st))
    (set_opts (λ o, o <| input_file_flags ::= after_strsep |>) st0) Hop) as (st' & -> & Hev & Hfd).
  simpl. exists st'. rewrite Hev. simpl. split; [done|]. split; [done|]. split; [left|done].
Qed.

Lemma dd_unknown_flag_continues_witness :
  ∃ st', @run_open_input demo_env demo_setup
           (@boot demo_env (demo_opts <| input_file_flags := Some "fast"%string |>) demo_in zeroes (λ _, zeroes)) = inr st' ∧
         stops (events st') = [- EINVAL].
Proof.
  destruct (@dd_unknown_flag_continues demo_env demo_setup "in" "fast"
    (@boot demo_env (demo_opts <| input_file_flags := Some "fast"%string |>) demo_in zeroes (λ _, zeroes)))
    as (st' & Hr & Hst & _); try reflexivity; [vm_compute; done|].
  exists st'. split; [exact Hr|exact Hst].
Defined.

(** C39. A device without a channel is closed twice: [dd_open_bdev] closes it and
    leaves [open] set, and [dd_exit] closes it again. *)
Theorem dd_no_channel_closes_twice `{DdEnv, DdSetupEnv} name skip st :
  0 <= bdev_open_rc name → bdev_has_channel name = false →
  is_file (output (g_job st)) = true ∨ t_open (output (g_job st)) = false →
  let '(rc, st') := dd_open_bdev true name skip st in
  rc = - ENOMEM ∧
  ∃ rest, events (dd_exit rc st') = rest ++ EvBdevClose true :: EvBdevClose true :: events st.
Proof.
  intros Hrc Hch Hout. unfold dd_open_bdev. destruct (Z.ltb_spec (bdev_open_rc name) 0); [lia|].
  rewrite Hch. simpl. split; [done|]. unfold dd_exit, dd_exit_target, dd_cleanup_bdev. simpl.
  destruct (is_file (output (g_job st))) eqn:E; simpl; rewrite ?E; simpl.
  - by eexists [_; _; _; _].
  - destruct Hout as [|Hop]; [done|]. rewrite Hop. simpl. rewrite E. simpl. by eexists [_; _].
Qed.

Definition no_channel_setup : DdSetupEnv := {|
  open_ret _ _ := 3; fd_blocklen _ := 4; fd_size _ := 8; fstat_mode _ := None; fd_regular _ := false;
  bdev_open_rc _ := 0; bdev_has_channel _ := false; bdev_block_size _ := 4; bdev_num_blocks _ := 2;
  calloc_ios_ok := true; malloc_buf_ok _ := true; uring_init_rc := queue_init_rc; register_files_rc := 0;
  register_buffers_rc := 0; strtol _ := 0 |}.

Lemma dd_no_channel_closes_twice_witness :
  ∃ rest, events (@dd_exit (- ENOMEM) (@dd_open_bdev no_channel_setup true "A" 0
            (@boot demo_env pair_opts demo_in zeroes (λ _, zeroes))).2) = rest ++ [EvBdevClose true; EvBdevClose true].
Proof.
  apply (@dd_no_channel_closes_twice demo_env no_channel_setup "A" 0
           (@boot demo_env pair_opts demo_in zeroes (λ _, zeroes))); [done|done|by left].
Defined.
