(* ===== verification/UbiBdev.v ===== *)
(** * The ubi block device: [src/lib/bdev_ubi.c] and [src/lib/bdev_ubi_io_channel.c]

    A ubi device is a blob of a blobstore on the base device, thin-provisioned over
    the image device. Creating one is a chain of asynchronous blobstore calls whose
    callbacks share a [ubi_create_context]; deleting one starts two independent
    chains. The state of the module is therefore a heap (the devices and contexts
    alive), the list of registered devices, the calls SPDK has not answered yet, and
    the log of what the module did. An access to freed memory or through [NULL] is
    [Undef]. What SPDK answers synchronously is the class [UbiEnv]; what it answers
    later is the [reply] of a delivery. *)

From S2P Require Import Prelude Posix BsDev DeltaDev UringDev.
#[local] Open Scope Z_scope.

Module Ubi.

(** ** Data *)

Record snapshot_status_t := mkStatus {
  in_progress : bool; result : Z; copied_clusters : Z; total_clusters : Z }.

(** [struct ubi_bdev] with the fields of its [struct spdk_bdev] the code sets.
    Handles of blobstores and blobs are numbers; [None] is [NULL]. *)
Record ubi_bdev := mkUbi {
  name : string;
  bdev_blocklen : Z;
  bdev_blockcnt : Z;
  write_cache : Z;
  product_name : string;
  required_alignment : Z;
  optimal_io_boundary : Z;
  split_on_optimal_io_boundary : bool;
  image_path : string;
  snapshot_path : string;
  alignment_bytes : Z;
  no_sync : bool;
  directio : bool;
  bs_dev : option spdk_bs_dev;
  blobstore : option nat;
  blobid : Z;
  blob : option nat;
  snapshot_status : snapshot_status_t;
}.

(** [struct spdk_ubi_bdev_opts]. *)
Record spdk_ubi_bdev_opts := mkUbiOpts {
  o_name : string;
  o_image_path : string;
  o_snapshot_path : option string;
  o_base_bdev_name : string;
  o_no_sync : bool;
  o_directio : bool;
  o_format_bdev : bool;
}.

(** [struct ubi_create_context]; the callback and its argument are the context's
    own address in the log. *)
Record ubi_create_context := mkCtx {
  cc_ubi_bdev : option nat;
  registerd : bool;
  format_bdev : bool;
}.

(** [struct snapshot_context] of [src/lib/bdev_ubi_snapshot.c]. *)
Record snapshot_context := mkSnapCtx {
  sc_ubi_bdev : nat;
  snapshot_blobid : Z;
  clone_blobid : Z;
  ch : bool;
  shallow_copy_bs_dev : option Delta.bs_dev_delta;
  path : option string;
}.

#[export] Instance eta_status : Eta snapshot_status_t := λ r,
  mkStatus (in_progress r) (result r) (copied_clusters r) (total_clusters r).
#[export] Instance eta_ubi : Eta ubi_bdev := λ r,
  mkUbi (name r) (bdev_blocklen r) (bdev_blockcnt r) (write_cache r) (product_name r)
    (required_alignment r) (optimal_io_boundary r) (split_on_optimal_io_boundary r) (image_path r)
    (snapshot_path r) (alignment_bytes r) (no_sync r) (directio r) (bs_dev r) (blobstore r)
    (blobid r) (blob r) (snapshot_status r).
#[export] Instance eta_ctx : Eta ubi_create_context := λ r,
  mkCtx (cc_ubi_bdev r) (registerd r) (format_bdev r).
#[export] Instance eta_snap_ctx : Eta snapshot_context := λ r,
  mkSnapCtx (sc_ubi_bdev r) (snapshot_blobid r) (clone_blobid r) (ch r) (shallow_copy_bs_dev r) (path r).

(** Options of a blobstore and of a blob, as far as the code sets them after their
    [..._opts_init]: [esnap_bs_dev_create] is whether it is [ubi_esnap_dev_create]. *)
Record spdk_bs_opts := mkBsOpts { esnap_bs_dev_create : bool; esnap_ctx : nat; max_channel_ops : Z }.
Record spdk_blob_opts := mkBlobOpts {
  thin_provision : bool; num_clusters : Z; esnap_id : string; esnap_id_len : Z }.

(** The asynchronous calls of the blobstore, with their arguments: a blobstore or blob
    may be [NULL], and a channel is given or not. *)
Inductive bs_call :=
| spdk_bs_init (dev : option spdk_bs_dev) (o : spdk_bs_opts)
| spdk_bs_load (dev : option spdk_bs_dev) (o : spdk_bs_opts)
| spdk_bs_iter_first (bs : option nat)
| spdk_bs_create_blob_ext (bs : option nat) (o : spdk_blob_opts)
| spdk_bs_create_snapshot (bs : option nat) (blobid : Z)
| spdk_bs_open_blob (bs : option nat) (blobid : Z)
| spdk_blob_close (blob : option nat)
| spdk_bs_unload (bs : option nat)
| spdk_bs_create_clone (bs : option nat) (blobid : Z)
| spdk_bs_blob_decouple_parent (bs : option nat) (ch : bool) (blobid : Z)
| spdk_bs_blob_shallow_copy (bs : option nat) (ch : bool) (blobid : Z) (ext_dev : option Delta.bs_dev_delta).

(** The callbacks SPDK still has to run, with their argument, by the call that was given
    them (which is in the log with its other arguments). *)
Inductive call :=
| CallBsInit (ctx : nat)           (* spdk_bs_init or spdk_bs_load, ubi_bs_init_complete *)
| CallIterFirst (ctx : nat)        (* spdk_bs_iter_first, ubi_blob_open_complete *)
| CallCreateBlob (ctx : nat)       (* spdk_bs_create_blob_ext, ubi_blob_create_complete *)
| CallCreateSnapshot (ctx : nat)   (* spdk_bs_create_snapshot, ubi_blob_snapshot_complete *)
| CallOpenBlob (ctx : nat)         (* spdk_bs_open_blob, ubi_blob_open_complete *)
| CallBlobClose (u : nat)          (* spdk_blob_close, ubi_destruct_blob_close_cb *)
| CallBsUnload (u : nat)           (* spdk_bs_unload, ubi_destruct_bs_unload_cb *)
| CallDevUnregister (u : nat)      (* spdk_io_device_unregister, _device_unregister_cb *)
| CallSnapCreate (sc : nat)        (* spdk_bs_create_snapshot, ubi_snapshot_create_cb *)
| CallClone (sc : nat)             (* spdk_bs_create_clone, ubi_clone_create_cb *)
| CallOpenClone (sc : nat)         (* spdk_bs_open_blob, ubi_open_clone_cb *)
| CallCloseClone (sc : nat)        (* spdk_blob_close, ubi_close_clone_cb *)
| CallDecouple (sc : nat)          (* spdk_bs_blob_decouple_parent, ubi_decouple_parent_cb *)
| CallShallowCopy (sc : nat).      (* spdk_bs_blob_shallow_copy, ubi_shallow_copy_complete_cb *)

(** What the module did. *)
Inductive event :=
| EvCall (c : bs_call)
| EvDone (ctx : nat) (bdev : option nat) (status : Z) (* context->done_fn(done_arg, bdev, status) *)
| EvSnapCb (sc : nat) (rc : Z)           (* ctx->cb_fn(cb_arg, rc) *)
| EvSnapReject (rc : Z)                  (* cb_fn(cb_arg, rc) before there is a context *)
| EvDeleteCb (rc : Z)                    (* cb_fn(cb_arg, rc) of bdev_ubi_delete *)
| EvIoDeviceRegister (u : nat)
| EvIoDeviceUnregister (u : nat)
| EvBdevRegister (u : nat)
| EvReleaseBdev (u : nat)
| EvFreeUbi (u : nat)
| EvFreeCtx (ctx : nat)
| EvFreeSnapCtx (sc : nat)
| EvDestroyDelta (sc : nat)
| EvFreeSnapChannel (sc : nat).

Record state := mkState {
  ubis : gmap nat ubi_bdev;
  ctxs : gmap nat ubi_create_context;
  sctxs : gmap nat snapshot_context;
  g_ubi_bdev_head : list nat;
  pending : list call;
  next : nat;
  log : list event;
}.

#[export] Instance eta_state : Eta state := λ r,
  mkState (ubis r) (ctxs r) (sctxs r) (g_ubi_bdev_head r) (pending r) (next r) (log r).

(** The answer to a call: an error number, and the handle or identifier it returns. *)
Record reply := mkReply { bserrno : Z; handle : option nat; id : Z }.

Class UbiEnv := {
  calloc_ok : state → bool;
  strdup_ok : state → bool;
  create_bs_dev : state → string → Z + spdk_bs_dev;  (* spdk_bdev_create_bs_dev_ext *)
  spdk_u32log2 : Z → Z;
  blob_get_id : nat → Z;
  blob_num_io_units : nat → Z;
  bs_io_unit_size : nat → Z;
  bs_cluster_size : nat → Z;
  bs_total_data_cluster_count : nat → Z;
  bdev_register_rc : state → Z;
  bdev_get_by_name : state → string → option nat;    (* the device's address *)
  unregister_by_name_rc : state → string → Z;
  bs_alloc_io_channel_ok : state → bool;
  blob_set_read_only_rc : state → nat → Z;
  shallow_copy_ret : state → Z;
}.

Section Ubi.
Context `{UbiEnv}.
Implicit Types st : state.

Definition emit (e : event) st : state := st <| log ::= cons e |>.
(** A callback SPDK will run later; and a call of the blobstore that will run it. *)
Definition await (c : call) st : state := st <| pending ::= cons c |>.
Definition call_later (c : call) (a : bs_call) st : state := await c (emit (EvCall a) st).

Definition get_ubi (u : nat) st : res ubi_bdev :=
  match ubis st !! u with Some b => Ret b | None => Undef end.
Definition set_ubi (u : nat) (f : ubi_bdev → ubi_bdev) st : state := st <| ubis ::= alter f u |>.
Definition get_ctx (ctx : nat) st : res ubi_create_context :=
  match ctxs st !! ctx with Some c => Ret c | None => Undef end.
Definition set_ctx (ctx : nat) (f : ubi_create_context → ubi_create_context) st : state :=
  st <| ctxs ::= alter f ctx |>.

(** Dereference of a pointer that may be [NULL]. *)
Definition deref {A} (p : option A) : res A := match p with Some x => Ret x | None => Undef end.

(** [strncpy(dst, src, UBI_PATH_LEN); dst[UBI_PATH_LEN - 1] = 0;] *)
Definition copy_path (s : string) : string := String.substring 0 (Z.to_nat (UBI_PATH_LEN - 1)) s.

(** ** Module functions that do nothing *)

Definition ubi_initialize : Z := 0.

(** ** Tear-down callbacks *)

Definition ubi_destruct_bs_unload_cb (u : nat) (bserrno : Z) st : res state :=
  if negb (bserrno =? 0) then let* _ := get_ubi u st in Ret st else Ret st.

Definition ubi_destruct_blob_close_cb (u : nat) (bserrno : Z) st : res state :=
  let* b := get_ubi u st in
  match blobstore b with
  | Some bs => Ret (call_later (CallBsUnload u) (spdk_bs_unload (Some bs)) st)
  | None => ubi_destruct_bs_unload_cb u 0 st
  end.

(** [if (ubi_bdev->blob) spdk_blob_close(...); else ubi_destruct_blob_close_cb(ubi_bdev, 0);] *)
Definition close_blob (u : nat) st : res state :=
  let* b := get_ubi u st in
  match blob b with
  | Some bl => Ret (call_later (CallBlobClose u) (spdk_blob_close (Some bl)) st)
  | None => ubi_destruct_blob_close_cb u 0 st
  end.

(** ** Creation *)

(** The part of [ubi_finish_create] for [status == 0]: the device's final geometry
    and its registration; the result is the new status. *)
Definition register_bdev (u : nat) st : res (Z * state) :=
  let* b := get_ubi u st in
  let* bl := deref (blob b) in
  let* bs := deref (blobstore b) in
  let blocklen := u32 (bs_io_unit_size bs) in
  let* _ := guard_res (negb (blocklen =? 0)) in
  let st := set_ubi u (λ b, b <| bdev_blockcnt := blob_num_io_units bl |> <| bdev_blocklen := blocklen |>
                              <| optimal_io_boundary := (4 * 1024) `div` blocklen |>
                              <| split_on_optimal_io_boundary := true |>) st in
  let status := bdev_register_rc st in
  Ret (status, if negb (status =? 0) then emit (EvReleaseBdev u) st
               else emit (EvBdevRegister u) st <| g_ubi_bdev_head ::= λ l, l ++ [u] |>).

Definition ubi_finish_create (status : Z) (ctx : nat) st : res state :=
  let* c := get_ctx ctx st in
  let* (status, st) :=
    (if status =? 0 then let* u := deref (cc_ubi_bdev c) in register_bdev u st else Ret (status, st)) in
  let* st :=
    match cc_ubi_bdev c with
    | Some u =>
        if negb (status =? 0) then
          let st := if registerd c then emit (EvIoDeviceUnregister u) st else st in close_blob u st
        else Ret st
    | None => Ret st
    end in
  let st := emit (EvDone ctx (cc_ubi_bdev c) status) st in
  Ret (emit (EvFreeCtx ctx) st <| ctxs ::= delete ctx |>).

(** [context->ubi_bdev->bdev.name], which every error message reads. *)
Definition named_device (ctx : nat) st : res ubi_bdev :=
  let* c := get_ctx ctx st in
  let* u := deref (cc_ubi_bdev c) in
  get_ubi u st.

Definition ubi_blob_open_complete (ctx : nat) (r : reply) st : res state :=
  let* blob := deref (handle r) in           (* spdk_blob_get_id(blob) in the log message *)
  if negb (bserrno r =? 0) then let* _ := named_device ctx st in ubi_finish_create (bserrno r) ctx st
  else
    let* c := get_ctx ctx st in
    let* u := deref (cc_ubi_bdev c) in
    let* _ := get_ubi u st in
    ubi_finish_create 0 ctx (set_ubi u (λ b, b <| Ubi.blob := Some blob |> <| blobid := blob_get_id blob |>) st).

Definition ubi_blob_snapshot_complete (ctx : nat) (r : reply) st : res state :=
  if negb (bserrno r =? 0) then let* _ := named_device ctx st in ubi_finish_create (bserrno r) ctx st
  else
    let* c := get_ctx ctx st in
    let* u := deref (cc_ubi_bdev c) in
    let* b := get_ubi u st in
    Ret (call_later (CallOpenBlob ctx) (spdk_bs_open_blob (blobstore b) (blobid b)) st).

Definition ubi_blob_create_complete (ctx : nat) (r : reply) st : res state :=
  if negb (bserrno r =? 0) then let* _ := named_device ctx st in ubi_finish_create (bserrno r) ctx st
  else
    let* c := get_ctx ctx st in
    let* u := deref (cc_ubi_bdev c) in
    let* b := get_ubi u st in
    let st := set_ubi u (λ b, b <| blobid := id r |>) st in
    Ret (call_later (CallCreateSnapshot ctx) (spdk_bs_create_snapshot (blobstore b) (id r)) st).

Definition UBI_URING_ESNAP_ID : string := "ubi_uring_esnap_id".

Definition ubi_bs_init_complete (ctx : nat) (r : reply) st : res state :=
  if negb (bserrno r =? 0) then let* _ := named_device ctx st in ubi_finish_create (bserrno r) ctx st
  else
    let* c := get_ctx ctx st in
    let* u := deref (cc_ubi_bdev c) in
    let* _ := get_ubi u st in
    let st := set_ubi u (λ b, b <| blobstore := handle r |>) st in
    if negb (format_bdev c) then Ret (call_later (CallIterFirst ctx) (spdk_bs_iter_first (handle r)) st)
    else
      let* bs := deref (handle r) in         (* spdk_bs_total_data_cluster_count(bs) *)
      let blob_opts := mkBlobOpts true (bs_total_data_cluster_count bs) UBI_URING_ESNAP_ID
                         (Z.of_nat (S (String.length UBI_URING_ESNAP_ID))) in
      Ret (call_later (CallCreateBlob ctx) (spdk_bs_create_blob_ext (Some bs) blob_opts) st).

Definition zero_ubi : ubi_bdev :=
  mkUbi EmptyString 0 0 0 EmptyString 0 0 false EmptyString EmptyString 0 false false None None 0 None
    (mkStatus false 0 0 0).

Definition bdev_ubi_create (opts : option spdk_ubi_bdev_opts) (ctx : nat) st : res state :=
  let* o := deref opts in                    (* the log message of the !opts branch reads opts->name *)
  if negb (calloc_ok st) then ubi_finish_create (- ENOMEM) ctx st
  else
    let u := next st in
    let st := st <| ubis ::= <[u := zero_ubi]> |> <| next ::= S |> in
    let* _ := get_ctx ctx st in
    let st := set_ctx ctx (λ c, c <| cc_ubi_bdev := Some u |>) st in
    if negb (strdup_ok st) then ubi_finish_create (- ENOMEM) ctx st
    else
      let st := set_ubi u (λ b, b <| name := o_name o |> <| no_sync := o_no_sync o |>
                  <| image_path := copy_path (o_image_path o) |>
                  <| snapshot_path := match o_snapshot_path o with
                                      | Some p => copy_path p | None => EmptyString end |>) st in
      match create_bs_dev st (o_base_bdev_name o) with
      | inl rc => ubi_finish_create rc ctx st
      | inr dev =>
          let st := set_ubi u (λ b, b <| bs_dev := Some dev |> <| bdev_blocklen := blocklen dev |>
                      <| bdev_blockcnt := blockcnt dev |> <| write_cache := 0 |>
                      <| product_name := "Ubi_disk"%string |> <| alignment_bytes := 4096 |>
                      <| required_alignment := spdk_u32log2 4096 |>) st in
          let st := emit (EvIoDeviceRegister u) st in
          let st := set_ctx ctx (λ c, c <| registerd := true |> <| format_bdev := o_format_bdev o |>) st in
          let bs_opts := mkBsOpts true u 20000 in
          Ret (call_later (CallBsInit ctx)
                 (if o_format_bdev o then spdk_bs_init (Some dev) bs_opts else spdk_bs_load (Some dev) bs_opts) st)
      end.

(** The image device of a ubi device, [None] when it could not be created; the
    result is what the blobstore sees. *)
Definition ubi_esnap_dev_create `{SpdkUtil} (calloc_dev : bool) (u : nat) (o : os) st
  : res (Z * option Uring.bs_dev_uring * os) :=
  let* b := get_ubi u st in
  let* bs := deref (blobstore b) in
  let cluster_size := u32 (bs_cluster_size bs) in
  let* (r, _) := Uring.bs_dev_uring_create calloc_dev (image_path b) (Some (snapshot_path b))
                  (bdev_blocklen b) cluster_size (directio b) o in
  let '(dev, o) := r in
  Ret (0, dev, o).

(** ** Deletion *)

Definition bdev_ubi_delete (bdev_name : string) st : state :=
  let rc := unregister_by_name_rc st bdev_name in
  if negb (rc =? 0) then emit (EvDeleteCb rc) st else st.

Definition device_unregister_cb (u : nat) st : res state :=
  let* _ := get_ubi u st in
  Ret (emit (EvFreeUbi u) st <| ubis ::= delete u |>).

Definition ubi_destruct (u : nat) st : res (Z * state) :=
  let* _ := get_ubi u st in
  let st := st <| g_ubi_bdev_head ::= filter (λ v, v ≠ u) |> in
  let* st := close_blob u st in
  Ret (0, await (CallDevUnregister u) (emit (EvIoDeviceUnregister u) st)).

(** ** Requests *)

Inductive bdev_io_type :=
| IO_READ | IO_WRITE | IO_UNMAP | IO_FLUSH | IO_RESET | IO_WRITE_ZEROES | IO_OTHER (n : Z).

Definition ubi_io_type_supported (t : bdev_io_type) : bool :=
  match t with IO_READ | IO_WRITE | IO_FLUSH => true | _ => false end.

Inductive io_status := IO_STATUS_SUCCESS | IO_STATUS_FAILED.

(** A [spdk_bdev_io], identified by a number, with its type and range. *)
Record bdev_io := mkBdevIo { io_id : nat; io_kind : bdev_io_type; offset_blocks : Z; num_blocks : Z }.

(** What a request leads to: a call on the blob, whose callback completes it, or a
    completion. *)
Inductive io_action :=
| BlobReadv (io : nat) (blob : option nat) (offset length : Z)
| BlobWritev (io : nat) (blob : option nat) (offset length : Z)
| IoComplete (io : nat) (s : io_status).

Definition ubi_submit_request (b : ubi_bdev) (io : bdev_io) : list io_action :=
  match io_kind io with
  | IO_READ => [BlobReadv (io_id io) (blob b) (offset_blocks io) (num_blocks io)]
  | IO_WRITE => [BlobWritev (io_id io) (blob b) (offset_blocks io) (num_blocks io)]
  | IO_FLUSH => [IoComplete (io_id io) IO_STATUS_SUCCESS]
  | _ => [IoComplete (io_id io) IO_STATUS_FAILED]
  end.

Definition ubi_blob_io_complete (io : nat) (bserrno : Z) : list io_action :=
  [IoComplete io (if negb (bserrno =? 0) then IO_STATUS_FAILED else IO_STATUS_SUCCESS)].

(** ** I/O channels ([src/lib/bdev_ubi_io_channel.c]) *)

Inductive channel_action := ChPollerRegister | ChPollerUnregister | ChFreeBsChannel (present : bool).

(** [struct ubi_io_channel]: the device and whether the blobstore channel exists. *)
Record ubi_io_channel := mkUbiCh { uc_ubi_bdev : nat; bs_channel : bool }.

Definition ubi_create_channel_cb (u : nat) st : res (Z * ubi_io_channel * list channel_action) :=
  let* b := get_ubi u st in
  let* _ := deref (blobstore b) in
  let ok := bs_alloc_io_channel_ok st in
  Ret (if ok then 0 else - ENOMEM, mkUbiCh u ok, [ChPollerRegister]).

Definition ubi_destroy_channel_cb (c : ubi_io_channel) : list channel_action :=
  [ChPollerUnregister; ChFreeBsChannel (bs_channel c)].

Definition ubi_io_poll : Z := SPDK_POLLER_IDLE.

(** ** Configuration *)

(** The JSON a device writes for itself: a method and its parameters in order. *)
Definition ubi_write_config_json (b : ubi_bdev) : string * list (string * string) :=
  ("bdev_ubi_create", [("name", name b); ("image_path", image_path b)])%string.

End Ubi.
End Ubi.
