(* ===== verification/UbiSnapshot.v ===== *)
(** * Snapshots of a ubi device: [src/lib/bdev_ubi_snapshot.c]

    A snapshot is a chain of blobstore calls (snapshot, clone, open the clone, make
    it read-only, close it, decouple it from its parent) that ends in a shallow copy
    of the clone to a delta device. The chain shares a [snapshot_context] and reports
    through [snapshot_status] of the device. [deliver] runs the callback of any call
    of the module, and [ubi_step] is one move of the module and SPDK. *)

From S2P Require Import Prelude Posix BsDev DeltaDev UringDev UbiBdev.
#[local] Open Scope Z_scope.

Module Snap.
Import Ubi.

Section Snap.
Context `{UbiEnv}.
Implicit Types st : state.

Definition get_sctx (sc : nat) st : res snapshot_context :=
  match sctxs st !! sc with Some c => Ret c | None => Undef end.
Definition set_sctx (sc : nat) (f : snapshot_context → snapshot_context) st : state :=
  st <| sctxs ::= alter f sc |>.
Definition set_status (u : nat) (f : snapshot_status_t → snapshot_status_t) st : state :=
  set_ubi u (λ b, b <| snapshot_status ::= f |>) st.

Definition cleanup_snapshot_context (sc : nat) st : res state :=
  let* c := get_sctx sc st in
  let st := match shallow_copy_bs_dev c with Some _ => emit (EvDestroyDelta sc) st | None => st end in
  let st := if ch c then emit (EvFreeSnapChannel sc) st else st in
  Ret (emit (EvFreeSnapCtx sc) st <| sctxs ::= delete sc |>).

Definition ubi_shallow_copy_complete_cb (sc : nat) (rc : Z) st : res state :=
  let* c := get_sctx sc st in
  let u := sc_ubi_bdev c in
  let* _ := get_ubi u st in
  let st := if negb (rc =? 0) then set_status u (λ s, s <| result := rc |>) st else st in
  let* st := cleanup_snapshot_context sc st in
  Ret (set_status u (λ s, s <| in_progress := false |>) st).

Definition ubi_shallow_copy_status_cb (copied : Z) (sc : nat) st : res state :=
  let* c := get_sctx sc st in
  let* _ := get_ubi (sc_ubi_bdev c) st in
  Ret (set_status (sc_ubi_bdev c) (λ s, s <| copied_clusters := copied |>) st).

(** The error branch every callback of the chain has. *)
Definition fail_snapshot (sc u : nat) (rc : Z) st : res state :=
  let* _ := get_ubi u st in
  let st := set_status u (λ s, s <| result := rc |>) st in
  cleanup_snapshot_context sc (emit (EvSnapCb sc rc) st).

Definition ubi_start_snapshot (sc : nat) (bserrno : Z) st : res state :=
  let* c := get_sctx sc st in
  let u := sc_ubi_bdev c in
  let* b := get_ubi u st in
  if negb (bserrno =? 0) then fail_snapshot sc u bserrno st
  else
    let* bs := deref (blobstore b) in
    let st := set_status u (λ s, s <| in_progress := true |>
                                   <| total_clusters := bs_total_data_cluster_count bs |>) st in
    let cluster_size := u32 (bs_cluster_size bs) in
    let* p := deref (path c) in
    let* (dev, _) := Delta.bs_dev_delta_create (calloc_ok st) p (bdev_blockcnt b) (bdev_blocklen b)
                      cluster_size Delta.BS_DEV_DELTA_WRITE in
    let st := set_sctx sc (λ c, c <| shallow_copy_bs_dev := dev |>) st in
    let st := emit (EvCall (spdk_bs_blob_shallow_copy (Some bs) (ch c) (clone_blobid c) dev)) st in
    let ret := shallow_copy_ret st in
    let st := if ret =? 0 then await (CallShallowCopy sc) st else st in
    Ret (emit (EvSnapCb sc ret) st).

Definition ubi_decouple_parent_cb (sc : nat) (bserrno : Z) st : res state :=
  let* c := get_sctx sc st in
  if negb (bserrno =? 0) then fail_snapshot sc (sc_ubi_bdev c) bserrno st
  else ubi_start_snapshot sc 0 st.

Definition ubi_close_clone_cb (sc : nat) (bserrno : Z) st : res state :=
  let* c := get_sctx sc st in
  if negb (bserrno =? 0) then fail_snapshot sc (sc_ubi_bdev c) bserrno st
  else
    let* b := get_ubi (sc_ubi_bdev c) st in
    Ret (call_later (CallDecouple sc) (spdk_bs_blob_decouple_parent (blobstore b) (ch c) (clone_blobid c)) st).

Definition ubi_open_clone_cb (sc : nat) (r : reply) st : res state :=
  let* c := get_sctx sc st in
  if negb (bserrno r =? 0) then fail_snapshot sc (sc_ubi_bdev c) (bserrno r) st
  else
    let* _ := get_ubi (sc_ubi_bdev c) st in
    let* blob := deref (handle r) in
    let ret := blob_set_read_only_rc st blob in
    if negb (ret =? 0) then fail_snapshot sc (sc_ubi_bdev c) ret st
    else Ret (call_later (CallCloseClone sc) (spdk_blob_close (Some blob)) st).

Definition ubi_clone_create_cb (sc : nat) (r : reply) st : res state :=
  let* c := get_sctx sc st in
  if negb (bserrno r =? 0) then fail_snapshot sc (sc_ubi_bdev c) (bserrno r) st
  else
    let* b := get_ubi (sc_ubi_bdev c) st in
    Ret (call_later (CallOpenClone sc) (spdk_bs_open_blob (blobstore b) (id r))
           (set_sctx sc (λ c, c <| clone_blobid := id r |>) st)).

Definition ubi_snapshot_create_cb (sc : nat) (r : reply) st : res state :=
  let* c := get_sctx sc st in
  if negb (bserrno r =? 0) then fail_snapshot sc (sc_ubi_bdev c) (bserrno r) st
  else
    let* b := get_ubi (sc_ubi_bdev c) st in
    let* p := deref (path c) in
    if String.eqb p EmptyString then cleanup_snapshot_context sc (emit (EvSnapCb sc 0) st)
    else
      let st := set_sctx sc (λ c, c <| snapshot_blobid := id r |> <| ch := bs_alloc_io_channel_ok st |>) st in
      Ret (call_later (CallClone sc) (spdk_bs_create_clone (blobstore b) (id r)) st).

Definition bdev_ubi_snapshot (bdev_name p : string) st : res state :=
  match bdev_get_by_name st bdev_name with
  | None => Ret (emit (EvSnapReject (- ENOENT)) st)
  | Some u =>
      let* _ := guard_res (calloc_ok st) in
      let* b := get_ubi u st in
      let sc := next st in
      let st := st <| sctxs ::= <[sc := mkSnapCtx u 0 0 false None (if strdup_ok st then Some p else None)]> |> <| next ::= S |> in
      Ret (call_later (CallSnapCreate sc) (spdk_bs_create_snapshot (blobstore b) (blobid b)) st)
  end.

(** ** The module and SPDK *)

(** The callback of a call, run with SPDK's answer. *)
Definition deliver (c : call) (r : reply) st : res state :=
  match c with
  | CallBsInit ctx => ubi_bs_init_complete ctx r st
  | CallIterFirst ctx | CallOpenBlob ctx => ubi_blob_open_complete ctx r st
  | CallCreateBlob ctx => ubi_blob_create_complete ctx r st
  | CallCreateSnapshot ctx => ubi_blob_snapshot_complete ctx r st
  | CallBlobClose u => ubi_destruct_blob_close_cb u (bserrno r) st
  | CallBsUnload u => ubi_destruct_bs_unload_cb u (bserrno r) st
  | CallDevUnregister u => device_unregister_cb u st
  | CallSnapCreate sc => ubi_snapshot_create_cb sc r st
  | CallClone sc => ubi_clone_create_cb sc r st
  | CallOpenClone sc => ubi_open_clone_cb sc r st
  | CallCloseClone sc => ubi_close_clone_cb sc (bserrno r) st
  | CallDecouple sc => ubi_decouple_parent_cb sc (bserrno r) st
  | CallShallowCopy sc => ubi_shallow_copy_complete_cb sc (bserrno r) st
  end.

(** A new creation context, as the callers of [bdev_ubi_create] allocate it. *)
Definition new_ctx st : nat * state :=
  (next st, st <| ctxs ::= <[next st := mkCtx None false false]> |> <| next ::= S |>).

Definition request_create (opts : option spdk_ubi_bdev_opts) st : res state :=
  let '(ctx, st) := new_ctx st in bdev_ubi_create opts ctx st.

Inductive ubi_step : state → res state → Prop :=
| step_create st opts : ubi_step st (request_create opts st)
| step_snapshot st n p : ubi_step st (bdev_ubi_snapshot n p st)
| step_delete st n : ubi_step st (Ret (bdev_ubi_delete n st))
| step_destruct st u : u ∈ g_ubi_bdev_head st → ubi_step st (let* (_, st) := ubi_destruct u st in Ret st)
| step_progress st sc n : CallShallowCopy sc ∈ pending st → ubi_step st (ubi_shallow_copy_status_cb n sc st)
| step_reply st l1 c l2 r :
    pending st = l1 ++ c :: l2 → ubi_step st (deliver c r (st <| pending := l1 ++ l2 |>)).

(** Executions that stay defined. *)
Inductive ubi_run : state → state → Prop :=
| urun_refl st : ubi_run st st
| urun_step st st1 st2 : ubi_step st (Ret st1) → ubi_run st1 st2 → ubi_run st st2.

Definition init_state : state := mkState ∅ ∅ ∅ [] [] 0 [].

End Snap.
End Snap.
