(* ===== verification/UbiProofs.v ===== *)
(** * The ubi device: accounting of requests and callbacks

    Every creation and every snapshot request is, at any time, either held by one
    call SPDK has not answered or answered, and never both: a tally of calls and
    answers that every callback keeps. *)

From S2P Require Import Prelude Posix BsDev DeltaDev UringDev UbiBdev UbiSnapshot.
#[local] Open Scope Z_scope.
Import Ubi Snap.

(** ** Counting *)

Fixpoint countb {A} (p : A → bool) (l : list A) : nat :=
  match l with [] => 0 | x :: l => (if p x then 1 else 0) + countb p l end.

Lemma countb_app {A} (p : A → bool) l1 l2 : countb p (l1 ++ l2) = (countb p l1 + countb p l2)%nat.
Proof. induction l1 as [|x l1 IH]; simpl; [done|]. rewrite IH. lia. Qed.

(** A request: a creation or a snapshot, by the address of its context. *)
Inductive request := ReqCreate (ctx : nat) | ReqSnapshot (sc : nat).

#[export] Instance request_eq_dec : EqDecision request.
Proof. solve_decision. Defined.

Definition address (q : request) : nat := match q with ReqCreate x | ReqSnapshot x => x end.

(** The request whose callback a call still owes. The shallow copy owes none: its
    request has been answered when it starts. *)
Definition owner (c : call) : option request :=
  match c with
  | CallBsInit x | CallIterFirst x | CallCreateBlob x | CallCreateSnapshot x | CallOpenBlob x =>
      Some (ReqCreate x)
  | CallSnapCreate x | CallClone x | CallOpenClone x | CallCloseClone x | CallDecouple x =>
      Some (ReqSnapshot x)
  | _ => None
  end.

(** The request an event answers. *)
Definition answers (e : event) : option request :=
  match e with EvDone x _ _ => Some (ReqCreate x) | EvSnapCb x _ => Some (ReqSnapshot x) | _ => None end.

Definition owed (q : request) (st : state) : nat := countb (λ c, bool_decide (owner c = Some q)) (pending st).
Definition answered (q : request) (st : state) : nat := countb (λ e, bool_decide (answers e = Some q)) (log st).
Definition tally (q : request) (st : state) : nat := (owed q st + answered q st)%nat.

(** One more of request [o] than before. *)
Definition plus_one (o : option request) (q : request) : nat := if bool_decide (o = Some q) then 1 else 0.

(** The answers that go to the request being handled, before it has a context. *)
Definition direct (e : event) : bool :=
  match e with EvSnapReject _ | EvDeleteCb _ => true | _ => false end.

(** The log only grows, and not by a direct answer. *)
Definition extends (st st' : state) : Prop :=
  ∃ evs, log st' = evs ++ log st ∧ Forall (λ e, direct e = false) evs.

#[export] Instance extends_preorder : PreOrder extends.
Proof.
  split; [intros st; by exists []|]. intros st1 st2 st3 (e1 & H1 & F1) (e2 & H2 & F2).
  exists (e2 ++ e1). rewrite H2, H1, app_assoc. by rewrite Forall_app.
Qed.

Definition gains (o : option request) (st st' : state) : Prop :=
  next st' = next st ∧ (∀ q, tally q st' = (tally q st + plus_one o q)%nat) ∧ extends st st'.

Lemma gains_refl st : gains None st st.
Proof. split; [done|]. split; [|reflexivity]. intros q. unfold plus_one. simpl. lia. Qed.

Lemma gains_trans o st1 st2 st3 : gains None st1 st2 → gains o st2 st3 → gains o st1 st3.
Proof.
  intros (Hn1 & H1 & E1) (Hn2 & H2 & E2). split; [congruence|]. split; [|by transitivity st2].
  intros q. rewrite H2, H1. unfold plus_one at 1. simpl. lia.
Qed.

Lemma gains_emit e st : direct e = false → gains (answers e) st (emit e st).
Proof.
  intros He. split; [done|]. split; [|by exists [e]; repeat constructor].
  intros q. unfold tally, owed, answered, plus_one. simpl. lia.
Qed.

Lemma gains_await c st : gains (owner c) st (await c st).
Proof.
  split; [done|]. split; [|by exists []]. intros q. unfold tally, owed, answered, plus_one. simpl. lia.
Qed.

Lemma gains_call c a st : gains (owner c) st (call_later c a st).
Proof. eapply gains_trans; [apply (gains_emit (EvCall a) _ eq_refl)|apply gains_await]. Qed.

Lemma gains_ubi u f st : gains None st (set_ubi u f st).
Proof. exact (gains_refl st). Qed.

Lemma gains_after o st st' st'' : gains o st st' → gains None st' st'' → gains o st st''.
Proof.
  intros (Hn1 & H1 & E1) (Hn2 & H2 & E2). split; [congruence|]. split; [|by transitivity st'].
  intros q. rewrite H2, H1. unfold plus_one at 2. simpl. lia.
Qed.

(** Parts of the state that are not counted. *)
Lemma gains_same st st' : next st' = next st → pending st' = pending st → log st' = log st → gains None st st'.
Proof.
  intros Hn Hp Hl. split; [done|]. split; [|by exists []].
  intros q. unfold tally, owed, answered, plus_one. rewrite Hp, Hl. simpl. lia.
Qed.

(** ** What each callback adds *)

Create HintDb tally.
#[export] Hint Resolve gains_refl gains_ubi : tally.

Section Tally.
Context `{UbiEnv}.
Implicit Types st : state.

Lemma unload_cb_gains u e st st' : ubi_destruct_bs_unload_cb u e st = Ret st' → gains None st st'.
Proof. unfold ubi_destruct_bs_unload_cb. destruct (negb _); intros; inv_res; auto with tally. Qed.

Lemma close_cb_gains u e st st' : ubi_destruct_blob_close_cb u e st = Ret st' → gains None st st'.
Proof.
  unfold ubi_destruct_blob_close_cb. intros Hc. inv_res. destruct (blobstore a); inv_res.
  - apply gains_call.
  - by eapply unload_cb_gains.
Qed.

Lemma close_blob_gains u st st' : close_blob u st = Ret st' → gains None st st'.
Proof.
  unfold close_blob. intros Hc. inv_res. destruct (blob a); inv_res.
  - apply gains_call.
  - by eapply close_cb_gains.
Qed.

Lemma register_gains u st s st' : register_bdev u st = Ret (s, st') → gains None st st'.
Proof.
  unfold register_bdev. intros Hc. inv_res. destruct (negb (bdev_register_rc _ =? 0)).
  - eapply gains_trans; [apply gains_ubi|]. apply (gains_emit (EvReleaseBdev u) _ eq_refl).
  - eapply gains_trans; [|apply (gains_emit (EvBdevRegister u) _ eq_refl)]. by apply gains_same.
Qed.

(** The creation ends: its callback is called once. *)
Lemma finish_create_gains s ctx st st' : ubi_finish_create s ctx st = Ret st' → gains (Some (ReqCreate ctx)) st st'.
Proof.
  unfold ubi_finish_create. intros Hc. apply res_bind_Ret in Hc as (c & _ & Hc).
  apply res_bind_Ret in Hc as ([s1 st1] & Hreg & Hc). apply res_bind_Ret in Hc as (st2 & Hcl & Hc).
  assert (gains None st st1) as G1.
  { destruct (s =? 0); inv_res; [by eapply register_gains|apply gains_refl]. }
  assert (gains None st1 st2) as G2.
  { destruct (cc_ubi_bdev c) as [u|]; [|injection Hcl as <-; apply gains_refl].
    destruct (negb (s1 =? 0)); [|injection Hcl as <-; apply gains_refl].
    destruct (registerd c).
    - eapply gains_trans; [apply (gains_emit (EvIoDeviceUnregister u) _ eq_refl)|]. by eapply close_blob_gains.
    - by eapply close_blob_gains. }
  injection Hc as <-. eapply gains_trans; [exact G1|]. eapply gains_trans; [exact G2|].
  eapply gains_after; [apply (gains_emit (EvDone ctx (cc_ubi_bdev c) s1) _ eq_refl)|].
  eapply gains_trans; [|apply (gains_emit (EvFreeCtx ctx) _ eq_refl)]. by apply gains_same.
Qed.

(** One round of a creation: the request is answered, or held by the next call. *)
Lemma next_call_gains u f c a st : gains (owner c) st (call_later c a (set_ubi u f st)).
Proof. eapply gains_trans; [apply gains_ubi|apply gains_call]. Qed.

Lemma create_cb_gains c r st st' ctx :
  owner c = Some (ReqCreate ctx) → deliver c r st = Ret st' → gains (Some (ReqCreate ctx)) st st'.
Proof.
  destruct c; try done; intros [= ->]; simpl.
  - unfold ubi_bs_init_complete. intros Hc. destruct (negb (_ =? 0)); inv_res; [by eapply finish_create_gains|]. destruct (negb (format_bdev a)); inv_res.
    + apply (next_call_gains _ _ (CallIterFirst ctx)).
    + apply (next_call_gains _ _ (CallCreateBlob ctx)).
  - unfold ubi_blob_open_complete. intros Hc. inv_res. destruct (negb (_ =? 0)); inv_res.
    + by eapply finish_create_gains.
    + eapply gains_trans; [apply gains_ubi|]. by eapply finish_create_gains.
  - unfold ubi_blob_create_complete. intros Hc. destruct (negb (_ =? 0)); inv_res; [by eapply finish_create_gains|]. apply (next_call_gains _ _ (CallCreateSnapshot ctx)).
  - unfold ubi_blob_snapshot_complete. intros Hc. destruct (negb (_ =? 0)); inv_res; [by eapply finish_create_gains|]. apply (gains_call (CallOpenBlob ctx) _).
  - unfold ubi_blob_open_complete. intros Hc. inv_res. destruct (negb (_ =? 0)); inv_res.
    + by eapply finish_create_gains.
    + eapply gains_trans; [apply gains_ubi|]. by eapply finish_create_gains.
Qed.

(** *** Snapshots *)

Lemma cleanup_gains sc st st' : cleanup_snapshot_context sc st = Ret st' → gains None st st'.
Proof.
  unfold cleanup_snapshot_context. intros Hc. inv_res.
  destruct (shallow_copy_bs_dev a); destruct (ch a);
    (eapply gains_trans; [|apply (gains_emit (EvFreeSnapCtx sc) _ eq_refl)]).
  - eapply gains_trans; [apply (gains_emit (EvDestroyDelta sc) _ eq_refl)|].
    eapply gains_trans; [apply (gains_emit (EvFreeSnapChannel sc) _ eq_refl)|]. by apply gains_same.
  - eapply gains_trans; [apply (gains_emit (EvDestroyDelta sc) _ eq_refl)|]. by apply gains_same.
  - eapply gains_trans; [apply (gains_emit (EvFreeSnapChannel sc) _ eq_refl)|]. by apply gains_same.
  - by apply gains_same.
Qed.

Lemma answer_cleanup_gains sc rc st st' :
  cleanup_snapshot_context sc (emit (EvSnapCb sc rc) st) = Ret st' → gains (Some (ReqSnapshot sc)) st st'.
Proof. intros Hc. eapply gains_after; [apply (gains_emit (EvSnapCb sc rc) _ eq_refl)|]. by eapply cleanup_gains. Qed.

Lemma fail_snapshot_gains sc u rc st st' :
  fail_snapshot sc u rc st = Ret st' → gains (Some (ReqSnapshot sc)) st st'.
Proof.
  unfold fail_snapshot. intros Hc. inv_res. eapply gains_trans; [apply gains_ubi|].
  by eapply answer_cleanup_gains.
Qed.

Lemma start_snapshot_gains sc e st st' :
  ubi_start_snapshot sc e st = Ret st' → gains (Some (ReqSnapshot sc)) st st'.
Proof.
  unfold ubi_start_snapshot. intros Hc. apply res_bind_Ret in Hc as (c & _ & Hc).
  apply res_bind_Ret in Hc as (b & _ & Hc). destruct (negb (e =? 0)); [by eapply fail_snapshot_gains|].
  apply res_bind_Ret in Hc as (bs & _ & Hc). apply res_bind_Ret in Hc as (p & _ & Hc).
  set (st1 := set_status _ _ st) in Hc. apply res_bind_Ret in Hc as ([dev acts] & _ & Hc).
  set (st2 := set_sctx _ _ st1) in Hc. injection Hc as <-.
  eapply gains_trans; [apply (gains_same st st2); done|].
  eapply gains_trans; [apply (gains_emit (EvCall (spdk_bs_blob_shallow_copy (Some bs) (ch c) (clone_blobid c) dev)) _ eq_refl)|].
  set (st3 := emit _ st2). destruct (shallow_copy_ret st3 =? 0).
  - eapply gains_trans; [apply (gains_await (CallShallowCopy sc))|apply (gains_emit (EvSnapCb sc _) _ eq_refl)].
  - apply (gains_emit (EvSnapCb sc _) _ eq_refl).
Qed.

Lemma snap_cb_gains c r st st' sc :
  owner c = Some (ReqSnapshot sc) → deliver c r st = Ret st' → gains (Some (ReqSnapshot sc)) st st'.
Proof.
  destruct c; try done; intros [= ->]; simpl.
  - unfold ubi_snapshot_create_cb. intros Hc. inv_res. destruct (negb (_ =? 0)); [by eapply fail_snapshot_gains|].
    inv_res. destruct (String.eqb _ _); [by eapply answer_cleanup_gains|]. inv_res.
    eapply gains_trans; [|apply (gains_call (CallClone sc) _)]. by apply gains_same.
  - unfold ubi_clone_create_cb. intros Hc. inv_res. destruct (negb (_ =? 0)); [by eapply fail_snapshot_gains|].
    inv_res. eapply gains_trans; [|apply (gains_call (CallOpenClone sc) _)]. by apply gains_same.
  - unfold ubi_open_clone_cb. intros Hc. inv_res. destruct (negb (bserrno r =? 0)); [by eapply fail_snapshot_gains|].
    inv_res. destruct (negb (_ =? 0)); [by eapply fail_snapshot_gains|]. inv_res.
    apply (gains_call (CallCloseClone sc) _).
  - unfold ubi_close_clone_cb. intros Hc. inv_res. destruct (negb (_ =? 0)); [by eapply fail_snapshot_gains|].
    inv_res. apply (gains_call (CallDecouple sc) _).
  - unfold ubi_decouple_parent_cb. intros Hc. inv_res.
    destruct (negb (_ =? 0)); [by eapply fail_snapshot_gains|by eapply start_snapshot_gains].
Qed.

Lemma deliver_gains c r st st' : deliver c r st = Ret st' → gains (owner c) st st'.
Proof.
  intros Hd. destruct (owner c) as [[ctx|sc]|] eqn:Ho.
  - by eapply create_cb_gains.
  - by eapply snap_cb_gains.
  - destruct c; try done; simpl in Hd.
    + by eapply close_cb_gains.
    + by eapply unload_cb_gains.
    + unfold device_unregister_cb in Hd. inv_res.
      eapply gains_trans; [|apply (gains_emit (EvFreeUbi u) _ eq_refl)]. by apply gains_same.
    + unfold ubi_shallow_copy_complete_cb in Hd. inv_res. eapply gains_after; [|apply gains_ubi].
      destruct (negb _); [eapply gains_trans; [apply gains_ubi|]|]; by eapply cleanup_gains.
Qed.

(** ** Steps *)

Lemma bdev_ubi_create_gains opts ctx st st' :
  bdev_ubi_create opts ctx st = Ret st' →
  (next st <= next st')%nat ∧ (∀ q, tally q st' = (tally q st + plus_one (Some (ReqCreate ctx)) q)%nat) ∧
  extends st st'.
Proof.
  unfold bdev_ubi_create. intros Hc. apply res_bind_Ret in Hc as (o & _ & Hc).
  destruct (negb (calloc_ok st)).
  { apply finish_create_gains in Hc as (Hn & Ht & He). split; [lia|done]. }
  set (st1 := st <| ubis ::= _ |> <| next ::= S |>) in Hc. apply res_bind_Ret in Hc as (c & _ & Hc).
  assert (∀ st2, gains (Some (ReqCreate ctx)) st1 st2 → (next st <= next st2)%nat ∧
    (∀ q, tally q st2 = (tally q st + plus_one (Some (ReqCreate ctx)) q)%nat) ∧ extends st st2) as Hlift.
  { intros st2 (Hn & Ht & He). split; [rewrite Hn; simpl; lia|]. split; [exact Ht|exact He]. }
  apply Hlift. set (st2 := set_ctx _ _ st1) in Hc.
  eapply gains_trans; [apply (gains_same st1 st2); done|].
  destruct (negb (strdup_ok st2)); [by eapply finish_create_gains|].
  set (st3 := set_ubi _ _ st2) in Hc. eapply gains_trans; [apply (gains_same st2 st3); done|].
  destruct (create_bs_dev st3 _) as [rc|dev]; [by eapply finish_create_gains|]. injection Hc as <-.
  set (u := next st) in *. eapply gains_trans; [|apply (gains_call (CallBsInit ctx) _)].
  eapply gains_trans; [apply (gains_emit (EvIoDeviceRegister u) _ eq_refl)|]. by apply gains_same.
Qed.

(** Requests that do not exist yet have no tally. *)
Definition fresh st : Prop := ∀ q, (next st <= address q)%nat → tally q st = 0%nat.

(** A delivery: the call is taken out of the list, and what it held comes back. *)
Lemma reply_tally st l1 c l2 r st' :
  pending st = l1 ++ c :: l2 → deliver c r (st <| pending := l1 ++ l2 |>) = Ret st' →
  next st' = next st ∧ (∀ q, tally q st' = tally q st) ∧ extends st st'.
Proof.
  intros Hp Hd. destruct (deliver_gains c r _ st' Hd) as (Hn & Ht & He). split; [done|].
  split; [|exact He]. intros q.
  rewrite Ht. unfold tally, owed, answered, plus_one. simpl. rewrite Hp, !countb_app. simpl. lia.
Qed.

Lemma request_create_tally opts st st' :
  fresh st → request_create opts st = Ret st' →
  (next st < next st')%nat ∧ tally (ReqCreate (next st)) st' = 1%nat ∧
  (∀ q, q ≠ ReqCreate (next st) → tally q st' = tally q st) ∧ extends st st'.
Proof.
  intros Hf. unfold request_create, new_ctx. intros Hc. apply bdev_ubi_create_gains in Hc as (Hn & Ht & He).
  simpl in Hn. split; [lia|]. split; [|split; [|exact He]].
  - rewrite Ht. unfold plus_one. rewrite bool_decide_true by done.
    change (tally _ _) with (tally (ReqCreate (next st)) st). rewrite Hf by done. done.
  - intros q Hq. rewrite Ht. unfold plus_one. rewrite bool_decide_false by congruence.
    change (tally q st + 0 = tally q st)%nat. lia.
Qed.

(** A direct answer is not counted. *)
Lemma tally_direct e st q : direct e = true → tally q (emit e st) = tally q st.
Proof. by destruct e. Qed.

Lemma snapshot_tally n p st st' :
  fresh st → bdev_ubi_snapshot n p st = Ret st' →
  bdev_get_by_name st n = None ∧ st' = emit (EvSnapReject (- ENOENT)) st ∨
  bdev_get_by_name st n ≠ None ∧ next st' = S (next st) ∧ tally (ReqSnapshot (next st)) st' = 1%nat ∧
  (∀ q, q ≠ ReqSnapshot (next st) → tally q st' = tally q st) ∧ extends st st'.
Proof.
  intros Hf. unfold bdev_ubi_snapshot. destruct (bdev_get_by_name st n) as [u|].
  2: { intros [= <-]. by left. }
  intros Hc. inv_res. right. set (st1 := st <| sctxs ::= _ |> <| next ::= S |>).
  destruct (gains_call (CallSnapCreate (next st)) (spdk_bs_create_snapshot (blobstore a0) (blobid a0)) st1) as (Hn & Ht & Hext). split; [done|]. split; [done|].
  split; [|split; [|exact Hext]].
  - rewrite Ht. unfold plus_one. rewrite bool_decide_true by done.
    change (tally _ st1) with (tally (ReqSnapshot (next st)) st). rewrite Hf by done. done.
  - intros q Hq. rewrite Ht. unfold plus_one. simpl. rewrite bool_decide_false by congruence.
    change (tally q st + 0 = tally q st)%nat. lia.
Qed.

Lemma destruct_gains u st st' :
  (let* (_, st) := ubi_destruct u st in Ret st) = Ret st' → gains None st st'.
Proof.
  intros Hr. apply res_bind_Ret in Hr as ([rc st1] & Hd & Hr). injection Hr as ->.
  unfold ubi_destruct in Hd. inv_res. apply close_blob_gains in Hm0.
  eapply gains_trans; [exact Hm0|].
  eapply gains_trans; [apply (gains_emit (EvIoDeviceUnregister u) _ eq_refl)|apply (gains_await (CallDevUnregister u))].
Qed.

Lemma step_tally st st' :
  fresh st → ubi_step st (Ret st') →
  fresh st' ∧ (next st <= next st')%nat ∧ ∀ q, (address q < next st)%nat → tally q st' = tally q st.
Proof.
  intros Hf Hs.
  assert ((next st <= next st')%nat ∧ (∀ q, (address q < next st)%nat → tally q st' = tally q st) ∧
          ∀ q, (next st' <= address q)%nat → tally q st' = tally q st) as (Hn & Ht & Ht2).
  { remember (Ret st') as r eqn:Hr. destruct Hs as [st opts|st n p|st n|st u Hu|st sc n Hsc|st l1 c l2 r Hp].
    - destruct (request_create_tally opts st st' Hf Hr) as (Hn & _ & Ht & _).
      split; [lia|]. split; intros q Hq; apply Ht; intros ->; simpl in Hq; lia.
    - destruct (snapshot_tally n p st st' Hf Hr) as [(_ & ->)|(_ & Hn & _ & Ht & _)]; [done|].
      split; [lia|]. split; intros q Hq; apply Ht; intros ->; simpl in Hq; lia.
    - injection Hr as <-. unfold bdev_ubi_delete. by destruct (negb _).
    - apply destruct_gains in Hr as (Hn & Ht & _). split; [lia|].
      split; intros q _; rewrite Ht; unfold plus_one; simpl; lia.
    - unfold ubi_shallow_copy_status_cb in Hr. inv_res. done.
    - destruct (reply_tally st l1 c l2 r st' Hp Hr) as (Hn & Ht & _). split; [lia|]. done. }
  split; [|done]. intros q Hq. rewrite Ht2 by done. apply Hf. lia.
Qed.

Lemma run_tally st st' :
  fresh st → ubi_run st st' →
  fresh st' ∧ (next st <= next st')%nat ∧ ∀ q, (address q < next st)%nat → tally q st' = tally q st.
Proof.
  intros Hf Hr. revert Hf. induction Hr as [st|st s1 s2 Hs _ IH]; intros Hf; [done|].
  destruct (step_tally st s1 Hf Hs) as (Hf1 & Hn1 & Ht1). destruct (IH Hf1) as (Hf2 & Hn2 & Ht2).
  split; [done|]. split; [lia|]. intros q Hq. rewrite Ht2 by lia. by apply Ht1.
Qed.

Lemma init_fresh : fresh init_state.
Proof. by intros q Hq. Qed.

End Tally.
