(* ===== verification/UbiClaims.v ===== *)
(** * The ubi device: what creation and deletion guarantee, and that requests are answered once *)

From S2P Require Import Prelude Posix BsDev DeltaDev UringDev SnapshotChain UbiBdev UbiSnapshot UbiProofs.
#[local] Open Scope Z_scope.
Import Ubi Snap.

(** ** A concrete environment *)

(** The state of a defined computation. *)
Definition defined (m : res state) : bool := match m with Ret _ => true | Undef => false end.
Definition ret_of (m : res state) : state := match m with Ret st => st | Undef => init_state end.

Lemma ret_of_eq m : defined m = true → m = Ret (ret_of m).
Proof. by destruct m. Qed.

Definition demo_ubi_env : UbiEnv := {|
  calloc_ok _ := true; strdup_ok _ := true; create_bs_dev _ _ := inr (mkBsDev 1000 512);
  spdk_u32log2 := Z.log2; blob_get_id h := Z.of_nat h; blob_num_io_units _ := 800; bs_io_unit_size _ := 512;
  bs_cluster_size _ := 1048576; bs_total_data_cluster_count _ := 4; bdev_register_rc _ := 0;
  bdev_get_by_name st _ := head (g_ubi_bdev_head st); unregister_by_name_rc _ _ := 0;
  bs_alloc_io_channel_ok _ := true; blob_set_read_only_rc _ _ := 0; shallow_copy_ret _ := 0 |}.

Definition demo_ubi_opts : spdk_ubi_bdev_opts :=
  mkUbiOpts "ubi0" "/opt/image.raw" None "aio0" false true true.

(** ** Callbacks *)

(** C8. Every creation request is answered exactly once. Whatever else happens at the
    same time (other creations, snapshots, deletions, replies of SPDK in any order), as
    long as no step is undefined: from the request on, either exactly one call SPDK has
    not answered holds the request and its callback has not been called, or no call
    holds it and its callback has been called exactly once. *)
Theorem ubi_create_answered_once `{UbiEnv} opts st st1 st2 :
  ubi_run init_state st → request_create opts st = Ret st1 → ubi_run st1 st2 →
  let q := ReqCreate (next st) in
  (owed q st2 = 1%nat ∧ answered q st2 = 0%nat) ∨ (owed q st2 = 0%nat ∧ answered q st2 = 1%nat).
Proof.
  intros Hst Hreq Hrun q. destruct (run_tally _ _ init_fresh Hst) as (Hf & _).
  destruct (step_tally st st1 Hf) as (Hf1 & _); [rewrite <- Hreq; constructor|].
  destruct (request_create_tally opts st st1 Hf Hreq) as (Hn & Ht & _).
  destruct (run_tally st1 st2 Hf1 Hrun) as (_ & _ & Ht2).
  specialize (Ht2 q Hn). fold q in Ht. unfold tally in *. lia.
Qed.

(** The creation that fails because the blobstore cannot be initialised. *)
Definition demo_requested : state := ret_of (@request_create demo_ubi_env (Some demo_ubi_opts) init_state).

Lemma demo_requested_ok :
  @request_create demo_ubi_env (Some demo_ubi_opts) init_state = Ret demo_requested.
Proof. apply ret_of_eq. vm_compute. reflexivity. Qed.

Definition demo_no_blobstore : state :=
  ret_of (@deliver demo_ubi_env (CallBsInit 0) (mkReply (-22) None 0) (demo_requested <| pending := [] ++ [] |>)).

Lemma demo_no_blobstore_run : @ubi_run demo_ubi_env demo_requested demo_no_blobstore.
Proof.
  eapply urun_step; [|apply urun_refl].
  unfold demo_no_blobstore. rewrite <- ret_of_eq by (vm_compute; reflexivity).
  apply (@step_reply demo_ubi_env demo_requested [] (CallBsInit 0) [] (mkReply (-22) None 0)).
  vm_compute. reflexivity.
Qed.

Lemma ubi_create_answered_once_witness :
  owed (ReqCreate 0) demo_no_blobstore = 0%nat ∧ answered (ReqCreate 0) demo_no_blobstore = 1%nat.
Proof.
  destruct (@ubi_create_answered_once demo_ubi_env (Some demo_ubi_opts) init_state demo_requested
    demo_no_blobstore (@urun_refl demo_ubi_env _) demo_requested_ok demo_no_blobstore_run) as [[Ho _]|Ha].
  - vm_compute in Ho. discriminate Ho.
  - exact Ha.
Defined.

(** C9. Every snapshot request of a known device is answered exactly once, under the
    same conditions; a request for an unknown name is answered with -ENOENT at once. *)
Theorem ubi_snapshot_answered_once `{UbiEnv} n p st st1 st2 :
  ubi_run init_state st → bdev_ubi_snapshot n p st = Ret st1 → ubi_run st1 st2 →
  let q := ReqSnapshot (next st) in
  match bdev_get_by_name st n with
  | None => st1 = emit (EvSnapReject (- ENOENT)) st
  | Some _ => (owed q st2 = 1%nat ∧ answered q st2 = 0%nat) ∨ (owed q st2 = 0%nat ∧ answered q st2 = 1%nat)
  end.
Proof.
  intros Hst Hreq Hrun q. destruct (run_tally _ _ init_fresh Hst) as (Hf & _).
  destruct (step_tally st st1 Hf) as (Hf1 & _); [rewrite <- Hreq; constructor|].
  destruct (snapshot_tally n p st st1 Hf Hreq) as [(-> & ->)|(Hg & Hn & Ht & _)]; [done|].
  destruct (bdev_get_by_name st n) as [u|]; [|done].
  destruct (run_tally st1 st2 Hf1 Hrun) as (_ & _ & Ht2).
  assert (address q < next st1)%nat as Hq by (simpl; lia).
  specialize (Ht2 q Hq). fold q in Ht. unfold tally in *. lia.
Qed.

(** SPDK answers the newest call, again and again. *)
Fixpoint chain `{UbiEnv} (rs : list reply) (st : state) : res state :=
  match rs, pending st with
  | r :: rs, c :: l => let* st := deliver c r (st <| pending := l |>) in chain rs st
  | _, _ => Ret st
  end.

Lemma chain_run `{UbiEnv} rs st st' : chain rs st = Ret st' → ubi_run st st'.
Proof.
  revert st. induction rs as [|r rs IH]; intros st; simpl; [intros [= <-]; constructor|].
  destruct (pending st) as [|c l] eqn:Hp; [intros [= <-]; constructor|].
  intros Hc. apply res_bind_Ret in Hc as (st1 & Hd & Hc). eapply urun_step; [|by apply IH].
  rewrite <- Hd. by apply (step_reply st [] c l r).
Qed.

(** The device of [demo_ubi_opts], created on a formatted base device: blobstore 7, blob 9. *)
Definition demo_replies : list reply :=
  [mkReply 0 (Some 7%nat) 0; mkReply 0 None 5; mkReply 0 None 6; mkReply 0 (Some 9%nat) 0].

Definition demo_created : state := ret_of (@chain demo_ubi_env demo_replies demo_requested).

Lemma demo_created_run : @ubi_run demo_ubi_env init_state demo_created.
Proof.
  eapply urun_step; [rewrite <- demo_requested_ok; apply step_create|].
  apply (@chain_run demo_ubi_env demo_replies). apply ret_of_eq. vm_compute. reflexivity.
Qed.

Definition demo_snap_requested : state := ret_of (@bdev_ubi_snapshot demo_ubi_env "ubi0" "/snap" demo_created).

Lemma demo_snap_requested_ok :
  @bdev_ubi_snapshot demo_ubi_env "ubi0" "/snap" demo_created = Ret demo_snap_requested.
Proof. apply ret_of_eq. vm_compute. reflexivity. Qed.

(** All the calls of the chain succeed, and the shallow copy has started. *)
Definition demo_copying : state :=
  ret_of (@chain demo_ubi_env [mkReply 0 None 11; mkReply 0 None 12; mkReply 0 (Some 13%nat) 0;
                               mkReply 0 None 0; mkReply 0 None 0] demo_snap_requested).

Lemma demo_copying_run : @ubi_run demo_ubi_env demo_snap_requested demo_copying.
Proof.
  apply (@chain_run demo_ubi_env [mkReply 0 None 11; mkReply 0 None 12; mkReply 0 (Some 13%nat) 0;
                               mkReply 0 None 0; mkReply 0 None 0]).
  apply ret_of_eq. vm_compute. reflexivity.
Qed.

Lemma ubi_snapshot_answered_once_witness :
  pending demo_copying = [CallShallowCopy 2] ∧
  ((owed (ReqSnapshot 2) demo_copying = 1%nat ∧ answered (ReqSnapshot 2) demo_copying = 0%nat) ∨
   (owed (ReqSnapshot 2) demo_copying = 0%nat ∧ answered (ReqSnapshot 2) demo_copying = 1%nat)).
Proof.
  split; [vm_compute; reflexivity|].
  exact (@ubi_snapshot_answered_once demo_ubi_env "ubi0" "/snap" demo_created demo_snap_requested demo_copying
    demo_created_run demo_snap_requested_ok demo_copying_run).
Defined.

(** ** Creation *)

Lemma chain_await `{UbiEnv} r rs c st :
  chain (r :: rs) (await c st) = let* st := deliver c r st in chain rs st.
Proof. simpl. by destruct st. Qed.

(** One more answer. *)
Lemma chain_snoc `{UbiEnv} rs r st : chain (rs ++ [r]) st = let* st := chain rs st in chain [r] st.
Proof.
  revert st. induction rs as [|x rs IH]; intros st; [done|]. cbn [app chain].
  destruct (pending st) as [|c l] eqn:Hp; [cbn [res_bind chain]; by rewrite Hp|].
  destruct (deliver c x (st <| pending := l |>)); [|done]. cbn [res_bind]. apply IH.
Qed.

Lemma chain_cons `{UbiEnv} r rs c a st :
  chain (r :: rs) (call_later c a st) = let* st := deliver c r (emit (EvCall a) st) in chain rs st.
Proof. apply chain_await. Qed.

(** The context and device of a creation under way. *)
Record creating (ctx u : nat) (cc : ubi_create_context) (b : ubi_bdev) (st : state) : Prop := {
  cr_ctx : ctxs st !! ctx = Some cc;
  cr_ubi : cc_ubi_bdev cc = Some u;
  cr_dev : ubis st !! u = Some b;
}.

Lemma creating_set ctx u cc b st f : creating ctx u cc b st → creating ctx u cc (f b) (set_ubi u f st).
Proof. intros []. split; try done. simpl. rewrite lookup_alter_eq. by rewrite cr_dev0. Qed.

Lemma creating_emit ctx u cc b st e : creating ctx u cc b st → creating ctx u cc b (emit e st).
Proof. by intros []. Qed.

Section Creation.
Context `{UbiEnv}.

(** The blob a formatted blobstore gets. *)
Definition new_blob_opts (bs : nat) : spdk_blob_opts :=
  mkBlobOpts true (bs_total_data_cluster_count bs) "ubi_uring_esnap_id" 19.

Lemma init_stage ctx u cc b st r bs :
  creating ctx u cc b st → format_bdev cc = true → bserrno r = 0 → handle r = Some bs →
  deliver (CallBsInit ctx) r st
  = Ret (call_later (CallCreateBlob ctx) (spdk_bs_create_blob_ext (Some bs) (new_blob_opts bs))
      (set_ubi u (λ b, b <| blobstore := Some bs |>) st)).
Proof.
  intros [Hc Hu Hb] Hf He Hh. simpl. unfold ubi_bs_init_complete, get_ctx, get_ubi.
  rewrite He, Hc. simpl. rewrite Hu. simpl. rewrite Hb. simpl. by rewrite Hf, Hh.
Qed.

Lemma load_stage ctx u cc b st r :
  creating ctx u cc b st → format_bdev cc = false → bserrno r = 0 →
  deliver (CallBsInit ctx) r st
  = Ret (call_later (CallIterFirst ctx) (spdk_bs_iter_first (handle r))
      (set_ubi u (λ b, b <| blobstore := handle r |>) st)).
Proof.
  intros [Hc Hu Hb] Hf He. simpl. unfold ubi_bs_init_complete, get_ctx, get_ubi.
  rewrite He, Hc. simpl. rewrite Hu. simpl. rewrite Hb. simpl. by rewrite Hf.
Qed.

Lemma create_blob_stage ctx u cc b st r :
  creating ctx u cc b st → bserrno r = 0 →
  deliver (CallCreateBlob ctx) r st
  = Ret (call_later (CallCreateSnapshot ctx) (spdk_bs_create_snapshot (blobstore b) (id r))
      (set_ubi u (λ b, b <| blobid := id r |>) st)).
Proof.
  intros [Hc Hu Hb] He. simpl. unfold ubi_blob_create_complete, get_ctx, get_ubi.
  rewrite He, Hc. simpl. rewrite Hu. simpl. by rewrite Hb.
Qed.

Lemma snapshot_stage ctx u cc b st r :
  creating ctx u cc b st → bserrno r = 0 →
  deliver (CallCreateSnapshot ctx) r st =
  Ret (call_later (CallOpenBlob ctx) (spdk_bs_open_blob (blobstore b) (blobid b)) st).
Proof.
  intros [Hc Hu Hb] He. simpl. unfold ubi_blob_snapshot_complete, get_ctx, get_ubi.
  rewrite He, Hc. simpl. rewrite Hu. simpl. by rewrite Hb.
Qed.

Lemma open_stage c ctx u cc b st r bl :
  c = CallIterFirst ctx ∨ c = CallOpenBlob ctx →
  creating ctx u cc b st → bserrno r = 0 → handle r = Some bl →
  deliver c r st
  = ubi_finish_create 0 ctx (set_ubi u (λ b, b <| blob := Some bl |> <| blobid := blob_get_id bl |>) st).
Proof.
  intros Hca [Hc Hu Hb] He Hh. assert (deliver c r st = ubi_blob_open_complete ctx r st) as -> by (by destruct Hca as [-> | ->]).
  unfold ubi_blob_open_complete, get_ctx, get_ubi.
  rewrite Hh. simpl. rewrite He, Hc. simpl. rewrite Hu. simpl. by rewrite Hb.
Qed.

(** The final geometry of a device. *)
Definition final_geometry (bs bl : nat) (b : ubi_bdev) : ubi_bdev :=
  b <| bdev_blockcnt := blob_num_io_units bl |> <| bdev_blocklen := u32 (bs_io_unit_size bs) |>
    <| optimal_io_boundary := (4 * 1024) `div` u32 (bs_io_unit_size bs) |> <| split_on_optimal_io_boundary := true |>.

Lemma finish_stage ctx u cc b st bs bl :
  creating ctx u cc b st → blobstore b = Some bs → blob b = Some bl → u32 (bs_io_unit_size bs) ≠ 0 →
  (∀ s, bdev_register_rc s = 0) →
  ubi_finish_create 0 ctx st =
  Ret (emit (EvFreeCtx ctx) ((emit (EvDone ctx (Some u) 0) (emit (EvBdevRegister u)
        ((set_ubi u (final_geometry bs bl) st) <| g_ubi_bdev_head ::= λ l, l ++ [u] |>)))
        <| ctxs ::= delete ctx |>)).
Proof.
  intros [Hc Hu Hb] Hbs Hbl Hio Hreg. unfold ubi_finish_create, register_bdev, get_ctx, get_ubi.
  rewrite Hc. simpl. rewrite Hu. simpl. rewrite Hb. simpl. rewrite Hbl, Hbs. simpl.
  destruct (Z.eqb_spec (u32 (bs_io_unit_size bs)) 0); [done|]. simpl. rewrite Hreg. done.
Qed.

(** A device has what its options say (direct I/O is never passed on). *)
Definition configured (o : spdk_ubi_bdev_opts) (b : ubi_bdev) : Prop :=
  name b = o_name o ∧ image_path b = copy_path (o_image_path o) ∧
  snapshot_path b = match o_snapshot_path o with Some p => copy_path p | None => EmptyString end ∧
  no_sync b = o_no_sync o ∧ directio b = false.

(** The request up to its first call. *)
Lemma request_stage o st dev :
  (∀ s, calloc_ok s = true) → (∀ s, strdup_ok s = true) →
  (∀ s, create_bs_dev s (o_base_bdev_name o) = inr dev) →
  let ctx := next st in let u := S ctx in
  ∃ st0 b cc,
    request_create (Some o) st =
      Ret (call_later (CallBsInit ctx)
             (if o_format_bdev o then spdk_bs_init (Some dev) (mkBsOpts true u 20000)
              else spdk_bs_load (Some dev) (mkBsOpts true u 20000)) st0) ∧
    creating ctx u cc b st0 ∧ format_bdev cc = o_format_bdev o ∧ registerd cc = true ∧
    pending st0 = pending st ∧ log st0 = EvIoDeviceRegister u :: log st ∧
    g_ubi_bdev_head st0 = g_ubi_bdev_head st ∧ delete ctx (ctxs st0) = delete ctx (ctxs st) ∧
    configured o b ∧ blobstore b = None ∧ blob b = None.
Proof.
  intros Hca Hsd Hbs ctx u. unfold request_create, new_ctx, bdev_ubi_create. simpl. rewrite Hca. simpl.
  unfold get_ctx. simpl. rewrite lookup_insert_eq. simpl. rewrite Hsd. simpl. rewrite Hbs.
  do 3 eexists. split; [reflexivity|]. simpl. split.
  { split; simpl.
    - rewrite !lookup_alter_eq, lookup_insert_eq. reflexivity.
    - reflexivity.
    - rewrite !lookup_alter_eq, lookup_insert_eq. reflexivity. }
  simpl. do 5 (split; [reflexivity|]). split; [|done].
  by rewrite !delete_alter_eq, delete_insert_eq.
Qed.

End Creation.

(** A device that is registered: on a blobstore and a blob, with the blob's geometry. *)
Definition registered (bs bl : nat) (b : ubi_bdev) `{UbiEnv} : Prop :=
  blobstore b = Some bs ∧ blob b = Some bl ∧ blobid b = blob_get_id bl ∧
  bdev_blocklen b = u32 (bs_io_unit_size bs) ∧ bdev_blockcnt b = blob_num_io_units bl.

(** C5. A creation that formats its base device, all of whose calls succeed, registers
    the device: it is appended to the module's list with the name, paths and sync mode
    of the options, the blobstore and blob SPDK returned, and the geometry of the blob;
    the callback is told 0; the context is freed and no call is left. On the way it
    initialises the base device's blobstore (with the device as context of the external
    snapshots), creates a thin-provisioned blob of all its clusters over the image,
    snapshots that blob and opens it. *)
Theorem ubi_create_format_ok `{UbiEnv} o st r1 r2 r3 r4 bs bl dev :
  (∀ s, calloc_ok s = true) → (∀ s, strdup_ok s = true) →
  (∀ s, create_bs_dev s (o_base_bdev_name o) = inr dev) → (∀ s, bdev_register_rc s = 0) →
  u32 (bs_io_unit_size bs) ≠ 0 → o_format_bdev o = true →
  bserrno r1 = 0 → handle r1 = Some bs → bserrno r2 = 0 → bserrno r3 = 0 → bserrno r4 = 0 →
  handle r4 = Some bl →
  let ctx := next st in let u := S ctx in
  ∃ st1 st2 b, request_create (Some o) st = Ret st1 ∧ chain [r1; r2; r3; r4] st1 = Ret st2 ∧
    pending st2 = pending st ∧ g_ubi_bdev_head st2 = g_ubi_bdev_head st ++ [u] ∧
    ctxs st2 = delete ctx (ctxs st) ∧ ubis st2 !! u = Some b ∧ configured o b ∧ registered bs bl b ∧
    log st2 =
      [EvFreeCtx ctx; EvDone ctx (Some u) 0; EvBdevRegister u;
       EvCall (spdk_bs_open_blob (Some bs) (id r2));
       EvCall (spdk_bs_create_snapshot (Some bs) (id r2));
       EvCall (spdk_bs_create_blob_ext (Some bs)
                 (mkBlobOpts true (bs_total_data_cluster_count bs) "ubi_uring_esnap_id" 19));
       EvCall (spdk_bs_init (Some dev) (mkBsOpts true u 20000));
       EvIoDeviceRegister u] ++ log st.
Proof.
  intros Hca Hsd Hbs Hreg Hio Hfmt He1 Hh1 He2 He3 He4 Hh4 ctx u.
  destruct (request_stage o st dev Hca Hsd Hbs) as
    (st0 & b & cc & Hreq & Hcr & Hf & _ & Hpe & Hlog & Hhd & Hctx & Hcf & _).
  fold ctx u in Hreq, Hcr, Hlog, Hctx. rewrite Hfmt in Hf, Hreq.
  eexists. rewrite Hreq. apply (creating_emit _ _ _ _ _ (EvCall (spdk_bs_init (Some dev) (mkBsOpts true u 20000)))) in Hcr.
  rewrite chain_cons, (init_stage _ _ _ _ _ _ _ Hcr Hf He1 Hh1).
  apply (creating_set _ _ _ _ _ (λ b, b <| blobstore := Some bs |>)) in Hcr.
  apply (creating_emit _ _ _ _ _ (EvCall (spdk_bs_create_blob_ext (Some bs) (new_blob_opts bs)))) in Hcr.
  cbn [res_bind]. rewrite chain_cons, (create_blob_stage _ _ _ _ _ _ Hcr He2).
  apply (creating_set _ _ _ _ _ (λ b, b <| blobid := id r2 |>)) in Hcr.
  apply (creating_emit _ _ _ _ _ (EvCall (spdk_bs_create_snapshot (Some bs) (id r2)))) in Hcr.
  cbn [res_bind]. rewrite chain_cons, (snapshot_stage _ _ _ _ _ _ Hcr He3).
  apply (creating_emit _ _ _ _ _ (EvCall (spdk_bs_open_blob (Some bs) (id r2)))) in Hcr.
  cbn [res_bind]. rewrite chain_cons, (open_stage _ _ _ _ _ _ _ _ (or_intror eq_refl) Hcr He4 Hh4).
  apply (creating_set _ _ _ _ _ (λ b, b <| blob := Some bl |> <| blobid := blob_get_id bl |>)) in Hcr.
  rewrite (finish_stage _ _ _ _ _ bs bl Hcr eq_refl eq_refl Hio Hreg). cbn [res_bind chain].
  do 2 eexists. split; [reflexivity|]. split; [reflexivity|]. simpl.
  split; [done|]. split; [by rewrite Hhd|]. split; [done|].
  destruct Hcr as [_ _ Hb]. split; [rewrite lookup_alter_eq; simpl in Hb; by rewrite Hb|].
  split; [exact Hcf|]. split; [done|]. by rewrite Hlog.
Qed.

Lemma ubi_create_format_ok_witness :
  ∃ st1 st2 b, @request_create demo_ubi_env (Some demo_ubi_opts) init_state = Ret st1 ∧
    @chain demo_ubi_env demo_replies st1 = Ret st2 ∧ g_ubi_bdev_head st2 = [1%nat] ∧
    ubis st2 !! 1%nat = Some b ∧ configured demo_ubi_opts b ∧
    EvCall (spdk_bs_open_blob (Some 7%nat) 5) ∈ log st2.
Proof.
  destruct (@ubi_create_format_ok demo_ubi_env demo_ubi_opts init_state (mkReply 0 (Some 7%nat) 0)
    (mkReply 0 None 5) (mkReply 0 None 6) (mkReply 0 (Some 9%nat) 0) 7%nat 9%nat (mkBsDev 1000 512))
    as (st1 & st2 & b & Hr & Hc & _ & Hh & _ & Hu & Hcf & _ & Hl);
    try (intros; reflexivity).
  - discriminate.
  - exists st1, st2, b. rewrite Hl.
    refine (conj Hr (conj Hc (conj Hh (conj Hu (conj Hcf _))))). right. right. right. left.
Defined.

(** C14. A creation on a base device that is already formatted, all of whose calls
    succeed, loads the blobstore instead, takes its first blob, whatever it is, and
    registers the device on it; nothing is created. *)
Theorem ubi_create_load_ok `{UbiEnv} o st r1 r2 bs bl dev :
  (∀ s, calloc_ok s = true) → (∀ s, strdup_ok s = true) →
  (∀ s, create_bs_dev s (o_base_bdev_name o) = inr dev) → (∀ s, bdev_register_rc s = 0) →
  u32 (bs_io_unit_size bs) ≠ 0 → o_format_bdev o = false →
  bserrno r1 = 0 → handle r1 = Some bs → bserrno r2 = 0 → handle r2 = Some bl →
  let ctx := next st in let u := S ctx in
  ∃ st1 st2 b, request_create (Some o) st = Ret st1 ∧ chain [r1; r2] st1 = Ret st2 ∧
    pending st2 = pending st ∧ g_ubi_bdev_head st2 = g_ubi_bdev_head st ++ [u] ∧
    ctxs st2 = delete ctx (ctxs st) ∧ ubis st2 !! u = Some b ∧ configured o b ∧ registered bs bl b ∧
    log st2 =
      [EvFreeCtx ctx; EvDone ctx (Some u) 0; EvBdevRegister u;
       EvCall (spdk_bs_iter_first (Some bs)); EvCall (spdk_bs_load (Some dev) (mkBsOpts true u 20000));
       EvIoDeviceRegister u] ++ log st.
Proof.
  intros Hca Hsd Hbs Hreg Hio Hfmt He1 Hh1 He2 Hh2 ctx u.
  destruct (request_stage o st dev Hca Hsd Hbs) as
    (st0 & b & cc & Hreq & Hcr & Hf & _ & Hpe & Hlog & Hhd & Hctx & Hcf & _).
  fold ctx u in Hreq, Hcr, Hlog, Hctx. rewrite Hfmt in Hf, Hreq.
  eexists. rewrite Hreq. apply (creating_emit _ _ _ _ _ (EvCall (spdk_bs_load (Some dev) (mkBsOpts true u 20000)))) in Hcr.
  rewrite chain_cons, (load_stage _ _ _ _ _ _ Hcr Hf He1), Hh1.
  apply (creating_set _ _ _ _ _ (λ b, b <| blobstore := Some bs |>)) in Hcr.
  apply (creating_emit _ _ _ _ _ (EvCall (spdk_bs_iter_first (Some bs)))) in Hcr.
  cbn [res_bind]. rewrite chain_cons, (open_stage _ _ _ _ _ _ _ _ (or_introl eq_refl) Hcr He2 Hh2).
  apply (creating_set _ _ _ _ _ (λ b, b <| blob := Some bl |> <| blobid := blob_get_id bl |>)) in Hcr.
  rewrite (finish_stage _ _ _ _ _ bs bl Hcr eq_refl eq_refl Hio Hreg). cbn [res_bind chain].
  do 2 eexists. split; [reflexivity|]. split; [reflexivity|]. simpl.
  split; [done|]. split; [by rewrite Hhd|]. split; [done|].
  destruct Hcr as [_ _ Hb]. split; [rewrite lookup_alter_eq; simpl in Hb; by rewrite Hb|].
  split; [exact Hcf|]. split; [done|]. by rewrite Hlog.
Qed.

(** The device of [demo_ubi_opts], with a snapshot file, on a base device that is not formatted again. *)
Definition demo_load_opts : spdk_ubi_bdev_opts :=
  mkUbiOpts "ubi0" "/opt/image.raw" (Some "/snap"%string) "aio0" false true false.

Lemma ubi_create_load_ok_witness :
  ∃ st1 st2 b, @request_create demo_ubi_env (Some demo_load_opts) init_state = Ret st1 ∧
    @chain demo_ubi_env [mkReply 0 (Some 7%nat) 0; mkReply 0 (Some 9%nat) 0] st1 = Ret st2 ∧
    ubis st2 !! 1%nat = Some b ∧ snapshot_path b = "/snap"%string ∧ @registered 7 9 b demo_ubi_env.
Proof.
  destruct (@ubi_create_load_ok demo_ubi_env demo_load_opts init_state (mkReply 0 (Some 7%nat) 0)
    (mkReply 0 (Some 9%nat) 0) 7%nat 9%nat (mkBsDev 1000 512))
    as (st1 & st2 & b & Hr & Hc & _ & _ & _ & Hu & (_ & _ & Hsp & _) & Hrg & _); try (intros; reflexivity).
  - discriminate.
  - exists st1, st2, b. exact (conj Hr (conj Hc (conj Hu (conj Hsp Hrg)))).
Defined.

(** C15. A creation whose blobstore, blob or snapshot call fails ends at once: the
    callback is told the error of that call, the context is freed, the device is not
    registered and not in the module's list, its I/O device is unregistered if it had
    been registered, and its blobstore is unloaded if there is one. *)
Theorem ubi_create_error `{UbiEnv} c r st ctx u cc b :
  c ∈ [CallBsInit ctx; CallCreateBlob ctx; CallCreateSnapshot ctx] → bserrno r ≠ 0 →
  creating ctx u cc b st → blob b = None →
  ∃ st', deliver c r st = Ret st' ∧ ctxs st' = delete ctx (ctxs st) ∧
    g_ubi_bdev_head st' = g_ubi_bdev_head st ∧ ubis st' = ubis st ∧
    pending st' = match blobstore b with Some _ => [CallBsUnload u] | None => [] end ++ pending st ∧
    log st' = EvFreeCtx ctx :: EvDone ctx (Some u) (bserrno r) ::
              match blobstore b with Some bs => [EvCall (spdk_bs_unload (Some bs))] | None => [] end ++
              (if registerd cc then [EvIoDeviceUnregister u] else []) ++ log st.
Proof.
  intros Hc He [Hx Hu Hb] Hbl.
  assert (deliver c r st = ubi_finish_create (bserrno r) ctx st) as ->.
  { destruct (Z.eqb_spec (bserrno r) 0) as [|_]; [done|]. revert Hc. rewrite !elem_of_cons.
    intros [->|[->|[->|Hn]]]; [| | |by apply elem_of_nil in Hn]; simpl;
      unfold ubi_bs_init_complete, ubi_blob_create_complete, ubi_blob_snapshot_complete;
      destruct (Z.eqb_spec (bserrno r) 0); try done; simpl;
      unfold named_device, get_ctx, get_ubi; rewrite Hx; simpl; rewrite Hu; simpl; by rewrite Hb. }
  unfold ubi_finish_create, get_ctx. rewrite Hx. simpl.
  destruct (Z.eqb_spec (bserrno r) 0); [done|]. simpl. rewrite Hu.
  destruct (Z.eqb_spec (bserrno r) 0); [done|]. simpl.
  unfold close_blob, get_ubi. destruct (registerd cc); simpl; rewrite Hb; simpl; rewrite Hbl;
    unfold ubi_destruct_blob_close_cb, get_ubi; simpl; rewrite Hb; simpl;
    destruct (blobstore b); simpl; eexists; (split; [reflexivity|]); done.
Qed.

(** The first call of the creation above fails. *)
Lemma demo_creating : ∃ cc b, creating 0 1 cc b demo_requested ∧ blob b = None ∧ registerd cc = true.
Proof. do 2 eexists. split; [by split|done]. Qed.

Lemma ubi_create_error_witness :
  ∃ st', @deliver demo_ubi_env (CallBsInit 0) (mkReply (-22) None 0) demo_requested = Ret st' ∧
         EvDone 0 (Some 1%nat) (-22) ∈ log st' ∧ g_ubi_bdev_head st' = [].
Proof.
  destruct demo_creating as (cc & b & Hcr & Hbl & _).
  destruct (@ubi_create_error demo_ubi_env (CallBsInit 0) (mkReply (-22) None 0) demo_requested 0 1 cc b)
    as (st' & Hd & _ & Hh & _ & _ & Hl); [left|discriminate|exact Hcr|exact Hbl|].
  exists st'. split; [exact Hd|]. rewrite Hl, Hh. split; [right; left|reflexivity].
Defined.

(** C19. A creation whose blob cannot be opened crashes instead of reporting it: SPDK
    passes no blob on failure, and [ubi_blob_open_complete] asks that blob for its
    identifier (in a log message) before it looks at the error. So a request to load a
    base device whose blobstore has no blob, or to format one on which the new blob does
    not open, is undefined. *)
Theorem ubi_blob_open_failure_crashes `{UbiEnv} o st r1 r2 r3 e i bs dev :
  (∀ s, calloc_ok s = true) → (∀ s, strdup_ok s = true) →
  (∀ s, create_bs_dev s (o_base_bdev_name o) = inr dev) →
  bserrno r1 = 0 → handle r1 = Some bs → bserrno r2 = 0 → bserrno r3 = 0 →
  let failed := mkReply e None i in
  (let* st1 := request_create (Some o) st in
   chain (if o_format_bdev o then [r1; r2; r3; failed] else [r1; failed]) st1) = Undef.
Proof.
  intros Hca Hsd Hbs He1 Hh1 He2 He3 failed.
  destruct (request_stage o st dev Hca Hsd Hbs) as (st0 & b & cc & Hreq & Hcr & Hf & _).
  rewrite Hreq. cbn [res_bind]. apply (creating_emit _ _ _ _ _ (EvCall (if o_format_bdev o
    then spdk_bs_init (Some dev) (mkBsOpts true (S (next st)) 20000)
    else spdk_bs_load (Some dev) (mkBsOpts true (S (next st)) 20000)))) in Hcr.
  destruct (o_format_bdev o).
  - rewrite chain_cons, (init_stage _ _ _ _ _ _ _ Hcr Hf He1 Hh1). apply (creating_set _ _ _ _ _ (λ b, b <| blobstore := Some bs |>)) in Hcr.
    apply (creating_emit _ _ _ _ _ (EvCall (spdk_bs_create_blob_ext (Some bs) (new_blob_opts bs)))) in Hcr.
    cbn [res_bind]. rewrite chain_cons, (create_blob_stage _ _ _ _ _ _ Hcr He2).
    apply (creating_set _ _ _ _ _ (λ b, b <| blobid := id r2 |>)) in Hcr.
    apply (creating_emit _ _ _ _ _ (EvCall (spdk_bs_create_snapshot (Some bs) (id r2)))) in Hcr.
    cbn [res_bind]. rewrite chain_cons, (snapshot_stage _ _ _ _ _ _ Hcr He3).
    cbn [res_bind]. by rewrite chain_cons.
  - rewrite chain_cons, (load_stage _ _ _ _ _ _ Hcr Hf He1). cbn [res_bind]. by rewrite chain_cons.
Qed.

Lemma ubi_blob_open_failure_crashes_witness :
  (let* st1 := @request_create demo_ubi_env
                 (Some (mkUbiOpts "ubi0" "/opt/image.raw" None "aio0" false true false)) init_state in
   @chain demo_ubi_env [mkReply 0 (Some 7%nat) 0; mkReply (- ENOENT) None 0] st1) = Undef.
Proof.
  apply (@ubi_blob_open_failure_crashes demo_ubi_env
    (mkUbiOpts "ubi0" "/opt/image.raw" None "aio0" false true false) init_state (mkReply 0 (Some 7%nat) 0)
    (mkReply 0 None 0) (mkReply 0 None 0) (- ENOENT) 0 7%nat (mkBsDev 1000 512)); reflexivity.
Defined.

(** ** Deletion *)

(** C16. Deleting a device closes its blob, unloads its blobstore and frees it once, if
    SPDK answers in that order: the device leaves the list at once, and after the
    replies it is gone from the heap and no call on it is left. *)
Theorem ubi_destruct_in_order `{UbiEnv} u b bl bs st :
  ubis st !! u = Some b → blob b = Some bl → blobstore b = Some bs →
  ∃ st1 st2, ubi_destruct u st = Ret (0, st1) ∧
    (u ∉ g_ubi_bdev_head st1) ∧ pending st1 = CallDevUnregister u :: CallBlobClose u :: pending st ∧
    (let* st := deliver (CallBlobClose u) (mkReply 0 None 0) (st1 <| pending := CallDevUnregister u :: pending st |>) in
     let* st := deliver (CallBsUnload u) (mkReply 0 None 0) (st <| pending ::= tail |>) in
     deliver (CallDevUnregister u) (mkReply 0 None 0) (st <| pending ::= tail |>)) = Ret st2 ∧
    ubis st2 = delete u (ubis st) ∧ pending st2 = pending st ∧
    log st2 = [EvFreeUbi u; EvCall (spdk_bs_unload (Some bs)); EvIoDeviceUnregister u;
               EvCall (spdk_blob_close (Some bl))] ++ log st.
Proof.
  intros Hb Hbl Hbs. unfold ubi_destruct, close_blob, get_ubi. rewrite Hb. simpl. rewrite Hb. simpl.
  rewrite Hbl. simpl. do 2 eexists. split; [reflexivity|]. simpl. split.
  { rewrite list_elem_of_filter. by intros [? _]. }
  split; [done|]. unfold ubi_destruct_blob_close_cb, get_ubi. simpl. rewrite Hb. simpl. rewrite Hbs. simpl.
  unfold device_unregister_cb, get_ubi. simpl. rewrite Hb. simpl. split; [reflexivity|]. done.
Qed.

(** C18. Deleting a device can use it after it was freed. Closing the blob and
    unregistering the I/O device are started together; if SPDK reports the second first,
    the device is freed, and the callback of the first reads it. *)
Theorem ubi_destruct_use_after_free `{UbiEnv} u b bl st r :
  ubis st !! u = Some b → blob b = Some bl →
  ∃ st1 st2, ubi_destruct u st = Ret (0, st1) ∧ pending st1 = CallDevUnregister u :: CallBlobClose u :: pending st ∧
    deliver (CallDevUnregister u) r (st1 <| pending := CallBlobClose u :: pending st |>) = Ret st2 ∧
    pending st2 = CallBlobClose u :: pending st ∧
    deliver (CallBlobClose u) r (st2 <| pending := pending st |>) = Undef.
Proof.
  intros Hb Hbl. unfold ubi_destruct, close_blob, get_ubi. rewrite Hb. simpl. rewrite Hb. simpl.
  rewrite Hbl. simpl. do 2 eexists. split; [reflexivity|]. simpl. split; [done|].
  unfold device_unregister_cb, get_ubi. simpl. rewrite Hb. simpl. split; [reflexivity|].
  simpl. split; [done|]. unfold ubi_destruct_blob_close_cb, get_ubi. simpl. by rewrite lookup_delete_eq.
Qed.

Lemma demo_device : ∃ b, ubis demo_created !! 1%nat = Some b ∧ blob b = Some 9%nat ∧ blobstore b = Some 7%nat.
Proof. eexists. split; [reflexivity|]. split; reflexivity. Qed.

Lemma ubi_destruct_in_order_witness :
  ∃ st1 st2, @ubi_destruct 1 demo_created = Ret (0, st1) ∧ (1%nat ∉ g_ubi_bdev_head st1) ∧ ubis st2 = ∅.
Proof.
  destruct demo_device as (b & Hb & Hbl & Hbs).
  destruct (@ubi_destruct_in_order demo_ubi_env 1 b 9 7 demo_created Hb Hbl Hbs)
    as (st1 & st2 & Hd & Hh & _ & _ & Hu & _).
  exists st1, st2. split; [exact Hd|]. split; [exact Hh|]. rewrite Hu. vm_compute. reflexivity.
Defined.

Lemma ubi_destruct_use_after_free_witness :
  ∃ st2, @deliver demo_ubi_env (CallBlobClose 1) (mkReply 0 None 0) st2 = Undef.
Proof.
  destruct demo_device as (b & Hb & Hbl & _).
  destruct (@ubi_destruct_use_after_free demo_ubi_env 1 b 9 demo_created (mkReply 0 None 0) Hb Hbl)
    as (st1 & st2 & _ & _ & _ & _ & Hu).
  by eexists.
Defined.
