(* ===== verification/UbiSnapClaims.v ===== *)
(** * Snapshots of a ubi device: what they guarantee and where they go wrong *)

From S2P Require Import Prelude Posix BsDev DeltaDev UringDev SnapshotChain UbiBdev UbiSnapshot UbiProofs UbiClaims.
#[local] Open Scope Z_scope.
Import Ubi Snap.

(** ** Snapshots *)

(** The context and device of a snapshot under way. *)
Record snapping (sc u : nat) (c : snapshot_context) (b : ubi_bdev) (st : state) : Prop := {
  sn_ctx : sctxs st !! sc = Some c;
  sn_ubi : sc_ubi_bdev c = u;
  sn_dev : ubis st !! u = Some b;
}.

Lemma snapping_set_ctx sc u c b st f :
  sc_ubi_bdev (f c) = sc_ubi_bdev c → snapping sc u c b st → snapping sc u (f c) b (set_sctx sc f st).
Proof. intros Hf []. split; try done; [|congruence]. simpl. by rewrite lookup_alter_eq, sn_ctx0. Qed.

Lemma snapping_emit sc u c b st e : snapping sc u c b st → snapping sc u c b (emit e st).
Proof. by intros []. Qed.

Section Snapshots.
Context `{UbiEnv}.

Lemma snap_create_stage sc u c b st r p :
  snapping sc u c b st → path c = Some p → p ≠ EmptyString → bserrno r = 0 →
  deliver (CallSnapCreate sc) r st =
  Ret (call_later (CallClone sc) (spdk_bs_create_clone (blobstore b) (id r))
         (set_sctx sc (λ c, c <| snapshot_blobid := id r |>
                                               <| ch := bs_alloc_io_channel_ok st |>) st)).
Proof.
  intros [Hc <- Hb] Hp Hne He. simpl. unfold ubi_snapshot_create_cb, get_sctx, get_ubi.
  rewrite Hc. simpl. rewrite He. simpl. rewrite Hb. simpl. rewrite Hp. simpl.
  destruct (String.eqb_spec p EmptyString); done.
Qed.

Lemma clone_stage sc u c b st r :
  snapping sc u c b st → bserrno r = 0 →
  deliver (CallClone sc) r st =
  Ret (call_later (CallOpenClone sc) (spdk_bs_open_blob (blobstore b) (id r))
         (set_sctx sc (λ c, c <| clone_blobid := id r |>) st)).
Proof.
  intros [Hc <- Hb] He. simpl. unfold ubi_clone_create_cb, get_sctx, get_ubi.
  rewrite Hc. simpl. rewrite He. simpl. by rewrite Hb.
Qed.

Lemma open_clone_stage sc u c b st r h :
  snapping sc u c b st → bserrno r = 0 → handle r = Some h → blob_set_read_only_rc st h = 0 →
  deliver (CallOpenClone sc) r st =
  Ret (call_later (CallCloseClone sc) (spdk_blob_close (Some h)) st).
Proof.
  intros [Hc <- Hb] He Hh Hro. simpl. unfold ubi_open_clone_cb, get_sctx, get_ubi.
  rewrite Hc. simpl. rewrite He. simpl. rewrite Hb. simpl. rewrite Hh. simpl. by rewrite Hro.
Qed.

Lemma close_clone_stage sc u c b st r :
  snapping sc u c b st → bserrno r = 0 →
  deliver (CallCloseClone sc) r st =
  Ret (call_later (CallDecouple sc) (spdk_bs_blob_decouple_parent (blobstore b) (ch c) (clone_blobid c)) st).
Proof.
  intros [Hc <- Hb] He. simpl. unfold ubi_close_clone_cb, get_sctx, get_ubi.
  rewrite Hc. simpl. rewrite He. simpl. by rewrite Hb.
Qed.

(** The delta device the shallow copy writes to. *)
Definition delta_of (b : ubi_bdev) (bs : nat) (p : string) : Delta.bs_dev_delta :=
  Delta.mkDev (mkBsDev (bdev_blockcnt b) (bdev_blocklen b)) p Delta.BS_DEV_DELTA_WRITE false
    (u32 (bs_cluster_size bs) `div` bdev_blocklen b).

Definition copying (bs : nat) (b : ubi_bdev) : ubi_bdev :=
  b <| snapshot_status ::= λ s, s <| in_progress := true |>
                                  <| total_clusters := bs_total_data_cluster_count bs |> |>.

Lemma decouple_stage sc u c b st r bs p :
  snapping sc u c b st → bserrno r = 0 → blobstore b = Some bs → path c = Some p →
  Z.of_nat (String.length p) < 1024 → bdev_blocklen b ≠ 0 → (∀ s, calloc_ok s = true) →
  deliver (CallDecouple sc) r st =
  Ret (let st := set_sctx sc (λ c, c <| shallow_copy_bs_dev := Some (delta_of b bs p) |>)
                   (set_ubi u (copying bs) st) in
       let st := emit (EvCall (spdk_bs_blob_shallow_copy (Some bs) (ch c) (clone_blobid c)
                                 (Some (delta_of b bs p)))) st in
       let ret := shallow_copy_ret st in
       emit (EvSnapCb sc ret) (if ret =? 0 then await (CallShallowCopy sc) st else st)).
Proof.
  intros [Hc <- Hb] He Hbs Hp Hlen Hbl Hca. simpl.
  unfold ubi_decouple_parent_cb, ubi_start_snapshot, get_sctx, get_ubi.
  rewrite Hc. simpl. rewrite He. simpl. rewrite Hb. simpl. rewrite Hbs. simpl.
  rewrite Hp. simpl. unfold Delta.bs_dev_delta_create. rewrite Hca. simpl.
  destruct (Z.eqb_spec (bdev_blocklen b) 0); [done|].
  destruct (Z.ltb_spec (Z.of_nat (String.length p)) 1024); [|lia]. done.
Qed.

Lemma copy_complete_stage sc u c b st n d :
  snapping sc u c b st → shallow_copy_bs_dev c = Some d → ch c = true →
  deliver (CallShallowCopy sc) (mkReply 0 None n) st =
  Ret (set_status u (λ s, s <| in_progress := false |>)
        (emit (EvFreeSnapCtx sc) ((emit (EvFreeSnapChannel sc) (emit (EvDestroyDelta sc) st))
          <| sctxs ::= delete sc |>))).
Proof.
  intros [Hc <- Hb] Hd Hch. simpl. unfold ubi_shallow_copy_complete_cb, cleanup_snapshot_context, get_sctx, get_ubi.
  rewrite Hc. simpl. rewrite Hb. simpl. rewrite Hc. simpl. by rewrite Hd, Hch.
Qed.

(** *** From the request to the clone *)

(** What SPDK answers when nothing goes wrong: the identifiers of the snapshot and the
    clone, and the clone's blob. *)
Record good_replies (h : nat) (r1 r2 r3 r4 : reply) : Prop := {
  gr_snap : bserrno r1 = 0;
  gr_clone : bserrno r2 = 0;
  gr_open : bserrno r3 = 0 ∧ handle r3 = Some h;
  gr_close : bserrno r4 = 0;
}.

Record good_env : Prop := {
  ge_calloc s : calloc_ok s = true;
  ge_strdup s : strdup_ok s = true;
  ge_channel s : bs_alloc_io_channel_ok s = true;
  ge_read_only s h : blob_set_read_only_rc s h = 0;
}.

(** The context of a snapshot whose clone has been made and closed. *)
Definition cloned (u : nat) (p : string) (r1 r2 : reply) : snapshot_context :=
  mkSnapCtx u (id r1) (id r2) true None (Some p).

(** The calls of a snapshot, newest first. *)
Definition clone_log (b : ubi_bdev) (h : nat) (r1 r2 : reply) : list event :=
  [EvCall (spdk_bs_blob_decouple_parent (blobstore b) true (id r2)); EvCall (spdk_blob_close (Some h));
   EvCall (spdk_bs_open_blob (blobstore b) (id r2)); EvCall (spdk_bs_create_clone (blobstore b) (id r1));
   EvCall (spdk_bs_create_snapshot (blobstore b) (blobid b))].

Lemma snapshot_cloned n p st u b h r1 r2 r3 r4 :
  bdev_get_by_name st n = Some u → ubis st !! u = Some b → p ≠ EmptyString → good_env →
  good_replies h r1 r2 r3 r4 →
  let sc := next st in
  ∃ st0 st1, bdev_ubi_snapshot n p st = Ret st0 ∧
    log st0 = EvCall (spdk_bs_create_snapshot (blobstore b) (blobid b)) :: log st ∧
    chain [r1; r2; r3; r4] st0 = Ret (await (CallDecouple sc) st1) ∧
    pending st1 = pending st ∧ log st1 = clone_log b h r1 r2 ++ log st ∧ ubis st1 = ubis st ∧
    next st1 = S sc ∧ sctxs st1 = <[sc := cloned u p r1 r2]> (sctxs st).
Proof.
  intros Hn Hb Hp [Hca Hsd Hch Hro] [He1 He2 [He3 Hh3] He4] sc.
  eexists. unfold bdev_ubi_snapshot. rewrite Hn, Hca. unfold get_ubi. rewrite Hb. cbn [guard_res res_bind].
  cbv zeta. rewrite Hsd. fold sc. set (c0 := mkSnapCtx u 0 0 false None (Some p)). set (st0 := st <| sctxs ::= _ |> <| next ::= S |>).
  assert (snapping sc u c0 b st0) as Hs by (split; [apply lookup_insert_eq|done|exact Hb]).
  apply (snapping_emit _ _ _ _ _ (EvCall (spdk_bs_create_snapshot (blobstore b) (blobid b)))) in Hs.
  eexists. split; [reflexivity|]. split; [done|].
  rewrite chain_cons. fold c0. fold st0.
  rewrite (snap_create_stage _ _ _ _ _ _ _ Hs eq_refl Hp He1), Hch. cbn [res_bind].
  apply (snapping_set_ctx _ _ _ _ _ (λ c, c <| snapshot_blobid := id r1 |> <| ch := true |>)) in Hs; [|done].
  apply (snapping_emit _ _ _ _ _ (EvCall (spdk_bs_create_clone (blobstore b) (id r1)))) in Hs.
  rewrite chain_cons, (clone_stage _ _ _ _ _ _ Hs He2). cbn [res_bind].
  apply (snapping_set_ctx _ _ _ _ _ (λ c, c <| clone_blobid := id r2 |>)) in Hs; [|done].
  apply (snapping_emit _ _ _ _ _ (EvCall (spdk_bs_open_blob (blobstore b) (id r2)))) in Hs.
  rewrite chain_cons, (open_clone_stage _ _ _ _ _ _ _ Hs He3 Hh3 (Hro _ _)). cbn [res_bind].
  apply (snapping_emit _ _ _ _ _ (EvCall (spdk_blob_close (Some h)))) in Hs.
  rewrite chain_cons, (close_clone_stage _ _ _ _ _ _ Hs He4). cbn [res_bind chain].
  split; [reflexivity|]. do 4 (split; [done|]). simpl. by rewrite !alter_insert_eq.
Qed.

(** The delta device's name is an array of 1024 bytes. *)
Lemma decouple_overflow sc u c b st r bs p :
  snapping sc u c b st → bserrno r = 0 → blobstore b = Some bs → path c = Some p →
  1024 <= Z.of_nat (String.length p) → (∀ s, calloc_ok s = true) →
  deliver (CallDecouple sc) r st = Undef.
Proof.
  intros [Hc <- Hb] He Hbs Hp Hlen Hca. simpl.
  unfold ubi_decouple_parent_cb, ubi_start_snapshot, get_sctx, get_ubi.
  rewrite Hc. simpl. rewrite He. simpl. rewrite Hb. simpl. rewrite Hbs. simpl.
  rewrite Hp. simpl. unfold Delta.bs_dev_delta_create. rewrite Hca. simpl.
  destruct (negb (bdev_blocklen b =? 0)); [|done].
  destruct (Z.ltb_spec (Z.of_nat (String.length p)) 1024); [lia|done].
Qed.

(** The state in which the copy of the clone runs. *)
Lemma snapshot_copying n p st u b bs h r1 r2 r3 r4 r5 :
  bdev_get_by_name st n = Some u → ubis st !! u = Some b → blobstore b = Some bs → p ≠ EmptyString →
  Z.of_nat (String.length p) < 1024 → bdev_blocklen b ≠ 0 → good_env → (∀ s, shallow_copy_ret s = 0) →
  good_replies h r1 r2 r3 r4 → bserrno r5 = 0 →
  let sc := next st in
  ∃ st0 st1, bdev_ubi_snapshot n p st = Ret st0 ∧ chain [r1; r2; r3; r4; r5] st0 = Ret st1 ∧
    pending st1 = CallShallowCopy sc :: pending st ∧
    log st1 = [EvSnapCb sc 0; EvCall (spdk_bs_blob_shallow_copy (Some bs) true (id r2) (Some (delta_of b bs p)))]
              ++ clone_log b h r1 r2 ++ log st ∧
    ubis st1 = alter (copying bs) u (ubis st) ∧
    sctxs st1 = <[sc := (cloned u p r1 r2) <| shallow_copy_bs_dev := Some (delta_of b bs p) |>]> (sctxs st).
Proof.
  intros Hn Hb Hbs Hp Hlen Hbl Hge Hsc Hgr He5 sc.
  destruct (snapshot_cloned n p st u b h r1 r2 r3 r4 Hn Hb Hp Hge Hgr)
    as (st0 & s & Hreq & _ & Hch & Hpe & Hlog & Hub & Hnx & Hct).
  fold sc in Hch, Hct.
  exists st0. change [r1; r2; r3; r4; r5] with ([r1; r2; r3; r4] ++ [r5]). rewrite chain_snoc, Hch. cbn [res_bind]. rewrite chain_await.
  assert (snapping sc u (cloned u p r1 r2) b s) as Hs.
  { split; [rewrite Hct; apply lookup_insert_eq|done|by rewrite Hub]. }
  rewrite (decouple_stage _ _ _ _ _ _ _ _ Hs He5 Hbs eq_refl Hlen Hbl (ge_calloc Hge)).
  cbv zeta. rewrite !Hsc. cbn [res_bind chain Z.eqb].
  eexists. split; [exact Hreq|]. split; [reflexivity|]. simpl. rewrite Hpe, Hlog, Hub, Hct, alter_insert_eq. done.
Qed.

End Snapshots.


(** The device of [UbiClaims], with the context its snapshot request made. *)
Definition demo_snap : state := demo_snap_requested <| pending := [] |>.

Lemma demo_snapping : ∃ c b, snapping 2 1 c b demo_snap ∧ blobstore b = Some 7%nat ∧
  path c = Some "/snap"%string ∧ bdev_blocklen b = 512.
Proof.
  do 2 eexists. split; [split; [vm_compute; reflexivity|reflexivity|vm_compute; reflexivity]|].
  split; [reflexivity|]. split; reflexivity.
Qed.

Lemma demo_good_env : @good_env demo_ubi_env.
Proof. by split. Qed.

Lemma demo_good_replies i j h : good_replies h (mkReply 0 None i) (mkReply 0 None j) (mkReply 0 (Some h) 0) (mkReply 0 None 0).
Proof. by split. Qed.


(** C23. A shallow copy that SPDK refuses leaves the snapshot in progress for ever: the
    request is answered with the error, but the status stays in progress, the context
    with its channel and delta device is not freed, and no call is left that would. *)
Theorem ubi_refused_copy_stays_in_progress `{UbiEnv} sc u c b st r bs p e :
  snapping sc u c b st → bserrno r = 0 → blobstore b = Some bs → path c = Some p →
  Z.of_nat (String.length p) < 1024 → bdev_blocklen b ≠ 0 → (∀ s, calloc_ok s = true) →
  (∀ s, shallow_copy_ret s = e) → e ≠ 0 →
  ∃ st', deliver (CallDecouple sc) r st = Ret st' ∧
    log st' = [EvSnapCb sc e; EvCall (spdk_bs_blob_shallow_copy (Some bs) (ch c) (clone_blobid c)
                                        (Some (delta_of b bs p)))] ++ log st ∧
    pending st' = pending st ∧ is_Some (sctxs st' !! sc) ∧
    ∃ b', ubis st' !! u = Some b' ∧ in_progress (snapshot_status b') = true.
Proof.
  intros Hs He Hbs Hp Hlen Hbl Hca Hret Hne.
  rewrite (decouple_stage _ _ _ _ _ _ _ _ Hs He Hbs Hp Hlen Hbl Hca). cbv zeta. rewrite Hret.
  destruct (Z.eqb_spec e 0); [done|]. destruct Hs as [Hc Hu Hb].
  eexists. split; [reflexivity|]. simpl. split; [done|]. split; [done|].
  split; [rewrite lookup_alter_eq, Hc; by eexists|]. rewrite lookup_alter_eq, Hb. by eexists.
Qed.

Definition refusing_ubi_env : UbiEnv := {|
  calloc_ok _ := true; strdup_ok _ := true; create_bs_dev _ _ := inr (mkBsDev 1000 512);
  spdk_u32log2 := Z.log2; blob_get_id h := Z.of_nat h; blob_num_io_units _ := 800; bs_io_unit_size _ := 512;
  bs_cluster_size _ := 1048576; bs_total_data_cluster_count _ := 4; bdev_register_rc _ := 0;
  bdev_get_by_name st _ := head (g_ubi_bdev_head st); unregister_by_name_rc _ _ := 0;
  bs_alloc_io_channel_ok _ := true; blob_set_read_only_rc _ _ := 0; shallow_copy_ret _ := - ENOMEM |}.

Lemma ubi_refused_copy_stays_in_progress_witness :
  ∃ st', @deliver refusing_ubi_env (CallDecouple 2) (mkReply 0 None 0) demo_snap = Ret st' ∧ pending st' = [] ∧
    ∃ b', ubis st' !! 1%nat = Some b' ∧ in_progress (snapshot_status b') = true.
Proof.
  destruct demo_snapping as (c & b & Hs & Hbs & Hp & Hbl).
  destruct (@ubi_refused_copy_stays_in_progress refusing_ubi_env 2 1 c b demo_snap (mkReply 0 None 0) 7 "/snap"
    (- ENOMEM) Hs eq_refl Hbs Hp) as (st' & Hd & _ & Hpe & _ & Hb'); try (intros; reflexivity).
  - rewrite Hbl. discriminate.
  - discriminate.
  - exists st'. split; [exact Hd|]. split; [exact Hpe|exact Hb'].
Defined.

(** C24. The status forgets a snapshot when another one of the same device is running. A
    device whose copy is in progress accepts a second request, and both copies run; they
    share the device's status, so when the first completes the device is reported idle,
    while the second copy, of the same device, is still under way. *)
Theorem ubi_status_forgets_second_copy `{UbiEnv} s1 c1 d l1 l2 n p st u b bs h r1 r2 r3 r4 r5 i :
  snapping s1 u c1 b st → shallow_copy_bs_dev c1 = Some d → ch c1 = true → s1 ≠ next st →
  pending st = l1 ++ CallShallowCopy s1 :: l2 →
  bdev_get_by_name st n = Some u → blobstore b = Some bs → p ≠ EmptyString →
  Z.of_nat (String.length p) < 1024 → bdev_blocklen b ≠ 0 → good_env → (∀ s, shallow_copy_ret s = 0) →
  good_replies h r1 r2 r3 r4 → bserrno r5 = 0 →
  let s2 := next st in
  ∃ st0 st1 st2 b1 b2 c2,
    bdev_ubi_snapshot n p st = Ret st0 ∧ chain [r1; r2; r3; r4; r5] st0 = Ret st1 ∧
    pending st1 = (CallShallowCopy s2 :: l1) ++ CallShallowCopy s1 :: l2 ∧
    ubis st1 !! u = Some b1 ∧ in_progress (snapshot_status b1) = true ∧
    deliver (CallShallowCopy s1) (mkReply 0 None i) (st1 <| pending := (CallShallowCopy s2 :: l1) ++ l2 |>) = Ret st2 ∧
    CallShallowCopy s2 ∈ pending st2 ∧ sctxs st2 !! s2 = Some c2 ∧ sc_ubi_bdev c2 = u ∧
    ubis st2 !! u = Some b2 ∧ in_progress (snapshot_status b2) = false.
Proof.
  intros Hs1 Hd Hch Hne Hpend Hn Hbs Hp Hlen Hbl Hge Hsc Hgr He5 s2. destruct Hs1 as [Hc1 Hu Hb].
  destruct (snapshot_copying n p st u b bs h r1 r2 r3 r4 r5 Hn Hb Hbs Hp Hlen Hbl Hge Hsc Hgr He5)
    as (st0 & st1 & Hreq & Hchn & Hpe & _ & Hub & Hct). fold s2 in Hpe, Hct, Hne.
  set (c2 := (cloned u p r1 r2) <| shallow_copy_bs_dev := Some (delta_of b bs p) |>) in *.
  set (mid := st1 <| pending := (CallShallowCopy s2 :: l1) ++ l2 |>).
  assert (snapping s1 u c1 (copying bs b) mid) as Hs.
  { split; [simpl; by rewrite Hct, lookup_insert_ne|done|simpl; by rewrite Hub, lookup_alter_eq, Hb]. }
  exists st0, st1. eexists. eexists. eexists. exists c2.
  split; [exact Hreq|]. split; [exact Hchn|]. split; [by rewrite Hpe, Hpend|].
  split; [rewrite Hub, lookup_alter_eq, Hb; reflexivity|]. split; [done|].
  split; [exact (copy_complete_stage _ _ _ _ _ i _ Hs Hd Hch)|].
  split; [left|]. split; [simpl; by rewrite lookup_delete_ne, Hct, lookup_insert_eq|]. split; [done|].
  split; [simpl; rewrite lookup_alter_eq, Hub, lookup_alter_eq, Hb; reflexivity|]. done.
Qed.

(** The device of [demo_copying] accepts another snapshot; the first one (2) completes. *)
Lemma ubi_status_forgets_second_copy_witness :
  ∃ st0 st1 st2 b2, @bdev_ubi_snapshot demo_ubi_env "ubi0" "/snap2" demo_copying = Ret st0 ∧
    @chain demo_ubi_env [mkReply 0 None 21; mkReply 0 None 22; mkReply 0 (Some 23%nat) 0;
                         mkReply 0 None 0; mkReply 0 None 0] st0 = Ret st1 ∧
    @deliver demo_ubi_env (CallShallowCopy 2) (mkReply 0 None 0) (st1 <| pending := [CallShallowCopy 3] |>) = Ret st2 ∧
    CallShallowCopy 3 ∈ pending st2 ∧ ubis st2 !! 1%nat = Some b2 ∧ in_progress (snapshot_status b2) = false.
Proof.
  edestruct (@ubi_status_forgets_second_copy demo_ubi_env 2) with (st := demo_copying) (u := 1%nat)
    (l1 := @nil call) (l2 := @nil call) (n := "ubi0"%string) (p := "/snap2"%string) (i := 0)
    (r5 := mkReply 0 None 0)
    as (st0 & st1 & st2 & b1 & b2 & c2 & Hr & Hc & _ & _ & _ & Hd & Hp & _ & _ & Hu & Hi).
  - split; [vm_compute; reflexivity|reflexivity|vm_compute; reflexivity].
  - reflexivity.
  - reflexivity.
  - vm_compute. discriminate.
  - vm_compute. reflexivity.
  - vm_compute. reflexivity.
  - reflexivity.
  - discriminate.
  - reflexivity.
  - discriminate.
  - exact demo_good_env.
  - reflexivity.
  - apply (demo_good_replies 21 22 23).
  - reflexivity.
  - exists st0, st1, st2, b2.
    exact (conj Hr (conj Hc (conj Hd (conj Hp (conj Hu Hi))))).
Defined.

(** ** The image device of a ubi device *)

(** C26. An image that cannot be used is reported as a success: when the image file does
    not exist, [ubi_esnap_dev_create] answers 0 with no device. *)
Theorem ubi_missing_image_reports_success `{UbiEnv, SpdkUtil} u b bs o st :
  ubis st !! u = Some b → blobstore b = Some bs → os_files o !! image_path b = None →
  ∃ o', ubi_esnap_dev_create true u o st = Ret (0, None, o').
Proof.
  intros Hb Hbs Hf. unfold ubi_esnap_dev_create, get_ubi. rewrite Hb. simpl. rewrite Hbs. simpl.
  unfold Uring.bs_dev_uring_create. simpl. unfold sys_stat. destruct (fault_now o); simpl; rewrite ?Hf; simpl.
  all: try by eexists.
Qed.

Lemma demo_device_path :
  ∃ b, ubis demo_created !! 1%nat = Some b ∧ blobstore b = Some 7%nat ∧ image_path b = "/opt/image.raw"%string.
Proof. eexists. split; [reflexivity|]. split; [reflexivity|]. vm_compute. reflexivity. Qed.

Lemma ubi_missing_image_reports_success_witness :
  ∃ o', @ubi_esnap_dev_create demo_ubi_env log2_util true 1 demo_os demo_created = Ret (0, None, o').
Proof.
  destruct demo_device_path as (b & Hb & Hbs & Hp).
  apply (@ubi_missing_image_reports_success demo_ubi_env log2_util 1 b 7 demo_os demo_created Hb Hbs).
  rewrite Hp. reflexivity.
Defined.
