(* ===== verification/UbiRpc.v ===== *)
(** * The JSON-RPC methods: [src/lib/bdev_ubi_rpc.c]

    Four methods: create, delete and snapshot a ubi device, and ask for the status of
    a snapshot. A handler decodes its parameters with [spdk_json_decode_object], which
    is SPDK's and a parameter here (class [SpdkJson], with its documented behaviour as
    [SpdkJsonLaws]), calls the ubi module and frees the decoded strings. The module
    answers through the callbacks of this file, during the call or in a later step.
    The state is the module's, with the requests the contexts carry, the decoded
    strings that are alive, and the responses sent. *)

From S2P Require Import Prelude Posix BsDev DeltaDev UringDev UbiBdev UbiSnapshot.
#[local] Open Scope Z_scope.

Module Rpc.
Import Ubi Snap.

Definition SPDK_JSONRPC_ERROR_INVALID_PARAMS : Z := -32602.
Definition SPDK_JSONRPC_ERROR_INTERNAL_ERROR : Z := -32603.

(** ** Decoding *)

Inductive json_val := JString (s : string) | JBool (b : bool) | JNumber (n : Z) | JOther.

(** The parameters of a request: the members of an object in order. *)
Definition json_obj := list (string * json_val).

(** The fields of the request structures, as their offsets name them. *)
Inductive field :=
| F_name | F_image_path | F_snapshot_path | F_base_bdev_name | F_no_sync | F_format_bdev
| F_stripe_size_kb | F_copy_on_read | F_directio | F_path.

#[export] Instance field_eq_dec : EqDecision field.
Proof. solve_decision. Defined.

Inductive decode_fn := spdk_json_decode_string | spdk_json_decode_bool | spdk_json_decode_uint32.

(** [struct spdk_json_object_decoder]. *)
Record spdk_json_object_decoder := mkDecoder {
  d_name : string; d_field : field; d_fn : decode_fn; d_optional : bool }.

(** What [spdk_json_decode_object] does: its result, and the fields it stored, in
    order. It may have stored some when it fails. *)
Class SpdkJson := {
  spdk_json_decode_object : option json_obj → list spdk_json_object_decoder → Z * list (field * json_val);
}.

Definition accepts (d : decode_fn) (v : json_val) : bool :=
  match d, v with
  | spdk_json_decode_string, JString _ | spdk_json_decode_bool, JBool _ => true
  | spdk_json_decode_uint32, JNumber n => (0 <=? n) && (n <? 2 ^ 32)
  | _, _ => false
  end.

(** A member of the object and the store a decoder makes of it. *)
Definition decodes (ds : list spdk_json_object_decoder) (p : string * json_val) (f : field * json_val) : Prop :=
  ∃ d, d ∈ ds ∧ d_name d = p.1 ∧ d_field d = f.1 ∧ accepts (d_fn d) p.2 = true ∧ f.2 = p.2.

(** Decoding succeeds only for an object without repeated names, all of whose members
    have a decoder that accepts them, with every required name; it then stores each
    member. *)
Class SpdkJsonLaws `{SpdkJson} : Prop := {
  decode_object_only ds : (spdk_json_decode_object None ds).1 ≠ 0;
  decode_object_ok ps ds l :
    spdk_json_decode_object (Some ps) ds = (0, l) →
    NoDup ps.*1 ∧ Forall2 (decodes ds) ps l ∧ ∀ d, d ∈ ds → d_optional d = false → d_name d ∈ ps.*1;
}.

(** ** Request structures *)

(** [struct rpc_construct_ubi]. *)
Record rpc_construct_ubi := mkConstruct {
  r_name : option string;
  r_image_path : option string;
  r_snapshot_path : option string;
  r_base_bdev_name : option string;
  r_no_sync : bool;
  r_format_bdev : bool;
  r_stripe_size_kb : Z;
  r_copy_on_read : bool;
  r_directio : bool;
}.

(** [struct rpc_delete_ubi], [struct rpc_snapshot_ubi_status] and [struct rpc_snapshot_ubi]. *)
Record rpc_delete_ubi := mkDelete { dl_name : option string }.
Record rpc_snapshot_ubi_status := mkSnapStatus { ss_name : option string }.
Record rpc_snapshot_ubi := mkSnapshot { sn_name : option string; sn_path : option string }.

#[export] Instance eta_construct : Eta rpc_construct_ubi := λ r,
  mkConstruct (r_name r) (r_image_path r) (r_snapshot_path r) (r_base_bdev_name r) (r_no_sync r)
    (r_format_bdev r) (r_stripe_size_kb r) (r_copy_on_read r) (r_directio r).
#[export] Instance eta_delete : Eta rpc_delete_ubi := λ r, mkDelete (dl_name r).
#[export] Instance eta_snap_status : Eta rpc_snapshot_ubi_status := λ r, mkSnapStatus (ss_name r).
#[export] Instance eta_snapshot : Eta rpc_snapshot_ubi := λ r, mkSnapshot (sn_name r) (sn_path r).

Definition rpc_construct_ubi_decoders : list spdk_json_object_decoder :=
  [ mkDecoder "name" F_name spdk_json_decode_string false;
    mkDecoder "image_path" F_image_path spdk_json_decode_string false;
    mkDecoder "base_bdev" F_base_bdev_name spdk_json_decode_string false;
    mkDecoder "format_bdev" F_format_bdev spdk_json_decode_bool true;
    mkDecoder "no_sync" F_no_sync spdk_json_decode_bool true;
    mkDecoder "directio" F_directio spdk_json_decode_bool true;
    mkDecoder "snapshot_path" F_snapshot_path spdk_json_decode_string true;
    mkDecoder "stripe_size_kb" F_stripe_size_kb spdk_json_decode_uint32 true;
    mkDecoder "copy_on_read" F_copy_on_read spdk_json_decode_bool true ].

Definition rpc_delete_ubi_decoders : list spdk_json_object_decoder :=
  [mkDecoder "name" F_name spdk_json_decode_string false].

Definition rpc_snapshot_ubi_decoders : list spdk_json_object_decoder :=
  [ mkDecoder "name" F_name spdk_json_decode_string false;
    mkDecoder "path" F_path spdk_json_decode_string false ].

(** The offset is taken in [struct rpc_snapshot_ubi], whose [name] is first as well. *)
Definition rpc_snapshot_ubi_status_decoders : list spdk_json_object_decoder :=
  [mkDecoder "name" F_name spdk_json_decode_string false].

(** A store to the request structure. *)
Definition store_construct (r : rpc_construct_ubi) (f : field * json_val) : rpc_construct_ubi :=
  match f with
  | (F_name, JString s) => r <| r_name := Some s |>
  | (F_image_path, JString s) => r <| r_image_path := Some s |>
  | (F_snapshot_path, JString s) => r <| r_snapshot_path := Some s |>
  | (F_base_bdev_name, JString s) => r <| r_base_bdev_name := Some s |>
  | (F_no_sync, JBool b) => r <| r_no_sync := b |>
  | (F_format_bdev, JBool b) => r <| r_format_bdev := b |>
  | (F_stripe_size_kb, JNumber n) => r <| r_stripe_size_kb := n |>
  | (F_copy_on_read, JBool b) => r <| r_copy_on_read := b |>
  | (F_directio, JBool b) => r <| r_directio := b |>
  | _ => r
  end.

Definition store_delete (r : rpc_delete_ubi) (f : field * json_val) : rpc_delete_ubi :=
  match f with (F_name, JString s) => r <| dl_name := Some s |> | _ => r end.

Definition store_snap_status (r : rpc_snapshot_ubi_status) (f : field * json_val) : rpc_snapshot_ubi_status :=
  match f with (F_name, JString s) => r <| ss_name := Some s |> | _ => r end.

Definition store_snapshot (r : rpc_snapshot_ubi) (f : field * json_val) : rpc_snapshot_ubi :=
  match f with
  | (F_name, JString s) => r <| sn_name := Some s |>
  | (F_path, JString s) => r <| sn_path := Some s |>
  | _ => r
  end.

(** ** State *)

Inductive message := MsgText (s : string) | MsgStrerror (e : Z) | MsgErrorCode (n : Z).

Inductive response :=
| RespError (code : Z) (m : message)
| RespString (s : string)
| RespBool (b : bool)
| RespStatus (name : string) (s : snapshot_status_t).

Record rpc_state := mkRpc {
  ust : state;
  done_arg : gmap nat nat;          (* [done_arg] of the creation contexts, by address *)
  cb_arg : gmap nat nat;            (* [cb_arg] of the snapshot contexts *)
  deleting : list nat;              (* requests whose device SPDK is unregistering *)
  live : list (nat * field);        (* decoded strings not freed *)
  responses : list (nat * response);
  next_request : nat;
}.

#[export] Instance eta_rpc : Eta rpc_state := λ r,
  mkRpc (ust r) (done_arg r) (cb_arg r) (deleting r) (live r) (responses r) (next_request r).

Section Rpc.
Context `{UbiEnv} `{SpdkJson}.
Implicit Types s : rpc_state.

Definition respond (rq : nat) (r : response) s : rpc_state := s <| responses ::= cons (rq, r) |>.

Definition is_string (v : json_val) : bool := match v with JString _ => true | _ => false end.

(** The strings a decoding has allocated for request [rq]. *)
Definition decoded_strings (rq : nat) (l : list (field * json_val)) : list (nat * field) :=
  (λ f : field * json_val, (rq, f.1)) <$> filter (λ f, is_string f.2 = true) l.

(** [free(req->f)]; nothing for [NULL]. *)
Definition free_field (rq : nat) (f : field) s : rpc_state :=
  s <| live ::= filter (λ x, x ≠ (rq, f)) |>.

(** ** Callbacks *)

Definition bdev_ubi_create_done (rq : nat) (bdev : option nat) (status : Z) s : res rpc_state :=
  if status <? 0 then Ret (respond rq (RespError status (MsgStrerror (- status))) s)
  else if 0 <? status then
    Ret (respond rq (RespError SPDK_JSONRPC_ERROR_INVALID_PARAMS (MsgErrorCode status)) s)
  else
    let* u := deref bdev in
    let* b := get_ubi u (ust s) in
    Ret (respond rq (RespString (name b)) s).

Definition rpc_bdev_ubi_delete_cb (rq : nat) (bdeverrno : Z) s : rpc_state :=
  if bdeverrno =? 0 then respond rq (RespBool true) s
  else respond rq (RespError bdeverrno (MsgStrerror (- bdeverrno))) s.

Definition rpc_bdev_ubi_snapshot_cb (rq : nat) (bdeverrno : Z) s : rpc_state :=
  if bdeverrno =? 0 then respond rq (RespBool true) s
  else respond rq (RespError bdeverrno (MsgStrerror (- bdeverrno))) s.

(** The callback an event of the module stands for: the context carries its request;
    an answer without a context goes to the request [cur] being handled. *)
Definition run_callback (cur : nat) (e : event) s : res rpc_state :=
  match e with
  | EvDone ctx bdev status =>
      match done_arg s !! ctx with Some rq => bdev_ubi_create_done rq bdev status s | None => Ret s end
  | EvSnapCb sc rc =>
      match cb_arg s !! sc with Some rq => Ret (rpc_bdev_ubi_snapshot_cb rq rc s) | None => Ret s end
  | EvSnapReject rc => Ret (rpc_bdev_ubi_snapshot_cb cur rc s)
  | EvDeleteCb rc => Ret (rpc_bdev_ubi_delete_cb cur rc s)
  | _ => Ret s
  end.

Fixpoint run_callbacks (cur : nat) (evs : list event) s : res rpc_state :=
  match evs with
  | [] => Ret s
  | e :: evs => let* s := run_callback cur e s in run_callbacks cur evs s
  end.

(** A move of the module to state [st], with the callbacks it ran. *)
Definition with_callbacks (cur : nat) (st : state) s : res rpc_state :=
  let evs := take (length (log st) - length (log (ust s))) (log st) in
  run_callbacks cur (rev evs) (s <| ust := st |>).

(** ** Handlers *)

Definition decode_error (rq : nat) s : rpc_state :=
  respond rq (RespError SPDK_JSONRPC_ERROR_INTERNAL_ERROR (MsgText "spdk_json_decode_object failed")) s.

Definition free_rpc_construct_ubi (rq : nat) s : rpc_state :=
  free_field rq F_base_bdev_name (free_field rq F_image_path (free_field rq F_name s)).

(** The defaults the handler sets before decoding. *)
Definition construct_defaults : rpc_construct_ubi :=
  mkConstruct None None None None false true 0 true true.

Definition rpc_bdev_ubi_create (rq : nat) (params : option json_obj) s : res rpc_state :=
  let '(rc, stores) := spdk_json_decode_object params rpc_construct_ubi_decoders in
  let req := foldl store_construct construct_defaults stores in
  let s := s <| live ::= app (decoded_strings rq stores) |> in
  if negb (rc =? 0) then Ret (free_rpc_construct_ubi rq (decode_error rq s))
  else
    let* name := deref (r_name req) in
    let* image := deref (r_image_path req) in
    let* base := deref (r_base_bdev_name req) in
    let opts := mkUbiOpts name image (r_snapshot_path req) base (r_no_sync req) (r_directio req)
                  (r_format_bdev req) in
    let* _ := guard_res (calloc_ok (ust s)) in  (* context->done_fn = ... *)
    let s := s <| done_arg ::= <[next (ust s) := rq]> |> in
    let* st := request_create (Some opts) (ust s) in
    let* s := with_callbacks rq st s in
    Ret (free_rpc_construct_ubi rq s).

Definition rpc_bdev_ubi_delete (rq : nat) (params : option json_obj) s : res rpc_state :=
  let '(rc, stores) := spdk_json_decode_object params rpc_delete_ubi_decoders in
  let req := foldl store_delete (mkDelete None) stores in
  let s := s <| live ::= app (decoded_strings rq stores) |> in
  if negb (rc =? 0) then Ret (decode_error rq s)
  else
    let* name := deref (dl_name req) in
    let s := if unregister_by_name_rc (ust s) name =? 0 then s <| deleting ::= cons rq |> else s in
    let* s := with_callbacks rq (bdev_ubi_delete name (ust s)) s in
    Ret (free_field rq F_name s).

Definition rpc_bdev_ubi_snapshot (rq : nat) (params : option json_obj) s : res rpc_state :=
  let '(rc, stores) := spdk_json_decode_object params rpc_snapshot_ubi_decoders in
  let req := foldl store_snapshot (mkSnapshot None None) stores in
  let s := s <| live ::= app (decoded_strings rq stores) |> in
  if negb (rc =? 0) then Ret (decode_error rq s)
  else
    let* name := deref (sn_name req) in
    let* path := deref (sn_path req) in
    let* st := bdev_ubi_snapshot name path (ust s) in
    let s := match bdev_get_by_name (ust s) name with
             | Some _ => s <| cb_arg ::= <[next (ust s) := rq]> |>
             | None => s end in
    let* s := with_callbacks rq st s in
    Ret (free_field rq F_path (free_field rq F_name s)).

Definition rpc_bdev_ubi_snapshot_status (rq : nat) (params : option json_obj) s : res rpc_state :=
  let '(rc, stores) := spdk_json_decode_object params rpc_snapshot_ubi_status_decoders in
  let req := foldl store_snap_status (mkSnapStatus None) stores in
  let s := s <| live ::= app (decoded_strings rq stores) |> in
  if negb (rc =? 0) then Ret (decode_error rq s)
  else
    let* name := deref (ss_name req) in
    match bdev_get_by_name (ust s) name with
    | None => Ret (respond rq (RespError (- ENOENT) (MsgText "bdev not found")) s)
    | Some u =>
        let* b := get_ubi u (ust s) in
        Ret (respond rq (RespStatus name (snapshot_status b)) s)
    end.

(** ** The methods, the module and SPDK *)

Inductive method := MCreate | MDelete | MSnapshot | MSnapshotStatus.

Definition handler (m : method) : nat → option json_obj → rpc_state → res rpc_state :=
  match m with
  | MCreate => rpc_bdev_ubi_create
  | MDelete => rpc_bdev_ubi_delete
  | MSnapshot => rpc_bdev_ubi_snapshot
  | MSnapshotStatus => rpc_bdev_ubi_snapshot_status
  end.

(** The moves of the module that are not requests. *)
Inductive module_step : state → res state → Prop :=
| mstep_destruct st u : u ∈ g_ubi_bdev_head st → module_step st (let* (_, st) := ubi_destruct u st in Ret st)
| mstep_progress st sc n :
    CallShallowCopy sc ∈ pending st → module_step st (ubi_shallow_copy_status_cb n sc st)
| mstep_reply st l1 c l2 r :
    pending st = l1 ++ c :: l2 → module_step st (deliver c r (st <| pending := l1 ++ l2 |>)).

(** A request arrives; the module moves; SPDK has unregistered a device. *)
Inductive rpc_step : rpc_state → res rpc_state → Prop :=
| rstep_request s m params :
    rpc_step s (handler m (next_request s) params (s <| next_request ::= S |>))
| rstep_module s st :
    module_step (ust s) (Ret st) → rpc_step s (with_callbacks (next_request s) st s)
| rstep_deleted s l1 rq l2 e :
    deleting s = l1 ++ rq :: l2 →
    rpc_step s (Ret (rpc_bdev_ubi_delete_cb rq e (s <| deleting := l1 ++ l2 |>))).

Inductive rpc_run : rpc_state → rpc_state → Prop :=
| rrun_refl s : rpc_run s s
| rrun_step s s1 s2 : rpc_step s (Ret s1) → rpc_run s1 s2 → rpc_run s s2.

Definition init_rpc : rpc_state := mkRpc init_state ∅ ∅ [] [] [] 0.

End Rpc.
End Rpc.
