(* ===== verification/UbiRpcClaims.v ===== *)
(** * The JSON-RPC methods: what they guarantee

    Requests are accounted for by carrying the tally of [UbiProofs] over to the
    requests the contexts stand for; the rest follows the handlers branch by branch. *)

From Stdlib Require Import Ascii Permutation.
From S2P Require Import Prelude Posix BsDev DeltaDev UringDev UbiBdev UbiSnapshot SnapshotChain UbiProofs UbiClaims UbiSnapClaims UbiRpc.
#[local] Open Scope Z_scope.
Import Ubi Snap Rpc.

(** ** Counting by request *)

Lemma countb_perm {A} (p : A → bool) l1 l2 : Permutation l1 l2 → countb p l1 = countb p l2.
Proof. induction 1; simpl; lia. Qed.

Lemma countb_ext {A} (p p' : A → bool) l : (∀ x, x ∈ l → p x = p' x) → countb p l = countb p' l.
Proof.
  induction l as [|x l IH]; intros Hp; simpl; [done|]. rewrite Hp by constructor.
  rewrite IH; [done|]. intros y Hy. apply Hp. by constructor.
Qed.

Lemma countb_rev {A} (p : A → bool) l : countb p (rev l) = countb p l.
Proof. apply countb_perm. symmetry. apply Permutation_rev. Qed.

Lemma countb_omap {A B} (p : B → bool) (f : A → option B) l :
  countb p (omap f l) = countb (λ x, match f x with Some y => p y | None => false end) l.
Proof. induction l as [|x l IH]; csimpl; [done|]. destruct (f x); simpl; by rewrite IH. Qed.

Lemma countb_count_occ (q : request) l : countb (λ x, bool_decide (x = q)) l = count_occ request_eq_dec l q.
Proof. induction l as [|x l IH]; simpl; [done|]. rewrite IH. destruct (request_eq_dec x q); by case_bool_decide. Qed.

(** The requests a state owes an answer or has answered. *)
Definition items (st : state) : list request := omap owner (pending st) ++ omap answers (log st).

Lemma tally_items q st : tally q st = count_occ request_eq_dec (items st) q.
Proof.
  rewrite <- countb_count_occ. unfold items. rewrite countb_app, !countb_omap. unfold tally, owed, answered.
  f_equal; apply countb_ext; intros x _; [destruct (owner x)|destruct (answers x)]; repeat case_bool_decide; congruence.
Qed.

Definition olist {A} (o : option A) : list A := match o with Some x => [x] | None => [] end.

(** Equal tallies, equal counts by any property of requests. *)
Lemma items_move o st st' :
  (∀ q, tally q st' = (tally q st + plus_one o q)%nat) → Permutation (items st') (olist o ++ items st).
Proof.
  intros Ht. apply (Permutation_count_occ request_eq_dec). intros q. rewrite <- tally_items, Ht, count_occ_app.
  rewrite <- tally_items. unfold plus_one. destruct o as [q'|]; simpl; [|done].
  destruct (request_eq_dec q' q); case_bool_decide; try congruence; lia.
Qed.

(** [hit p]: [p] of the request there is, if any. *)
Definition hit (p : request → bool) (o : option request) : bool := match o with Some q => p q | None => false end.

Lemma move_count (p : request → bool) o evs st st' :
  (∀ q, tally q st' = (tally q st + plus_one o q)%nat) → log st' = evs ++ log st →
  (countb (λ c, hit p (owner c)) (pending st') + countb (λ e, hit p (answers e)) evs =
   countb (λ c, hit p (owner c)) (pending st) + (if hit p o then 1 else 0))%nat.
Proof.
  intros Ht Hl. apply items_move in Ht. apply (countb_perm p) in Ht. revert Ht. unfold items. rewrite Hl.
  rewrite !countb_app, !countb_omap, countb_app. unfold hit. destruct o; simpl; lia.
Qed.

(** ** The tally of requests *)

(** The request a context carries. *)
Definition arg (s : rpc_state) (q : request) : option nat :=
  match q with ReqCreate x => done_arg s !! x | ReqSnapshot x => cb_arg s !! x end.

Definition for_request (s : rpc_state) (rq : nat) (q : request) : bool := bool_decide (arg s q = Some rq).

(** What is still under way for a request, and what was sent for it. *)
Definition outstanding (rq : nat) (s : rpc_state) : nat :=
  (countb (λ c, hit (for_request s rq) (owner c)) (pending (ust s)) +
   countb (λ x, bool_decide (x = rq)) (deleting s))%nat.
Definition sent (rq : nat) (s : rpc_state) : nat := countb (λ r, bool_decide (r.1 = rq)) (responses s).
Definition total (rq : nat) (s : rpc_state) : nat := (outstanding rq s + sent rq s)%nat.

Definition one_for (o : option nat) (rq : nat) : nat := if bool_decide (o = Some rq) then 1 else 0.

Lemma one_for_eqb x y : one_for (Some x) y = if (y =? x)%nat then 1%nat else 0%nat.
Proof. unfold one_for. destruct (Nat.eqb_spec y x); case_bool_decide; congruence. Qed.

(** A move that accounts for one more request [o]. *)
Record accounts (o : option nat) (s s' : rpc_state) : Prop := {
  ac_fresh : fresh (ust s');
  ac_next : next_request s' = next_request s;
  ac_total rq : total rq s' = (total rq s + one_for o rq)%nat;
}.

Lemma sent_respond rq r s rq' : sent rq' (respond rq r s) = (sent rq' s + one_for (Some rq) rq')%nat.
Proof. unfold sent, one_for. simpl. repeat case_bool_decide; simpl in *; try congruence; lia. Qed.

Lemma total_respond rq r s rq' : total rq' (respond rq r s) = (total rq' s + one_for (Some rq) rq')%nat.
Proof.
  unfold total. rewrite sent_respond. change (outstanding rq' (respond rq r s)) with (outstanding rq' s). lia.
Qed.

Section Accounting.
Context `{UbiEnv}.
Implicit Types s : rpc_state.

(** Callbacks only send responses, one for each context that answers. *)
Lemma create_done_sends rq bdev status s s' :
  bdev_ubi_create_done rq bdev status s = Ret s' → ∃ r, s' = respond rq r s.
Proof.
  unfold bdev_ubi_create_done. destruct (status <? 0); [intros; inv_res; by eexists|].
  destruct (0 <? status); intros; inv_res; by eexists.
Qed.

Lemma snapshot_cb_sends rq rc s : ∃ r, rpc_bdev_ubi_snapshot_cb rq rc s = respond rq r s.
Proof. unfold rpc_bdev_ubi_snapshot_cb. destruct (rc =? 0); by eexists. Qed.

Lemma delete_cb_sends rq rc s : ∃ r, rpc_bdev_ubi_delete_cb rq rc s = respond rq r s.
Proof. unfold rpc_bdev_ubi_delete_cb. destruct (rc =? 0); by eexists. Qed.

(** Everything but the responses is the same. *)
Definition only_sent s s' : Prop := s' = s <| responses := responses s' |>.

Lemma run_callback_sends cur e s s' :
  direct e = false → run_callback cur e s = Ret s' →
  only_sent s s' ∧ ∀ rq, sent rq s' = (sent rq s + if hit (for_request s rq) (answers e) then 1 else 0)%nat.
Proof.
  assert (only_sent s s ∧ ∀ rq : nat, sent rq s = (sent rq s + 0)%nat) as Hsame.
  { split; [by destruct s|]. intros. lia. }
  assert (∀ rq r q, arg s q = Some rq → only_sent s (respond rq r s) ∧
    ∀ rq', sent rq' (respond rq r s) = (sent rq' s + if for_request s rq' q then 1 else 0)%nat) as Hresp.
  { intros rq r q Hq. split; [by destruct s|]. intros rq'. rewrite sent_respond. unfold one_for, for_request.
    rewrite Hq. reflexivity. }
  destruct e; try done; simpl; intros _ Hr; try (injection Hr as <-; exact Hsame).
  - destruct (done_arg s !! ctx) as [rq|] eqn:Ha.
    + destruct (create_done_sends _ _ _ _ _ Hr) as [r ->]. by apply Hresp.
    + injection Hr as <-. unfold for_request. simpl. rewrite Ha. exact Hsame.
  - destruct (cb_arg s !! sc) as [rq|] eqn:Ha; injection Hr as <-.
    + destruct (snapshot_cb_sends rq rc s) as [r ->]. by apply Hresp.
    + unfold for_request. simpl. rewrite Ha. exact Hsame.
Qed.

Lemma run_callbacks_sends cur evs s s' :
  Forall (λ e, direct e = false) evs → run_callbacks cur evs s = Ret s' →
  only_sent s s' ∧ ∀ rq, sent rq s' = (sent rq s + countb (λ e, hit (for_request s rq) (answers e)) evs)%nat.
Proof.
  revert s. induction evs as [|e evs IH]; intros s Hf Hr; simpl in Hr.
  { injection Hr as <-. split; [by destruct s|]. intros. simpl. lia. }
  apply res_bind_Ret in Hr as (s1 & H1 & Hr). inversion Hf; subst.
  destruct (run_callback_sends cur e s s1) as [O1 S1]; [done|done|].
  destruct (IH s1) as [O2 S2]; [done|done|]. split.
  - unfold only_sent in *. rewrite O2, O1. by destruct s.
  - intros rq. rewrite S2, S1. simpl. assert (for_request s1 rq = for_request s rq) as ->; [|lia].
    by rewrite O1.
Qed.

(** A move of the module that takes on [o], whose context carries [rq]. *)
Lemma with_callbacks_accounts cur s s' st o :
  fresh st → (∀ q, tally q st = (tally q (ust s) + plus_one o q)%nat) → extends (ust s) st →
  with_callbacks cur st s = Ret s' → accounts (match o with Some q => arg s q | None => None end) s s'.
Proof.
  intros Hf Ht (evs & Hl & Hd) Hr. unfold with_callbacks in Hr.
  assert (take (length (log st) - length (log (ust s))) (log st) = evs) as He.
  { rewrite Hl, length_app, Nat.add_sub. by rewrite take_app_length. }
  rewrite He in Hr. apply run_callbacks_sends in Hr as [Ho Hs].
  2: by rewrite <- Permutation_rev.
  split; [by rewrite Ho|by rewrite Ho|]. intros rq. unfold total. rewrite Hs.
  assert (outstanding rq s' = countb (λ c, hit (for_request s rq) (owner c)) (pending st) +
          countb (λ x, bool_decide (x = rq)) (deleting s))%nat as -> by by rewrite Ho.
  rewrite countb_rev. pose proof (move_count (for_request s rq) o evs _ _ Ht Hl) as Hm.
  assert (sent rq (s <| ust := st |>) = sent rq s) as -> by done.
  change (for_request (s <| ust := st |>) rq) with (for_request s rq).
  unfold outstanding, one_for. destruct o as [q|]; simpl in Hm.
  - change (for_request s rq q) with (bool_decide (arg s q = Some rq)) in Hm. lia.
  - case_bool_decide; [congruence|]. lia.
Qed.

(** A call under way belongs to a context that exists. *)
Lemma owned_old st c q : fresh st → c ∈ pending st → owner c = Some q → (address q < next st)%nat.
Proof.
  intros Hf Hc Ho. destruct (decide (next st <= address q)%nat) as [Hq|]; [|lia].
  specialize (Hf q Hq). unfold tally, owed in Hf. exfalso.
  assert (∀ l, c ∈ l → (0 < countb (λ c, bool_decide (owner c = Some q)) l)%nat) as Hpos; [|specialize (Hpos _ Hc); lia].
  clear Hc. intros l. induction l as [|x l IH]; intros Hc; [by apply elem_of_nil in Hc|]. simpl.
  apply elem_of_cons in Hc as [<-|Hc]; [rewrite bool_decide_true by done; lia|]. specialize (IH Hc). lia.
Qed.

(** Giving a context its request changes no count before the context is used. *)
Lemma total_new_arg s s' :
  fresh (ust s) → ust s' = ust s → deleting s' = deleting s → responses s' = responses s →
  (∀ q, (address q < next (ust s))%nat → arg s' q = arg s q) → ∀ rq, total rq s' = total rq s.
Proof.
  intros Hf Hu Hd Hr Ha rq. unfold total, outstanding, sent. rewrite Hu, Hd, Hr. do 2 f_equal.
  apply countb_ext. intros c Hc. destruct (owner c) as [q|] eqn:Ho; [|done]. simpl.
  unfold for_request. by rewrite (Ha q (owned_old _ _ _ Hf Hc Ho)).
Qed.

Lemma accounts_from o s s1 s2 :
  (∀ rq, total rq s1 = total rq s) → next_request s1 = next_request s → accounts o s1 s2 → accounts o s s2.
Proof. intros Ht Hn [Hf Hn2 Ht2]. split; [done|congruence|]. intros rq. by rewrite Ht2, Ht. Qed.

Context `{SpdkJson}.

Lemma create_accounts rq params s s' :
  fresh (ust s) → rpc_bdev_ubi_create rq params s = Ret s' → accounts (Some rq) s s'.
Proof.
  intros Hf. unfold rpc_bdev_ubi_create. destruct (spdk_json_decode_object _ _) as [rc stores].
  set (s1 := s <| live ::= _ |>). destruct (negb (rc =? 0)); intros Hr.
  { injection Hr as <-. split; [done|done|]. intros rq'. exact (total_respond rq _ s rq'). }
  inv_res. set (s2 := s1 <| done_arg ::= _ |>) in *.
  destruct (request_create_tally _ _ _ Hf Hm3) as (Hn & H1 & Ht & He).
  assert (accounts (Some rq) s2 a4) as [A1 A2 A3].
  { replace (Some rq) with (arg s2 (ReqCreate (next (ust s)))) by apply lookup_insert_eq.
    eapply (with_callbacks_accounts _ s2 a4 a3 (Some (ReqCreate (next (ust s))))); [| |done|done].
    - eapply step_tally; [exact Hf|]. rewrite <- Hm3. constructor.
    - intros q. unfold plus_one. case_bool_decide as Hq.
      + injection Hq as <-. rewrite H1. change (ust s2) with (ust s). by rewrite (Hf (ReqCreate (next (ust s)))).
      + rewrite Ht by congruence. change (ust s2) with (ust s). lia. }
  apply (accounts_from _ s s2); [|done|by split]. apply total_new_arg; try done.
  intros [x|x] Hx; simpl in *; [|done]. rewrite lookup_insert_ne; [done|lia].
Qed.

Lemma delete_accounts rq params s s' :
  fresh (ust s) → rpc_bdev_ubi_delete rq params s = Ret s' → accounts (Some rq) s s'.
Proof.
  intros Hf. unfold rpc_bdev_ubi_delete. destruct (spdk_json_decode_object _ _) as [rc stores].
  set (s1 := s <| live ::= _ |>). destruct (negb (rc =? 0)); intros Hr.
  { injection Hr as <-. split; [done|done|]. intros rq'. exact (total_respond rq _ s rq'). }
  inv_res. change (ust s1) with (ust s) in *. unfold bdev_ubi_delete in *.
  destruct (unregister_by_name_rc (ust s) a =? 0) eqn:Hrc.
  - change (ust (s1 <| deleting ::= cons rq |>)) with (ust s) in *. rewrite Hrc in Hm0. simpl in Hm0.
    unfold with_callbacks in Hm0. rewrite Nat.sub_diag in Hm0. simpl in Hm0. injection Hm0 as <-.
    split; [done|done|]. intros rq'. unfold total, outstanding, one_for.
    change (for_request (free_field _ _ _)) with (for_request s). simpl.
    change (sent rq' (free_field _ _ _)) with (sent rq' s). repeat case_bool_decide; try congruence; lia.
  - change (ust s1) with (ust s) in *. rewrite Hrc in Hm0. simpl in Hm0. unfold with_callbacks in Hm0. simpl in Hm0.
    rewrite Nat.sub_succ_l, Nat.sub_diag in Hm0 by done. simpl in Hm0. injection Hm0 as <-.
    destruct (delete_cb_sends rq (unregister_by_name_rc (ust s) a)
      (s1 <| ust := emit (EvDeleteCb (unregister_by_name_rc (ust s) a)) (ust s) |>)) as [r ->].
    split; [done|done|]. intros rq'. exact (total_respond rq r s rq').
Qed.

Lemma snapshot_accounts rq params s s' :
  fresh (ust s) → rpc_bdev_ubi_snapshot rq params s = Ret s' → accounts (Some rq) s s'.
Proof.
  intros Hf. unfold rpc_bdev_ubi_snapshot. destruct (spdk_json_decode_object _ _) as [rc stores].
  set (s1 := s <| live ::= _ |>). destruct (negb (rc =? 0)); intros Hr.
  { injection Hr as <-. split; [done|done|]. intros rq'. exact (total_respond rq _ s rq'). }
  inv_res. change (ust s1) with (ust s) in *.
  destruct (snapshot_tally _ _ _ _ Hf Hm1) as [(Hg & ->)|(Hg & Hn & H1 & Ht & He)].
  - rewrite Hg in Hm2. unfold with_callbacks in Hm2. simpl in Hm2.
    rewrite Nat.sub_succ_l, Nat.sub_diag in Hm2 by done. simpl in Hm2. injection Hm2 as <-.
    destruct (snapshot_cb_sends rq (- ENOENT) (s1 <| ust := emit (EvSnapReject (- ENOENT)) (ust s) |>)) as [r ->].
    split; [done|done|]. intros rq'. exact (total_respond rq r s rq').
  - destruct (bdev_get_by_name (ust s) a) as [u|]; [|done]. set (s2 := s1 <| cb_arg ::= _ |>) in *.
    assert (accounts (Some rq) s2 a2) as [A1 A2 A3].
    { replace (Some rq) with (arg s2 (ReqSnapshot (next (ust s)))) by apply lookup_insert_eq.
      eapply (with_callbacks_accounts _ s2 a2 a1 (Some (ReqSnapshot (next (ust s))))); [| | |done].
      - eapply step_tally; [exact Hf|]. rewrite <- Hm1. constructor.
      - intros q. unfold plus_one. case_bool_decide as Hq.
        + injection Hq as <-. rewrite H1. change (ust s2) with (ust s). by rewrite (Hf (ReqSnapshot (next (ust s)))).
        + rewrite Ht by congruence. change (ust s2) with (ust s). lia.
      - exact He. }
    apply (accounts_from _ s s2); [|done|by split]. apply total_new_arg; try done.
    intros [x|x] Hx; simpl in *; [done|]. rewrite lookup_insert_ne; [done|lia].
Qed.

Lemma status_accounts rq params s s' :
  fresh (ust s) → rpc_bdev_ubi_snapshot_status rq params s = Ret s' → accounts (Some rq) s s'.
Proof.
  intros Hf. unfold rpc_bdev_ubi_snapshot_status. destruct (spdk_json_decode_object _ _) as [rc stores].
  destruct (negb (rc =? 0)); intros Hr.
  { injection Hr as <-. split; [done|done|]. intros rq'. exact (total_respond rq _ s rq'). }
  inv_res. destruct (bdev_get_by_name _ _); inv_res;
    (split; [done|done|]); intros rq'; exact (total_respond rq _ s rq').
Qed.

Lemma handler_accounts m rq params s s' :
  fresh (ust s) → handler m rq params s = Ret s' → accounts (Some rq) s s'.
Proof.
  destruct m; [apply create_accounts|apply delete_accounts|apply snapshot_accounts|apply status_accounts].
Qed.

End Accounting.

(** ** Every request is answered once *)

Definition accounted (s : rpc_state) : Prop :=
  fresh (ust s) ∧ ∀ rq, total rq s = if (rq <? next_request s)%nat then 1%nat else 0%nat.

Lemma module_accounts `{UbiEnv} cur s st s' :
  fresh (ust s) → module_step (ust s) (Ret st) → with_callbacks cur st s = Ret s' → accounts None s s'.
Proof.
  intros Hf Hs Hr.
  assert (fresh st ∧ (∀ q, tally q st = (tally q (ust s) + plus_one None q)%nat) ∧ extends (ust s) st)
    as (Hf' & Ht & He).
  { unfold plus_one. remember (Ret st) as m eqn:Hm. revert Hf. clear Hr.
    destruct Hs as [st0 u Hu|st0 sc n Hsc|st0 l1 c l2 r Hp]; intros Hf; split.
    - eapply step_tally; [exact Hf|]. rewrite <- Hm. by constructor.
    - by destruct (destruct_gains _ _ _ Hm) as (_ & Ht & He).
    - eapply step_tally; [exact Hf|]. rewrite <- Hm. by constructor.
    - unfold ubi_shallow_copy_status_cb in Hm. inv_res. split; [|by exists []]. intros q. simpl.
      change (tally q (set_status _ _ _)) with (tally q st0). lia.
    - eapply step_tally; [exact Hf|]. rewrite <- Hm. by econstructor.
    - destruct (reply_tally _ _ _ _ _ _ Hp Hm) as (_ & Ht & He). split; [|done]. intros q. rewrite Ht. simpl. lia. }
  exact (with_callbacks_accounts cur s s' st None Hf' Ht He Hr).
Qed.

Lemma step_accounted `{UbiEnv, SpdkJson} s s' : accounted s → rpc_step s (Ret s') → accounted s'.
Proof.
  intros [Hf Ht] Hs. remember (Ret s') as m eqn:Hm.
  destruct Hs as [s m' params|s st Hst|s l1 rq l2 e Hd].
  - apply handler_accounts in Hm as [Hf' Hn Ht']; [|done]. split; [done|]. intros rq. rewrite Ht', Hn.
    change (total rq (s <| next_request ::= S |>)) with (total rq s). rewrite Ht, one_for_eqb. simpl.
    destruct (Nat.ltb_spec rq (next_request s)), (Nat.ltb_spec rq (S (next_request s))),
      (Nat.eqb_spec rq (next_request s)); lia.
  - destruct (module_accounts _ _ _ _ Hf Hst Hm) as [Hf' Hn Ht']. split; [done|]. intros rq.
    rewrite Ht', Hn, Ht. unfold one_for. case_bool_decide; [congruence|lia].
  - injection Hm as <-. destruct (delete_cb_sends rq e (s <| deleting := l1 ++ l2 |>)) as [r ->].
    split; [done|]. intros rq'. rewrite total_respond. rewrite <- Ht. unfold total, outstanding, one_for. rewrite Hd.
    change (for_request (s <| deleting := _ |>)) with (for_request s).
    change (sent rq' (s <| deleting := _ |>)) with (sent rq' s). simpl. rewrite !countb_app. simpl.
    repeat case_bool_decide; simplify_eq; lia.
Qed.

(** C3. Every request of a client is answered exactly once. In any execution of the
    four methods, the ubi module and SPDK that stays defined, with requests and replies
    in any order, each request received so far either has one call under way (a
    blobstore call of its creation or snapshot, or the unregistration of its device)
    and no response, or nothing under way and exactly one response; nothing is sent
    for a request that was not received. *)
Theorem rpc_answered_once `{UbiEnv, SpdkJson} s rq :
  rpc_run init_rpc s →
  if (rq <? next_request s)%nat
  then (outstanding rq s = 1%nat ∧ sent rq s = 0%nat) ∨ (outstanding rq s = 0%nat ∧ sent rq s = 1%nat)
  else outstanding rq s = 0%nat ∧ sent rq s = 0%nat.
Proof.
  intros Hr. assert (accounted s) as [_ Ht].
  { remember init_rpc as s0 eqn:E. assert (accounted s0) as Ha.
    { subst s0. split; [apply init_fresh|]. intros q. by destruct q. }
    clear E. induction Hr as [|s s1 s2 Hs _ IH]; [done|]. apply IH. by eapply step_accounted. }
  specialize (Ht rq). unfold total in Ht. destruct (rq <? next_request s)%nat; lia.
Qed.

(** *** A decoder *)

(** The decoder that stores all or nothing. *)
Definition plain_entry (ds : list spdk_json_object_decoder) (p : string * json_val) : option (field * json_val) :=
  match find (λ d, String.eqb (d_name d) p.1 && accepts (d_fn d) p.2) ds with
  | Some d => Some (d_field d, p.2) | None => None end.

Definition plain_decode (params : option json_obj) (ds : list spdk_json_object_decoder)
  : Z * list (field * json_val) :=
  match params with
  | None => (-1, [])
  | Some ps =>
      match mapM (plain_entry ds) ps with
      | Some l =>
          if bool_decide (NoDup ps.*1) &&
             forallb (λ d, d_optional d || bool_decide (d_name d ∈ ps.*1)) ds
          then (0, l) else (-22, [])
      | None => (-22, [])
      end
  end.

#[export] Instance plain_json : SpdkJson := {| spdk_json_decode_object := plain_decode |}.

Lemma plain_entry_decodes ds p f : plain_entry ds p = Some f → decodes ds p f.
Proof.
  unfold plain_entry. destruct (find _ ds) as [d|] eqn:Hd; [|done]. intros [= <-].
  apply find_some in Hd as [Hin Hd]. apply andb_prop in Hd as [Hn Ha]. apply String.eqb_eq in Hn.
  exists d. split; [by apply list_elem_of_In|]. done.
Qed.

Lemma plain_decode_ok ps ds l :
  plain_decode (Some ps) ds = (0, l) →
  NoDup ps.*1 ∧ Forall2 (decodes ds) ps l ∧ ∀ d, d ∈ ds → d_optional d = false → d_name d ∈ ps.*1.
Proof.
  simpl. destruct (mapM (plain_entry ds) ps) as [l'|] eqn:Hm; [|done].
  case_bool_decide as Hnd; [simpl|done]. destruct (forallb _ ds) eqn:Hreq; [|done]. intros [= <-].
  split; [done|]. split.
  - apply mapM_Some in Hm. eapply Forall2_impl; [|exact Hm]. intros p f. apply plain_entry_decodes.
  - intros d Hd Ho. rewrite forallb_forall in Hreq. apply list_elem_of_In in Hd. specialize (Hreq d Hd).
    rewrite Ho in Hreq. simpl in Hreq. by apply bool_decide_eq_true in Hreq.
Qed.

#[export] Instance plain_json_laws : SpdkJsonLaws.
Proof. split; [done|exact plain_decode_ok]. Qed.

(** *** The witness: a creation that is still under way *)

Definition rpc_defined (m : res rpc_state) : bool := match m with Ret _ => true | Undef => false end.
Definition rpc_ret_of (m : res rpc_state) : rpc_state := match m with Ret s => s | Undef => init_rpc end.

Lemma rpc_ret_of_eq m : rpc_defined m = true → m = Ret (rpc_ret_of m).
Proof. by destruct m. Qed.

Definition demo_params : json_obj :=
  [("name", JString "ubi0"); ("image_path", JString "/opt/image.raw"); ("base_bdev", JString "aio0");
   ("snapshot_path", JString "/snap"); ("directio", JBool false)]%string.

Definition demo_rpc : rpc_state :=
  rpc_ret_of (@rpc_bdev_ubi_create demo_ubi_env plain_json 0 (Some demo_params) (init_rpc <| next_request ::= S |>)).

Lemma demo_rpc_eq :
  @rpc_bdev_ubi_create demo_ubi_env plain_json 0 (Some demo_params) (init_rpc <| next_request ::= S |>) = Ret demo_rpc.
Proof. apply rpc_ret_of_eq. vm_compute. reflexivity. Qed.

Lemma demo_rpc_run : @rpc_run demo_ubi_env plain_json init_rpc demo_rpc.
Proof.
  eapply rrun_step; [|apply rrun_refl]. rewrite <- demo_rpc_eq.
  apply (@rstep_request demo_ubi_env plain_json init_rpc MCreate (Some demo_params)).
Qed.

Lemma rpc_answered_once_witness :
  (outstanding 0 demo_rpc = 1%nat ∧ sent 0 demo_rpc = 0%nat) ∨
  (outstanding 0 demo_rpc = 0%nat ∧ sent 0 demo_rpc = 1%nat).
Proof. exact (@rpc_answered_once demo_ubi_env plain_json demo_rpc 0 demo_rpc_run). Defined.

(** ** Creation passes on what the client asked for *)

Definition member (k : string) (ps : json_obj) : option json_val :=
  match find (λ p, String.eqb p.1 k) ps with Some p => Some p.2 | None => None end.

Definition string_of (v : json_val) : option (option string) := match v with JString s => Some (Some s) | _ => None end.
Definition bool_of (v : json_val) : option bool := match v with JBool b => Some b | _ => None end.

(** The value of a member, or a default. *)
Definition member_or {A} (sel : json_val → option A) (k : string) (dflt : A) (ps : json_obj) : A :=
  match member k ps with Some v => default dflt (sel v) | None => dflt end.

Lemma member_cons k p ps : member k (p :: ps) = if String.eqb p.1 k then Some p.2 else member k ps.
Proof. unfold member. simpl. by destruct (String.eqb p.1 k). Qed.

Lemma member_absent k ps : k ∉ ps.*1 → member k ps = None.
Proof.
  induction ps as [|p ps IH]; [done|]. rewrite member_cons. cbn [fmap list_fmap]. intros Hk.
  apply not_elem_of_cons in Hk as [Hne Hk]. destruct (String.eqb_spec p.1 k); [congruence|]. by apply IH.
Qed.

(** A field of the structure after decoding is the member its decoder names. *)
Lemma decoded_field {R A} ds (store : R → field * json_val → R) (proj : R → A) sel k :
  (∀ d v r, d ∈ ds → accepts (d_fn d) v = true →
    proj (store r (d_field d, v)) = if String.eqb (d_name d) k then default (proj r) (sel v) else proj r) →
  ∀ ps l r, NoDup ps.*1 → Forall2 (decodes ds) ps l →
    proj (foldl store r l) = member_or sel k (proj r) ps.
Proof.
  intros Hstore ps l r Hnd Hf. revert r. induction Hf as [|p [f v] ps l Hd Hf IH]; intros r; [done|].
  cbn [fmap list_fmap] in Hnd. inversion Hnd as [|? ? Hnp Hnd']; subst. cbn [foldl]. rewrite (IH Hnd').
  destruct Hd as (d & Hin & Hn & Hfd & Ha & Hv). simpl in Hfd, Hv. subst f v. rewrite Hstore by done.
  unfold member_or. rewrite member_cons, Hn. destruct (String.eqb_spec p.1 k) as [<-|]; [|done].
  by rewrite member_absent.
Qed.

(** Every decoder of the table, one by one. *)
Ltac each_decoder := intros d v r Hd; repeat (apply elem_of_cons in Hd as [->|Hd]);
  [..|by apply elem_of_nil in Hd]; destruct v; done.

(** A required string is there. *)
Lemma required_string ps l k f :
  Forall2 (decodes rpc_construct_ubi_decoders) ps l →
  mkDecoder k f spdk_json_decode_string false ∈ rpc_construct_ubi_decoders → k ∈ ps.*1 →
  ∃ x, member_or string_of k None ps = Some x.
Proof.
  intros Hf Hin Hk. induction Hf as [|p [f' v] ps l Hd Hf IH]; [by apply elem_of_nil in Hk|].
  unfold member_or. rewrite member_cons. destruct (String.eqb_spec p.1 k) as [<-|Hne].
  - destruct Hd as (d & Hdin & Hn & _ & Ha & _). simpl in *.
    assert (d_fn d = spdk_json_decode_string) as Hs.
    { revert Hin Hn. repeat (apply elem_of_cons in Hdin as [->|Hdin]); [..|by apply elem_of_nil in Hdin];
        intros Hin Hn; try done; exfalso; simpl in Hn; rewrite <- Hn in Hin;
        repeat (apply elem_of_cons in Hin as [Heq|Hin]; [discriminate Heq|]); by apply elem_of_nil in Hin. }
    rewrite Hs in Ha. destruct p as [k [s| | |]]; try discriminate Ha. by exists s.
  - cbn [fmap list_fmap] in Hk. apply elem_of_cons in Hk as [Hk|Hk]; [congruence|]. by apply IH.
Qed.

(** The options a client's parameters stand for. *)
Definition requested_opts (name image base : string) (ps : json_obj) : spdk_ubi_bdev_opts :=
  mkUbiOpts name image (member_or string_of "snapshot_path" None ps) base
    (member_or bool_of "no_sync" false ps) (member_or bool_of "directio" true ps)
    (member_or bool_of "format_bdev" true ps).

(** C13. A creation request whose parameters decode calls the ubi module with exactly
    the options the client gave: the three required strings are there, the optional
    ones that are left out have the handler's defaults (sync on, direct I/O on, format
    the base device, no snapshot), and the request is the argument of the callback. *)
Theorem rpc_create_passes_options `{UbiEnv, SpdkJsonLaws} rq ps l s :
  spdk_json_decode_object (Some ps) rpc_construct_ubi_decoders = (0, l) → calloc_ok (ust s) = true →
  ∃ name image base,
    member "name" ps = Some (JString name) ∧ member "image_path" ps = Some (JString image) ∧
    member "base_bdev" ps = Some (JString base) ∧
    rpc_bdev_ubi_create rq (Some ps) s =
      let* st := request_create (Some (requested_opts name image base ps)) (ust s) in
      let* s' := with_callbacks rq st (s <| live ::= app (decoded_strings rq l) |>
                                         <| done_arg ::= <[next (ust s) := rq]> |>) in
      Ret (free_rpc_construct_ubi rq s').
Proof.
  intros Hdec Hca. destruct (decode_object_ok _ _ _ Hdec) as (Hnd & Hf & Hreq).
  assert (∀ k f, mkDecoder k f spdk_json_decode_string false ∈ rpc_construct_ubi_decoders →
    ∃ x, member_or string_of k None ps = Some x) as Hstr.
  { intros k f Hin. eapply required_string; [done|done|]. exact (Hreq _ Hin eq_refl). }
  destruct (Hstr "name"%string F_name) as [n Hn]; [left|].
  destruct (Hstr "image_path"%string F_image_path) as [i Hi]; [right; left|].
  destruct (Hstr "base_bdev"%string F_base_bdev_name) as [b Hb]; [right; right; left|].
  assert (∀ k x, member_or string_of k None ps = Some x → member k ps = Some (JString x)) as Hmem.
  { intros k x. unfold member_or. destruct (member k ps) as [[]|]; simpl; congruence. }
  exists n, i, b. split; [by apply Hmem|]. split; [by apply Hmem|]. split; [by apply Hmem|].
  unfold rpc_bdev_ubi_create. rewrite Hdec. cbn [Z.eqb negb].
  rewrite !(decoded_field rpc_construct_ubi_decoders store_construct r_name string_of "name" ltac:(each_decoder) ps l) by done.
  rewrite !(decoded_field rpc_construct_ubi_decoders store_construct r_image_path string_of "image_path" ltac:(each_decoder) ps l) by done.
  rewrite !(decoded_field rpc_construct_ubi_decoders store_construct r_base_bdev_name string_of "base_bdev" ltac:(each_decoder) ps l) by done.
  rewrite !(decoded_field rpc_construct_ubi_decoders store_construct r_snapshot_path string_of "snapshot_path" ltac:(each_decoder) ps l) by done.
  rewrite !(decoded_field rpc_construct_ubi_decoders store_construct r_no_sync bool_of "no_sync" ltac:(each_decoder) ps l) by done.
  rewrite !(decoded_field rpc_construct_ubi_decoders store_construct r_directio bool_of "directio" ltac:(each_decoder) ps l) by done.
  rewrite !(decoded_field rpc_construct_ubi_decoders store_construct r_format_bdev bool_of "format_bdev" ltac:(each_decoder) ps l) by done.
  simpl r_name. simpl r_image_path. simpl r_base_bdev_name. rewrite Hn, Hi, Hb. cbn [deref res_bind].
  change (calloc_ok (ust (s <| live ::= _ |>))) with (calloc_ok (ust s)). by rewrite Hca.
Qed.

Lemma rpc_create_passes_options_witness :
  ∃ opts, opts = mkUbiOpts "ubi0" "/opt/image.raw" (Some "/snap"%string) "aio0" false false true ∧
    @rpc_bdev_ubi_create demo_ubi_env plain_json 0 (Some demo_params) init_rpc =
      let* st := @request_create demo_ubi_env (Some opts) init_state in
      let* s' := @with_callbacks 0 st
        (init_rpc <| live ::= app [(0%nat, F_name); (0%nat, F_image_path); (0%nat, F_base_bdev_name);
                                   (0%nat, F_snapshot_path)] |> <| done_arg ::= <[0%nat := 0%nat]> |>) in
      Ret (free_rpc_construct_ubi 0 s').
Proof.
  destruct (@rpc_create_passes_options demo_ubi_env plain_json plain_json_laws 0 demo_params
    [(F_name, JString "ubi0"); (F_image_path, JString "/opt/image.raw"); (F_base_bdev_name, JString "aio0");
     (F_snapshot_path, JString "/snap"); (F_directio, JBool false)] init_rpc)
    as (n & i & b & Hn & Hi & Hb & Hr).
  - vm_compute. reflexivity.
  - reflexivity.
  - injection Hn as <-. injection Hi as <-. injection Hb as <-.
    eexists. split; [|exact Hr]. reflexivity.
Defined.

(** ** Long snapshot paths *)

(** C25. A snapshot request with a path of 1024 characters or more is accepted and
    overruns the name of the delta device. Neither the handler nor the module looks at
    the length: the request is taken on, the blob is snapshotted and cloned, and when
    the clone is decoupled [bs_dev_delta_create] copies the path into an array of 1024
    bytes. *)
Theorem rpc_long_path_overflows `{UbiEnv, SpdkJsonLaws} rq ps l s name path u b bs h r1 r2 r3 r4 r5 :
  spdk_json_decode_object (Some ps) rpc_snapshot_ubi_decoders = (0, l) →
  member "name" ps = Some (JString name) → member "path" ps = Some (JString path) →
  1024 <= Z.of_nat (String.length path) →
  bdev_get_by_name (ust s) name = Some u → ubis (ust s) !! u = Some b → blobstore b = Some bs →
  good_env → good_replies h r1 r2 r3 r4 → bserrno r5 = 0 →
  ∃ s1 st4, rpc_bdev_ubi_snapshot rq (Some ps) s = Ret s1 ∧ responses s1 = responses s ∧
    chain [r1; r2; r3; r4] (ust s1) = Ret st4 ∧
    pending st4 = CallDecouple (next (ust s)) :: pending (ust s) ∧ chain [r5] st4 = Undef.
Proof.
  intros Hdec Hname Hpath Hlen Hn Hb Hbs Hge Hgr He5. destruct (decode_object_ok _ _ _ Hdec) as (Hnd & Hf & _).
  assert (path ≠ EmptyString) as Hne by (intros ->; simpl in Hlen; lia).
  destruct (snapshot_cloned name path (ust s) u b h r1 r2 r3 r4 Hn Hb Hne Hge Hgr)
    as (st0 & st1 & Hreq & Hlog & Hch & Hpe & _ & Hub & _ & Hct).
  unfold rpc_bdev_ubi_snapshot. rewrite Hdec. cbn [Z.eqb negb].
  rewrite (decoded_field rpc_snapshot_ubi_decoders store_snapshot sn_name string_of "name" ltac:(each_decoder) ps l) by done.
  rewrite (decoded_field rpc_snapshot_ubi_decoders store_snapshot sn_path string_of "path" ltac:(each_decoder) ps l) by done.
  unfold member_or. rewrite Hname, Hpath. cbn [default string_of Datatypes.id deref res_bind].
  change (ust (s <| live ::= _ |>)) with (ust s). rewrite Hreq, Hn. cbn [res_bind].
  unfold with_callbacks. simpl ust. rewrite Hlog. simpl length. rewrite Nat.sub_succ_l, Nat.sub_diag by done.
  do 2 eexists. split; [simpl; reflexivity|]. split; [done|]. split; [exact Hch|].
  split; [simpl; by rewrite Hpe|]. rewrite chain_await, (decouple_overflow _ u (cloned u path r1 r2) b st1 r5 bs path); try done.
  - split; [rewrite Hct; apply lookup_insert_eq|done|by rewrite Hub].
  - apply Hge.
Qed.

(** [k] letters. *)
Fixpoint letters (k : nat) : string := match k with O => EmptyString | S k => String "a"%char (letters k) end.

Lemma length_letters k : String.length (letters k) = k.
Proof. induction k as [|k IH]; simpl; by rewrite ?IH. Qed.

Lemma rpc_long_path_overflows_witness :
  ∃ s1 st4, @rpc_bdev_ubi_snapshot demo_ubi_env plain_json 5
      (Some [("name"%string, JString "ubi0"); ("path"%string, JString (letters 1024))])
      (init_rpc <| ust := demo_created |>) = Ret s1 ∧
    @chain demo_ubi_env [mkReply 0 None 11; mkReply 0 None 12; mkReply 0 (Some 13%nat) 0; mkReply 0 None 0] (ust s1)
      = Ret st4 ∧ @chain demo_ubi_env [mkReply 0 None 0] st4 = Undef.
Proof.
  destruct demo_device as (b & Hb & _ & Hbs).
  destruct (@rpc_long_path_overflows demo_ubi_env plain_json plain_json_laws 5
    [("name"%string, JString "ubi0"); ("path"%string, JString (letters 1024))]
    [(F_name, JString "ubi0"); (F_path, JString (letters 1024))] (init_rpc <| ust := demo_created |>)
    "ubi0" (letters 1024) 1 b 7 13 (mkReply 0 None 11) (mkReply 0 None 12) (mkReply 0 (Some 13%nat) 0)
    (mkReply 0 None 0) (mkReply 0 None 0)) as (s1 & st4 & Hr & _ & Hc & _ & Hu).
  - reflexivity.
  - reflexivity.
  - reflexivity.
  - rewrite length_letters. lia.
  - vm_compute. reflexivity.
  - exact Hb.
  - exact Hbs.
  - exact demo_good_env.
  - apply demo_good_replies.
  - reflexivity.
  - exists s1, st4. exact (conj Hr (conj Hc Hu)).
Defined.

(** ** Saved configurations *)

(** The parameters a device writes for itself, as a JSON object. *)
Definition config_params (b : ubi_bdev) : json_obj := (λ p, (p.1, JString p.2)) <$> (ubi_write_config_json b).2.

(** C34. The configuration a device writes for itself cannot be loaded again: it names
    the method [bdev_ubi_create] and leaves out the required [base_bdev], so the
    handler refuses it as malformed, for any device, and creates nothing. *)
Theorem rpc_config_reload_fails `{UbiEnv, SpdkJsonLaws} b rq s :
  (ubi_write_config_json b).1 = "bdev_ubi_create"%string ∧
  ∃ s', rpc_bdev_ubi_create rq (Some (config_params b)) s = Ret s' ∧ ust s' = ust s ∧
        responses s' = (rq, RespError SPDK_JSONRPC_ERROR_INTERNAL_ERROR
                              (MsgText "spdk_json_decode_object failed")) :: responses s.
Proof.
  split; [done|]. unfold rpc_bdev_ubi_create.
  destruct (spdk_json_decode_object _ _) as [rc l] eqn:Hdec. destruct (Z.eqb_spec rc 0) as [->|]; simpl.
  - exfalso. destruct (decode_object_ok _ _ _ Hdec) as (_ & _ & Hreq).
    specialize (Hreq (mkDecoder "base_bdev" F_base_bdev_name spdk_json_decode_string false)).
    assert ("base_bdev"%string ∈ (config_params b).*1) as Hin; [apply Hreq; [right; right; left|done]|].
    simpl in Hin. apply elem_of_cons in Hin as [Hin|Hin]; [done|].
    apply elem_of_cons in Hin as [Hin|Hin]; [done|]. by apply elem_of_nil in Hin.
  - by eexists.
Qed.

Lemma rpc_config_reload_fails_witness :
  ∃ b s', ubis demo_created !! 1%nat = Some b ∧
    @rpc_bdev_ubi_create demo_ubi_env plain_json 3 (Some (config_params b)) init_rpc = Ret s' ∧ ust s' = init_state.
Proof.
  destruct demo_device as (b & Hb & _).
  destruct (@rpc_config_reload_fails demo_ubi_env plain_json plain_json_laws b 3 init_rpc) as (_ & s' & Hr & Hu & _).
  exists b, s'. exact (conj Hb (conj Hr Hu)).
Defined.

(** ** Decoded strings *)

Lemma live_free rq f s x : x ∈ live (free_field rq f s) ↔ x ≠ (rq, f) ∧ x ∈ live s.
Proof. unfold free_field. simpl. by rewrite list_elem_of_filter. Qed.

Lemma run_callbacks_live `{UbiEnv} cur evs s s' : run_callbacks cur evs s = Ret s' → live s' = live s.
Proof.
  revert s. induction evs as [|e evs IH]; intros s Hr; simpl in Hr; [by injection Hr as <-|].
  apply res_bind_Ret in Hr as (s1 & H1 & Hr). rewrite (IH _ Hr). clear IH Hr.
  destruct e; simpl in H1; try by injection H1 as <-.
  - destruct (done_arg s !! ctx); [|by injection H1 as <-].
    by destruct (create_done_sends _ _ _ _ _ H1) as [r ->].
  - destruct (cb_arg s !! sc) as [rq|]; injection H1 as <-; [|done].
    by destruct (snapshot_cb_sends rq rc s) as [r ->].
  - injection H1 as <-. by destruct (snapshot_cb_sends cur rc s) as [r ->].
  - injection H1 as <-. by destruct (delete_cb_sends cur rc s) as [r ->].
Qed.

Lemma decoded_string_live rq l f : (rq, f) ∈ decoded_strings rq l ↔ ∃ x, (f, JString x) ∈ l.
Proof.
  unfold decoded_strings. rewrite list_elem_of_fmap. split.
  - intros ([f' v] & [= ->] & Hin). apply list_elem_of_filter in Hin as [Hs Hin]. destruct v; try done. by eexists.
  - intros [x Hx]. exists (f, JString x). split; [done|]. by rewrite list_elem_of_filter.
Qed.

(** A string is stored by a decoder of strings. *)
Lemma decoded_string_field ds ps l f :
  Forall2 (decodes ds) ps l → (∃ x, (f, JString x) ∈ l) →
  Exists (λ d, d_field d = f ∧ d_fn d = spdk_json_decode_string) ds.
Proof.
  intros Hf [x Hx]. apply list_elem_of_lookup in Hx as [i Hi].
  destruct (Forall2_lookup_r _ _ _ _ _ Hf Hi) as ([k v] & _ & d & Hd & _ & Hfd & Ha & Hv). simpl in *. subst v.
  apply Exists_exists. exists d. split; [by apply list_elem_of_In|]. split; [done|]. by destruct (d_fn d).
Qed.

(** What a method leaves of the strings it decoded. *)
Definition kept (m : method) (f : field) : bool :=
  match m, f with MCreate, F_snapshot_path | MSnapshotStatus, F_name => true | _, _ => false end.

Definition decoders (m : method) : list spdk_json_object_decoder :=
  match m with
  | MCreate => rpc_construct_ubi_decoders
  | MDelete => rpc_delete_ubi_decoders
  | MSnapshot => rpc_snapshot_ubi_decoders
  | MSnapshotStatus => rpc_snapshot_ubi_status_decoders
  end.

(** One field at a time, whether it was stored or not. *)
Ltac by_field f Hstr :=
  clear -Hstr; revert Hstr;
  match goal with |- (?Q → _) → _ => generalize Q end; intros Q Hstr; destruct f; simpl; intuition congruence.

(** C35. Which decoded strings a handled request leaves allocated, when its parameters
    decode: a creation frees its name, image path and base device but never the
    snapshot path; deletion and snapshot free all their strings; the status method
    never frees the name. *)
Theorem rpc_strings_left `{UbiEnv, SpdkJsonLaws} m rq ps l s s' f :
  spdk_json_decode_object (Some ps) (decoders m) = (0, l) → (∀ f, (rq, f) ∉ live s) →
  handler m rq (Some ps) s = Ret s' →
  (rq, f) ∈ live s' ↔ kept m f = true ∧ ∃ x, (f, JString x) ∈ l.
Proof.
  intros Hdec Hno Hr. destruct (decode_object_ok _ _ _ Hdec) as (_ & Hf & _).
  assert (∀ s1, live s1 = decoded_strings rq l ++ live s → (rq, f) ∈ live s1 ↔ ∃ x, (f, JString x) ∈ l) as Hlive.
  { intros s1 ->. rewrite elem_of_app, decoded_string_live. specialize (Hno f). tauto. }
  pose proof (decoded_string_field (decoders m) ps l f Hf) as Hstr.
  destruct m; simpl in Hr, Hdec, Hf; unfold decoders, rpc_construct_ubi_decoders, rpc_delete_ubi_decoders,
    rpc_snapshot_ubi_decoders, rpc_snapshot_ubi_status_decoders in Hstr; rewrite !Exists_cons, Exists_nil in Hstr; simpl in Hstr;
    unfold rpc_bdev_ubi_create, rpc_bdev_ubi_delete, rpc_bdev_ubi_snapshot,
    rpc_bdev_ubi_snapshot_status in Hr; rewrite Hdec in Hr; cbn [Z.eqb negb] in Hr; inv_res;
    repeat match goal with
    | Hw : with_callbacks _ _ _ = Ret _ |- _ => apply run_callbacks_live in Hw
    end.
  - unfold free_rpc_construct_ubi. rewrite !live_free, Hlive by done. by_field f Hstr.
  - rewrite live_free, Hlive by (by destruct (_ =? _)). by_field f Hstr.
  - rewrite !live_free, Hlive by (by destruct (bdev_get_by_name _ _)). by_field f Hstr.
  - destruct (bdev_get_by_name _ _); inv_res; rewrite Hlive by done; by_field f Hstr.
Qed.

Lemma rpc_strings_left_witness : (0%nat, F_snapshot_path) ∈ live demo_rpc.
Proof.
  apply (@rpc_strings_left demo_ubi_env plain_json plain_json_laws MCreate 0 demo_params
    [(F_name, JString "ubi0"); (F_image_path, JString "/opt/image.raw"); (F_base_bdev_name, JString "aio0");
     (F_snapshot_path, JString "/snap"); (F_directio, JBool false)] (init_rpc <| next_request ::= S |>)).
  - vm_compute. reflexivity.
  - intros f Hin. inversion Hin.
  - exact demo_rpc_eq.
  - split; [reflexivity|]. exists "/snap"%string. right. right. right. left.
Defined.
